(** * PigeonKeeper: a DAG task orchestrator

    Shallow embedding of [lib/digraph.js], [lib/vertex.js] and
    [lib/pigeonkeeper.js], and the properties of the scheduler proved on it.

    Conventions of the embedding
    - a JavaScript array is a [list], in the same order (push appends at the
      end, pop takes the last element);
    - [Array.prototype.indexOf] returns [option nat]: [None] stands for -1;
    - an array read that JavaScript answers with [undefined] is [None];
    - a function that may throw returns an [outcome]; a function that also
      mutates the object it belongs to is a computation of the monad [M],
      which keeps the store reached when the exception was thrown. *)

From Stdlib Require Import String ZArith Lia Bool Arith List Permutation.
Import ListNotations.
Open Scope string_scope.
Open Scope list_scope.

(** ** JavaScript values, errors and outcomes *)

(** The states of [VALID_STATES], as an enumeration. *)
Inductive State : Type := NOT_READY | READY | IN_PROGRESS | SUCCESS | FAIL.

Definition VALID_STATES : list string :=
  ["NOT_READY"; "READY"; "IN_PROGRESS"; "SUCCESS"; "FAIL"].

Definition state_name (s : State) : string :=
  match s with
  | NOT_READY => "NOT_READY"
  | READY => "READY"
  | IN_PROGRESS => "IN_PROGRESS"
  | SUCCESS => "SUCCESS"
  | FAIL => "FAIL"
  end.

Definition State_eqb (a b : State) : bool :=
  match a, b with
  | NOT_READY, NOT_READY | READY, READY | IN_PROGRESS, IN_PROGRESS
  | SUCCESS, SUCCESS | FAIL, FAIL => true
  | _, _ => false
  end.

(** Opaque payloads ([data], [sharedData], [results]). *)
Inductive JsVal : Type :=
| JUndefined
| JNull
| JStr (s : string)
| JObj (fields : list (string * string)).

(** What a [throw] carries: [new Error(message)] or the engine's TypeError. *)
Inductive JsError : Type :=
| Error (message : string)
| TypeError (message : string).

Inductive outcome (A : Type) : Type :=
| Return (a : A)
| Throw (e : JsError)
| OutOfFuel.

Arguments Return {A} a.
Arguments Throw {A} e.
Arguments OutOfFuel {A}.

(** State and exception monad over a store [St]. *)
Definition M (St A : Type) : Type := St -> outcome A * St.

Definition ret {St A} (a : A) : M St A := fun s => (Return a, s).

Definition throw {St A} (e : JsError) : M St A := fun s => (Throw e, s).

Definition bind {St A B} (m : M St A) (k : A -> M St B) : M St B :=
  fun s =>
    match m s with
    | (Return a, s') => k a s'
    | (Throw e, s') => (Throw e, s')
    | (OutOfFuel, s') => (OutOfFuel, s')
    end.

Definition get {St} : M St St := fun s => (Return s, s).

Definition gets {St A} (f : St -> A) : M St A := fun s => (Return (f s), s).

Definition modify {St} (f : St -> St) : M St unit := fun s => (Return tt, f s).

Definition liftO {St A} (f : St -> outcome A) : M St A := fun s => (f s, s).

Declare Scope js_scope.
Delimit Scope js_scope with js.
Notation "x <- m ;; k" := (bind m (fun x => k))
  (at level 61, m at next level, right associativity) : js_scope.
Notation "m ;;; k" := (bind m (fun _ => k))
  (at level 61, right associativity) : js_scope.
Open Scope js_scope.

(** [for (i = from; i < from + count; i++) body(i)] *)
Fixpoint forRange {St} (from count : nat) (body : nat -> M St unit) : M St unit :=
  match count with
  | O => ret tt
  | S count' => body from ;;; forRange (S from) count' body
  end.

(** ** Arrays *)

(** [arr.indexOf(x)] on an array of strings. *)
Fixpoint indexOf (x : string) (arr : list string) : option nat :=
  match arr with
  | [] => None
  | y :: rest =>
      if String.eqb y x then Some 0
      else match indexOf x rest with
           | Some i => Some (S i)
           | None => None
           end
  end.

(** [arr.splice(i, 1)] *)
Fixpoint splice1 {A} (i : nat) (arr : list A) {struct arr} : list A :=
  match arr, i with
  | [], _ => []
  | _ :: rest, O => rest
  | y :: rest, S i' => y :: splice1 i' rest
  end.

(** [arr.pop()]: the last element and the array without it. *)
Definition pop {A} (arr : list A) : option (A * list A) :=
  match rev arr with
  | [] => None
  | x :: r => Some (x, rev r)
  end.

(** [arr[i] = x] for an index inside the array. *)
Fixpoint setNth {A} (i : nat) (x : A) (arr : list A) {struct arr} : list A :=
  match arr, i with
  | [], _ => []
  | _ :: rest, O => x :: rest
  | y :: rest, S i' => y :: setNth i' x rest
  end.

(** ** Vertex (lib/vertex.js)

    A vertex is an EventEmitter: [startListener] tells whether the one-shot
    listener that [PigeonKeeper.addVertex] registers for the event
    [pkGuid + ":start"] is still in place. *)
Record Vertex : Type := mkVertex {
  v_id : string;
  v_state : State;
  v_data : JsVal;
  startListener : bool
}.

Definition Vertex_withState (v : Vertex) (s : State) : Vertex :=
  mkVertex (v_id v) s (v_data v) (startListener v).

Definition Vertex_withData (v : Vertex) (d : JsVal) : Vertex :=
  mkVertex (v_id v) (v_state v) d (startListener v).

Definition Vertex_withListener (v : Vertex) (b : bool) : Vertex :=
  mkVertex (v_id v) (v_state v) (v_data v) b.

(** ** Digraph (lib/digraph.js) *)

Record Digraph : Type := mkDigraph {
  vertexArray : list Vertex;
  vertexIdArray : list string;
  vertexStateArray : list State;
  startVertexIdArray : list string;
  endVertexIdArray : list string
}.

Definition emptyDigraph : Digraph := mkDigraph [] [] [] [] [].

Definition G (A : Type) : Type := M Digraph A.

Definition withEdges (g : Digraph) (starts ends : list string) : Digraph :=
  mkDigraph (vertexArray g) (vertexIdArray g) (vertexStateArray g) starts ends.

Definition withVertexArray (g : Digraph) (vs : list Vertex) : Digraph :=
  mkDigraph vs (vertexIdArray g) (vertexStateArray g)
            (startVertexIdArray g) (endVertexIdArray g).

(** The edges, read off the two parallel arrays: entry [i] of the one with
    entry [i] of the other. *)
Definition edges (g : Digraph) : list (string * string) :=
  combine (startVertexIdArray g) (endVertexIdArray g).

Definition hasVertexId (g : Digraph) (vertexId : string) : bool :=
  match indexOf vertexId (vertexIdArray g) with
  | Some _ => true
  | None => false
  end.

Definition addVertex (id : string) (data : JsVal) : G Vertex :=
  fun g =>
    match indexOf id (vertexIdArray g) with
    | Some _ => (Throw (Error "Duplicate Vertex ID"), g)
    | None =>
        let newVertex := mkVertex id NOT_READY data false in
        (Return newVertex,
         mkDigraph (vertexArray g ++ [newVertex])
                   (vertexIdArray g ++ [id])
                   (vertexStateArray g ++ [NOT_READY])
                   (startVertexIdArray g) (endVertexIdArray g))
    end.

(** The loop of [addEdge] and [removeEdge]: the first [i] with
    [startVertexIdArray[i] == s && endVertexIdArray[i] == e]. *)
Fixpoint findEdge (s e : string) (starts ends : list string) : option nat :=
  match starts, ends with
  | s' :: starts', e' :: ends' =>
      if String.eqb s' s && String.eqb e' e then Some 0
      else match findEdge s e starts' ends' with
           | Some i => Some (S i)
           | None => None
           end
  | _, _ => None
  end.

Definition addEdge (startVertexId endVertexId : string) : G unit :=
  fun g =>
    match indexOf startVertexId (vertexIdArray g) with
    | None => (Throw (Error "Start Vertex Not Found"), g)
    | Some _ =>
        match indexOf endVertexId (vertexIdArray g) with
        | None => (Throw (Error "End Vertex Not Found"), g)
        | Some _ =>
            if String.eqb startVertexId endVertexId
            then (Throw (Error "Loops Not Allowed"), g)
            else
              match findEdge startVertexId endVertexId
                             (startVertexIdArray g) (endVertexIdArray g) with
              | Some _ => (Throw (Error "Edge Already Exists"), g)
              | None =>
                  (Return tt,
                   withEdges g (startVertexIdArray g ++ [startVertexId])
                               (endVertexIdArray g ++ [endVertexId]))
              end
        end
    end.

(** [vertexIdArray.index(vertexId)]: arrays have no method [index], so the
    call itself throws. *)
Definition Array_index (arr : list string) (x : string) : outcome (option nat) :=
  Throw (TypeError "vertexIdArray.index is not a function").

(** The loop of [removeVertex] that drops the edges touching [vertexId],
    from the last index down to 0. *)
Fixpoint dropIncident (vertexId : string) (starts ends : list string)
  : list string * list string :=
  match starts, ends with
  | s :: starts', e :: ends' =>
      let (ss, es) := dropIncident vertexId starts' ends' in
      if String.eqb s vertexId || String.eqb e vertexId
      then (ss, es)
      else (s :: ss, e :: es)
  | _, _ => (starts, ends)
  end.

Definition removeVertex (vertexId : string) : G unit :=
  found <- liftO (fun g => Array_index (vertexIdArray g) vertexId) ;;
  match found with
  | None => throw (Error "Vertex Not Found")
  | Some _ =>
      fun g =>
        match indexOf vertexId (vertexIdArray g) with
        | None => (Return tt, g)
        | Some vertexIndex =>
            let (ss, es) :=
              dropIncident vertexId (startVertexIdArray g) (endVertexIdArray g) in
            (Return tt,
             mkDigraph (splice1 vertexIndex (vertexArray g))
                       (splice1 vertexIndex (vertexIdArray g))
                       (splice1 vertexIndex (vertexStateArray g))
                       ss es)
        end
  end.

Definition removeEdge (startVertexId endVertexId : string) : G unit :=
  fun g =>
    match findEdge startVertexId endVertexId
                   (startVertexIdArray g) (endVertexIdArray g) with
    | None => (Throw (Error "Edge Doesn't Exist"), g)
    | Some edgeIndex =>
        (Return tt,
         withEdges g (splice1 edgeIndex (startVertexIdArray g))
                     (splice1 edgeIndex (endVertexIdArray g)))
    end.

(** [vertexArray[vertexIdArray.indexOf(id)]] *)
Definition vertexOfId (g : Digraph) (id : string) : option Vertex :=
  match indexOf id (vertexIdArray g) with
  | Some i => nth_error (vertexArray g) i
  | None => None
  end.

Definition getChildVertices (g : Digraph) (parentVertexId : string)
  : list (option Vertex) :=
  map (fun se => vertexOfId g (snd se))
      (filter (fun se => String.eqb (fst se) parentVertexId) (edges g)).

(** Reading [.id] of each parent while the list is built throws on a
    parent that is not in the vertex arrays. *)
Fixpoint idsOf (vs : list (option Vertex)) : outcome (list string) :=
  match vs with
  | [] => Return []
  | None :: _ => Throw (TypeError "Cannot read properties of undefined (reading 'id')")
  | Some v :: rest =>
      match idsOf rest with
      | Return ids => Return (v_id v :: ids)
      | other => other
      end
  end.

Definition getParentVertices (g : Digraph) (childVertexId : string)
  : list (option Vertex) :=
  map (fun se => vertexOfId g (fst se))
      (filter (fun se => String.eqb (snd se) childVertexId) (edges g)).

Definition getParentVertexIds (g : Digraph) (childVertexId : string)
  : outcome (list string) :=
  idsOf (getParentVertices g childVertexId).

Definition indegree (g : Digraph) (vertexId : string) : nat :=
  length (filter (fun se => String.eqb (snd se) vertexId) (edges g)).

Definition outdegree (g : Digraph) (vertexId : string) : nat :=
  length (filter (fun se => String.eqb (fst se) vertexId) (edges g)).

Definition getVerticesWithIndegree0 (g : Digraph) : list Vertex :=
  filter (fun v => match indexOf (v_id v) (endVertexIdArray g) with
                   | None => true
                   | Some _ => false
                   end)
         (vertexArray g).

Definition getVertex (g : Digraph) (vertexId : string) : outcome Vertex :=
  match indexOf vertexId (vertexIdArray g) with
  | None => Throw (Error "Vertex Not Found")
  | Some vertexIndex =>
      match nth_error (vertexArray g) vertexIndex with
      | Some v => Return v
      | None => Throw (TypeError "vertex is undefined")
      end
  end.

Definition vertexCount (g : Digraph) : nat := length (vertexArray g).

Definition edgeCount (g : Digraph) : nat := length (startVertexIdArray g).

(** [getVertexIds] copies [vertexIdArray[i]] for [i < vertexArray.length]. *)
Definition getVertexIds (g : Digraph) : list string :=
  firstn (length (vertexArray g)) (vertexIdArray g).

(** [getEdgeInfo] and [setEdgeInfo]: [clone] copies an array entry by entry. *)
Definition getEdgeInfo (g : Digraph) : list string * list string :=
  (startVertexIdArray g, endVertexIdArray g).

Definition setEdgeInfo (edgeInfo : list string * list string) : G unit :=
  modify (fun g => withEdges g (fst edgeInfo) (snd edgeInfo)).

(** The [for] loop of [topologicalSort] over the children [childNodes] of
    [n]; [Ss] is the array [S] of the source. Reading [m.id] of a child
    that is [undefined] throws. *)
Fixpoint visitChildren (n : Vertex) (childNodes : list (option Vertex))
         (Ss : list Vertex) : G (list Vertex) :=
  match childNodes with
  | [] => ret Ss
  | None :: _ =>
      throw (TypeError "Cannot read properties of undefined (reading 'id')")
  | Some m :: rest =>
      removeEdge (v_id n) (v_id m) ;;;
      d <- gets (fun g => indegree g (v_id m)) ;;
      visitChildren n rest (if Nat.eqb d 0 then Ss ++ [m] else Ss)
  end.

(** The [while (S.length > 0)] loop of [topologicalSort]. *)
Fixpoint kahnLoop (fuel : nat) (Ss L : list Vertex) : G (list Vertex) :=
  match fuel with
  | O => fun g => (OutOfFuel, g)
  | S fuel' =>
      match pop Ss with
      | None => ret L
      | Some (n, Ss') =>
          childNodes <- gets (fun g => getChildVertices g (v_id n)) ;;
          Ss'' <- visitChildren n childNodes Ss' ;;
          kahnLoop fuel' Ss'' (L ++ [n])
      end
  end.

(** Every turn of the loop takes one vertex off [S] and pushes at most one
    vertex per removed edge, so [S.length + edgeCount() + 1] turns are
    enough ([kahnLoop_fuel] below). *)
Definition topologicalSort : G (list Vertex) :=
  edgeInfo <- gets getEdgeInfo ;;
  Ss <- gets getVerticesWithIndegree0 ;;
  fuel <- gets (fun g => length Ss + edgeCount g + 1) ;;
  L <- kahnLoop fuel Ss [] ;;
  remaining <- gets edgeCount ;;
  if Nat.ltb 0 remaining
  then setEdgeInfo edgeInfo ;;; ret []
  else setEdgeInfo edgeInfo ;;; ret L.

(** ** What a graph built through [addVertex] and [addEdge] satisfies *)

Record WF (g : Digraph) : Prop := mkWF {
  wf_ids : vertexIdArray g = map v_id (vertexArray g);
  wf_nodup : NoDup (vertexIdArray g);
  wf_parallel : length (startVertexIdArray g) = length (endVertexIdArray g);
  wf_endpoints : forall s e, In (s, e) (edges g) ->
                             In s (vertexIdArray g) /\ In e (vertexIdArray g);
  wf_simple : NoDup (edges g)
}.

(** A path of at least one edge. *)
Inductive path (E : list (string * string)) : string -> string -> Prop :=
| path_edge : forall a b, In (a, b) E -> path E a b
| path_step : forall a b c, In (a, b) E -> path E b c -> path E a c.

Definition has_cycle (g : Digraph) : Prop := exists v, path (edges g) v v.

(** [a] occurs before [b] in [l]. *)
Definition before (l : list string) (a b : string) : Prop :=
  exists l1 l2 l3, l = l1 ++ a :: l2 ++ b :: l3.

Definition vertexIdsFromArray (arr : list Vertex) : list string := map v_id arr.

(** ** Notions used in the proofs on [topologicalSort] *)

(** The vertex arrays are parallel and the ids are pairwise different. *)
Definition VOK (g : Digraph) : Prop :=
  vertexIdArray g = map v_id (vertexArray g) /\ NoDup (vertexIdArray g).

(** The ids of the children of [n], in the order of the edge arrays. *)
Definition childIds (E : list (string * string)) (n : string) : list string :=
  map snd (filter (fun se => String.eqb (fst se) n) E).

(** What holds at every turn of the [while] loop: [E] are the edges still
    in the arrays, [Ss] the array [S], [L] the output so far. *)
Record KahnInv (g0 : Digraph) (E : list (string * string))
       (Ss L : list Vertex) : Prop := mkKahnInv {
  ki_nodup : NoDup (map v_id (L ++ Ss));
  ki_in : forall v, In v (L ++ Ss) -> In v (vertexArray g0);
  ki_edges : forall p, In p E <->
                       In p (edges g0) /\ ~ In (fst p) (map v_id L);
  ki_zero : forall v, In v (vertexArray g0) ->
                      (In v (L ++ Ss) <-> forall s, ~ In (s, v_id v) E);
  ki_order : forall s e, In (s, e) (edges g0) -> In e (map v_id L) ->
                         before (map v_id L) s e;
  ki_simple : NoDup E
}.

(** Position of the first occurrence of [x] in [l]. *)
Fixpoint pos (x : string) (l : list string) : nat :=
  match l with
  | [] => 0
  | y :: r => if String.eqb y x then 0 else S (pos x r)
  end.

(** A walk: consecutive entries are joined by an edge. *)
Fixpoint walk (E : list (string * string)) (l : list string) : Prop :=
  match l with
  | a :: ((b :: _) as r) => In (a, b) E /\ walk E r
  | _ => True
  end.

(** ** Sample graphs *)

Definition vtx (id : string) : Vertex := mkVertex id NOT_READY (JObj []) true.

(** The diamond A -> B, A -> C, B -> D, C -> D. *)
Definition diamond : Digraph :=
  mkDigraph [vtx "A"; vtx "B"; vtx "C"; vtx "D"] ["A"; "B"; "C"; "D"]
            [NOT_READY; NOT_READY; NOT_READY; NOT_READY]
            ["A"; "A"; "B"; "C"] ["B"; "C"; "D"; "D"].

(** The chain A -> B -> C. *)
Definition chain3 : Digraph :=
  mkDigraph [vtx "A"; vtx "B"; vtx "C"] ["A"; "B"; "C"]
            [NOT_READY; NOT_READY; NOT_READY]
            ["A"; "B"] ["B"; "C"].

(** The cycle A -> B -> A. *)
Definition twoCycle : Digraph :=
  mkDigraph [vtx "A"; vtx "B"] ["A"; "B"] [NOT_READY; NOT_READY]
            ["A"; "B"] ["B"; "A"].

(** ** PigeonKeeper (lib/pigeonkeeper.js)

    The calls that leave the scheduler are recorded, in order, in [trace]:
    the log lines, the start function of a task ([serviceStart(results)])
    and the final callback; so are the calls of [start] by the program,
    which tell the campaigns apart. The start functions and the final
    callback are code of the program ([UserCode] below): they run inside
    the call of the scheduler that calls them, and may call the scheduler
    in turn. The logger only records the line. *)

(** [{name: "Failed States", message: ids}] and
    [{name: "State Failed", message: vertexId}] *)
Inductive PkError : Type :=
| FailedStates (message : list string)
| StateFailed (message : string).

Inductive Event : Type :=
| EvLog (level msg : string)
| EvServiceStart (vertexId : string) (results : JsVal)
| EvFinalCallback (pkError : option PkError) (results : JsVal)
| EvStart (sharedData : JsVal).

(** A service is an EventEmitter outside the scheduler: the vertices whose
    [processSuccessful] and [processFailed] are subscribed (once) to its
    events, and the property [data] of the emitter object itself. *)
Record Service : Type := mkService {
  successListeners : list string;
  errorListeners : list string;
  s_data : JsVal
}.

Record PigeonKeeper : Type := mkPK {
  pkGuid : string;
  graph : Digraph;
  finalCallbackExecuted : bool;
  quitOnFailure : bool;
  isCurrentlyRunning : bool;
  maxNumberOfRunningProcesses : Z;
  numberOfRunningProcesses : Z;
  topologicalSortOrder : option (list string);
  results : JsVal;
  services : list Service;
  trace : list Event
}.

Definition P (A : Type) : Type := M PigeonKeeper A.

Definition set_graph (pk : PigeonKeeper) (g : Digraph) : PigeonKeeper :=
  mkPK (pkGuid pk) g (finalCallbackExecuted pk) (quitOnFailure pk)
       (isCurrentlyRunning pk) (maxNumberOfRunningProcesses pk)
       (numberOfRunningProcesses pk) (topologicalSortOrder pk) (results pk)
       (services pk) (trace pk).

Definition set_finalCallbackExecuted (pk : PigeonKeeper) (b : bool) : PigeonKeeper :=
  mkPK (pkGuid pk) (graph pk) b (quitOnFailure pk)
       (isCurrentlyRunning pk) (maxNumberOfRunningProcesses pk)
       (numberOfRunningProcesses pk) (topologicalSortOrder pk) (results pk)
       (services pk) (trace pk).

Definition set_isCurrentlyRunning (pk : PigeonKeeper) (b : bool) : PigeonKeeper :=
  mkPK (pkGuid pk) (graph pk) (finalCallbackExecuted pk) (quitOnFailure pk)
       b (maxNumberOfRunningProcesses pk)
       (numberOfRunningProcesses pk) (topologicalSortOrder pk) (results pk)
       (services pk) (trace pk).

Definition set_numberOfRunningProcesses (pk : PigeonKeeper) (n : Z) : PigeonKeeper :=
  mkPK (pkGuid pk) (graph pk) (finalCallbackExecuted pk) (quitOnFailure pk)
       (isCurrentlyRunning pk) (maxNumberOfRunningProcesses pk)
       n (topologicalSortOrder pk) (results pk)
       (services pk) (trace pk).

Definition set_topologicalSortOrder (pk : PigeonKeeper) (o : option (list string))
  : PigeonKeeper :=
  mkPK (pkGuid pk) (graph pk) (finalCallbackExecuted pk) (quitOnFailure pk)
       (isCurrentlyRunning pk) (maxNumberOfRunningProcesses pk)
       (numberOfRunningProcesses pk) o (results pk)
       (services pk) (trace pk).

Definition set_results (pk : PigeonKeeper) (r : JsVal) : PigeonKeeper :=
  mkPK (pkGuid pk) (graph pk) (finalCallbackExecuted pk) (quitOnFailure pk)
       (isCurrentlyRunning pk) (maxNumberOfRunningProcesses pk)
       (numberOfRunningProcesses pk) (topologicalSortOrder pk) r
       (services pk) (trace pk).

Definition set_services (pk : PigeonKeeper) (l : list Service) : PigeonKeeper :=
  mkPK (pkGuid pk) (graph pk) (finalCallbackExecuted pk) (quitOnFailure pk)
       (isCurrentlyRunning pk) (maxNumberOfRunningProcesses pk)
       (numberOfRunningProcesses pk) (topologicalSortOrder pk) (results pk)
       l (trace pk).

Definition set_trace (pk : PigeonKeeper) (t : list Event) : PigeonKeeper :=
  mkPK (pkGuid pk) (graph pk) (finalCallbackExecuted pk) (quitOnFailure pk)
       (isCurrentlyRunning pk) (maxNumberOfRunningProcesses pk)
       (numberOfRunningProcesses pk) (topologicalSortOrder pk) (results pk)
       (services pk) t.

(** The constructor: [guid] is the random suffix that [guid()] draws. *)
Definition newPigeonKeeper (pkName guid : string) (quitOnFailure : bool)
           (maxNumRunningProcesses : Z) : PigeonKeeper :=
  mkPK (pkName ++ "-" ++ guid)%string emptyDigraph false quitOnFailure false
       maxNumRunningProcesses 0 None (JObj []) [] [].

(** Runs a method of the digraph on the field [graph]. *)
Definition liftG {A} (m : G A) : P A :=
  fun pk =>
    match m (graph pk) with
    | (r, g') => (r, set_graph pk g')
    end.

Definition emit (e : Event) : P unit :=
  modify (fun pk => set_trace pk (trace pk ++ [e])).

(** [displayPrefix + msg] of [writeToLog] *)
Definition logLine (guid msg : string) : string :=
  ("PK-" ++ guid ++ ": " ++ msg)%string.

Arguments logLine : simpl never.

Definition writeToLog (level msg : string) : P unit :=
  pk <- get ;;
  emit (EvLog level (logLine (pkGuid pk) msg)).

(** [graph.getVertex(x)] for an [x] read from an array: [undefined] is not
    the id of a vertex. *)
Definition getVertexP (x : option string) : P Vertex :=
  liftO (fun pk =>
           match x with
           | Some vertexId => getVertex (graph pk) vertexId
           | None => Throw (Error "Vertex Not Found")
           end).

(** The slot of [vertexArray] that holds the object [graph.getVertex(x)]. *)
Definition getVertexSlot (x : option string) : P nat :=
  liftO (fun pk =>
           match x with
           | None => Throw (Error "Vertex Not Found")
           | Some vertexId =>
               match indexOf vertexId (vertexIdArray (graph pk)) with
               | None => Throw (Error "Vertex Not Found")
               | Some vertexIndex =>
                   match nth_error (vertexArray (graph pk)) vertexIndex with
                   | Some _ => Return vertexIndex
                   | None => Throw (TypeError "vertex is undefined")
                   end
               end
           end).

(** Assignment to a field of the vertex object in slot [i]. *)
Definition updateSlot (i : nat) (f : Vertex -> Vertex) (g : Digraph) : Digraph :=
  match nth_error (vertexArray g) i with
  | Some v => withVertexArray g (setNth i (f v) (vertexArray g))
  | None => g
  end.

(** ** The code of the program that uses the scheduler

    [serviceStart vertexId results] is the call [serviceStart(results)] of
    the function given to [addVertex] for the vertex [vertexId];
    [finalCallback pkError results] is the call of the function given to
    the constructor. Both are computations on the scheduler: what the
    function does to it before it returns. *)
Class UserCode : Type := mkUserCode {
  serviceStart : string -> JsVal -> P unit;
  finalCallback : option PkError -> JsVal -> P unit
}.

Section Scheduler.

Context {U : UserCode}.

(** [self.emit(pkGuid + ":start")] on the vertex in slot [i]: the listener
    registered with [once] is taken off, then it logs and calls
    [serviceStart(results)], which runs to its end before [emit] returns. *)
Definition emitStart (i : nat) : P unit :=
  pk <- get ;;
  match nth_error (vertexArray (graph pk)) i with
  | Some v =>
      if startListener v then
        modify (fun pk => set_graph pk
                  (updateSlot i (fun v => Vertex_withListener v false) (graph pk))) ;;;
        writeToLog "INFO" ("Starting " ++ v_id v)%string ;;;
        r <- gets results ;;
        emit (EvServiceStart (v_id v) r) ;;;
        serviceStart (v_id v) r
      else ret tt
  | None => ret tt
  end.

(** [Vertex.setState] on the vertex in slot [this]. Every [newState] of
    type [State] passes the test against [VALID_STATES]. *)
Definition Vertex_setState (this : nat) (newState : State) : P unit :=
  modify (fun pk => set_graph pk
            (updateSlot this (fun v => Vertex_withState v newState) (graph pk))) ;;;
  match newState with
  | IN_PROGRESS =>
      running <- gets isCurrentlyRunning ;;
      if running then emitStart this else ret tt
  | _ => ret tt
  end.

(** [graph.getVertex(x).setState(newState)] *)
Definition getVertex_setState (x : option string) (newState : State) : P unit :=
  this <- getVertexSlot x ;;
  Vertex_setState this newState.

Definition PK_addEdge (startVertexId endVertexId : string) : P unit :=
  liftG (addEdge startVertexId endVertexId).

(** [vertexIdsFromArray(graph.topologicalSort())] is stored by [start];
    before the first [start] the variable is [undefined], and indexing it
    throws. *)
Definition orderAt (i : nat) : P (option string) :=
  order <- gets topologicalSortOrder ;;
  match order with
  | None => throw (TypeError "Cannot read properties of undefined")
  | Some l => ret (nth_error l i)
  end.

Definition initializeStates : P unit :=
  numVertices <- gets (fun pk => vertexCount (graph pk)) ;;
  vertexIds <- gets (fun pk => getVertexIds (graph pk)) ;;
  forRange 0 numVertices
    (fun i => getVertex_setState (nth_error vertexIds i) NOT_READY).

(** The loop of [updateStates] over the parents of a vertex. *)
Fixpoint scanParents (parents : list string)
         (allParentsAreSuccess someParentFailed : bool) : P (bool * bool) :=
  match parents with
  | [] => ret (allParentsAreSuccess, someParentFailed)
  | p :: rest =>
      currentParent <- getVertexP (Some p) ;;
      scanParents rest
        (allParentsAreSuccess && State_eqb (v_state currentParent) SUCCESS)
        (someParentFailed || State_eqb (v_state currentParent) FAIL)
  end.

(** The body of the first loop of [updateStates]: the state pushed on
    [newStates] for [currentVertex]. *)
Definition newStateOf (currentVertex : Vertex) : P State :=
  if State_eqb (v_state currentVertex) NOT_READY then
    d <- gets (fun pk => indegree (graph pk) (v_id currentVertex)) ;;
    if Nat.eqb d 0 then ret READY
    else
      parents <- liftO (fun pk => getParentVertexIds (graph pk) (v_id currentVertex)) ;;
      flags <- scanParents parents true false ;;
      if fst flags then ret READY
      else if snd flags then ret FAIL
      else ret NOT_READY
  else ret (v_state currentVertex).

(** The first loop of [updateStates], from index [from], [count] turns. *)
Fixpoint computeNewStates (from count : nat) : P (list State) :=
  match count with
  | O => ret []
  | S count' =>
      x <- orderAt from ;;
      currentVertex <- getVertexP x ;;
      s <- newStateOf currentVertex ;;
      rest <- computeNewStates (S from) count' ;;
      ret (s :: rest)
  end.

(** The body of the second loop of [updateStates]. A missing entry of
    [newStates] would be [undefined], which [setState] rejects. *)
Definition applyNewState (newStates : list State) (i : nat) : P unit :=
  x <- orderAt i ;;
  this <- getVertexSlot x ;;
  match nth_error newStates i with
  | Some s => Vertex_setState this s
  | None => throw (Error "Invalid State")
  end.

Definition updateStates : P unit :=
  numVertices <- gets (fun pk => vertexCount (graph pk)) ;;
  newStates <- computeNewStates 0 numVertices ;;
  forRange 0 numVertices (applyNewState newStates).

(** The body of the loop of [startReadyProcesses]. *)
Definition startIfReady (vertexIds : list string) (i : nat) : P unit :=
  v <- getVertexP (nth_error vertexIds i) ;;
  if State_eqb (v_state v) READY then
    maxRunning <- gets maxNumberOfRunningProcesses ;;
    running <- gets numberOfRunningProcesses ;;
    if Z.ltb 0 maxRunning && Z.ltb running maxRunning then
      modify (fun pk => set_numberOfRunningProcesses pk
                          (numberOfRunningProcesses pk + 1)) ;;;
      getVertex_setState (nth_error vertexIds i) IN_PROGRESS
    else if Z.leb maxRunning 0 then
      modify (fun pk => set_numberOfRunningProcesses pk
                          (numberOfRunningProcesses pk + 1)) ;;;
      getVertex_setState (nth_error vertexIds i) IN_PROGRESS
    else ret tt
  else ret tt.

Definition startReadyProcesses : P unit :=
  numVertices <- gets (fun pk => vertexCount (graph pk)) ;;
  vertexIds <- gets (fun pk => getVertexIds (graph pk)) ;;
  forRange 0 numVertices (startIfReady vertexIds).

(** The loop of [overallState]: the state of every vertex, with its id. *)
Fixpoint vertexStatesFrom (vertexIds : list string) (from count : nat)
  : P (list (State * option string)) :=
  match count with
  | O => ret []
  | S count' =>
      v <- getVertexP (nth_error vertexIds from) ;;
      rest <- vertexStatesFrom vertexIds (S from) count' ;;
      ret ((v_state v, nth_error vertexIds from) :: rest)
  end.

Definition bucket (st : State) (l : list (State * option string)) : list string :=
  flat_map (fun p => if State_eqb (fst p) st
                     then match snd p with Some id => [id] | None => [] end
                     else [])
           l.

(** The entry [overallState().FAIL]. *)
Definition overallState_FAIL : P (list string) :=
  numVertices <- gets (fun pk => vertexCount (graph pk)) ;;
  vertexIds <- gets (fun pk => getVertexIds (graph pk)) ;;
  l <- vertexStatesFrom vertexIds 0 numVertices ;;
  ret (bucket FAIL l).

(** The loop of [setState] that computes [allStatesSuccessful],
    [someStateFailed] and [allStatesFinal]. *)
Fixpoint scanStates (vertexIds : list string) (from count : nat)
         (allStatesSuccessful someStateFailed allStatesFinal : bool)
  : P (bool * bool * bool) :=
  match count with
  | O => ret (allStatesSuccessful, someStateFailed, allStatesFinal)
  | S count' =>
      currentVertex <- getVertexP (nth_error vertexIds from) ;;
      scanStates vertexIds (S from) count'
        (allStatesSuccessful && State_eqb (v_state currentVertex) SUCCESS)
        (someStateFailed || State_eqb (v_state currentVertex) FAIL)
        (allStatesFinal && (State_eqb (v_state currentVertex) SUCCESS
                            || State_eqb (v_state currentVertex) FAIL))
  end.

Definition stateFlags : P (bool * bool * bool) :=
  numVertices <- gets (fun pk => vertexCount (graph pk)) ;;
  vertexIds <- gets (fun pk => getVertexIds (graph pk)) ;;
  scanStates vertexIds 0 numVertices true false true.

(** The call [finalCallback(pkError, results)]: recorded, then the
    function runs to its end. *)
Definition callFinalCallback (e : option PkError) : P unit :=
  r <- gets results ;;
  emit (EvFinalCallback e r) ;;;
  finalCallback e r.

(** The block [if(!finalCallbackExecuted) {...}], which the source repeats
    at each of its five calls of [finalCallback]; [pkError] builds the
    first argument after the flag is set. *)
Definition runFinalCallback (pkError : P (option PkError)) : P unit :=
  executed <- gets finalCallbackExecuted ;;
  if executed then ret tt
  else
    writeToLog "INFO" "Final callback executing" ;;;
    modify (fun pk => set_finalCallbackExecuted pk true) ;;;
    e <- pkError ;;
    callFinalCallback e ;;;
    writeToLog "INFO" "Final callback executed".

Definition failedStatesError : P (option PkError) :=
  ids <- overallState_FAIL ;;
  ret (Some (FailedStates ids)).

Definition decrementRunning : P unit :=
  modify (fun pk => set_numberOfRunningProcesses pk
                      (numberOfRunningProcesses pk - 1)).

Definition stopRunning : P unit :=
  modify (fun pk => set_isCurrentlyRunning pk false).

(** The branch [newState == "SUCCESS"] of [setState]. *)
Definition afterSuccess : P unit :=
  decrementRunning ;;;
  updateStates ;;;
  flags <- stateFlags ;;
  let '(allStatesSuccessful, someStateFailed, allStatesFinal) := flags in
  if allStatesFinal then
    stopRunning ;;;
    if allStatesSuccessful then
      writeToLog "INFO" "All tasks completed successfully, ooh RAH!" ;;;
      runFinalCallback (ret None)
    else
      writeToLog "ERROR" "One task failed, :-(" ;;;
      runFinalCallback failedStatesError
  else if allStatesSuccessful then
    writeToLog "INFO" "All tasks completed successfully, ooh RAH!" ;;;
    runFinalCallback (ret None)
  else if someStateFailed then
    writeToLog "ERROR" "Some task failed!" ;;;
    quit <- gets quitOnFailure ;;
    if quit then
      stopRunning ;;;
      runFinalCallback failedStatesError
    else updateStates
  else startReadyProcesses.

(** The branch [newState == "FAIL"] of [setState]. *)
Definition afterFail (vertexId : string) : P unit :=
  writeToLog "ERROR" "Task failed - darn!" ;;;
  decrementRunning ;;;
  updateStates ;;;
  flags <- stateFlags ;;
  let '(allStatesSuccessful, someStateFailed, allStatesFinal) := flags in
  quit <- gets quitOnFailure ;;
  if quit then
    stopRunning ;;;
    runFinalCallback (ret (Some (StateFailed vertexId)))
  else
    updateStates ;;;
    if allStatesFinal && someStateFailed
    then runFinalCallback failedStatesError
    else ret tt.

(** [VALID_STATES.indexOf(newState)], read as a state. *)
Definition state_of_string (newState : string) : option State :=
  match indexOf newState VALID_STATES with
  | Some 0 => Some NOT_READY
  | Some 1 => Some READY
  | Some 2 => Some IN_PROGRESS
  | Some 3 => Some SUCCESS
  | Some 4 => Some FAIL
  | _ => None
  end.

Definition setState (vertexId newState : string) : P unit :=
  has <- gets (fun pk => hasVertexId (graph pk) vertexId) ;;
  if has then
    match state_of_string newState with
    | Some st =>
        getVertex_setState (Some vertexId) st ;;;
        match st with
        | SUCCESS => afterSuccess
        | FAIL => afterFail vertexId
        | _ => ret tt
        end
    | None => throw (Error "Invalid State")
    end
  else throw (Error "Vertex Not Found").

Definition start (sharedData : JsVal) : P unit :=
  modify (fun pk => set_finalCallbackExecuted pk false) ;;;
  modify (fun pk => set_results pk sharedData) ;;;
  L <- liftG topologicalSort ;;
  modify (fun pk => set_topologicalSortOrder pk (Some (vertexIdsFromArray L))) ;;;
  modify (fun pk => set_numberOfRunningProcesses pk 0) ;;;
  modify (fun pk => set_isCurrentlyRunning pk true) ;;;
  initializeStates ;;;
  updateStates ;;;
  startReadyProcesses.

(** Whatever the outcome of [m], the store moves along [R]. *)
Definition steps {St} (R : St -> St -> Prop) {A} (m : M St A) : Prop :=
  forall s, R s (snd (m s)).

(** ** Calls from outside and what they leave in the trace *)

(** An object that a handler can be called on: a vertex (by slot) or a
    service (by position in [services]). *)
Inductive ObjRef : Type :=
| RefVertex (slot : nat)
| RefService (service : nat).

Definition setServiceData (k : nat) (d : JsVal) (l : list Service) : list Service :=
  match nth_error l k with
  | Some s => setNth k (mkService (successListeners s) (errorListeners s) d) l
  | None => l
  end.

(** [this.data = data] *)
Definition assignData (this : ObjRef) (data : JsVal) : P unit :=
  match this with
  | RefVertex slot =>
      modify (fun pk => set_graph pk
                (updateSlot slot (fun v => Vertex_withData v data) (graph pk)))
  | RefService k =>
      modify (fun pk => set_services pk (setServiceData k data (services pk)))
  end.

(** [processSuccessful] and [processFailed] of the vertex with id [id];
    [this] is the object the function is called on. *)
Definition processSuccessful (id : string) (this : ObjRef) (data : JsVal) : P unit :=
  assignData this data ;;;
  setState id "SUCCESS".

Definition processFailed (id : string) (this : ObjRef) (err : JsVal) : P unit :=
  setState id "FAIL".

Definition countFinalCallbacks (t : list Event) : nat :=
  length (filter (fun e => match e with
                           | EvFinalCallback _ _ => true
                           | _ => false
                           end) t).

(** A new emitter outside the scheduler (a task); its position in
    [services] is the reference to it. *)
Definition newService : P nat :=
  k <- gets (fun pk => length (services pk)) ;;
  modify (fun pk => set_services pk (services pk ++ [mkService [] [] JUndefined])) ;;;
  ret k.

(** [PigeonKeeper.addVertex(vertexId, service, serviceStart)]: the new
    vertex is the last entry of [vertexArray]; [once] puts a one-shot
    listener on the vertex and two on the service. *)
Definition PK_addVertex (vertexId : string) (service : nat) : P unit :=
  liftG (addVertex vertexId (JObj [])) ;;;
  newVertex <- gets (fun pk => vertexCount (graph pk) - 1) ;;
  modify (fun pk => set_graph pk
            (updateSlot newVertex (fun v => Vertex_withListener v true) (graph pk))) ;;;
  l <- gets services ;;
  match nth_error l service with
  | None => throw (TypeError "Cannot read properties of undefined (reading 'once')")
  | Some s =>
      modify (fun pk => set_services pk
                (setNth service
                        (mkService (successListeners s ++ [vertexId])
                                   (errorListeners s ++ [vertexId]) (s_data s))
                        (services pk)))
  end.

(** Takes one listener of the vertex [id] off a list of listeners. *)
Fixpoint removeListener (id : string) (l : list string) : list string :=
  match l with
  | [] => []
  | x :: r => if String.eqb x id then r else x :: removeListener id r
  end.

Definition listenersOf (success : bool) (k : nat) (pk : PigeonKeeper) : list string :=
  match nth_error (services pk) k with
  | Some s => if success then successListeners s else errorListeners s
  | None => []
  end.

Definition dropListener (success : bool) (k : nat) (id : string)
           (l : list Service) : list Service :=
  match nth_error l k with
  | Some s =>
      setNth k (if success
                then mkService (removeListener id (successListeners s))
                               (errorListeners s) (s_data s)
                else mkService (successListeners s)
                               (removeListener id (errorListeners s)) (s_data s))
             l
  | None => l
  end.

(** [service.emit("success", data)] and [service.emit("error", err)] of
    the EventEmitter of Node.js: the listeners present when the event is
    emitted are called in turn; a listener registered with [once] is taken
    off first, and it is called with [this] bound to the emitter. *)
Fixpoint callListeners (success : bool) (k : nat) (listeners : list string)
         (payload : JsVal) : P unit :=
  match listeners with
  | [] => ret tt
  | id :: rest =>
      modify (fun pk => set_services pk (dropListener success k id (services pk))) ;;;
      (if success
       then processSuccessful id (RefService k) payload
       else processFailed id (RefService k) payload) ;;;
      callListeners success k rest payload
  end.

(** With no listener for "error", [emit("error", err)] throws
    (ERR_UNHANDLED_ERROR of Node.js). *)
Definition Service_emit (success : bool) (k : nat) (payload : JsVal) : P unit :=
  listeners <- gets (listenersOf success k) ;;
  match listeners with
  | [] => if success then ret tt else throw (Error "Unhandled error")
  | _ :: _ => callListeners success k listeners payload
  end.

Inductive Call : Type :=
| CallSetState (vertexId newState : string)
| CallProcessSuccessful (id : string) (this : ObjRef) (data : JsVal)
| CallProcessFailed (id : string) (this : ObjRef) (err : JsVal)
| CallEmit (success : bool) (service : nat) (payload : JsVal).

Definition runCall (c : Call) : P unit :=
  match c with
  | CallSetState vertexId newState => setState vertexId newState
  | CallProcessSuccessful id this data => processSuccessful id this data
  | CallProcessFailed id this err => processFailed id this err
  | CallEmit success service payload => Service_emit success service payload
  end.

(** ** The scheduler as a program uses it *)

(** What a program does with a scheduler: it makes the emitters of its
    tasks, declares vertices and edges, starts the scheduler, and its
    tasks report (or [setState] is called from outside). *)
Inductive Use : Type :=
| UseNewService
| UseAddVertex (vertexId : string) (service : nat)
| UseAddEdge (startVertexId endVertexId : string)
| UseStart (sharedData : JsVal)
| UseCall (c : Call).

(** The call of [start] is recorded before it is made. *)
Definition runUse (u : Use) : P unit :=
  match u with
  | UseNewService => newService ;;; ret tt
  | UseAddVertex vertexId service => PK_addVertex vertexId service
  | UseAddEdge startVertexId endVertexId => PK_addEdge startVertexId endVertexId
  | UseStart sharedData => emit (EvStart sharedData) ;;; start sharedData
  | UseCall c => runCall c
  end.

(** A use that throws leaves the scheduler in the state it had reached. *)
Definition runUses (uses : list Use) (pk : PigeonKeeper) : PigeonKeeper :=
  fold_left (fun pk u => snd (runUse u pk)) uses pk.

(** The body of a function of the program: its calls in turn; a call that
    throws ends the function with that exception. *)
Fixpoint runScript (script : list Use) : P unit :=
  match script with
  | [] => ret tt
  | u :: rest => runUse u ;;; runScript rest
  end.

End Scheduler.

(** The functions of a program, as the calls they make: [startCode
    vertexId results] is the body of the start function of the task of
    [vertexId], [callbackCode pkError results] the body of the final
    callback. *)
Record Program : Type := mkProgram {
  startCode : string -> JsVal -> list Use;
  callbackCode : option PkError -> JsVal -> list Use
}.

(** The program [code], run with calls nested at most [fuel] deep: a call
    of the scheduler made by a function of the program may call a function
    of the program again, and so on. *)
Fixpoint scripted (fuel : nat) (code : Program) : UserCode :=
  match fuel with
  | O => mkUserCode (fun _ _ pk => (OutOfFuel, pk)) (fun _ _ pk => (OutOfFuel, pk))
  | S fuel' =>
      mkUserCode
        (fun vertexId r => runScript (U := scripted fuel' code) (startCode code vertexId r))
        (fun e r => runScript (U := scripted fuel' code) (callbackCode code e r))
  end.

(** The program whose functions return without calling the scheduler: a
    task reports after its start function has returned, through a separate
    call of [processSuccessful] or [processFailed], and the final callback
    leaves the scheduler alone. Where nothing else is said, this is the
    program that the scheduler below runs with. *)
#[global] Instance asynchronous : UserCode :=
  mkUserCode (fun _ _ => ret tt) (fun _ _ => ret tt).

(** The trace grows by events that are no final callback, the flag
    [finalCallbackExecuted] is not touched. *)
Definition quiet (pk pk' : PigeonKeeper) : Prop :=
  finalCallbackExecuted pk' = finalCallbackExecuted pk
  /\ exists evs, trace pk' = trace pk ++ evs /\ countFinalCallbacks evs = 0.

(** ** One final callback per campaign *)

(** A trace cut at the calls of [start]: the events before the first call,
    then the events of each campaign, from its call of [start] to the
    next. *)
Fixpoint campaigns (t : list Event) : list (list Event) :=
  match t with
  | [] => [[]]
  | EvStart _ :: rest => [] :: campaigns rest
  | e :: rest =>
      match campaigns rest with
      | c :: cs => (e :: c) :: cs
      | [] => [[e]]
      end
  end.

(** Reads a trace with the memory [seen] of a final callback made in the
    campaign under way: a call of [start] clears it, a final callback sets
    it; [None] when a final callback comes while it is set. *)
Fixpoint campaignScan (seen : bool) (t : list Event) : option bool :=
  match t with
  | [] => Some seen
  | EvStart _ :: rest => campaignScan false rest
  | EvFinalCallback _ _ :: rest =>
      if seen then None else campaignScan true rest
  | _ :: rest => campaignScan seen rest
  end.

(** The trace grows by events that make at most one final callback per
    campaign, where the flag [finalCallbackExecuted] is set whenever the
    campaign under way has made its callback. *)
Definition guarded (pk pk' : PigeonKeeper) : Prop :=
  exists evs,
    trace pk' = trace pk ++ evs
    /\ forall seen,
        (seen = true -> finalCallbackExecuted pk = true) ->
        exists seen',
          campaignScan seen evs = Some seen'
          /\ (seen' = true -> finalCallbackExecuted pk' = true).

(** ** Sample campaigns *)

(** The scheduler after a call, whatever the call returned. *)
Definition run {A} (m : P A) (pk : PigeonKeeper) : PigeonKeeper := snd (m pk).

(** Three tasks in a chain A -> B -> C, declared through the scheduler. *)
Definition buildChain : P unit :=
  sA <- newService ;;
  sB <- newService ;;
  sC <- newService ;;
  PK_addVertex "A" sA ;;;
  PK_addVertex "B" sB ;;;
  PK_addVertex "C" sC ;;;
  PK_addEdge "A" "B" ;;;
  PK_addEdge "B" "C".

(** [quitOnFailure = false], no bound on the running tasks. *)
Definition chainPK : PigeonKeeper :=
  run buildChain (newPigeonKeeper "pk" "0000" false 0).

(** One task A. *)
Definition buildSingle : P unit :=
  sA <- newService ;;
  PK_addVertex "A" sA.

Definition singlePK : PigeonKeeper :=
  run buildSingle (newPigeonKeeper "pk" "0000" true 1).

(** The states of the vertices, in the order of [vertexArray]. *)
Definition vertexStates (pk : PigeonKeeper) : list (string * State) :=
  map (fun v => (v_id v, v_state v)) (vertexArray (graph pk)).

(** ** Running tasks *)

Definition isInProgress (v : Vertex) : bool := State_eqb (v_state v) IN_PROGRESS.

(** The number of vertices in state IN_PROGRESS. *)
Definition countInProgress (g : Digraph) : nat :=
  length (filter isInProgress (vertexArray g)).

(** [numberOfRunningProcesses] counts the vertices IN_PROGRESS and respects
    the bound, when there is one. *)
Definition inFlightOK (pk : PigeonKeeper) : Prop :=
  numberOfRunningProcesses pk = Z.of_nat (countInProgress (graph pk))
  /\ (0 < maxNumberOfRunningProcesses pk ->
      numberOfRunningProcesses pk <= maxNumberOfRunningProcesses pk)%Z.

(** A campaign: [start] on a graph built through the interface, then the
    completion events of tasks that are running, one at a time. With the
    program [asynchronous] every task reports in such an event; with
    another program a task may also report inside its start function. *)
Inductive campaign {U : UserCode} : PigeonKeeper -> Prop :=
| campaign_start : forall pk sharedData,
    WF (graph pk) -> campaign (run (start sharedData) pk)
| campaign_complete : forall pk vertexId newState v,
    campaign pk ->
    getVertex (graph pk) vertexId = Return v ->
    v_state v = IN_PROGRESS ->
    newState = "SUCCESS" \/ newState = "FAIL" ->
    campaign (run (setState vertexId newState) pk).

(** Which slots hold a vertex IN_PROGRESS. *)
Definition ipMap (g : Digraph) : list bool := map isInProgress (vertexArray g).

(** Nothing that the count of running tasks depends on has moved. *)
Definition sameIP (pk pk' : PigeonKeeper) : Prop :=
  numberOfRunningProcesses pk' = numberOfRunningProcesses pk
  /\ maxNumberOfRunningProcesses pk' = maxNumberOfRunningProcesses pk
  /\ topologicalSortOrder pk' = topologicalSortOrder pk
  /\ vertexIdArray (graph pk') = vertexIdArray (graph pk)
  /\ ipMap (graph pk') = ipMap (graph pk).

Definition keepsOK (pk pk' : PigeonKeeper) : Prop :=
  maxNumberOfRunningProcesses pk' = maxNumberOfRunningProcesses pk
  /\ (inFlightOK pk -> inFlightOK pk').

(** The state that the second loop of [updateStates] may write at index [i]
    of [newStates] agrees, on being IN_PROGRESS, with the vertex it is
    written to. *)
Definition Good (pk : PigeonKeeper) (i : nat) (s : State) : Prop :=
  forall x slot v,
    fst (orderAt i pk) = Return x ->
    fst (getVertexSlot x pk) = Return slot ->
    nth_error (vertexArray (graph pk)) slot = Some v ->
    State_eqb s IN_PROGRESS = isInProgress v.

(** ** Propagation, as the specification words it *)

(** The parents of [v]: the vertices with an edge to [v]. *)
Definition parentsOf (g : Digraph) (v : Vertex) : list Vertex :=
  filter (fun p => existsb (fun se => String.eqb (fst se) (v_id p)
                                      && String.eqb (snd se) (v_id v))
                           (edges g))
         (vertexArray g).

(** 1. a vertex that is not NOT_READY is left alone; 2. else, with indegree
    0, READY; 3. else READY if every parent is SUCCESS, else FAIL if some
    parent is FAIL, else NOT_READY. *)
Definition spec_newState (g : Digraph) (v : Vertex) : State :=
  if negb (State_eqb (v_state v) NOT_READY) then v_state v
  else if Nat.eqb (indegree g (v_id v)) 0 then READY
  else if forallb (fun p => State_eqb (v_state p) SUCCESS) (parentsOf g v) then READY
  else if existsb (fun p => State_eqb (v_state p) FAIL) (parentsOf g v) then FAIL
  else NOT_READY.

(** The ids that [updateStates] visits: the first [vertexCount()] entries
    of [order]. *)
Definition visited (g : Digraph) (order : list string) (id : string) : bool :=
  existsb (String.eqb id) (firstn (vertexCount g) order).

(** What propagation and the writes of a state leave alone: every field
    of the scheduler but the trace, the edges and the ids, and in every
    vertex its id and its data. *)
Record sameFrame (pk pk' : PigeonKeeper) : Prop := mkSameFrame {
  sf_guid : pkGuid pk' = pkGuid pk;
  sf_executed : finalCallbackExecuted pk' = finalCallbackExecuted pk;
  sf_quit : quitOnFailure pk' = quitOnFailure pk;
  sf_running : isCurrentlyRunning pk' = isCurrentlyRunning pk;
  sf_max : maxNumberOfRunningProcesses pk' = maxNumberOfRunningProcesses pk;
  sf_number : numberOfRunningProcesses pk' = numberOfRunningProcesses pk;
  sf_order : topologicalSortOrder pk' = topologicalSortOrder pk;
  sf_results : results pk' = results pk;
  sf_services : services pk' = services pk;
  sf_ids : vertexIdArray (graph pk') = vertexIdArray (graph pk);
  sf_states : vertexStateArray (graph pk') = vertexStateArray (graph pk);
  sf_starts : startVertexIdArray (graph pk') = startVertexIdArray (graph pk);
  sf_ends : endVertexIdArray (graph pk') = endVertexIdArray (graph pk);
  sf_vids : map v_id (vertexArray (graph pk')) = map v_id (vertexArray (graph pk));
  sf_vdata : map v_data (vertexArray (graph pk')) = map v_data (vertexArray (graph pk))
}.

(** The state of the vertex with id [id]. *)
Definition stateOfId (g : Digraph) (id : string) : State :=
  match vertexOfId g id with
  | Some v => v_state v
  | None => NOT_READY
  end.

(** The state that the first loop of [updateStates] pushes at index [i]. *)
Definition target (g : Digraph) (order : list string) (i : nat) : State :=
  match nth_error order i with
  | Some id =>
      match vertexOfId g id with
      | Some v => spec_newState g v
      | None => NOT_READY
      end
  | None => NOT_READY
  end.

(** The chain after [start], at the moment the task of A has failed and
    the state FAIL of A is committed: the state in which [setState] calls
    [updateStates]. *)
Definition failedChain : PigeonKeeper :=
  run (getVertex_setState (Some "A") FAIL ;;; decrementRunning)
      (run (start (JObj [])) chainPK).

(** The diamond A -> B, A -> C, B -> D, C -> D with at most two tasks running. *)
Definition buildDiamond : P unit :=
  sA <- newService ;;
  sB <- newService ;;
  sC <- newService ;;
  sD <- newService ;;
  PK_addVertex "A" sA ;;;
  PK_addVertex "B" sB ;;;
  PK_addVertex "C" sC ;;;
  PK_addVertex "D" sD ;;;
  PK_addEdge "A" "B" ;;;
  PK_addEdge "A" "C" ;;;
  PK_addEdge "B" "D" ;;;
  PK_addEdge "C" "D".

Definition diamondPK : PigeonKeeper :=
  run buildDiamond (newPigeonKeeper "pk" "0000" true 2).

(** The slots of [pk] after the ids in [firstn k order] were written. *)
Definition written (pk0 : PigeonKeeper) (order : list string) (k : nat)
           (pk : PigeonKeeper) : Prop :=
  forall j v0,
    nth_error (vertexArray (graph pk0)) j = Some v0 ->
    exists v,
      nth_error (vertexArray (graph pk)) j = Some v
      /\ v_state v = if existsb (String.eqb (v_id v0)) (firstn k order)
                     then spec_newState (graph pk0) v0
                     else v_state v0.

(** ** The rest of the interface of the digraph *)

(** Reading [.id] of each child while the list is built throws on a child
    that is not in the vertex arrays. *)
Definition getChildVertexIds (g : Digraph) (parentVertexId : string)
  : outcome (list string) :=
  idsOf (getChildVertices g parentVertexId).

(** The calls that build or change a digraph. *)
Inductive GraphOp : Type :=
| OpAddVertex (id : string) (data : JsVal)
| OpAddEdge (startVertexId endVertexId : string)
| OpRemoveVertex (vertexId : string)
| OpRemoveEdge (startVertexId endVertexId : string)
| OpTopologicalSort.

(** The graph after a call, whatever the call returned. *)
Definition applyOp (g : Digraph) (op : GraphOp) : Digraph :=
  match op with
  | OpAddVertex id data => snd (addVertex id data g)
  | OpAddEdge s e => snd (addEdge s e g)
  | OpRemoveVertex id => snd (removeVertex id g)
  | OpRemoveEdge s e => snd (removeEdge s e g)
  | OpTopologicalSort => snd (topologicalSort g)
  end.

Definition applyOps (ops : list GraphOp) (g : Digraph) : Digraph :=
  fold_left applyOp ops g.

(** The graph of the scheduler stays well formed. *)
Definition keepsWF (pk pk' : PigeonKeeper) : Prop :=
  WF (graph pk) -> WF (graph pk').

(** No event goes out and no listener is taken off. *)
Definition silent (pk pk' : PigeonKeeper) : Prop :=
  trace pk' = trace pk
  /\ map startListener (vertexArray (graph pk'))
     = map startListener (vertexArray (graph pk)).

(** Two tasks that wait for each other: A -> B and B -> A. *)
Definition buildCycle : P unit :=
  sA <- newService ;;
  sB <- newService ;;
  PK_addVertex "A" sA ;;;
  PK_addVertex "B" sB ;;;
  PK_addEdge "A" "B" ;;;
  PK_addEdge "B" "A".

Definition cyclePK : PigeonKeeper :=
  run buildCycle (newPigeonKeeper "pk" "0000" false 0).

(** As [sameFrame], but for the count of running tasks. *)
Definition sameSetup (pk pk' : PigeonKeeper) : Prop :=
  sameFrame (set_numberOfRunningProcesses pk 0) (set_numberOfRunningProcesses pk' 0).

(** ** Dependencies are respected *)

(** The states of a vertex whose task may start, runs or has succeeded. *)
Definition released (s : State) : bool :=
  match s with
  | READY | IN_PROGRESS | SUCCESS => true
  | NOT_READY | FAIL => false
  end.

(** No vertex is released before every vertex it depends on is SUCCESS. *)
Definition Safe (g : Digraph) : Prop :=
  forall v p,
    In v (vertexArray g) -> In p (vertexArray g) ->
    In (v_id p, v_id v) (edges g) ->
    released (v_state v) = true -> v_state p = SUCCESS.

(** The stored order after [start]: its first [vertexCount()] entries are
    ids of vertices, or it is empty although the graph has vertices (the
    graph has a cycle). *)
Definition covers (pk : PigeonKeeper) : Prop :=
  exists order,
    topologicalSortOrder pk = Some order
    /\ ((forall i, i < vertexCount (graph pk) ->
           exists id, nth_error order i = Some id
                      /\ In id (vertexIdArray (graph pk)))
        \/ (order = [] /\ 0 < vertexCount (graph pk))).

Definition SafeInv (pk : PigeonKeeper) : Prop :=
  WF (graph pk) /\ Safe (graph pk) /\ covers pk.

Definition keepsSafe (pk pk' : PigeonKeeper) : Prop := SafeInv pk -> SafeInv pk'.

(** ** [overallState] *)

(** The object that [overallState] returns. *)
Record OverallState : Type := mkOverallState {
  os_globallyUniqueId : string;
  os_topologicalSortOrder : option (list string);
  os_NOT_READY : list string;
  os_READY : list string;
  os_IN_PROGRESS : list string;
  os_SUCCESS : list string;
  os_FAIL : list string;
  os_quitOnFailure : bool;
  os_isRunning : bool;
  os_maxNumberOfRunningProcesses : Z;
  os_numberOfRunningProcesses : Z;
  os_results : JsVal
}.

Definition overallState : P OverallState :=
  numVertices <- gets (fun pk => vertexCount (graph pk)) ;;
  vertexIds <- gets (fun pk => getVertexIds (graph pk)) ;;
  l <- vertexStatesFrom vertexIds 0 numVertices ;;
  pk <- get ;;
  ret (mkOverallState (pkGuid pk) (topologicalSortOrder pk)
         (bucket NOT_READY l) (bucket READY l) (bucket IN_PROGRESS l)
         (bucket SUCCESS l) (bucket FAIL l)
         (quitOnFailure pk) (isCurrentlyRunning pk)
         (maxNumberOfRunningProcesses pk) (numberOfRunningProcesses pk)
         (results pk)).

(** The entry [pkOverallState[VALID_STATES[i]]]. *)
Definition os_bucket (os : OverallState) (st : State) : list string :=
  match st with
  | NOT_READY => os_NOT_READY os
  | READY => os_READY os
  | IN_PROGRESS => os_IN_PROGRESS os
  | SUCCESS => os_SUCCESS os
  | FAIL => os_FAIL os
  end.

(** The ids of the vertices in state [st], in the order of [vertexArray]. *)
Definition idsInState (g : Digraph) (st : State) : list string :=
  map v_id (filter (fun v => State_eqb (v_state v) st) (vertexArray g)).

(** ** After a failure *)

(** Every vertex that is not NOT_READY keeps its state. *)
Definition stateKept (pk pk' : PigeonKeeper) : Prop :=
  forall j w,
    nth_error (vertexArray (graph pk)) j = Some w -> v_state w <> NOT_READY ->
    exists w', nth_error (vertexArray (graph pk')) j = Some w'
               /\ v_state w' = v_state w.

Definition someFailed (g : Digraph) : Prop :=
  exists f, In f (vertexArray g) /\ v_state f = FAIL.

(** Once a vertex is FAIL: no vertex enters or leaves IN_PROGRESS, and no
    vertex leaves READY, SUCCESS or FAIL. *)
Definition calm (pk pk' : PigeonKeeper) : Prop :=
  SafeInv pk -> someFailed (graph pk) ->
  SafeInv pk' /\ someFailed (graph pk')
  /\ ipMap (graph pk') = ipMap (graph pk) /\ stateKept pk pk'.

(** Two independent tasks A and B, at most one running,
    [quitOnFailure = false]. *)
Definition buildPair : P unit :=
  sA <- newService ;;
  sB <- newService ;;
  PK_addVertex "A" sA ;;;
  PK_addVertex "B" sB.

Definition pairPK : PigeonKeeper :=
  run buildPair (newPigeonKeeper "pk" "0000" false 1).

(** ** No task waits without a reason *)

(** The order stored by [start] lists every vertex id once. *)
Definition sorted (pk : PigeonKeeper) : Prop :=
  exists order,
    topologicalSortOrder pk = Some order /\ NoDup order
    /\ forall x, In x order <-> In x (vertexIdArray (graph pk)).

(** Every vertex that is NOT_READY has a parent that is not SUCCESS. *)
Definition Prompt (g : Digraph) : Prop :=
  forall v,
    In v (vertexArray g) -> v_state v = NOT_READY ->
    exists p, In p (vertexArray g) /\ In (v_id p, v_id v) (edges g)
              /\ v_state p <> SUCCESS.

Definition capReached (pk : PigeonKeeper) : Prop :=
  (0 < maxNumberOfRunningProcesses pk <= numberOfRunningProcesses pk)%Z.

(** While no vertex is FAIL, a vertex is left READY only when the bound
    on the running tasks is reached. *)
Definition WorkConserving (pk : PigeonKeeper) : Prop :=
  ~ someFailed (graph pk) ->
  forall v, In v (vertexArray (graph pk)) -> v_state v = READY -> capReached pk.

Definition allNotReady (g : Digraph) : Prop :=
  forall v, In v (vertexArray g) -> v_state v = NOT_READY.

Definition PromptInv (pk : PigeonKeeper) : Prop :=
  WF (graph pk) /\ sorted pk /\ Prompt (graph pk).

Definition keepsPrompt (pk pk' : PigeonKeeper) : Prop := PromptInv pk -> PromptInv pk'.

(** The graph of the scheduler is not touched. *)
Definition sameGraph (pk pk' : PigeonKeeper) : Prop :=
  graph pk' = graph pk
  /\ maxNumberOfRunningProcesses pk' = maxNumberOfRunningProcesses pk.

(** ** What is finished stays finished *)

(** Ids and edges are not touched. *)
Definition sameShape (pk pk' : PigeonKeeper) : Prop :=
  vertexIdArray (graph pk') = vertexIdArray (graph pk)
  /\ map v_id (vertexArray (graph pk')) = map v_id (vertexArray (graph pk))
  /\ edges (graph pk') = edges (graph pk).

Definition isFinal (s : State) : bool :=
  match s with
  | SUCCESS | FAIL => true
  | NOT_READY | READY | IN_PROGRESS => false
  end.

(** Every vertex that is SUCCESS or FAIL keeps its state. *)
Definition finalKept (pk pk' : PigeonKeeper) : Prop :=
  forall j w,
    nth_error (vertexArray (graph pk)) j = Some w -> isFinal (v_state w) = true ->
    exists w', nth_error (vertexArray (graph pk')) j = Some w'
               /\ v_state w' = v_state w.

Definition settles (pk pk' : PigeonKeeper) : Prop :=
  SafeInv pk -> SafeInv pk' /\ finalKept pk pk'.

(** ** Commits and the count of running tasks *)

(** The states of a vertex whose task was started. *)
Definition isStarted (s : State) : bool :=
  match s with
  | IN_PROGRESS | SUCCESS | FAIL => true
  | NOT_READY | READY => false
  end.

(** Every vertex that is IN_PROGRESS, SUCCESS or FAIL keeps its state. *)
Definition startedKept (pk pk' : PigeonKeeper) : Prop :=
  forall j w,
    nth_error (vertexArray (graph pk)) j = Some w -> isStarted (v_state w) = true ->
    exists w', nth_error (vertexArray (graph pk')) j = Some w'
               /\ v_state w' = v_state w.

Definition lasts (pk pk' : PigeonKeeper) : Prop :=
  SafeInv pk -> SafeInv pk' /\ startedKept pk pk'.

(** The number of slots whose vertex is IN_PROGRESS in [g'] and was not in
    [g]: the tasks started in between. *)
Definition startedBetween (g g' : Digraph) : nat :=
  length (filter (fun p => negb (isInProgress (fst p)) && isInProgress (snd p))
                 (combine (vertexArray g) (vertexArray g'))).

(** The number of slots whose vertex was IN_PROGRESS in [g] and is not in
    [g']: the tasks that ended in between. *)
Definition endedBetween (g g' : Digraph) : nat :=
  length (filter (fun p => isInProgress (fst p) && negb (isInProgress (snd p)))
                 (combine (vertexArray g) (vertexArray g'))).

(** ** The count of running tasks, with tasks that report at once *)

(** While the scheduler runs, the start listener of every vertex that is
    IN_PROGRESS has been called, and so taken off. *)
Definition Tidy (pk : PigeonKeeper) : Prop :=
  isCurrentlyRunning pk = true ->
  forall v, In v (vertexArray (graph pk)) ->
            v_state v = IN_PROGRESS -> startListener v = false.

Definition FlightInv (pk : PigeonKeeper) : Prop :=
  VOK (graph pk) /\ inFlightOK pk /\ Tidy pk.

(** The vertices that are SUCCESS or FAIL keep their state, and the ids
    are as before. *)
Definition settled (pk pk' : PigeonKeeper) : Prop :=
  finalKept pk pk' /\ vertexIdArray (graph pk') = vertexIdArray (graph pk).

Definition flightStep (pk pk' : PigeonKeeper) : Prop :=
  FlightInv pk -> FlightInv pk' /\ settled pk pk'.

(** What the start function of the task of [vertexId] may do: entered
    with its vertex IN_PROGRESS, it keeps the count right and leaves the
    finished vertices alone. *)
Definition taskStep (vertexId : string) (pk pk' : PigeonKeeper) : Prop :=
  FlightInv pk ->
  (exists v, getVertex (graph pk) vertexId = Return v /\ v_state v = IN_PROGRESS) ->
  FlightInv pk' /\ settled pk pk'.

(** Propagation writes states only: nothing else of the scheduler moves,
    no listener is called, a vertex that is not NOT_READY keeps its state
    and no vertex becomes IN_PROGRESS. *)
Definition still (pk pk' : PigeonKeeper) : Prop :=
  sameFrame pk pk'
  /\ trace pk' = trace pk
  /\ map startListener (vertexArray (graph pk'))
     = map startListener (vertexArray (graph pk))
  /\ forall j v,
      nth_error (vertexArray (graph pk)) j = Some v ->
      exists v',
        nth_error (vertexArray (graph pk')) j = Some v'
        /\ (v_state v <> NOT_READY -> v_state v' = v_state v)
        /\ (v_state v = NOT_READY -> v_state v' <> IN_PROGRESS).

(** The state that the second loop of [updateStates] writes at index [i]
    of [newStates] is the state the vertex had, unless the vertex was
    NOT_READY; it is never a new IN_PROGRESS. *)
Definition Fit (pk : PigeonKeeper) (i : nat) (s : State) : Prop :=
  forall x slot v,
    fst (orderAt i pk) = Return x ->
    fst (getVertexSlot x pk) = Return slot ->
    nth_error (vertexArray (graph pk)) slot = Some v ->
    (v_state v <> NOT_READY -> s = v_state v)
    /\ (v_state v = NOT_READY -> s <> IN_PROGRESS).

(** A report of the task of [vertexId]: the call that its emitter makes
    on "success" or "error", or the call of [setState] that these make. *)
Definition completes (vertexId : string) (c : Call) : Prop :=
  c = CallSetState vertexId "SUCCESS"
  \/ c = CallSetState vertexId "FAIL"
  \/ (exists this data, c = CallProcessSuccessful vertexId this data)
  \/ (exists this err, c = CallProcessFailed vertexId this err).

(** A program whose tasks report at most once inside their start function,
    each for itself, and whose final callback leaves the scheduler
    alone. *)
Definition reportsOnce (code : Program) : Prop :=
  (forall vertexId r,
      startCode code vertexId r = []
      \/ exists c, startCode code vertexId r = [UseCall c] /\ completes vertexId c)
  /\ (forall e r, callbackCode code e r = []).

(** A program in which the tasks picked by [atOnce] report success inside
    their start function, as the sample service of the repository does:
    the emitter of the task calls [processSuccessful] of the vertex before
    the start function returns. The other tasks report later, and the
    final callback leaves the scheduler alone. *)
Definition reportAtOnce (atOnce : string -> bool) (serviceOf : string -> nat)
  : Program :=
  mkProgram
    (fun vertexId _ =>
       if atOnce vertexId
       then [UseCall (CallProcessSuccessful vertexId (RefService (serviceOf vertexId))
                        (JObj [("id", vertexId)]))]
       else [])
    (fun _ _ => []).

(** The emitters of the tasks of [diamondPK], in the order of
    [buildDiamond]. *)
Definition diamondServices (vertexId : string) : nat :=
  if String.eqb vertexId "A" then 0
  else if String.eqb vertexId "B" then 1
  else if String.eqb vertexId "C" then 2
  else 3.

(** ** Array lemmas *)

Lemma indexOf_Some x arr i :
  indexOf x arr = Some i -> nth_error arr i = Some x /\ i < length arr.
Proof.
  revert i; induction arr as [|y rest IH]; simpl; intros i H; [discriminate|].
  destruct (String.eqb_spec y x) as [->|Hne].
  - inversion H; subst; simpl; split; [reflexivity | lia].
  - destruct (indexOf x rest) as [j|]; [|discriminate].
    inversion H; subst; simpl. destruct (IH j eq_refl); split; [assumption | lia].
Qed.

Lemma indexOf_None x arr : indexOf x arr = None <-> ~ In x arr.
Proof.
  induction arr as [|y rest IH]; simpl.
  - tauto.
  - destruct (String.eqb_spec y x) as [->|Hne].
    + split; [discriminate | tauto].
    + destruct (indexOf x rest) as [j|].
      * split; [discriminate|]. intros H. exfalso. apply H. right.
        destruct (in_dec string_dec x rest) as [Hin|Hnin]; [assumption|].
        apply IH in Hnin. discriminate.
      * split; [|reflexivity]. intros _ [H|H]; [congruence|].
        apply (proj1 IH); auto.
Qed.

Lemma indexOf_In x arr : In x arr -> exists i, indexOf x arr = Some i.
Proof.
  intros H. destruct (indexOf x arr) as [i|] eqn:E; [eauto|].
  apply indexOf_None in E. contradiction.
Qed.

Lemma indexOf_nth_NoDup arr : NoDup arr ->
  forall i x, nth_error arr i = Some x -> indexOf x arr = Some i.
Proof.
  induction 1 as [|y rest Hnin Hnd IH]; intros i x Hn.
  - destruct i; discriminate.
  - simpl. destruct i as [|i]; simpl in Hn.
    + inversion Hn; subst. rewrite String.eqb_refl. reflexivity.
    + destruct (String.eqb_spec y x) as [->|Hne].
      * exfalso. apply Hnin. eapply nth_error_In; eauto.
      * rewrite (IH _ _ Hn). reflexivity.
Qed.

Lemma splice1_length A (l : list A) i :
  i < length l -> length (splice1 i l) + 1 = length l.
Proof.
  revert i; induction l as [|y rest IH]; simpl; intros i H; [lia|].
  destruct i; simpl; [lia|]. specialize (IH i). lia.
Qed.

Lemma splice1_combine A B (l : list A) (r : list B) i :
  combine (splice1 i l) (splice1 i r) = splice1 i (combine l r).
Proof.
  revert r i; induction l as [|x l IH]; intros [|y r] [|i]; simpl; auto.
  - destruct l; reflexivity.
  - f_equal. apply IH.
Qed.

Lemma splice1_In A (l : list A) i p : In p (splice1 i l) -> In p l.
Proof.
  revert i; induction l as [|y rest IH]; simpl; intros i H; [assumption|].
  destruct i; simpl in H; [auto|]. destruct H; eauto.
Qed.

Lemma splice1_NoDup A (l : list A) i : NoDup l -> NoDup (splice1 i l).
Proof.
  intros Hnd; revert i; induction Hnd as [|y rest Hnin Hnd IH]; simpl; intros i.
  - constructor.
  - destruct i; [assumption|]. constructor; [|apply IH].
    intros H. apply Hnin. eapply splice1_In; eauto.
Qed.

Lemma splice1_In_iff A (l : list A) i q p :
  NoDup l -> nth_error l i = Some q ->
  (In p (splice1 i l) <-> In p l /\ p <> q).
Proof.
  intros Hnd; revert i; induction Hnd as [|y rest Hnin Hnd IH]; intros i Hn.
  - destruct i; discriminate.
  - destruct i as [|i]; simpl in *.
    + inversion Hn; subst. split.
      * intros H. split; [auto|]. intros ->. contradiction.
      * intros [[H|H] Hne]; [congruence | assumption].
    + rewrite (IH _ Hn). split.
      * intros [->|[H Hne]]; [|tauto]. split; [auto|].
        intros ->. apply Hnin. eapply nth_error_In; eauto.
      * intros [[H|H] Hne]; auto.
Qed.

Lemma findEdge_Some s e starts ends i :
  findEdge s e starts ends = Some i ->
  nth_error (combine starts ends) i = Some (s, e) /\ i < length starts.
Proof.
  revert ends i; induction starts as [|s' starts IH]; intros [|e' ends] i H;
    simpl in *; try discriminate.
  destruct (String.eqb_spec s' s) as [->|Hs];
    destruct (String.eqb_spec e' e) as [->|He]; simpl in H.
  1: { inversion H; subst; simpl; split; [reflexivity | lia]. }
  all: destruct (findEdge s e starts ends) as [j|] eqn:E; [|discriminate];
    inversion H; subst; simpl; destruct (IH _ _ E); split; [assumption | lia].
Qed.

Lemma findEdge_None s e starts ends :
  findEdge s e starts ends = None <-> ~ In (s, e) (combine starts ends).
Proof.
  revert ends; induction starts as [|s' starts IH]; intros [|e' ends]; simpl;
    try tauto.
  destruct (String.eqb_spec s' s) as [->|Hs];
    destruct (String.eqb_spec e' e) as [->|He]; simpl.
  1: { split; [discriminate | tauto]. }
  all: specialize (IH ends); destruct (findEdge s e starts ends) as [j|].
  all: split; intros H; try discriminate; try reflexivity.
  all: try (exfalso;
            assert (Hn : ~ In (s, e) (combine starts ends))
              by (intros Hi; apply H; right; exact Hi);
            apply IH in Hn; discriminate).
  all: intros [Hx|Hx]; [congruence | apply (proj1 IH); auto].
Qed.

Lemma WF_VOK g : WF g -> VOK g.
Proof. intros [H1 H2 _ _ _]. split; assumption. Qed.

Lemma vertexOfId_Some g x v :
  VOK g -> vertexOfId g x = Some v -> v_id v = x /\ In v (vertexArray g).
Proof.
  intros [Hids _]. unfold vertexOfId.
  destruct (indexOf x (vertexIdArray g)) as [i|] eqn:E; [|discriminate].
  intros Hn. apply indexOf_Some in E. destruct E as [E _].
  rewrite Hids in E. rewrite (map_nth_error v_id _ _ Hn) in E.
  inversion E. split; [reflexivity | eapply nth_error_In; eauto].
Qed.

Lemma vertexOfId_In g v :
  VOK g -> In v (vertexArray g) -> vertexOfId g (v_id v) = Some v.
Proof.
  intros [Hids Hnd] Hin. apply In_nth_error in Hin. destruct Hin as [i Hi].
  unfold vertexOfId. rewrite (indexOf_nth_NoDup _ Hnd i (v_id v)); [assumption|].
  rewrite Hids. apply map_nth_error. assumption.
Qed.

Lemma vertexOfId_id g x :
  VOK g -> In x (vertexIdArray g) -> exists v, vertexOfId g x = Some v.
Proof.
  intros [Hids Hnd] Hin. rewrite Hids in Hin. apply in_map_iff in Hin.
  destruct Hin as [v [<- Hv]]. exists v. apply vertexOfId_In; [split|]; assumption.
Qed.

Lemma v_id_inj g u v :
  VOK g -> In u (vertexArray g) -> In v (vertexArray g) ->
  v_id u = v_id v -> u = v.
Proof.
  intros Hok Hu Hv Heq.
  pose proof (vertexOfId_In g u Hok Hu) as H1.
  pose proof (vertexOfId_In g v Hok Hv) as H2.
  rewrite Heq in H1. congruence.
Qed.

Lemma getVertex_vertexOfId g x :
  VOK g -> In x (vertexIdArray g) ->
  exists v, getVertex g x = Return v /\ vertexOfId g x = Some v.
Proof.
  intros Hok Hin. destruct (vertexOfId_id g x Hok Hin) as [v Hv]. exists v.
  split; [|assumption]. unfold getVertex, vertexOfId in *.
  destruct (indexOf x (vertexIdArray g)); [|discriminate].
  rewrite Hv. reflexivity.
Qed.

Lemma withEdges_id g :
  withEdges g (startVertexIdArray g) (endVertexIdArray g) = g.
Proof. destruct g; reflexivity. Qed.

(** ** Lemmas on the edge arrays *)

Lemma removeEdge_In g s e :
  In (s, e) (edges g) ->
  exists i,
    removeEdge s e g =
      (Return tt, withEdges g (splice1 i (startVertexIdArray g))
                              (splice1 i (endVertexIdArray g)))
    /\ nth_error (edges g) i = Some (s, e)
    /\ i < length (startVertexIdArray g).
Proof.
  intros Hin. unfold removeEdge.
  destruct (findEdge s e (startVertexIdArray g) (endVertexIdArray g)) as [i|] eqn:E.
  - exists i. apply findEdge_Some in E. tauto.
  - apply findEdge_None in E. contradiction.
Qed.

Lemma filter_nil_iff A (f : A -> bool) l :
  filter f l = [] <-> forall x, In x l -> f x = false.
Proof.
  induction l as [|a l IH]; simpl.
  - split; [intros _ x [] | reflexivity].
  - destruct (f a) eqn:Fa.
    + split; [discriminate|]. intros H. specialize (H a (or_introl eq_refl)). congruence.
    + rewrite IH. split.
      * intros H x [<-|Hx]; auto.
      * intros H x Hx. apply H. auto.
Qed.

Lemma indegree_zero g c :
  indegree g c = 0 <-> forall s, ~ In (s, c) (edges g).
Proof.
  unfold indegree. rewrite length_zero_iff_nil, filter_nil_iff. split.
  - intros H s Hin. specialize (H _ Hin). simpl in H.
    rewrite String.eqb_refl in H. discriminate.
  - intros H [s e] Hin. simpl. destruct (String.eqb_spec e c) as [->|]; [|reflexivity].
    exfalso. eapply H; eauto.
Qed.

Lemma in_combine_ends (ss es : list string) e :
  length ss = length es ->
  (In e es <-> exists s, In (s, e) (combine ss es)).
Proof.
  revert es; induction ss as [|s ss IH]; intros [|e' es] Hlen; simpl in *;
    try discriminate.
  - split; [tauto | intros [_ []]].
  - injection Hlen as Hlen. specialize (IH es Hlen). split.
    + intros [->|Hin]; [exists s; auto|].
      apply IH in Hin. destruct Hin as [s0 Hs0]. exists s0. auto.
    + intros [s0 [Heq|Hin]]; [inversion Heq; auto|].
      right. apply IH. eauto.
Qed.

Lemma NoDup_map_filter A B (f : A -> B) (p : A -> bool) l :
  NoDup (map f l) -> NoDup (map f (filter p l)).
Proof.
  induction l as [|a l IH]; simpl; intros H; [constructor|].
  inversion H as [|? ? Hnin Hnd]; subst. destruct (p a); simpl; auto.
  constructor; auto. intros Hin. apply Hnin.
  apply in_map_iff in Hin. destruct Hin as [x [Hx Hin]].
  apply filter_In in Hin. apply in_map_iff. exists x. tauto.
Qed.

Lemma childIds_In E n c : In c (childIds E n) <-> In (n, c) E.
Proof.
  unfold childIds. rewrite in_map_iff. split.
  - intros [[s e] [<- Hin]]. apply filter_In in Hin. simpl in *.
    destruct Hin as [Hin Heq]. apply String.eqb_eq in Heq. subst. assumption.
  - intros Hin. exists (n, c). split; [reflexivity|]. apply filter_In.
    simpl. rewrite String.eqb_refl. auto.
Qed.

Lemma childIds_NoDup E n : NoDup E -> NoDup (childIds E n).
Proof.
  unfold childIds. induction 1 as [|[s e] E Hnin Hnd IH]; simpl; [constructor|].
  destruct (String.eqb_spec s n) as [->|Hne]; simpl; [|assumption].
  constructor; [|assumption]. intros Hin. apply Hnin.
  apply (proj1 (childIds_In E n e)). exact Hin.
Qed.

Lemma getChildVertices_childIds g n :
  getChildVertices g n = map (vertexOfId g) (childIds (edges g) n).
Proof. unfold getChildVertices, childIds. rewrite map_map. reflexivity. Qed.

(** ** The loops of [topologicalSort] *)

Lemma visitChildren_spec g0 n :
  VOK g0 ->
  forall cs ss es Ss,
    length ss = length es ->
    NoDup (combine ss es) ->
    NoDup cs ->
    (forall c, In c cs ->
               In (v_id n, c) (combine ss es) /\ In c (vertexIdArray g0)) ->
    exists ss' es' pushed,
      visitChildren n (map (vertexOfId g0) cs) Ss (withEdges g0 ss es)
        = (Return (Ss ++ pushed), withEdges g0 ss' es')
      /\ length ss' = length es'
      /\ NoDup (combine ss' es')
      /\ (forall p, In p (combine ss' es') <->
                    In p (combine ss es) /\ ~ (fst p = v_id n /\ In (snd p) cs))
      /\ (forall v, In v pushed <->
                    In v (vertexArray g0) /\ In (v_id v) cs /\
                    forall s, In (s, v_id v) (combine ss es) -> s = v_id n)
      /\ NoDup (map v_id pushed)
      /\ length pushed + length ss' <= length ss.
Proof.
  intros Hok. induction cs as [|c rest IH]; intros ss es Ss Hlen HndE Hndc Hcs.
  - exists ss, es, []. simpl. rewrite app_nil_r.
    repeat split; auto; try tauto; try constructor.
  - destruct (Hcs c (or_introl eq_refl)) as [Hedge Hcid].
    destruct (vertexOfId_id g0 c Hok Hcid) as [m Hm].
    destruct (vertexOfId_Some g0 c m Hok Hm) as [Hmid HmV].
    inversion Hndc as [|? ? Hcnin Hndrest]; subst.
    destruct (removeEdge_In (withEdges g0 ss es) (v_id n) (v_id m) Hedge)
      as [i [Hrm [Hnth Hi]]].
    simpl in Hrm, Hnth, Hi. unfold edges in Hnth. simpl in Hnth.
    set (ss1 := splice1 i ss) in *. set (es1 := splice1 i es) in *.
    assert (HE1 : forall p, In p (combine ss1 es1) <->
                            In p (combine ss es) /\ p <> (v_id n, v_id m)).
    { intros p. unfold ss1, es1. rewrite splice1_combine.
      apply splice1_In_iff; assumption. }
    assert (Hlen1 : length ss1 = length es1).
    { pose proof (splice1_length _ ss i Hi).
      assert (i < length es) by lia.
      pose proof (splice1_length _ es i H0). unfold ss1, es1. lia. }
    assert (HndE1 : NoDup (combine ss1 es1)).
    { unfold ss1, es1. rewrite splice1_combine. apply splice1_NoDup. assumption. }
    set (d := indegree (withEdges g0 ss1 es1) (v_id m)).
    assert (Hd : d = 0 <->
                 forall s, In (s, v_id m) (combine ss es) -> s = v_id n).
    { unfold d. rewrite indegree_zero. unfold edges. simpl. split.
      - intros H s Hs. destruct (string_dec s (v_id n)) as [|Hne]; [assumption|].
        exfalso. apply (H s). apply HE1. split; [assumption|]. congruence.
      - intros H s Hs. apply HE1 in Hs. destruct Hs as [Hs Hne].
        apply Hne. rewrite (H s Hs). reflexivity. }
    destruct (IH ss1 es1 (if Nat.eqb d 0 then Ss ++ [m] else Ss)
                 Hlen1 HndE1 Hndrest) as [ss' [es' [pushed HIH]]].
    { intros c' Hc'. destruct (Hcs c' (or_intror Hc')) as [He' Hid'].
      split; [|assumption]. apply HE1. split; [assumption|].
      intros Heq. inversion Heq. apply Hcnin. congruence. }
    destruct HIH as [Hrun [Hlen' [HndE' [HE' [Hpushed [Hndp Hmeasure]]]]]].
    exists ss', es', ((if Nat.eqb d 0 then [m] else []) ++ pushed).
    split.
    { simpl. rewrite Hm. simpl. unfold bind at 1. rewrite Hrm.
      unfold bind at 1. unfold gets at 1.
      change (withEdges (withEdges g0 ss es) ss1 es1) with (withEdges g0 ss1 es1).
      fold d. rewrite Hrun.
      destruct (Nat.eqb d 0); [rewrite <- app_assoc|]; reflexivity. }
    split; [assumption|]. split; [assumption|].
    pose proof (splice1_length _ ss i Hi) as Hl1. fold ss1 in Hl1.
    repeat split.
    + apply HE' in H. destruct H as [H _]. apply HE1 in H. tauto.
    + intros [Hf Hs]. apply HE' in H. destruct H as [H Hnot].
      apply HE1 in H. destruct H as [H Hne]. destruct Hs as [Hs|Hs].
      * apply Hne. destruct p; simpl in *. congruence.
      * tauto.
    + intros [Hin Hnot]. apply HE'. split.
      * apply HE1. split; [assumption|]. intros ->. apply Hnot. simpl. auto.
      * intros [Hf Hs]. apply Hnot. simpl. auto.
    + apply in_app_or in H. destruct H as [H|H].
      * destruct (Nat.eqb d 0); [|destruct H].
        destruct H as [<-|[]]. assumption.
      * apply Hpushed in H. tauto.
    + apply in_app_or in H. destruct H as [H|H].
      * destruct (Nat.eqb d 0); [|destruct H].
        destruct H as [<-|[]]. left. auto.
      * apply Hpushed in H. right. tauto.
    + intros s Hs. apply in_app_or in H. destruct H as [H|H].
      * destruct (Nat.eqb_spec d 0) as [Hd0|]; [|destruct H].
        destruct H as [<-|[]]. apply Hd; assumption.
      * apply Hpushed in H. destruct H as [_ [Hrest Hall]]. apply Hall.
        apply HE1. split; [assumption|]. intros Heq. inversion Heq.
        apply Hcnin. congruence.
    + intros [HvV [[Hvc|Hvc] Hall]]; apply in_or_app.
      * left. assert (v = m) by (apply (v_id_inj g0); auto; congruence). subst v.
        assert (Hd0 : d = 0) by (apply Hd; assumption).
        rewrite Hd0. simpl. auto.
      * right. apply Hpushed. repeat split; auto.
        intros s Hs. apply Hall. apply HE1 in Hs. tauto.
    + rewrite map_app. apply NoDup_app.
      * destruct (Nat.eqb d 0); simpl; repeat constructor. intros [].
      * assumption.
      * intros x Hx1 Hx2. destruct (Nat.eqb d 0); [|destruct Hx1].
        destruct Hx1 as [<-|[]]. apply in_map_iff in Hx2.
        destruct Hx2 as [v [Hv Hvin]]. apply Hpushed in Hvin.
        apply Hcnin. rewrite <- Hv. tauto.
    + rewrite length_app. destruct (Nat.eqb d 0); simpl; lia.
Qed.

Lemma pop_Some A (l : list A) x r : pop l = Some (x, r) -> l = r ++ [x].
Proof.
  unfold pop. destruct (rev l) as [|y t] eqn:E; [discriminate|].
  intros H. inversion H; subst. rewrite <- (rev_involutive l), E. reflexivity.
Qed.

Lemma pop_None A (l : list A) : pop l = None -> l = [].
Proof.
  unfold pop. destruct (rev l) as [|y t] eqn:E; [|discriminate].
  intros _. rewrite <- (rev_involutive l), E. reflexivity.
Qed.

Lemma before_snoc l a b x : before l a b -> before (l ++ [x]) a b.
Proof.
  intros [l1 [l2 [l3 ->]]]. exists l1, l2, (l3 ++ [x]).
  rewrite <- !app_assoc. simpl. rewrite <- !app_assoc. reflexivity.
Qed.

Lemma kahn_step g0 ss es Ss' n L :
  WF g0 -> length ss = length es ->
  KahnInv g0 (combine ss es) (Ss' ++ [n]) L ->
  exists ss' es' pushed,
    visitChildren n (getChildVertices (withEdges g0 ss es) (v_id n)) Ss'
                  (withEdges g0 ss es)
      = (Return (Ss' ++ pushed), withEdges g0 ss' es')
    /\ length ss' = length es'
    /\ KahnInv g0 (combine ss' es') (Ss' ++ pushed) (L ++ [n])
    /\ length pushed + length ss' <= length ss.
Proof.
  intros Hwf Hlen [I1 I2 I3 I4 I5 I6].
  pose proof (WF_VOK g0 Hwf) as Hok.
  set (E := combine ss es) in *.
  assert (HnV : In n (vertexArray g0)).
  { apply I2. apply in_or_app. right. apply in_or_app. right. left. reflexivity. }
  assert (Hn0 : forall s, ~ In (s, v_id n) E).
  { apply I4; [assumption|]. apply in_or_app. right. apply in_or_app. right.
    left. reflexivity. }
  destruct (visitChildren_spec g0 n Hok (childIds E (v_id n)) ss es Ss'
              Hlen I6 (childIds_NoDup E (v_id n) I6))
    as [ss' [es' [pushed [Hrun [Hlen' [HndE' [HE' [Hp [Hndp Hm]]]]]]]]].
  { intros c Hc. apply childIds_In in Hc. split; [assumption|].
    apply I3 in Hc. destruct Hc as [Hc _].
    apply (wf_endpoints g0 Hwf) in Hc. tauto. }
  exists ss', es', pushed. split.
  { rewrite getChildVertices_childIds. exact Hrun. }
  split; [assumption|]. split; [|assumption].
  set (E' := combine ss' es') in *.
  assert (HE'' : forall p, In p E' <-> In p E /\ fst p <> v_id n).
  { intros p. rewrite HE'. split.
    - intros [Hin Hnot]. split; [assumption|]. intros Hf. apply Hnot.
      split; [assumption|]. apply childIds_In. destruct p; simpl in *.
      subst. assumption.
    - intros [Hin Hne]. split; [assumption|]. tauto. }
  assert (Hpushed_edge : forall v, In v pushed -> In (v_id n, v_id v) E).
  { intros v Hv. apply Hp in Hv. apply childIds_In. tauto. }
  constructor.
  - apply Permutation_NoDup
      with (l := map v_id ((L ++ Ss' ++ [n]) ++ pushed)).
    + apply Permutation_map. rewrite <- !app_assoc.
      apply Permutation_app_head. rewrite !app_assoc.
      apply Permutation_app_tail. apply Permutation_app_comm.
    + rewrite map_app. apply NoDup_app; [assumption | assumption |].
      intros x Hx1 Hx2. apply in_map_iff in Hx1. destruct Hx1 as [u [Hu Hu1]].
      apply in_map_iff in Hx2. destruct Hx2 as [v [Hv Hv1]].
      assert (HuV : In u (vertexArray g0)) by (apply I2; assumption).
      assert (HvV : In v (vertexArray g0)) by (apply Hp in Hv1; tauto).
      assert (u = v) by (apply (v_id_inj g0); auto; congruence). subst u.
      apply (proj1 (I4 v HvV) Hu1 (v_id n)). apply Hpushed_edge. assumption.
  - intros v Hv. rewrite <- app_assoc in Hv. apply in_app_or in Hv.
    destruct Hv as [Hv|Hv]; [apply I2; apply in_or_app; auto|].
    simpl in Hv. destruct Hv as [<-|Hv]; [assumption|].
    apply in_app_or in Hv. destruct Hv as [Hv|Hv].
    + apply I2. apply in_or_app. right. apply in_or_app. auto.
    + apply Hp in Hv. tauto.
  - intros p. rewrite HE'', I3, map_app, in_app_iff. simpl. split.
    + intros [[Hin Hnot] Hne]. split; [assumption|].
      intros [H|[H|[]]]; [tauto | congruence].
    + intros [Hin Hnot]. repeat split; auto.
  - intros v HvV. split.
    + intros Hin s Hs. apply HE'' in Hs. destruct Hs as [Hs Hne]. simpl in Hne.
      rewrite <- app_assoc in Hin. simpl in Hin.
      assert (Hcase : In v (L ++ Ss' ++ [n]) \/ In v pushed).
      { rewrite in_app_iff in Hin. simpl in Hin. rewrite in_app_iff in Hin.
        rewrite !in_app_iff. simpl. tauto. }
      destruct Hcase as [Hold|Hnew].
      * apply (proj1 (I4 v HvV) Hold s). assumption.
      * apply Hp in Hnew. destruct Hnew as [_ [_ Hall]]. apply Hne.
        apply Hall. assumption.
    + intros Hnone.
      destruct (filter (fun se => String.eqb (snd se) (v_id v)) E) as [|p t] eqn:EF.
      * assert (Hold : In v (L ++ Ss' ++ [n])).
        { apply I4; [assumption|]. intros s Hs.
          pose proof (proj1 (filter_nil_iff _ _ E) EF (s, v_id v) Hs) as Hf.
          simpl in Hf. rewrite String.eqb_refl in Hf. discriminate. }
        rewrite !in_app_iff in Hold. simpl in Hold.
        rewrite !in_app_iff. simpl. tauto.
      * assert (Hpin : In p (filter (fun se => String.eqb (snd se) (v_id v)) E))
          by (rewrite EF; left; reflexivity).
        apply filter_In in Hpin. destruct Hpin as [HpE Hpv].
        destruct p as [s e]. simpl in Hpv. apply String.eqb_eq in Hpv. subst e.
        assert (Hall : forall s', In (s', v_id v) E -> s' = v_id n).
        { intros s' Hs'. destruct (string_dec s' (v_id n)) as [|Hne]; [assumption|].
          exfalso. apply (Hnone s'). apply HE''. split; assumption. }
        assert (Hnew : In v pushed).
        { apply Hp. repeat split; auto. apply childIds_In.
          rewrite <- (Hall s HpE). assumption. }
        rewrite !in_app_iff. tauto.
  - intros s e Hedge He. rewrite map_app in *. simpl in *.
    apply in_app_or in He.
    assert (Hcase : In e (map v_id L) \/ e = v_id n).
    { destruct He as [He|[He|[]]]; auto. }
    destruct Hcase as [Hold| ->].
    + apply before_snoc. apply I5; assumption.
    + destruct (in_dec string_dec s (map v_id L)) as [HsL|HsL].
      * apply in_split in HsL. destruct HsL as [l1 [l2 Heq]].
        exists l1, l2, []. rewrite Heq. rewrite <- app_assoc. reflexivity.
      * exfalso. apply (Hn0 s). apply I3. split; assumption.
  - assumption.
Qed.

Lemma kahnLoop_spec g0 :
  WF g0 ->
  forall fuel ss es Ss L,
    length ss = length es ->
    KahnInv g0 (combine ss es) Ss L ->
    length Ss + length ss < fuel ->
    exists L' ss' es',
      kahnLoop fuel Ss L (withEdges g0 ss es) = (Return L', withEdges g0 ss' es')
      /\ length ss' = length es'
      /\ KahnInv g0 (combine ss' es') [] L'.
Proof.
  intros Hwf. induction fuel as [|fuel IH]; intros ss es Ss L Hlen Hinv Hfuel;
    [lia|].
  simpl. destruct (pop Ss) as [[n Ss']|] eqn:Hpop.
  - apply pop_Some in Hpop. subst Ss.
    destruct (kahn_step g0 ss es Ss' n L Hwf Hlen Hinv)
      as [ss1 [es1 [pushed [Hrun [Hlen1 [Hinv1 Hm]]]]]].
    rewrite length_app in Hfuel. simpl in Hfuel.
    destruct (IH ss1 es1 (Ss' ++ pushed) (L ++ [n]) Hlen1 Hinv1)
      as [L' [ss' [es' [Hloop [Hlen' Hinv']]]]].
    { rewrite length_app. lia. }
    exists L', ss', es'. split; [|split; assumption].
    unfold bind at 1. unfold gets at 1. unfold bind at 1.
    rewrite Hrun. exact Hloop.
  - apply pop_None in Hpop. subst Ss. exists L, ss, es. auto.
Qed.

Lemma KahnInv_init g0 :
  WF g0 -> KahnInv g0 (edges g0) (getVerticesWithIndegree0 g0) [].
Proof.
  intros Hwf. pose proof (WF_VOK g0 Hwf) as [Hids Hnd]. constructor; simpl.
  - unfold getVerticesWithIndegree0. apply NoDup_map_filter.
    rewrite <- Hids. assumption.
  - intros v Hv. apply filter_In in Hv. tauto.
  - intros p. tauto.
  - intros v HvV. unfold getVerticesWithIndegree0. rewrite filter_In. split.
    + intros [_ Hz] s Hs.
      destruct (indexOf (v_id v) (endVertexIdArray g0)) eqn:E; [discriminate|].
      apply indexOf_None in E. apply E.
      apply (in_combine_ends (startVertexIdArray g0)); [apply Hwf|]. eauto.
    + intros Hnone. split; [assumption|].
      destruct (indexOf (v_id v) (endVertexIdArray g0)) eqn:E; [|reflexivity].
      exfalso. apply indexOf_Some in E. destruct E as [E _].
      apply nth_error_In in E.
      apply (in_combine_ends (startVertexIdArray g0)) in E; [|apply Hwf].
      destruct E as [s Hs]. apply (Hnone s). exact Hs.
  - intros s e _ [].
  - apply Hwf.
Qed.

(** [topologicalSort] on a well-formed graph: the loop ends, the edge
    arrays are put back, and the result is the output of the loop, or [[]]
    when edges were left. *)
Lemma topologicalSort_run g :
  WF g ->
  exists L ss es,
    topologicalSort g =
      (Return (if Nat.ltb 0 (length ss) then [] else L), g)
    /\ length ss = length es
    /\ KahnInv g (combine ss es) [] L.
Proof.
  intros Hwf.
  destruct (kahnLoop_spec g Hwf
              (length (getVerticesWithIndegree0 g) + edgeCount g + 1)
              (startVertexIdArray g) (endVertexIdArray g)
              (getVerticesWithIndegree0 g) [])
    as [L [ss [es [Hloop [Hlen Hinv]]]]].
  - apply Hwf.
  - apply KahnInv_init. assumption.
  - unfold edgeCount. lia.
  - exists L, ss, es. split; [|split; assumption].
    rewrite withEdges_id in Hloop.
    unfold topologicalSort, bind, gets, setEdgeInfo, modify, ret, getEdgeInfo.
    rewrite Hloop. unfold edgeCount. simpl.
    destruct (Nat.ltb 0 (length ss)); simpl;
      (change (withEdges (withEdges g ss es) (startVertexIdArray g) (endVertexIdArray g))
         with (withEdges g (startVertexIdArray g) (endVertexIdArray g)));
      rewrite withEdges_id; reflexivity.
Qed.

(** ** The fuel of the loop is enough, on every graph *)

Lemma removeEdge_measure s e g :
  match removeEdge s e g with
  | (Return _, g') => edgeCount g' + 1 = edgeCount g
  | (Throw _, _) => True
  | (OutOfFuel, _) => False
  end.
Proof.
  unfold removeEdge.
  destruct (findEdge s e (startVertexIdArray g) (endVertexIdArray g)) as [i|] eqn:E;
    [|exact I].
  apply findEdge_Some in E. destruct E as [_ Hi].
  unfold edgeCount. simpl. apply splice1_length. exact Hi.
Qed.

Lemma visitChildren_measure n childNodes :
  forall Ss g,
    match visitChildren n childNodes Ss g with
    | (Return Ss', g') => length Ss' + edgeCount g' <= length Ss + edgeCount g
    | (Throw _, _) => True
    | (OutOfFuel, _) => False
    end.
Proof.
  induction childNodes as [|[m|] rest IH]; intros Ss g; simpl; [lia | | exact I].
  unfold bind at 1. pose proof (removeEdge_measure (v_id n) (v_id m) g) as Hrm.
  destruct (removeEdge (v_id n) (v_id m) g) as [[[]| |] g1]; try exact Hrm.
  unfold bind at 1. unfold gets at 1.
  specialize (IH (if Nat.eqb (indegree g1 (v_id m)) 0 then Ss ++ [m] else Ss) g1).
  destruct (visitChildren n rest _ g1) as [[Ss'| |] g']; try exact IH.
  destruct (Nat.eqb (indegree g1 (v_id m)) 0); [rewrite length_app in IH; simpl in IH|];
    lia.
Qed.

Lemma kahnLoop_fuel fuel :
  forall Ss L g,
    length Ss + edgeCount g < fuel -> fst (kahnLoop fuel Ss L g) <> OutOfFuel.
Proof.
  induction fuel as [|fuel IH]; intros Ss L g Hfuel; [lia|]. simpl.
  destruct (pop Ss) as [[n Ss']|] eqn:Hpop; [|discriminate].
  apply pop_Some in Hpop. subst Ss. rewrite length_app in Hfuel. simpl in Hfuel.
  unfold bind at 1. unfold gets at 1. unfold bind at 1.
  pose proof (visitChildren_measure n (getChildVertices g (v_id n)) Ss' g) as Hm.
  destruct (visitChildren n (getChildVertices g (v_id n)) Ss' g) as [[Ss''| |] g'].
  - apply IH. lia.
  - discriminate.
  - destruct Hm.
Qed.

Lemma topologicalSort_total g : fst (topologicalSort g) <> OutOfFuel.
Proof.
  unfold topologicalSort, bind, gets, getEdgeInfo, setEdgeInfo, modify, ret.
  pose proof (kahnLoop_fuel (length (getVerticesWithIndegree0 g) + edgeCount g + 1)
                (getVerticesWithIndegree0 g) [] g) as H.
  destruct (kahnLoop _ _ _ g) as [[L| |] g']; simpl in *.
  - destruct (Nat.ltb 0 (edgeCount g')); discriminate.
  - discriminate.
  - apply H. lia.
Qed.

(** ** Orders and cycles *)

Lemma pos_app x l r : ~ In x l -> pos x (l ++ x :: r) = length l.
Proof.
  induction l as [|y l IH]; simpl; intros H.
  - rewrite String.eqb_refl. reflexivity.
  - destruct (String.eqb_spec y x) as [->|Hne]; [tauto|].
    rewrite IH; tauto.
Qed.

Lemma before_pos l a b : NoDup l -> before l a b -> pos a l < pos b l.
Proof.
  intros Hnd [l1 [l2 [l3 Heq]]]. subst l.
  assert (Ha : ~ In a l1).
  { apply NoDup_remove_2 in Hnd. intros H. apply Hnd. apply in_or_app. auto. }
  rewrite (pos_app a l1 _ Ha).
  replace (l1 ++ a :: l2 ++ b :: l3) with ((l1 ++ a :: l2) ++ b :: l3) in *
    by (rewrite <- app_assoc; reflexivity).
  assert (Hb : ~ In b (l1 ++ a :: l2)).
  { apply NoDup_remove_2 in Hnd. intros H. apply Hnd. apply in_or_app. auto. }
  rewrite (pos_app b _ _ Hb). rewrite length_app. simpl. lia.
Qed.

Lemma path_pos E l :
  NoDup l -> (forall s e, In (s, e) E -> before l s e) ->
  forall a b, path E a b -> pos a l < pos b l.
Proof.
  intros Hnd Hord a b Hp. induction Hp as [a b Hab|a b c Hab _ IH].
  - apply before_pos; auto.
  - pose proof (before_pos l a b Hnd (Hord a b Hab)). lia.
Qed.

Lemma walk_app_r E l1 l2 : walk E (l1 ++ l2) -> walk E l2.
Proof.
  induction l1 as [|a l1 IH]; simpl; [auto|].
  destruct (l1 ++ l2) eqn:Eq; intros H.
  - destruct l1; [simpl in Eq; subst; exact I | discriminate].
  - apply IH. tauto.
Qed.

Lemma walk_path E a l b : walk E (a :: l ++ [b]) -> path E a b.
Proof.
  revert a; induction l as [|x l IH]; intros a; simpl.
  - intros [H _]. constructor. assumption.
  - intros [H Hw]. apply path_step with x; [assumption|]. apply IH. exact Hw.
Qed.

Lemma walk_prefix E l1 l2 : walk E (l1 ++ l2) -> walk E l1.
Proof.
  induction l1 as [|a l1 IH]; simpl; [auto|].
  destruct l1 as [|b l1]; simpl in *; [auto|].
  intros [H Hw]. split; [assumption|]. apply IH. exact Hw.
Qed.

Lemma repeated_entry (l : list string) :
  ~ NoDup l -> exists x l1 l2 l3, l = l1 ++ x :: l2 ++ x :: l3.
Proof.
  induction l as [|a l IH]; intros H.
  - exfalso. apply H. constructor.
  - destruct (in_dec string_dec a l) as [Hin|Hnin].
    + apply in_split in Hin. destruct Hin as [l2 [l3 ->]].
      exists a, [], l2, l3. reflexivity.
    + destruct IH as [x [l1 [l2 [l3 ->]]]].
      * intros Hnd. apply H. constructor; assumption.
      * exists x, (a :: l1), l2, l3. reflexivity.
Qed.

(** Walking backwards from a vertex inside a set closed under "has a
    predecessor in the set". *)
Lemma walk_back E (P : string -> Prop) :
  (forall u, P u -> exists s, In (s, u) E /\ P s) ->
  forall k u, P u ->
    exists l, length l = k /\ walk E (l ++ [u]) /\ forall x, In x l -> P x.
Proof.
  intros Hpred. induction k as [|k IH]; intros u Hu.
  - exists []. simpl. repeat split; auto. intros x [].
  - destruct (Hpred u Hu) as [s [Hs HPs]].
    destruct (IH s HPs) as [l [Hlen [Hw HP]]].
    exists (l ++ [s]). rewrite length_app. simpl. split; [lia|]. split.
    + rewrite <- app_assoc. simpl. clear - Hw Hs.
      induction l as [|a l IHl]; simpl in *; [auto|].
      destruct (l ++ [s]) eqn:E1.
      * destruct l; discriminate.
      * destruct (l ++ [s; u]) eqn:E2.
        { destruct l; discriminate. }
        assert (s0 = s1).
        { destruct l; simpl in *; congruence. }
        subst. split; [tauto|]. apply IHl. tauto.
    + intros x Hx. apply in_app_or in Hx. destruct Hx as [Hx|[<-|[]]]; auto.
Qed.

Lemma closed_set_cycle E (V : list string) (P : string -> Prop) u :
  (forall x, P x -> In x V) ->
  (forall x, P x -> exists s, In (s, x) E /\ P s) ->
  P u -> exists v, path E v v.
Proof.
  intros HV Hpred Hu.
  destruct (walk_back E P Hpred (S (length V)) u Hu) as [l [Hlen [Hw HP]]].
  assert (Hdup : ~ NoDup l).
  { intros Hnd. assert (incl l V) by (intros x Hx; auto).
    pose proof (NoDup_incl_length Hnd H). lia. }
  apply repeated_entry in Hdup. destruct Hdup as [x [l1 [l2 [l3 ->]]]].
  exists x. apply (walk_path E x l2 x).
  rewrite <- app_assoc in Hw. apply walk_app_r in Hw.
  replace ((x :: l2 ++ x :: l3) ++ [u]) with ((x :: l2 ++ [x]) ++ (l3 ++ [u])) in Hw
    by (simpl; rewrite <- !app_assoc; reflexivity).
  apply walk_prefix in Hw. exact Hw.
Qed.

(** ** [topologicalSort] on a well-formed graph *)

Lemma KahnInv_done_all g L :
  WF g -> KahnInv g [] [] L ->
  NoDup (vertexIdsFromArray L)
  /\ (forall x, In x (vertexIdsFromArray L) <-> In x (vertexIdArray g))
  /\ (forall s e, In (s, e) (edges g) -> before (vertexIdsFromArray L) s e).
Proof.
  intros Hwf [I1 I2 I3 I4 I5 I6]. rewrite app_nil_r in *.
  unfold vertexIdsFromArray.
  assert (Hall : forall x, In x (map v_id L) <-> In x (vertexIdArray g)).
  { intros x. rewrite (wf_ids g Hwf), !in_map_iff. split.
    - intros [v [Hv Hin]]. exists v. split; [assumption|]. apply I2. assumption.
    - intros [v [Hv Hin]]. exists v. split; [assumption|].
      apply (I4 v Hin). intros s []. }
  repeat split; try assumption; try apply Hall.
  intros s e Hse. apply I5; [assumption|]. apply Hall.
  apply (wf_endpoints g Hwf s e Hse).
Qed.

Lemma KahnInv_done_cycle g L ss es :
  WF g -> length ss = length es -> 0 < length ss ->
  KahnInv g (combine ss es) [] L -> has_cycle g.
Proof.
  intros Hwf Hlen Hpos [I1 I2 I3 I4 I5 I6]. rewrite app_nil_r in *.
  set (P := fun x => In x (vertexIdArray g) /\ ~ In x (map v_id L)).
  assert (Hpred : forall x, P x -> exists s, In (s, x) (edges g) /\ P s).
  { intros x [HxV HxL]. rewrite (wf_ids g Hwf) in HxV.
    apply in_map_iff in HxV. destruct HxV as [v [<- HvV]].
    destruct (filter (fun se => String.eqb (snd se) (v_id v)) (combine ss es))
      as [|p t] eqn:EF.
    - exfalso. apply HxL. apply in_map. apply (I4 v HvV). intros s Hs.
      pose proof (proj1 (filter_nil_iff _ _ _) EF (s, v_id v) Hs) as Hf.
      simpl in Hf. rewrite String.eqb_refl in Hf. discriminate.
    - assert (Hpin : In p (p :: t)) by (left; reflexivity).
      rewrite <- EF in Hpin. apply filter_In in Hpin.
      destruct Hpin as [HpE Hpv]. destruct p as [s e]. simpl in Hpv.
      apply String.eqb_eq in Hpv. subst e. apply I3 in HpE. simpl in HpE.
      exists s. split; [tauto|]. split; [|tauto].
      apply (wf_endpoints g Hwf s (v_id v)). tauto. }
  destruct ss as [|s ss]; [simpl in Hpos; lia|].
  destruct es as [|e es]; [discriminate|].
  assert (Hse : In (s, e) (combine (s :: ss) (e :: es))) by (left; reflexivity).
  apply I3 in Hse. simpl in Hse.
  apply (closed_set_cycle (edges g) (vertexIdArray g) P s).
  - intros x Hx. apply Hx.
  - exact Hpred.
  - split; [|tauto]. apply (wf_endpoints g Hwf s e). tauto.
Qed.

Lemma ordered_acyclic g l :
  NoDup l -> (forall s e, In (s, e) (edges g) -> before l s e) -> ~ has_cycle g.
Proof.
  intros Hnd Hord [v Hv].
  pose proof (path_pos (edges g) l Hnd Hord v v Hv). lia.
Qed.

Lemma topologicalSort_result g :
  WF g ->
  exists L,
    topologicalSort g = (Return L, g)
    /\ (L = [] <-> has_cycle g \/ vertexCount g = 0)
    /\ (~ has_cycle g ->
        NoDup (vertexIdsFromArray L)
        /\ (forall x, In x (vertexIdsFromArray L) <-> In x (vertexIdArray g))
        /\ (forall s e, In (s, e) (edges g) ->
                        before (vertexIdsFromArray L) s e)).
Proof.
  intros Hwf. destruct (topologicalSort_run g Hwf) as [L [ss [es [Hrun [Hlen Hinv]]]]].
  destruct (Nat.ltb_spec 0 (length ss)) as [Hpos|Hzero].
  - pose proof (KahnInv_done_cycle g L ss es Hwf Hlen Hpos Hinv) as Hcyc.
    exists []. split; [assumption|]. split; [tauto|]. tauto.
  - assert (ss = []) by (destruct ss; [reflexivity | simpl in Hzero; lia]).
    subst ss. simpl in Hinv.
    destruct (KahnInv_done_all g L Hwf Hinv) as [Hnd [Hall Hord]].
    pose proof (ordered_acyclic g _ Hnd Hord) as Hacyc.
    exists L. split; [assumption|]. split; [|auto].
    unfold vertexCount. split.
    + intros ->. right. destruct (vertexArray g) as [|v vs] eqn:EV; [reflexivity|].
      exfalso. apply (proj2 (Hall (v_id v))).
      rewrite (wf_ids g Hwf), EV. left. reflexivity.
    + intros [Hc|Hz]; [contradiction|].
      apply length_zero_iff_nil in Hz.
      destruct L as [|v L]; [reflexivity|]. exfalso.
      assert (Hv : In (v_id v) (vertexIdArray g)) by (apply Hall; left; reflexivity).
      rewrite (wf_ids g Hwf), Hz in Hv. exact Hv.
Qed.

Ltac solve_NoDup :=
  repeat (constructor; [simpl; intuition discriminate|]); constructor.

Ltac solve_WF :=
  constructor; vm_compute;
  [ reflexivity
  | solve_NoDup
  | reflexivity
  | intros s e H;
    repeat (destruct H as [H|H]; [inversion H; subst; simpl; tauto|]);
    destruct H
  | solve_NoDup ].

Lemma diamond_WF : WF diamond.
Proof. solve_WF. Qed.

Lemma chain3_WF : WF chain3.
Proof. solve_WF. Qed.

Lemma twoCycle_WF : WF twoCycle.
Proof. solve_WF. Qed.

Lemma emptyDigraph_WF : WF emptyDigraph.
Proof. solve_WF. Qed.

Example topologicalSort_diamond :
  fst (topologicalSort diamond) = Return [vtx "A"; vtx "C"; vtx "B"; vtx "D"].
Proof. reflexivity. Qed.

Example topologicalSort_twoCycle : topologicalSort twoCycle = (Return [], twoCycle).
Proof. reflexivity. Qed.


(** ** Reasoning on computations: steps of a preorder *)

Section Steps.
Context {St : Type} (R : St -> St -> Prop).
Hypothesis R_refl : forall s, R s s.
Hypothesis R_trans : forall a b c, R a b -> R b c -> R a c.

Lemma steps_ret A (a : A) : steps R (ret a).
Proof using R_refl. intros s. apply R_refl. Qed.

Lemma steps_throw A e : steps R (@throw St A e).
Proof using R_refl. intros s. apply R_refl. Qed.

Lemma steps_get : steps R get.
Proof using R_refl. intros s. apply R_refl. Qed.

Lemma steps_gets A (f : St -> A) : steps R (gets f).
Proof using R_refl. intros s. apply R_refl. Qed.

Lemma steps_liftO A (f : St -> outcome A) : steps R (liftO f).
Proof using R_refl. intros s. apply R_refl. Qed.

Lemma steps_modify f : (forall s, R s (f s)) -> steps R (modify f).
Proof. intros H s. apply H. Qed.

Lemma steps_bind A B (m : M St A) (k : A -> M St B) :
  steps R m -> (forall a, steps R (k a)) -> steps R (bind m k).
Proof using R_trans.
  intros Hm Hk s. unfold bind. specialize (Hm s).
  destruct (m s) as [[a| |] s']; simpl in *; try assumption.
  eapply R_trans; [exact Hm | apply Hk].
Qed.

Lemma steps_forRange body :
  (forall i, steps R (body i)) ->
  forall count from, steps R (forRange from count body).
Proof using R_refl R_trans.
  intros Hb. induction count as [|count IH]; intros from; simpl.
  - apply steps_ret.
  - apply steps_bind; [apply Hb | intros _; apply IH].
Qed.
End Steps.

(** ** The final callback is guarded by [finalCallbackExecuted] *)

Lemma countFinalCallbacks_app a b :
  countFinalCallbacks (a ++ b) = countFinalCallbacks a + countFinalCallbacks b.
Proof. unfold countFinalCallbacks. rewrite filter_app, length_app. reflexivity. Qed.

Lemma quiet_refl pk : quiet pk pk.
Proof. split; [reflexivity|]. exists []. rewrite app_nil_r. auto. Qed.

Lemma quiet_trans a b c : quiet a b -> quiet b c -> quiet a c.
Proof.
  intros [F1 [e1 [T1 C1]]] [F2 [e2 [T2 C2]]]. split; [congruence|].
  exists (e1 ++ e2). rewrite T2, T1, app_assoc, countFinalCallbacks_app. auto with arith.
  split; [reflexivity | lia].
Qed.

(** Splits a computation along its binds, loops and tests; [leaf] closes
    the calls that have a lemma of their own. *)
Ltac steps_split leaf Hrefl Htrans :=
  repeat first
    [ solve [leaf]
    | match goal with
      | |- steps _ (bind _ _) => apply (steps_bind _ Htrans); [|intro]
      | |- steps _ (ret _) => apply (steps_ret _ Hrefl)
      | |- steps _ (throw _) => apply (steps_throw _ Hrefl)
      | |- steps _ get => apply (steps_get _ Hrefl)
      | |- steps _ (gets _) => apply (steps_gets _ Hrefl)
      | |- steps _ (liftO _) => apply (steps_liftO _ Hrefl)
      | |- steps _ (forRange _ _ _) =>
          apply (steps_forRange _ Hrefl Htrans); intro
      | |- steps _ (if ?b then _ else _) => destruct b
      | |- steps _ (match ?x with _ => _ end) => destruct x
      end ].

Lemma quiet_keep pk pk' :
  finalCallbackExecuted pk' = finalCallbackExecuted pk ->
  trace pk' = trace pk -> quiet pk pk'.
Proof. intros F T. split; [assumption|]. exists []. rewrite app_nil_r. auto. Qed.

Lemma emit_quiet e :
  (forall err r, e <> EvFinalCallback err r) -> steps quiet (emit e).
Proof.
  intros He pk. split; [reflexivity|]. exists [e]. split; [reflexivity|].
  destruct e; try reflexivity. exfalso. eapply He; reflexivity.
Qed.

Lemma writeToLog_quiet level msg : steps quiet (writeToLog level msg).
Proof.
  unfold writeToLog. steps_split fail quiet_refl quiet_trans.
  apply emit_quiet. discriminate.
Qed.

Lemma modify_graph_quiet f :
  steps quiet (modify (fun pk => set_graph pk (f pk))).
Proof. intros pk. apply quiet_keep; reflexivity. Qed.

Lemma modify_running_quiet f :
  steps quiet (modify (fun pk => set_numberOfRunningProcesses pk (f pk))).
Proof. intros pk. apply quiet_keep; reflexivity. Qed.

Lemma liftG_quiet A (m : G A) : steps quiet (liftG m).
Proof.
  intros pk. unfold liftG. destruct (m (graph pk)). apply quiet_keep; reflexivity.
Qed.

Create HintDb quiet_db.

#[local] Hint Resolve writeToLog_quiet modify_graph_quiet modify_running_quiet
  liftG_quiet : quiet_db.

Ltac quiet_leaf :=
  first [ solve [auto with quiet_db]
        | apply emit_quiet; discriminate
        | intro; apply quiet_keep; reflexivity ].

Ltac quiet_steps := steps_split quiet_leaf quiet_refl quiet_trans.

Lemma emitStart_quiet i : steps quiet (emitStart i).
Proof. unfold emitStart. quiet_steps. Qed.

Lemma Vertex_setState_quiet this s : steps quiet (Vertex_setState this s).
Proof.
  pose proof emitStart_quiet. unfold Vertex_setState, getVertexSlot.
  quiet_steps.
Qed.

Lemma getVertex_setState_quiet x s : steps quiet (getVertex_setState x s).
Proof.
  pose proof Vertex_setState_quiet.
  unfold getVertex_setState, getVertexSlot. quiet_steps.
Qed.

#[local] Hint Resolve emitStart_quiet Vertex_setState_quiet
  getVertex_setState_quiet : quiet_db.

Lemma initializeStates_quiet : steps quiet initializeStates.
Proof. unfold initializeStates. quiet_steps. Qed.

Lemma scanParents_quiet parents a b : steps quiet (scanParents parents a b).
Proof.
  revert a b; induction parents as [|p rest IH]; intros a b; simpl;
    unfold getVertexP; quiet_steps.
Qed.

Lemma newStateOf_quiet v : steps quiet (newStateOf v).
Proof.
  pose proof scanParents_quiet. unfold newStateOf. quiet_steps.
Qed.

Lemma computeNewStates_quiet count from : steps quiet (computeNewStates from count).
Proof.
  pose proof newStateOf_quiet.
  revert from; induction count as [|count IH]; intros from; simpl;
    unfold orderAt, getVertexP; quiet_steps.
Qed.

Lemma applyNewState_quiet l i : steps quiet (applyNewState l i).
Proof. unfold applyNewState, orderAt, getVertexSlot. quiet_steps. Qed.

Lemma updateStates_quiet : steps quiet updateStates.
Proof.
  pose proof computeNewStates_quiet. pose proof applyNewState_quiet.
  unfold updateStates. quiet_steps.
Qed.

Lemma startIfReady_quiet ids i : steps quiet (startIfReady ids i).
Proof. unfold startIfReady, getVertexP. quiet_steps. Qed.

Lemma startReadyProcesses_quiet : steps quiet startReadyProcesses.
Proof.
  pose proof startIfReady_quiet. unfold startReadyProcesses. quiet_steps.
Qed.

Lemma vertexStatesFrom_quiet ids count from :
  steps quiet (vertexStatesFrom ids from count).
Proof.
  revert from; induction count as [|count IH]; intros from; simpl;
    unfold getVertexP; quiet_steps.
Qed.

Lemma scanStates_quiet ids count from a b c :
  steps quiet (scanStates ids from count a b c).
Proof.
  revert from a b c; induction count as [|count IH]; intros from a b c; simpl;
    unfold getVertexP; quiet_steps.
Qed.

Lemma stateFlags_quiet : steps quiet stateFlags.
Proof. pose proof scanStates_quiet. unfold stateFlags. quiet_steps. Qed.

Lemma failedStatesError_quiet : steps quiet failedStatesError.
Proof.
  pose proof vertexStatesFrom_quiet.
  unfold failedStatesError, overallState_FAIL. quiet_steps.
Qed.

Lemma decrementRunning_quiet : steps quiet decrementRunning.
Proof. unfold decrementRunning. quiet_steps. Qed.

Lemma stopRunning_quiet : steps quiet stopRunning.
Proof. unfold stopRunning. quiet_steps. Qed.

Lemma writeToLog_run level msg pk :
  writeToLog level msg pk =
    (Return tt, set_trace pk (trace pk ++ [EvLog level (logLine (pkGuid pk) msg)])).
Proof. reflexivity. Qed.

#[local] Hint Resolve initializeStates_quiet updateStates_quiet
  startReadyProcesses_quiet stateFlags_quiet failedStatesError_quiet
  decrementRunning_quiet stopRunning_quiet : quiet_db.

Lemma ret_quiet A (a : A) : steps quiet (@ret PigeonKeeper A a).
Proof. apply steps_ret. exact quiet_refl. Qed.

#[local] Hint Resolve ret_quiet : quiet_db.

(** ** One final callback per campaign, whatever the program does *)

Lemma campaignScan_app seen a b :
  campaignScan seen (a ++ b)
  = match campaignScan seen a with
    | Some seen' => campaignScan seen' b
    | None => None
    end.
Proof.
  revert seen; induction a as [|e a IH]; intros seen; simpl; [reflexivity|].
  destruct e; try apply IH. destruct seen; [reflexivity | apply IH].
Qed.

(** Events without a final callback never fail the reading, and never set
    the memory. *)
Lemma campaignScan_quiet evs :
  countFinalCallbacks evs = 0 ->
  forall seen, exists seen',
    campaignScan seen evs = Some seen' /\ (seen' = true -> seen = true).
Proof.
  induction evs as [|e evs IH]; intros Hc seen; simpl.
  - exists seen. auto.
  - destruct e; try (apply IH; exact Hc).
    + discriminate Hc.
    + destruct (IH Hc false) as [s [Hs Hi]]. exists s. split; [exact Hs|].
      intros E. discriminate (Hi E).
Qed.

Lemma campaigns_cons (t : list Event) : exists c cs, campaigns t = c :: cs.
Proof.
  induction t as [|e t [c [cs IH]]]; simpl; [eauto|].
  destruct e; rewrite ?IH; eauto.
Qed.

(** A trace that reads to the end has at most one final callback in each
    campaign, and none in its first part when the memory was set. *)
Lemma campaignScan_campaigns evs :
  forall seen seen',
    campaignScan seen evs = Some seen' ->
    Forall (fun c => countFinalCallbacks c <= 1) (campaigns evs)
    /\ (seen = true -> countFinalCallbacks (hd [] (campaigns evs)) = 0).
Proof.
  induction evs as [|e evs IH]; intros seen seen' Hs; simpl in *.
  - split; [repeat constructor | reflexivity].
  - destruct (campaigns_cons evs) as [c [cs Hc]].
    destruct e.
    + destruct (IH _ _ Hs) as [Hall Hhd]. rewrite Hc in *.
      inversion Hall; subst. split; [constructor; assumption | exact Hhd].
    + destruct (IH _ _ Hs) as [Hall Hhd]. rewrite Hc in *.
      inversion Hall; subst. split; [constructor; assumption | exact Hhd].
    + destruct seen; [discriminate|].
      destruct (IH _ _ Hs) as [Hall Hhd]. rewrite Hc in *.
      inversion Hall; subst. simpl in Hhd. split; [|discriminate].
      constructor; [|assumption].
      change (S (countFinalCallbacks c) <= 1). rewrite (Hhd eq_refl). lia.
    + destruct (IH _ _ Hs) as [Hall _].
      split; [constructor; [unfold countFinalCallbacks; simpl; lia | assumption]
             | reflexivity].
Qed.

(** Without a call of [start], the memory, once set, stays set. *)
Lemma campaignScan_one evs :
  forall c seen',
    campaigns evs = [c] -> campaignScan true evs = Some seen' -> seen' = true.
Proof.
  induction evs as [|e evs IH]; intros c seen' Hc Hs; simpl in *.
  - congruence.
  - destruct (campaigns_cons evs) as [c' [cs E]]. rewrite E in *.
    destruct e; try discriminate;
      (assert (cs = []) by congruence); subst cs; eauto.
Qed.

(** When the last campaign of a trace has made a callback, the memory is
    set at the end. *)
Lemma campaignScan_last evs :
  forall seen seen',
    campaignScan seen evs = Some seen' ->
    countFinalCallbacks (last (campaigns evs) []) = 1 -> seen' = true.
Proof.
  induction evs as [|e evs IH]; intros seen seen' Hs Hl; simpl in *.
  - discriminate.
  - destruct (campaigns_cons evs) as [c [cs E]]. rewrite E in *.
    destruct e.
    + destruct cs; [|eauto].
      apply (IH seen); [exact Hs | exact Hl].
    + destruct cs; [|eauto].
      apply (IH seen); [exact Hs | exact Hl].
    + destruct seen; [discriminate|].
      destruct cs; [|eauto].
      apply (campaignScan_one evs c); assumption.
    + eauto.
Qed.

Lemma guarded_refl pk : guarded pk pk.
Proof.
  exists []. rewrite app_nil_r. split; [reflexivity|].
  intros seen H. exists seen. auto.
Qed.

Lemma guarded_trans a b c : guarded a b -> guarded b c -> guarded a c.
Proof.
  intros [e1 [T1 C1]] [e2 [T2 C2]]. exists (e1 ++ e2).
  rewrite T2, T1, app_assoc. split; [reflexivity|].
  intros seen H. destruct (C1 seen H) as [s1 [S1 H1]].
  destruct (C2 s1 H1) as [s2 [S2 H2]]. exists s2.
  rewrite campaignScan_app, S1. auto.
Qed.

(** No final callback, and the flag is not cleared. *)
Lemma guarded_no_callback pk pk' evs :
  trace pk' = trace pk ++ evs ->
  countFinalCallbacks evs = 0 ->
  (finalCallbackExecuted pk = true -> finalCallbackExecuted pk' = true) ->
  guarded pk pk'.
Proof.
  intros T C F. exists evs. split; [exact T|]. intros seen H.
  destruct (campaignScan_quiet evs C seen) as [s [Hs Hi]]. exists s. auto.
Qed.

Lemma quiet_guarded a b : quiet a b -> guarded a b.
Proof.
  intros [F [e [T C]]]. apply (guarded_no_callback a b e T C). congruence.
Qed.

Lemma steps_quiet_guarded A (m : P A) : steps quiet m -> steps guarded m.
Proof. intros H s. apply quiet_guarded. apply H. Qed.

(** One final callback, made while the flag was clear, with the flag set. *)
Lemma guarded_callback pk pk' evs e r :
  finalCallbackExecuted pk = false ->
  trace pk' = trace pk ++ evs ++ [EvFinalCallback e r] ->
  countFinalCallbacks evs = 0 ->
  finalCallbackExecuted pk' = true ->
  guarded pk pk'.
Proof.
  intros F T C F'. exists (evs ++ [EvFinalCallback e r]). split; [exact T|].
  intros seen H. destruct seen; [rewrite (H eq_refl) in F; discriminate|].
  destruct (campaignScan_quiet evs C false) as [s [Hs Hi]].
  destruct s; [discriminate (Hi eq_refl)|].
  exists true. rewrite campaignScan_app, Hs. simpl. auto.
Qed.

(** A call of [start]: the campaign under way ends there. *)
Lemma guarded_start pk pk' d :
  trace pk' = trace pk ++ [EvStart d] -> guarded pk pk'.
Proof.
  intros T. exists [EvStart d]. split; [exact T|].
  intros seen _. exists false. simpl. split; [reflexivity | discriminate].
Qed.

Section Guarded.

Context {U : UserCode}.

Hypothesis serviceStart_guarded :
  forall vertexId r, steps guarded (serviceStart vertexId r).
Hypothesis finalCallback_guarded :
  forall e r, steps guarded (finalCallback e r).

Ltac guarded_leaf :=
  first [ solve [auto]
        | apply steps_quiet_guarded; quiet_leaf ].

Ltac guarded_steps := steps_split guarded_leaf guarded_refl guarded_trans.

Lemma emitStart_guarded i : steps guarded (emitStart i).
Proof using serviceStart_guarded. unfold emitStart. guarded_steps. Qed.

Lemma Vertex_setState_guarded this s : steps guarded (Vertex_setState this s).
Proof using serviceStart_guarded.
  pose proof emitStart_guarded. unfold Vertex_setState. guarded_steps.
Qed.

Lemma getVertex_setState_guarded x s : steps guarded (getVertex_setState x s).
Proof using serviceStart_guarded.
  pose proof Vertex_setState_guarded.
  unfold getVertex_setState, getVertexSlot. guarded_steps.
Qed.

Lemma initializeStates_guarded : steps guarded initializeStates.
Proof using serviceStart_guarded.
  pose proof getVertex_setState_guarded. unfold initializeStates. guarded_steps.
Qed.

Lemma applyNewState_guarded l i : steps guarded (applyNewState l i).
Proof using serviceStart_guarded.
  pose proof Vertex_setState_guarded.
  unfold applyNewState, orderAt, getVertexSlot. guarded_steps.
Qed.

Lemma updateStates_guarded : steps guarded updateStates.
Proof using serviceStart_guarded.
  pose proof (fun from count =>
                steps_quiet_guarded _ _ (computeNewStates_quiet count from)).
  pose proof applyNewState_guarded.
  unfold updateStates. guarded_steps.
Qed.

Lemma startIfReady_guarded ids i : steps guarded (startIfReady ids i).
Proof using serviceStart_guarded.
  pose proof getVertex_setState_guarded.
  unfold startIfReady, getVertexP. guarded_steps.
Qed.

Lemma startReadyProcesses_guarded : steps guarded startReadyProcesses.
Proof using serviceStart_guarded.
  pose proof startIfReady_guarded. unfold startReadyProcesses. guarded_steps.
Qed.

(** The block of the final callback: nothing when the flag is set;
    otherwise the flag is set first, and the callback, whatever it does,
    runs on a scheduler whose flag is set. *)
Lemma runFinalCallback_guarded pkError :
  steps quiet pkError -> steps guarded (runFinalCallback pkError).
Proof using finalCallback_guarded.
  intros Hq pk. unfold runFinalCallback. unfold bind at 1. unfold gets at 1.
  destruct (finalCallbackExecuted pk) eqn:F.
  - apply guarded_refl.
  - unfold bind at 1. rewrite writeToLog_run.
    unfold bind at 1. unfold modify at 1.
    match goal with
    | |- context [set_finalCallbackExecuted ?p true] =>
        set (pk1 := set_finalCallbackExecuted p true)
    end.
    unfold bind at 1. destruct (Hq pk1) as [F1 [evs [T1 C1]]].
    destruct (pkError pk1) as [[e| |] pk2]; simpl in F1, T1.
    + unfold bind at 1. unfold callFinalCallback.
      unfold bind at 1. unfold gets at 1. unfold bind at 1.
      unfold emit at 1. unfold modify at 1.
      set (pk3 := set_trace pk2 (trace pk2 ++ [EvFinalCallback e (results pk2)])).
      assert (G3 : guarded pk pk3).
      { apply (guarded_callback pk pk3
                 ([EvLog "INFO" (logLine (pkGuid pk) "Final callback executing")]
                    ++ evs) e (results pk2) F).
        - simpl. rewrite T1. rewrite <- !app_assoc. reflexivity.
        - rewrite countFinalCallbacks_app, C1. reflexivity.
        - exact F1. }
      pose proof (finalCallback_guarded e (results pk2) pk3) as G4.
      destruct (finalCallback e (results pk2) pk3) as [[[]| |] pk4]; simpl in *.
      * eapply guarded_trans; [exact G3|]. eapply guarded_trans; [exact G4|].
        apply (steps_quiet_guarded _ _
                 (writeToLog_quiet "INFO" "Final callback executed") pk4).
      * eapply guarded_trans; [exact G3 | exact G4].
      * eapply guarded_trans; [exact G3 | exact G4].
    + simpl.
      apply (guarded_no_callback pk pk2
               ([EvLog "INFO" (logLine (pkGuid pk) "Final callback executing")]
                  ++ evs)).
      * rewrite T1. simpl. rewrite <- !app_assoc. reflexivity.
      * rewrite countFinalCallbacks_app, C1. reflexivity.
      * rewrite F. discriminate.
    + simpl.
      apply (guarded_no_callback pk pk2
               ([EvLog "INFO" (logLine (pkGuid pk) "Final callback executing")]
                  ++ evs)).
      * rewrite T1. simpl. rewrite <- !app_assoc. reflexivity.
      * rewrite countFinalCallbacks_app, C1. reflexivity.
      * rewrite F. discriminate.
Qed.

Ltac guarded_leaf' :=
  first [ apply runFinalCallback_guarded; solve [auto with quiet_db]
        | solve [auto]
        | apply steps_quiet_guarded; quiet_leaf ].

Ltac guarded_steps' := steps_split guarded_leaf' guarded_refl guarded_trans.

Lemma afterSuccess_guarded : steps guarded afterSuccess.
Proof using serviceStart_guarded finalCallback_guarded.
  pose proof updateStates_guarded. pose proof startReadyProcesses_guarded.
  unfold afterSuccess. guarded_steps'.
Qed.

Lemma afterFail_guarded vertexId : steps guarded (afterFail vertexId).
Proof using serviceStart_guarded finalCallback_guarded.
  pose proof updateStates_guarded.
  unfold afterFail. guarded_steps'.
Qed.

Lemma setState_guarded vertexId newState : steps guarded (setState vertexId newState).
Proof using serviceStart_guarded finalCallback_guarded.
  pose proof afterSuccess_guarded. pose proof afterFail_guarded.
  pose proof getVertex_setState_guarded.
  unfold setState. guarded_steps'.
Qed.

Lemma processSuccessful_guarded id this data :
  steps guarded (processSuccessful id this data).
Proof using serviceStart_guarded finalCallback_guarded.
  pose proof setState_guarded.
  unfold processSuccessful, assignData. guarded_steps'.
Qed.

Lemma processFailed_guarded id this err :
  steps guarded (processFailed id this err).
Proof using serviceStart_guarded finalCallback_guarded.
  unfold processFailed. apply setState_guarded.
Qed.

Lemma callListeners_guarded success k listeners payload :
  steps guarded (callListeners success k listeners payload).
Proof using serviceStart_guarded finalCallback_guarded.
  pose proof processSuccessful_guarded. pose proof processFailed_guarded.
  induction listeners as [|id rest IH]; simpl; guarded_steps'.
Qed.

Lemma runCall_guarded c : steps guarded (runCall c).
Proof using serviceStart_guarded finalCallback_guarded.
  pose proof setState_guarded. pose proof processSuccessful_guarded.
  pose proof processFailed_guarded. pose proof callListeners_guarded.
  destruct c; simpl; unfold Service_emit; guarded_steps'.
Qed.

(** [start] once its call is recorded and the flag is cleared. *)
Lemma start_tail_guarded sharedData :
  steps guarded
    (modify (fun pk => set_results pk sharedData) ;;;
     L <- liftG topologicalSort ;;
     modify (fun pk => set_topologicalSortOrder pk (Some (vertexIdsFromArray L))) ;;;
     modify (fun pk => set_numberOfRunningProcesses pk 0) ;;;
     modify (fun pk => set_isCurrentlyRunning pk true) ;;;
     initializeStates ;;;
     updateStates ;;;
     startReadyProcesses).
Proof using serviceStart_guarded.
  pose proof initializeStates_guarded. pose proof updateStates_guarded.
  pose proof startReadyProcesses_guarded.
  guarded_steps.
Qed.

Lemma runUse_guarded u : steps guarded (runUse u).
Proof using serviceStart_guarded finalCallback_guarded.
  pose proof runCall_guarded.
  destruct u; unfold runUse, newService, PK_addVertex, PK_addEdge;
    try solve [guarded_steps].
  intros pk.
  eapply guarded_trans;
    [ apply (guarded_start pk
               (set_finalCallbackExecuted
                  (set_trace pk (trace pk ++ [EvStart sharedData])) false)
               sharedData); reflexivity
    | apply (start_tail_guarded sharedData) ].
Qed.

Lemma runScript_guarded script : steps guarded (runScript script).
Proof using serviceStart_guarded finalCallback_guarded.
  pose proof runUse_guarded.
  induction script as [|u rest IH]; simpl; guarded_steps.
Qed.

Lemma runUses_guarded uses pk : guarded pk (runUses uses pk).
Proof using serviceStart_guarded finalCallback_guarded.
  revert pk; induction uses as [|u uses IH]; intros pk; simpl.
  - apply guarded_refl.
  - eapply guarded_trans; [apply runUse_guarded | apply IH].
Qed.

End Guarded.

(** The functions of a scripted program are guarded, at every depth. *)
Lemma scripted_guarded fuel code :
  (forall vertexId r,
      steps guarded (serviceStart (UserCode := scripted fuel code) vertexId r))
  /\ (forall e r,
        steps guarded (finalCallback (UserCode := scripted fuel code) e r)).
Proof.
  induction fuel as [|fuel [IHs IHc]]; simpl.
  - split; intros; intros pk; apply guarded_refl.
  - split; intros; apply (runScript_guarded (U := scripted fuel code)); assumption.
Qed.

Lemma scripted_runUses_guarded fuel code uses pk :
  guarded pk (runUses (U := scripted fuel code) uses pk).
Proof.
  destruct (scripted_guarded fuel code) as [Hs Hc].
  apply (runUses_guarded (U := scripted fuel code)); assumption.
Qed.

(** ** Computations that read only *)

Lemma eq_trans' (St : Type) (a b c : St) : a = b -> b = c -> a = c.
Proof. congruence. Qed.

Ltac pure_steps :=
  steps_split ltac:(solve [auto]) (@eq_refl PigeonKeeper) (@eq_trans' PigeonKeeper).

Lemma scanParents_pure parents a b : steps eq (scanParents parents a b).
Proof.
  revert a b; induction parents as [|p rest IH]; intros a b; simpl;
    unfold getVertexP; pure_steps.
Qed.

Lemma newStateOf_pure v : steps eq (newStateOf v).
Proof. pose proof scanParents_pure. unfold newStateOf. pure_steps. Qed.

Lemma computeNewStates_pure count from : steps eq (computeNewStates from count).
Proof.
  pose proof newStateOf_pure.
  revert from; induction count as [|count IH]; intros from; simpl;
    unfold orderAt, getVertexP; pure_steps.
Qed.

Lemma scanStates_pure ids count from a b c :
  steps eq (scanStates ids from count a b c).
Proof.
  revert from a b c; induction count as [|count IH]; intros from a b c; simpl;
    unfold getVertexP; pure_steps.
Qed.

Lemma stateFlags_pure : steps eq stateFlags.
Proof. pose proof scanStates_pure. unfold stateFlags. pure_steps. Qed.

Lemma vertexStatesFrom_pure ids count from :
  steps eq (vertexStatesFrom ids from count).
Proof.
  revert from; induction count as [|count IH]; intros from; simpl;
    unfold getVertexP; pure_steps.
Qed.

Lemma failedStatesError_pure : steps eq failedStatesError.
Proof.
  pose proof vertexStatesFrom_pure.
  unfold failedStatesError, overallState_FAIL. pure_steps.
Qed.

(** ** Slots of the vertex array *)

Lemma length_setNth A i (x : A) l : length (setNth i x l) = length l.
Proof.
  revert i; induction l as [|y l IH]; intros [|i]; simpl; auto.
Qed.

Lemma nth_error_setNth_eq A i (x : A) l :
  i < length l -> nth_error (setNth i x l) i = Some x.
Proof.
  revert i; induction l as [|y l IH]; intros [|i] H; simpl in *; try lia; auto.
  apply IH. lia.
Qed.

Lemma nth_error_setNth_neq A i j (x : A) l :
  i <> j -> nth_error (setNth i x l) j = nth_error l j.
Proof.
  revert i j; induction l as [|y l IH]; intros [|i] [|j] H; simpl; auto;
    try contradiction.
Qed.

Lemma map_setNth A B (f : A -> B) i x l :
  map f (setNth i x l) = setNth i (f x) (map f l).
Proof.
  revert i; induction l as [|y l IH]; intros [|i]; simpl; auto.
  rewrite IH. reflexivity.
Qed.

Lemma setNth_same A i (x : A) l : nth_error l i = Some x -> setNth i x l = l.
Proof.
  revert i; induction l as [|y l IH]; intros [|i] H; simpl in *; try discriminate.
  - inversion H. reflexivity.
  - rewrite IH; auto.
Qed.

Lemma updateSlot_vertexIdArray i f g :
  vertexIdArray (updateSlot i f g) = vertexIdArray g.
Proof. unfold updateSlot. destruct (nth_error (vertexArray g) i); reflexivity. Qed.

Lemma updateSlot_edges i f g :
  startVertexIdArray (updateSlot i f g) = startVertexIdArray g
  /\ endVertexIdArray (updateSlot i f g) = endVertexIdArray g.
Proof. unfold updateSlot. destruct (nth_error (vertexArray g) i); auto. Qed.

Lemma updateSlot_map A (h : Vertex -> A) i f g :
  (forall v, nth_error (vertexArray g) i = Some v -> h (f v) = h v) ->
  map h (vertexArray (updateSlot i f g)) = map h (vertexArray g).
Proof.
  intros H. unfold updateSlot.
  destruct (nth_error (vertexArray g) i) as [v|] eqn:E; [|reflexivity].
  simpl. rewrite map_setNth, (H v eq_refl). apply setNth_same.
  apply map_nth_error. exact E.
Qed.

Lemma updateSlot_nth_eq i f g v :
  nth_error (vertexArray g) i = Some v ->
  nth_error (vertexArray (updateSlot i f g)) i = Some (f v).
Proof.
  intros E. unfold updateSlot. rewrite E. simpl.
  apply nth_error_setNth_eq. apply nth_error_Some. congruence.
Qed.

Lemma updateSlot_nth_neq i j f g :
  i <> j ->
  nth_error (vertexArray (updateSlot i f g)) j = nth_error (vertexArray g) j.
Proof.
  intros H. unfold updateSlot.
  destruct (nth_error (vertexArray g) i) as [v|]; [|reflexivity].
  simpl. apply nth_error_setNth_neq. exact H.
Qed.

Lemma count_filter_map A (f : A -> bool) l :
  length (filter f l) = length (filter (fun b => b) (map f l)).
Proof.
  induction l as [|a l IH]; simpl; [reflexivity|].
  destruct (f a); simpl; rewrite IH; reflexivity.
Qed.

Lemma countInProgress_ipMap g g' :
  ipMap g' = ipMap g -> countInProgress g' = countInProgress g.
Proof.
  unfold countInProgress, ipMap. intros H.
  rewrite !(count_filter_map _ isInProgress), H. reflexivity.
Qed.

(** ** The count of running tasks *)

Lemma sameIP_refl pk : sameIP pk pk.
Proof. repeat split. Qed.

Lemma sameIP_trans a b c : sameIP a b -> sameIP b c -> sameIP a c.
Proof.
  intros [A1 [A2 [A3 [A4 A5]]]] [B1 [B2 [B3 [B4 B5]]]].
  repeat split; congruence.
Qed.

Lemma keepsOK_refl pk : keepsOK pk pk.
Proof. split; auto. Qed.

Lemma keepsOK_trans a b c : keepsOK a b -> keepsOK b c -> keepsOK a c.
Proof. intros [A1 A2] [B1 B2]. split; [congruence | auto]. Qed.

Lemma sameIP_keepsOK a b : sameIP a b -> keepsOK a b.
Proof.
  intros [A1 [A2 [A3 [A4 A5]]]]. split; [assumption|].
  unfold inFlightOK. rewrite A1, A2, (countInProgress_ipMap _ _ A5). auto.
Qed.

Lemma steps_sameIP_keepsOK A (m : P A) : steps sameIP m -> steps keepsOK m.
Proof. intros H s. apply sameIP_keepsOK. apply H. Qed.

Lemma steps_eq_sameIP A (m : P A) : steps eq m -> steps sameIP m.
Proof. intros H s. rewrite <- (H s). apply sameIP_refl. Qed.

Lemma emit_sameIP e : steps sameIP (emit e).
Proof. intros pk. repeat split. Qed.

Lemma writeToLog_sameIP level msg : steps sameIP (writeToLog level msg).
Proof. intros pk. repeat split. Qed.

Lemma updateSlot_sameIP i f :
  (forall v, isInProgress (f v) = isInProgress v) ->
  steps sameIP (modify (fun pk => set_graph pk (updateSlot i f (graph pk)))).
Proof.
  intros H pk. repeat split; simpl.
  - apply updateSlot_vertexIdArray.
  - unfold ipMap. apply updateSlot_map. intros v _. apply H.
Qed.

Create HintDb sameIP_db.

#[local] Hint Resolve emit_sameIP writeToLog_sameIP : sameIP_db.

Ltac sameIP_leaf :=
  first [ solve [auto with sameIP_db]
        | apply updateSlot_sameIP; intros; reflexivity
        | apply steps_eq_sameIP; solve [auto with sameIP_db]
        | intro; repeat split ].

Ltac sameIP_steps := steps_split sameIP_leaf sameIP_refl sameIP_trans.

Lemma emitStart_sameIP i : steps sameIP (emitStart i).
Proof. unfold emitStart. sameIP_steps. Qed.

#[local] Hint Resolve emitStart_sameIP : sameIP_db.

(** Writing a state that agrees with the present one on being
    IN_PROGRESS. *)
Lemma Vertex_setState_sameIP this s pk :
  (forall v, nth_error (vertexArray (graph pk)) this = Some v ->
             State_eqb s IN_PROGRESS = isInProgress v) ->
  sameIP pk (snd (Vertex_setState this s pk)).
Proof.
  intros H. unfold Vertex_setState. unfold bind at 1. unfold modify at 1.
  match goal with
  | |- context [snd (?m ?p)] =>
      assert (Hm : steps sameIP m) by sameIP_steps;
      apply sameIP_trans with p; [|apply Hm]
  end.
  repeat split; simpl.
  - apply updateSlot_vertexIdArray.
  - unfold ipMap. apply updateSlot_map. intros v Hv.
    unfold isInProgress at 1. simpl. apply H. exact Hv.
Qed.

Lemma newStateOf_IP v pk s :
  fst (newStateOf v pk) = Return s -> State_eqb s IN_PROGRESS = isInProgress v.
Proof.
  unfold newStateOf, isInProgress. destruct (v_state v) eqn:Ev; simpl.
  2-5: intros H; inversion H; reflexivity.
  unfold bind, gets, liftO, ret.
  destruct (Nat.eqb (indegree (graph pk) (v_id v)) 0).
  { intros H; inversion H; reflexivity. }
  destruct (getParentVertexIds (graph pk) (v_id v)); simpl; try discriminate.
  destruct (scanParents a true false pk) as [[[f1 f2]| |] pk']; simpl;
    try discriminate.
  destruct f1; [|destruct f2]; intros H; inversion H; reflexivity.
Qed.

Lemma getVertexP_slot x pk v slot :
  fst (getVertexP x pk) = Return v ->
  fst (getVertexSlot x pk) = Return slot ->
  nth_error (vertexArray (graph pk)) slot = Some v.
Proof.
  unfold getVertexP, getVertexSlot, liftO, getVertex. simpl.
  destruct x as [id|]; [|discriminate].
  destruct (indexOf id (vertexIdArray (graph pk))) as [i|]; [|discriminate].
  destruct (nth_error (vertexArray (graph pk)) i) as [w|] eqn:E; [|discriminate].
  intros H1 H2. inversion H1; inversion H2; subst. exact E.
Qed.

Lemma computeNewStates_Good count :
  forall from pk l,
    fst (computeNewStates from count pk) = Return l ->
    forall k s, nth_error l k = Some s -> Good pk (from + k) s.
Proof.
  induction count as [|count IH]; intros from pk l; simpl.
  - intros H. inversion H. intros [|k] s; discriminate.
  - unfold bind at 1.
    destruct (orderAt from pk) as [[x| |] pk1] eqn:E1; simpl; try discriminate.
    assert (pk1 = pk).
    { assert (Hp : steps eq (orderAt from)) by (unfold orderAt; pure_steps).
      specialize (Hp pk). rewrite E1 in Hp. auto. }
    subst pk1. unfold bind at 1.
    destruct (getVertexP x pk) as [[v| |] pk1] eqn:E2; simpl; try discriminate.
    assert (pk1 = pk).
    { assert (Hp : steps eq (getVertexP x)) by (unfold getVertexP; pure_steps).
      specialize (Hp pk). rewrite E2 in Hp. auto. }
    subst pk1. unfold bind at 1.
    destruct (newStateOf v pk) as [[s0| |] pk1] eqn:E3; simpl; try discriminate.
    assert (pk1 = pk).
    { pose proof (newStateOf_pure v pk) as Hp. rewrite E3 in Hp. auto. }
    subst pk1. unfold bind at 1.
    destruct (computeNewStates (S from) count pk) as [[rest| |] pk1] eqn:E4; simpl;
      try discriminate.
    intros H. inversion H; subst l. intros [|k] s Hs; simpl in Hs.
    + inversion Hs; subst s0. rewrite Nat.add_0_r.
      intros x' slot v' Hx Hslot Hv.
      rewrite E1 in Hx. simpl in Hx. inversion Hx; subst x'.
      assert (Hv2 : nth_error (vertexArray (graph pk)) slot = Some v).
      { apply (getVertexP_slot x); [rewrite E2; reflexivity | assumption]. }
      rewrite Hv in Hv2. inversion Hv2; subst v'.
      apply (newStateOf_IP v pk). rewrite E3. reflexivity.
    + replace (from + S k) with (S from + k) by lia.
      apply (IH (S from) pk rest); [rewrite E4; reflexivity | assumption].
Qed.

Lemma ipMap_nth g g' slot v v' :
  ipMap g' = ipMap g ->
  nth_error (vertexArray g) slot = Some v ->
  nth_error (vertexArray g') slot = Some v' ->
  isInProgress v' = isInProgress v.
Proof.
  unfold ipMap. intros H Hv Hv'.
  apply (map_nth_error isInProgress) in Hv.
  apply (map_nth_error isInProgress) in Hv'.
  rewrite H in Hv'. congruence.
Qed.

Lemma ipMap_length g g' :
  ipMap g' = ipMap g -> length (vertexArray g') = length (vertexArray g).
Proof.
  unfold ipMap. intros H. rewrite <- (length_map isInProgress (vertexArray g')), H.
  apply length_map.
Qed.

Lemma Good_sameIP pk pk' i s : sameIP pk pk' -> Good pk i s -> Good pk' i s.
Proof.
  intros [_ [_ [Ho [Hids Hip]]]] Hg x slot v' Hx Hslot Hv'.
  assert (Hx0 : fst (orderAt i pk) = Return x).
  { unfold orderAt, bind, gets in *. simpl in *. rewrite <- Ho.
    destruct (topologicalSortOrder pk'); exact Hx. }
  assert (Hlt : slot < length (vertexArray (graph pk))).
  { rewrite <- (ipMap_length _ _ Hip). apply nth_error_Some. congruence. }
  destruct (nth_error (vertexArray (graph pk)) slot) as [v|] eqn:Ev;
    [|apply nth_error_None in Ev; lia].
  rewrite (ipMap_nth _ _ slot v v' Hip Ev Hv').
  apply (Hg x slot v Hx0); [|exact Ev].
  unfold getVertexSlot, liftO in *. simpl in *. destruct x as [id|]; [|discriminate].
  rewrite Hids in Hslot.
  destruct (indexOf id (vertexIdArray (graph pk))) as [j|]; [|discriminate].
  destruct (nth_error (vertexArray (graph pk')) j) eqn:Ej'; [|discriminate].
  inversion Hslot; subst j. rewrite Ev. reflexivity.
Qed.

Lemma applyNewState_sameIP l i pk :
  (forall s, nth_error l i = Some s -> Good pk i s) ->
  sameIP pk (snd (applyNewState l i pk)).
Proof.
  intros Hg. unfold applyNewState. unfold bind at 1.
  destruct (orderAt i pk) as [[x| |] pk1] eqn:E1; simpl.
  2-3: (assert (Hp : steps sameIP (orderAt i)) by (unfold orderAt; sameIP_steps);
        specialize (Hp pk); rewrite E1 in Hp; exact Hp).
  assert (pk1 = pk).
  { assert (Hp : steps eq (orderAt i)) by (unfold orderAt; pure_steps).
    specialize (Hp pk). rewrite E1 in Hp. auto. }
  subst pk1. unfold bind at 1.
  destruct (getVertexSlot x pk) as [[slot| |] pk1] eqn:E2; simpl.
  2-3: (assert (Hp : steps sameIP (getVertexSlot x))
          by (unfold getVertexSlot; sameIP_steps);
        specialize (Hp pk); rewrite E2 in Hp; exact Hp).
  assert (pk1 = pk).
  { assert (Hp : steps eq (getVertexSlot x)) by (unfold getVertexSlot; pure_steps).
    specialize (Hp pk). rewrite E2 in Hp. auto. }
  subst pk1. destruct (nth_error l i) as [s|] eqn:El.
  - apply Vertex_setState_sameIP. intros v Hv.
    apply (Hg s eq_refl x slot v); [rewrite E1 | rewrite E2 | ]; auto.
  - apply sameIP_refl.
Qed.

Lemma applyLoop_sameIP l count :
  forall from pk,
    (forall i s, nth_error l i = Some s -> Good pk i s) ->
    sameIP pk (snd (forRange from count (applyNewState l) pk)).
Proof.
  induction count as [|count IH]; intros from pk Hg; simpl.
  - apply sameIP_refl.
  - unfold bind.
    pose proof (applyNewState_sameIP l from pk (fun s => Hg from s)) as H1.
    destruct (applyNewState l from pk) as [[[]| |] pk1]; simpl in *; try exact H1.
    apply sameIP_trans with pk1; [exact H1|]. apply IH.
    intros i s Hs. apply (Good_sameIP pk); auto.
Qed.

Lemma updateStates_sameIP : steps sameIP updateStates.
Proof.
  intros pk. unfold updateStates. unfold bind at 1. unfold gets at 1.
  unfold bind at 1.
  pose proof (computeNewStates_pure (vertexCount (graph pk)) 0 pk) as Hp.
  pose proof (computeNewStates_Good (vertexCount (graph pk)) 0 pk) as Hg.
  destruct (computeNewStates 0 (vertexCount (graph pk)) pk) as [[l| |] pk1];
    simpl in *; subst pk1; try apply sameIP_refl.
  apply applyLoop_sameIP. intros i s Hs. apply (Hg l eq_refl i s Hs).
Qed.

Lemma setNth_split A (l1 l2 : list A) v x :
  setNth (length l1) x (l1 ++ v :: l2) = l1 ++ x :: l2.
Proof. induction l1 as [|a l1 IH]; simpl; [reflexivity | rewrite IH; reflexivity]. Qed.

Lemma countInProgress_updateSlot slot f g v :
  nth_error (vertexArray g) slot = Some v ->
  countInProgress (updateSlot slot f g) + (if isInProgress v then 1 else 0)
  = countInProgress g + (if isInProgress (f v) then 1 else 0).
Proof.
  intros E. unfold updateSlot, countInProgress. rewrite E. simpl.
  destruct (nth_error_split _ _ E) as [l1 [l2 [Hvs Hlen]]].
  rewrite Hvs, <- Hlen, setNth_split, !filter_app, !length_app. simpl.
  destruct (isInProgress v), (isInProgress (f v)); simpl; lia.
Qed.

Lemma getVertexP_Return x pk v pk' :
  getVertexP x pk = (Return v, pk') ->
  pk' = pk /\ exists slot, getVertexSlot x pk = (Return slot, pk)
                           /\ nth_error (vertexArray (graph pk)) slot = Some v.
Proof.
  unfold getVertexP, getVertexSlot, liftO, getVertex.
  destruct x as [id|]; [|discriminate].
  destruct (indexOf id (vertexIdArray (graph pk))) as [i|]; [|discriminate].
  destruct (nth_error (vertexArray (graph pk)) i) as [w|] eqn:E; [|discriminate].
  intros H. inversion H; subst. split; [reflexivity|]. exists i. auto.
Qed.

(** The two branches of [startReadyProcesses] that start a task. *)
Lemma dispatch_keepsOK x pk v :
  getVertexP x pk = (Return v, pk) ->
  v_state v = READY ->
  ((0 < maxNumberOfRunningProcesses pk)%Z ->
   (numberOfRunningProcesses pk < maxNumberOfRunningProcesses pk)%Z) ->
  keepsOK pk
    (snd ((modify (fun pk => set_numberOfRunningProcesses pk
                               (numberOfRunningProcesses pk + 1)) ;;;
           getVertex_setState x IN_PROGRESS) pk)).
Proof.
  intros Hget Hready Hroom.
  destruct (getVertexP_Return x pk v pk Hget) as [_ [slot [Hslot Hv]]].
  unfold bind at 1. unfold modify at 1.
  set (pk1 := set_numberOfRunningProcesses pk (numberOfRunningProcesses pk + 1)).
  assert (Hslot1 : getVertexSlot x pk1 = (Return slot, pk1)).
  { unfold getVertexSlot, liftO in *. simpl in *.
    destruct x as [id|]; [|discriminate].
    destruct (indexOf id (vertexIdArray (graph pk))); [|discriminate].
    destruct (nth_error (vertexArray (graph pk)) n); inversion Hslot; reflexivity. }
  unfold getVertex_setState. unfold bind at 1. rewrite Hslot1.
  unfold Vertex_setState. unfold bind at 1. unfold modify at 1.
  match goal with
  | |- context [snd (?m ?p)] =>
      assert (Hm : steps sameIP m) by sameIP_steps;
      apply keepsOK_trans with p; [|apply sameIP_keepsOK; apply Hm]
  end.
  split; [reflexivity|]. intros [Hn Hmax]. unfold inFlightOK. simpl.
  pose proof (countInProgress_updateSlot slot
                (fun v => Vertex_withState v IN_PROGRESS) (graph pk) v Hv) as Hc.
  unfold isInProgress in Hc. rewrite Hready in Hc. simpl in Hc.
  split; [lia|]. intros Hpos. specialize (Hroom Hpos). lia.
Qed.

Lemma startIfReady_keepsOK ids i : steps keepsOK (startIfReady ids i).
Proof.
  intros pk. unfold startIfReady. unfold bind at 1.
  destruct (getVertexP (nth_error ids i) pk) as [[v| |] pk1] eqn:E; simpl.
  2-3: (assert (Hp : steps eq (getVertexP (nth_error ids i)))
          by (unfold getVertexP; pure_steps);
        specialize (Hp pk); rewrite E in Hp; simpl in Hp; subst pk1;
        apply keepsOK_refl).
  destruct (getVertexP_Return _ _ _ _ E) as [-> _].
  destruct (State_eqb (v_state v) READY) eqn:Hr; [|apply keepsOK_refl].
  assert (Hready : v_state v = READY) by (destruct (v_state v); try discriminate; auto).
  unfold bind at 1. unfold gets at 1. unfold bind at 1. unfold gets at 1.
  destruct (Z.ltb_spec 0 (maxNumberOfRunningProcesses pk)) as [Hpos|Hnpos]; simpl.
  - destruct (Z.ltb_spec (numberOfRunningProcesses pk)
                         (maxNumberOfRunningProcesses pk)) as [Hlt|Hge].
    + apply (dispatch_keepsOK _ pk v E Hready). auto.
    + destruct (Z.leb_spec (maxNumberOfRunningProcesses pk) 0); [lia|].
      apply keepsOK_refl.
  - destruct (Z.leb_spec (maxNumberOfRunningProcesses pk) 0); [|lia].
    apply (dispatch_keepsOK _ pk v E Hready). lia.
Qed.

Lemma startReadyProcesses_keepsOK : steps keepsOK startReadyProcesses.
Proof.
  pose proof startIfReady_keepsOK. unfold startReadyProcesses.
  steps_split ltac:(solve [auto]) keepsOK_refl keepsOK_trans.
Qed.

#[local] Hint Resolve updateStates_sameIP stateFlags_pure failedStatesError_pure
  : sameIP_db.

Lemma runFinalCallback_sameIP pkError :
  steps sameIP pkError -> steps sameIP (runFinalCallback pkError).
Proof. intros H. unfold runFinalCallback. sameIP_steps. Qed.

Ltac keepsOK_leaf :=
  first [ apply startReadyProcesses_keepsOK
        | apply steps_sameIP_keepsOK; apply runFinalCallback_sameIP; sameIP_steps
        | apply steps_sameIP_keepsOK; sameIP_leaf ].

Ltac keepsOK_steps := steps_split keepsOK_leaf keepsOK_refl keepsOK_trans.

(** A vertex IN_PROGRESS is committed to a final state and the count is
    decremented. *)
Lemma commit_inFlightOK vertexId st pk v :
  getVertex (graph pk) vertexId = Return v ->
  v_state v = IN_PROGRESS ->
  st = SUCCESS \/ st = FAIL ->
  inFlightOK pk ->
  exists pk1,
    getVertex_setState (Some vertexId) st pk = (Return tt, pk1)
    /\ maxNumberOfRunningProcesses pk1 = maxNumberOfRunningProcesses pk
    /\ (numberOfRunningProcesses pk1 - 1
        = Z.of_nat (countInProgress (graph pk1)))%Z
    /\ numberOfRunningProcesses pk1 = numberOfRunningProcesses pk.
Proof.
  intros Hget Hip Hst [Hn Hmax].
  assert (E : getVertexP (Some vertexId) pk = (Return v, pk)).
  { unfold getVertexP, liftO. rewrite Hget. reflexivity. }
  destruct (getVertexP_Return _ _ _ _ E) as [_ [slot [Hslot Hv]]].
  pose proof (countInProgress_updateSlot slot
                (fun v => Vertex_withState v st) (graph pk) v Hv) as Hc.
  unfold isInProgress in Hc. rewrite Hip in Hc. simpl in Hc.
  exists (set_graph pk (updateSlot slot (fun v => Vertex_withState v st) (graph pk))).
  unfold getVertex_setState. unfold bind at 1. rewrite Hslot.
  destruct Hst as [-> | ->]; simpl in Hc; (split; [reflexivity|]);
    simpl; repeat split; lia.
Qed.

Lemma VOK_updateSlot i f g :
  (forall v, v_id (f v) = v_id v) -> VOK g -> VOK (updateSlot i f g).
Proof.
  intros Hf [Hids Hnd]. split.
  - rewrite updateSlot_vertexIdArray, Hids. symmetry.
    apply updateSlot_map. intros v _. apply Hf.
  - rewrite updateSlot_vertexIdArray. exact Hnd.
Qed.

Lemma VOK_length g : VOK g -> length (vertexIdArray g) = length (vertexArray g).
Proof. intros [Hids _]. rewrite Hids. apply length_map. Qed.

Lemma VOK_getVertexIds g : VOK g -> getVertexIds g = vertexIdArray g.
Proof.
  intros H. unfold getVertexIds. rewrite <- (VOK_length g H). apply firstn_all.
Qed.

(** On a graph with parallel vertex arrays, the vertex with the id in
    position [i] sits in slot [i]. *)
Lemma VOK_slot g i v pk :
  graph pk = g -> VOK g -> nth_error (vertexArray g) i = Some v ->
  nth_error (vertexIdArray g) i = Some (v_id v)
  /\ getVertexSlot (Some (v_id v)) pk = (Return i, pk)
  /\ getVertexP (Some (v_id v)) pk = (Return v, pk).
Proof.
  intros Hg [Hids Hnd] Hv. subst g.
  assert (Hid : nth_error (vertexIdArray (graph pk)) i = Some (v_id v)).
  { rewrite Hids. apply map_nth_error. exact Hv. }
  pose proof (indexOf_nth_NoDup _ Hnd i (v_id v) Hid) as Hidx.
  unfold getVertexSlot, getVertexP, liftO, getVertex. rewrite Hidx, Hv. auto.
Qed.

Lemma Vertex_setState_run this s pk :
  s <> IN_PROGRESS ->
  Vertex_setState this s pk
  = (Return tt,
     set_graph pk (updateSlot this (fun v => Vertex_withState v s) (graph pk))).
Proof. intros H. destruct s; try reflexivity. contradiction. Qed.

Lemma initializeLoop ids count :
  forall from pk,
    VOK (graph pk) -> ids = vertexIdArray (graph pk) ->
    from + count = length (vertexArray (graph pk)) ->
    exists pk',
      forRange from count (fun i => getVertex_setState (nth_error ids i) NOT_READY) pk
      = (Return tt, pk')
      /\ numberOfRunningProcesses pk' = numberOfRunningProcesses pk
      /\ maxNumberOfRunningProcesses pk' = maxNumberOfRunningProcesses pk
      /\ forall j v', nth_error (vertexArray (graph pk')) j = Some v' ->
                      (from <= j -> v_state v' = NOT_READY)
                      /\ (j < from -> nth_error (vertexArray (graph pk)) j = Some v').
Proof.
  induction count as [|count IH]; intros from pk Hok Hids Hlen.
  - exists pk. simpl. repeat split; auto.
    intros Hj. assert (j < length (vertexArray (graph pk)))
      by (apply nth_error_Some; congruence). lia.
  - assert (Hlt : from < length (vertexArray (graph pk))) by lia.
    destruct (nth_error (vertexArray (graph pk)) from) as [v|] eqn:Ev;
      [|apply nth_error_None in Ev; lia].
    destruct (VOK_slot (graph pk) from v pk eq_refl Hok Ev) as [Hid [Hslot _]].
    set (pk1 := set_graph pk (updateSlot from
                   (fun v => Vertex_withState v NOT_READY) (graph pk))).
    assert (Hok1 : VOK (graph pk1)).
    { apply VOK_updateSlot; [reflexivity | exact Hok]. }
    destruct (IH (S from) pk1 Hok1) as [pk' [Hrun [Hn [Hmax Hall]]]].
    { simpl. rewrite updateSlot_vertexIdArray. exact Hids. }
    { simpl. unfold updateSlot. rewrite Ev. simpl. rewrite length_setNth. lia. }
    exists pk'. split.
    { assert (Hid' : nth_error ids from = Some (v_id v))
        by (rewrite Hids; exact Hid).
      simpl. unfold bind at 1. unfold getVertex_setState at 1. unfold bind at 1.
      rewrite Hid', Hslot, Vertex_setState_run by discriminate.
      exact Hrun. }
    split; [exact Hn|]. split; [exact Hmax|].
    intros j v' Hv'. destruct (Hall j v' Hv') as [H1 H2]. split.
    + intros Hj. destruct (Nat.eq_dec j from) as [->|Hne].
      * assert (Hx : nth_error (vertexArray (graph pk1)) from = Some v')
          by (apply H2; lia).
        simpl in Hx. rewrite (updateSlot_nth_eq from _ _ v Ev) in Hx.
        inversion Hx. reflexivity.
      * apply H1. lia.
    + intros Hj. assert (Hx : nth_error (vertexArray (graph pk1)) j = Some v')
        by (apply H2; lia).
      simpl in Hx. rewrite updateSlot_nth_neq in Hx by lia. exact Hx.
Qed.

Lemma initializeStates_run pk :
  VOK (graph pk) ->
  exists pk',
    initializeStates pk = (Return tt, pk')
    /\ numberOfRunningProcesses pk' = numberOfRunningProcesses pk
    /\ maxNumberOfRunningProcesses pk' = maxNumberOfRunningProcesses pk
    /\ countInProgress (graph pk') = 0.
Proof.
  intros Hok.
  destruct (initializeLoop (vertexIdArray (graph pk))
              (length (vertexArray (graph pk))) 0 pk Hok eq_refl eq_refl)
    as [pk' [Hrun [Hn [Hmax Hall]]]].
  exists pk'. split.
  { unfold initializeStates, bind, gets. simpl.
    rewrite (VOK_getVertexIds _ Hok). exact Hrun. }
  split; [exact Hn|]. split; [exact Hmax|].
  unfold countInProgress. apply length_zero_iff_nil. apply filter_nil_iff.
  intros v Hv. apply In_nth_error in Hv. destruct Hv as [j Hj].
  destruct (Hall j v Hj) as [H _]. unfold isInProgress. rewrite H by lia.
  reflexivity.
Qed.

Lemma set_graph_id pk : set_graph pk (graph pk) = pk.
Proof. destruct pk; reflexivity. Qed.

(** After [start] on a well-formed graph the count is right. *)
Lemma start_unfold sharedData pk :
  WF (graph pk) ->
  exists pk1,
    run (start sharedData) pk = snd ((updateStates ;;; startReadyProcesses) pk1)
    /\ inFlightOK pk1
    /\ maxNumberOfRunningProcesses pk1 = maxNumberOfRunningProcesses pk.
Proof.
  intros Hwf. unfold run, start.
  unfold bind at 1. unfold modify at 1. unfold bind at 1. unfold modify at 1.
  unfold bind at 1.
  set (pk0 := set_results (set_finalCallbackExecuted pk false) sharedData).
  change (WF (graph pk0)) in Hwf.
  assert (Hmax0 : maxNumberOfRunningProcesses pk0 = maxNumberOfRunningProcesses pk)
    by reflexivity.
  clearbody pk0.
  destruct (topologicalSort_result (graph pk0) Hwf) as [L [Hts _]].
  unfold liftG at 1. rewrite Hts. rewrite set_graph_id.
  unfold bind at 1. unfold modify at 1. unfold bind at 1. unfold modify at 1.
  unfold bind at 1. unfold modify at 1. unfold bind at 1.
  match goal with
  | |- context [initializeStates ?p] =>
      destruct (initializeStates_run p) as [pk1 [Hrun [Hn [Hmax Hc]]]];
      [apply WF_VOK; exact Hwf | rewrite Hrun]
  end.
  simpl in Hn, Hmax. exists pk1. split; [reflexivity|].
  split; [|congruence]. split; lia.
Qed.

Lemma start_inFlightOK sharedData pk :
  WF (graph pk) ->
  inFlightOK (run (start sharedData) pk)
  /\ maxNumberOfRunningProcesses (run (start sharedData) pk)
     = maxNumberOfRunningProcesses pk.
Proof.
  intros Hwf. destruct (start_unfold sharedData pk Hwf) as [pk1 [-> [Hok Hmax]]].
  assert (Hm : steps keepsOK (updateStates ;;; startReadyProcesses))
    by keepsOK_steps.
  destruct (Hm pk1) as [Hmax2 Hkeep]. split; [auto | congruence].
Qed.

(** The commit of a completion event, up to the decrement of the count. *)
Lemma setState_unfold vertexId newState pk v :
  getVertex (graph pk) vertexId = Return v ->
  v_state v = IN_PROGRESS ->
  newState = "SUCCESS" \/ newState = "FAIL" ->
  inFlightOK pk ->
  exists (rest : P unit) pk2,
    run (setState vertexId newState) pk = snd (rest pk2)
    /\ steps keepsOK rest
    /\ inFlightOK pk2
    /\ maxNumberOfRunningProcesses pk2 = maxNumberOfRunningProcesses pk
    /\ (numberOfRunningProcesses pk2 = numberOfRunningProcesses pk - 1)%Z.
Proof.
  intros Hget Hip Hst Hok.
  assert (Hhas : hasVertexId (graph pk) vertexId = true).
  { unfold hasVertexId, getVertex in *.
    destruct (indexOf vertexId (vertexIdArray (graph pk))); [reflexivity | discriminate]. }
  destruct Hok as [Hn Hb].
  unfold run, setState. unfold bind at 1. unfold gets at 1. rewrite Hhas.
  destruct Hst as [-> | ->].
  - change (state_of_string "SUCCESS") with (Some SUCCESS). cbv iota beta.
    destruct (commit_inFlightOK vertexId SUCCESS pk v Hget Hip (or_introl eq_refl)
                (conj Hn Hb)) as [pk1 [Hrun [Hmax [Hc Hn1]]]].
    unfold bind at 1. rewrite Hrun. unfold afterSuccess.
    unfold bind at 1. unfold decrementRunning at 1. unfold modify at 1.
    cbv beta iota.
    match goal with
    | |- context [snd (?m ?p)] =>
        exists m, p; split; [reflexivity|]; split; [keepsOK_steps|]
    end.
    split; [|simpl; split; [exact Hmax | lia]].
    split; simpl; [lia|]. rewrite Hmax, Hn1. intros Hpos. specialize (Hb Hpos). lia.
  - change (state_of_string "FAIL") with (Some FAIL). cbv iota beta.
    destruct (commit_inFlightOK vertexId FAIL pk v Hget Hip (or_intror eq_refl)
                (conj Hn Hb)) as [pk1 [Hrun [Hmax [Hc Hn1]]]].
    unfold bind at 1. rewrite Hrun. unfold afterFail.
    unfold bind at 1. rewrite writeToLog_run.
    unfold bind at 1. unfold decrementRunning at 1. unfold modify at 1.
    cbv beta iota.
    match goal with
    | |- context [snd (?m ?p)] =>
        exists m, p; split; [reflexivity|]; split; [keepsOK_steps|]
    end.
    split; [|simpl; split; [exact Hmax | lia]].
    split; simpl; [lia|]. rewrite Hmax, Hn1. intros Hpos. specialize (Hb Hpos). lia.
Qed.

Lemma setState_complete vertexId newState pk v :
  getVertex (graph pk) vertexId = Return v ->
  v_state v = IN_PROGRESS ->
  newState = "SUCCESS" \/ newState = "FAIL" ->
  inFlightOK pk ->
  inFlightOK (run (setState vertexId newState) pk)
  /\ maxNumberOfRunningProcesses (run (setState vertexId newState) pk)
     = maxNumberOfRunningProcesses pk.
Proof.
  intros Hget Hip Hst Hok.
  destruct (setState_unfold vertexId newState pk v Hget Hip Hst Hok)
    as [rest [pk2 [-> [Hm [Hok2 [Hmax _]]]]]].
  destruct (Hm pk2) as [Hmax2 Hkeep]. split; [auto | congruence].
Qed.

Lemma campaign_inFlightOK pk : campaign pk -> inFlightOK pk.
Proof.
  induction 1 as [pk d Hwf | pk id st v _ IH Hget Hip Hst].
  - apply start_inFlightOK. exact Hwf.
  - apply (setState_complete id st pk v); assumption.
Qed.

(** ** The frame of propagation *)

Lemma sameFrame_refl pk : sameFrame pk pk.
Proof. constructor; reflexivity. Qed.

Lemma sameFrame_trans a b c : sameFrame a b -> sameFrame b c -> sameFrame a c.
Proof. intros [] []. constructor; congruence. Qed.

Lemma updateSlot_sameFrame i f :
  (forall v, v_id (f v) = v_id v) -> (forall v, v_data (f v) = v_data v) ->
  steps sameFrame (modify (fun pk => set_graph pk (updateSlot i f (graph pk)))).
Proof.
  intros H1 H2 pk. constructor; simpl; try reflexivity;
    try apply updateSlot_vertexIdArray; try apply updateSlot_edges.
  - unfold updateSlot. destruct (nth_error (vertexArray (graph pk)) i); reflexivity.
  - apply updateSlot_map. intros v _. apply H1.
  - apply updateSlot_map. intros v _. apply H2.
Qed.

Ltac sameFrame_leaf :=
  first [ solve [auto]
        | apply updateSlot_sameFrame; intros; reflexivity
        | intro; constructor; reflexivity ].

Ltac sameFrame_steps := steps_split sameFrame_leaf sameFrame_refl sameFrame_trans.

Lemma emitStart_sameFrame i : steps sameFrame (emitStart i).
Proof. unfold emitStart, writeToLog, emit. sameFrame_steps. Qed.

Lemma Vertex_setState_sameFrame this s : steps sameFrame (Vertex_setState this s).
Proof. pose proof emitStart_sameFrame. unfold Vertex_setState. sameFrame_steps. Qed.

Lemma applyNewState_sameFrame l i : steps sameFrame (applyNewState l i).
Proof.
  pose proof Vertex_setState_sameFrame.
  unfold applyNewState, orderAt, getVertexSlot. sameFrame_steps.
Qed.

Lemma steps_eq_sameFrame A (m : P A) : steps eq m -> steps sameFrame m.
Proof. intros H s. rewrite <- (H s). apply sameFrame_refl. Qed.

Lemma updateStates_sameFrame : steps sameFrame updateStates.
Proof.
  pose proof applyNewState_sameFrame.
  pose proof (fun c f => steps_eq_sameFrame _ _ (computeNewStates_pure c f)).
  unfold updateStates. sameFrame_steps.
Qed.

(** ** What a write of a state does to the slots *)

Lemma emitStart_effect i pk :
  exists pk',
    emitStart i pk = (Return tt, pk')
    /\ (forall j, j <> i ->
          nth_error (vertexArray (graph pk')) j = nth_error (vertexArray (graph pk)) j)
    /\ (forall v, nth_error (vertexArray (graph pk)) i = Some v ->
          exists v', nth_error (vertexArray (graph pk')) i = Some v'
                     /\ v_state v' = v_state v).
Proof.
  unfold emitStart. unfold bind at 1. unfold get at 1.
  destruct (nth_error (vertexArray (graph pk)) i) as [v|] eqn:Ev.
  - destruct (startListener v).
    + eexists. split; [reflexivity|]. simpl. split.
      * intros j Hj. apply updateSlot_nth_neq. auto.
      * intros w Hw. inversion Hw; subst w. eexists. split.
        -- apply updateSlot_nth_eq. exact Ev.
        -- reflexivity.
    + exists pk. split; [reflexivity|]. split; [auto|]. intros w Hw.
      inversion Hw; subst w. exists v. split; [exact Ev | reflexivity].
  - exists pk. split; [reflexivity|]. split; [auto|]. intros w Hw. discriminate.
Qed.

Lemma Vertex_setState_effect this s pk v :
  nth_error (vertexArray (graph pk)) this = Some v ->
  exists pk',
    Vertex_setState this s pk = (Return tt, pk')
    /\ (forall j, j <> this ->
          nth_error (vertexArray (graph pk')) j = nth_error (vertexArray (graph pk)) j)
    /\ exists v', nth_error (vertexArray (graph pk')) this = Some v'
                  /\ v_state v' = s.
Proof.
  intros Ev. unfold Vertex_setState. unfold bind at 1. unfold modify at 1.
  set (pk1 := set_graph pk (updateSlot this (fun v => Vertex_withState v s) (graph pk))).
  assert (H1 : forall j, j <> this ->
                 nth_error (vertexArray (graph pk1)) j
                 = nth_error (vertexArray (graph pk)) j).
  { intros j Hj. simpl. apply updateSlot_nth_neq. auto. }
  assert (H2 : nth_error (vertexArray (graph pk1)) this = Some (Vertex_withState v s)).
  { simpl. apply (updateSlot_nth_eq this (fun v => Vertex_withState v s) _ v Ev). }
  assert (Hdone : exists pk', (Return tt, pk1) = (Return tt, pk')
            /\ (forall j, j <> this ->
                  nth_error (vertexArray (graph pk')) j
                  = nth_error (vertexArray (graph pk)) j)
            /\ exists v', nth_error (vertexArray (graph pk')) this = Some v'
                          /\ v_state v' = s).
  { exists pk1. split; [reflexivity|]. split; [exact H1|]. eauto. }
  destruct s; try exact Hdone. clear Hdone.
  unfold bind at 1. unfold gets at 1.
  destruct (isCurrentlyRunning pk1).
  - destruct (emitStart_effect this pk1) as [pk' [Hrun [Ha Hb]]].
    exists pk'. split; [exact Hrun|]. split.
    + intros j Hj. rewrite Ha by exact Hj. apply H1. exact Hj.
    + destruct (Hb _ H2) as [v' [Hv' Hs]]. exists v'. split; [exact Hv'|].
      rewrite Hs. reflexivity.
  - exists pk1. split; [reflexivity|]. split; [exact H1|]. eauto.
Qed.

(** ** The first loop of [updateStates] computes the rule of the
    specification *)

Lemma getVertexP_In pk id :
  VOK (graph pk) -> In id (vertexIdArray (graph pk)) ->
  exists v, getVertexP (Some id) pk = (Return v, pk)
            /\ vertexOfId (graph pk) id = Some v.
Proof.
  intros Hok Hin.
  destruct (getVertex_vertexOfId (graph pk) id Hok Hin) as [v [H1 H2]].
  exists v. unfold getVertexP, liftO. rewrite H1. auto.
Qed.

Lemma scanParents_run pk parents :
  VOK (graph pk) ->
  (forall p, In p parents -> In p (vertexIdArray (graph pk))) ->
  forall a b,
    scanParents parents a b pk
    = (Return (a && forallb (fun p => State_eqb (stateOfId (graph pk) p) SUCCESS) parents,
               b || existsb (fun p => State_eqb (stateOfId (graph pk) p) FAIL) parents),
       pk).
Proof.
  intros Hok. induction parents as [|p rest IH]; intros Hin a b; simpl.
  - rewrite andb_true_r, orb_false_r. reflexivity.
  - destruct (getVertexP_In pk p Hok (Hin p (or_introl eq_refl))) as [v [Hget Hv]].
    unfold bind. rewrite Hget. rewrite IH by (intros q Hq; apply Hin; right; exact Hq).
    assert (Hs : stateOfId (graph pk) p = v_state v)
      by (unfold stateOfId; rewrite Hv; reflexivity).
    rewrite Hs, andb_assoc, orb_assoc. reflexivity.
Qed.

Lemma idsOf_run g (l : list string) :
  VOK g -> (forall s, In s l -> In s (vertexIdArray g)) ->
  idsOf (map (vertexOfId g) l) = Return l.
Proof.
  intros Hok. induction l as [|s l IH]; intros Hin; simpl; [reflexivity|].
  destruct (vertexOfId_id g s Hok (Hin s (or_introl eq_refl))) as [v Hv].
  rewrite Hv. rewrite IH by (intros q Hq; apply Hin; right; exact Hq).
  destruct (vertexOfId_Some g s v Hok Hv) as [-> _]. reflexivity.
Qed.

(** The ids of the parents of [c], in the order of the edge arrays. *)
Lemma getParentVertexIds_run g c :
  WF g ->
  getParentVertexIds g c
  = Return (map fst (filter (fun se => String.eqb (snd se) c) (edges g))).
Proof.
  intros Hwf. unfold getParentVertexIds, getParentVertices.
  rewrite <- (map_map fst (vertexOfId g)). apply idsOf_run.
  - apply WF_VOK. exact Hwf.
  - intros s Hs. apply in_map_iff in Hs. destruct Hs as [[s' e] [<- Hin]].
    apply filter_In in Hin. destruct Hin as [Hin _].
    apply (wf_endpoints g Hwf s' e Hin).
Qed.

Lemma bool_eq_iff (a b : bool) : (a = true <-> b = true) -> a = b.
Proof. destruct a, b; intuition congruence. Qed.

Lemma parentsOf_In g v p :
  In p (parentsOf g v) <-> In p (vertexArray g) /\ In (v_id p, v_id v) (edges g).
Proof.
  unfold parentsOf. rewrite filter_In, existsb_exists. split.
  - intros [Hp [[s e] [Hin Heq]]]. simpl in Heq. apply andb_true_iff in Heq.
    destruct Heq as [H1 H2]. apply String.eqb_eq in H1, H2. subst. auto.
  - intros [Hp Hin]. split; [exact Hp|]. exists (v_id p, v_id v).
    simpl. rewrite !String.eqb_refl. auto.
Qed.

Lemma parents_forallb g v (f : State -> bool) :
  WF g ->
  forallb (fun p => f (stateOfId g p))
          (map fst (filter (fun se => String.eqb (snd se) (v_id v)) (edges g)))
  = forallb (fun p => f (v_state p)) (parentsOf g v).
Proof.
  intros Hwf. pose proof (WF_VOK g Hwf) as Hok.
  apply bool_eq_iff. rewrite !forallb_forall. split.
  - intros H p Hp. apply parentsOf_In in Hp. destruct Hp as [HpV Hedge].
    specialize (H (v_id p)). unfold stateOfId in H.
    rewrite (vertexOfId_In g p Hok HpV) in H. apply H.
    apply in_map_iff. exists (v_id p, v_id v). split; [reflexivity|].
    apply filter_In. simpl. rewrite String.eqb_refl. auto.
  - intros H s Hs. apply in_map_iff in Hs. destruct Hs as [[s' e] [<- Hin]].
    apply filter_In in Hin. simpl in Hin. destruct Hin as [Hin He].
    apply String.eqb_eq in He. subst e.
    destruct (vertexOfId_id g s' Hok (proj1 (wf_endpoints g Hwf _ _ Hin))) as [p Hp].
    destruct (vertexOfId_Some g s' p Hok Hp) as [Hid HpV].
    simpl. unfold stateOfId. rewrite Hp. apply H. apply parentsOf_In.
    rewrite Hid. auto.
Qed.

Lemma parents_existsb g v (f : State -> bool) :
  WF g ->
  existsb (fun p => f (stateOfId g p))
          (map fst (filter (fun se => String.eqb (snd se) (v_id v)) (edges g)))
  = existsb (fun p => f (v_state p)) (parentsOf g v).
Proof.
  intros Hwf.
  apply bool_eq_iff. rewrite !existsb_exists.
  pose proof (WF_VOK g Hwf) as Hok. split.
  - intros [s [Hs Hf]]. apply in_map_iff in Hs. destruct Hs as [[s' e] [<- Hin]].
    apply filter_In in Hin. simpl in Hin. destruct Hin as [Hin He].
    apply String.eqb_eq in He. subst e.
    destruct (vertexOfId_id g s' Hok (proj1 (wf_endpoints g Hwf _ _ Hin))) as [p Hp].
    destruct (vertexOfId_Some g s' p Hok Hp) as [Hid HpV].
    exists p. simpl in Hf. unfold stateOfId in Hf. rewrite Hp in Hf.
    split; [|exact Hf]. apply parentsOf_In. rewrite Hid. auto.
  - intros [p [Hp Hf]]. apply parentsOf_In in Hp. destruct Hp as [HpV Hedge].
    exists (v_id p). split.
    + apply in_map_iff. exists (v_id p, v_id v). split; [reflexivity|].
      apply filter_In. simpl. rewrite String.eqb_refl. auto.
    + unfold stateOfId. rewrite (vertexOfId_In g p Hok HpV). exact Hf.
Qed.

Lemma newStateOf_run pk v :
  WF (graph pk) ->
  newStateOf v pk = (Return (spec_newState (graph pk) v), pk).
Proof.
  intros Hwf. pose proof (WF_VOK _ Hwf) as Hok.
  unfold newStateOf, spec_newState.
  destruct (State_eqb (v_state v) NOT_READY); simpl; [|reflexivity].
  unfold bind at 1. unfold gets at 1.
  destruct (Nat.eqb (indegree (graph pk) (v_id v)) 0); [reflexivity|].
  unfold bind at 1. unfold liftO at 1. rewrite (getParentVertexIds_run _ _ Hwf).
  unfold bind at 1. rewrite scanParents_run; [|exact Hok|].
  - simpl.
    rewrite (parents_forallb (graph pk) v (fun s => State_eqb s SUCCESS) Hwf).
    rewrite (parents_existsb (graph pk) v (fun s => State_eqb s FAIL) Hwf).
    destruct (forallb _ _); [reflexivity|]. destruct (existsb _ _); reflexivity.
  - intros s Hs. apply in_map_iff in Hs. destruct Hs as [[s' e] [<- Hin]].
    apply filter_In in Hin. destruct Hin as [Hin _].
    apply (wf_endpoints _ Hwf s' e Hin).
Qed.

Lemma orderAt_run pk order i :
  topologicalSortOrder pk = Some order ->
  orderAt i pk = (Return (nth_error order i), pk).
Proof. intros H. unfold orderAt, bind, gets. rewrite H. reflexivity. Qed.

Lemma computeNewStates_run pk order count :
  WF (graph pk) -> topologicalSortOrder pk = Some order ->
  forall from,
    (forall i, from <= i < from + count ->
               exists id, nth_error order i = Some id
                          /\ In id (vertexIdArray (graph pk))) ->
    computeNewStates from count pk
    = (Return (map (target (graph pk) order) (seq from count)), pk).
Proof.
  intros Hwf Ho. pose proof (WF_VOK _ Hwf) as Hok.
  induction count as [|count IH]; intros from Hord; simpl; [reflexivity|].
  destruct (Hord from) as [id [Hid Hin]]; [lia|].
  destruct (getVertexP_In pk id Hok Hin) as [v [Hget Hv]].
  unfold bind at 1. rewrite (orderAt_run pk order from Ho), Hid.
  unfold bind at 1. rewrite Hget.
  unfold bind at 1. rewrite (newStateOf_run pk v Hwf).
  unfold bind at 1. rewrite IH by (intros i Hi; apply Hord; lia).
  assert (Ht : target (graph pk) order from = spec_newState (graph pk) v)
    by (unfold target; rewrite Hid, Hv; reflexivity).
  rewrite Ht. reflexivity.
Qed.

(** ** The second loop of [updateStates] writes what the first computed *)

Lemma firstn_S_nth A (l : list A) k x :
  nth_error l k = Some x -> firstn (S k) l = firstn k l ++ [x].
Proof.
  revert k; induction l as [|a l IH]; intros [|k] H; simpl in *; try discriminate.
  - inversion H. reflexivity.
  - rewrite (IH k H). reflexivity.
Qed.

Lemma applyLoop_run pk0 order :
  WF (graph pk0) -> topologicalSortOrder pk0 = Some order ->
  (forall i, i < vertexCount (graph pk0) ->
             exists id, nth_error order i = Some id
                        /\ In id (vertexIdArray (graph pk0))) ->
  forall count from pk,
    from + count = vertexCount (graph pk0) ->
    sameFrame pk0 pk -> written pk0 order from pk ->
    exists pk',
      forRange from count
        (applyNewState (map (target (graph pk0) order)
                            (seq 0 (vertexCount (graph pk0))))) pk
      = (Return tt, pk')
      /\ written pk0 order (vertexCount (graph pk0)) pk'.
Proof.
  intros Hwf Ho Hord. pose proof (WF_VOK _ Hwf) as Hok.
  set (n := vertexCount (graph pk0)) in *.
  induction count as [|count IH]; intros from pk Hlen Hfr Hw.
  - exists pk. simpl. split; [reflexivity|]. replace n with from by lia. exact Hw.
  - destruct (Hord from) as [id [Hid Hin]]; [lia|].
    destruct (indexOf_In id _ Hin) as [slot Hslot].
    destruct (indexOf_Some _ _ _ Hslot) as [Hnth Hlt].
    rewrite (VOK_length _ Hok) in Hlt.
    destruct (nth_error (vertexArray (graph pk0)) slot) as [v0s|] eqn:Ev0;
      [|apply nth_error_None in Ev0; lia].
    assert (Hv0id : v_id v0s = id).
    { destruct Hok as [Hids _]. rewrite Hids in Hnth.
      rewrite (map_nth_error v_id _ _ Ev0) in Hnth. congruence. }
    assert (Hvof : vertexOfId (graph pk0) id = Some v0s).
    { unfold vertexOfId. rewrite Hslot. exact Ev0. }
    destruct (Hw slot v0s Ev0) as [v [Ev _]].
    assert (Hgs : getVertexSlot (Some id) pk = (Return slot, pk)).
    { unfold getVertexSlot, liftO. rewrite (sf_ids _ _ Hfr), Hslot, Ev. reflexivity. }
    destruct (Vertex_setState_effect slot (spec_newState (graph pk0) v0s) pk v Ev)
      as [pk1 [Hrun [Hother [v1 [Ev1 Hs1]]]]].
    assert (Hfr1 : sameFrame pk0 pk1).
    { apply sameFrame_trans with pk; [exact Hfr|].
      pose proof (Vertex_setState_sameFrame slot (spec_newState (graph pk0) v0s) pk) as H.
      rewrite Hrun in H. exact H. }
    destruct (IH (S from) pk1) as [pk' [Hloop Hw']]; [lia | exact Hfr1 | |].
    + intros j v0 Ej. rewrite (firstn_S_nth _ order from id Hid), existsb_app.
      simpl. rewrite orb_false_r.
      destruct (Nat.eq_dec j slot) as [->|Hne].
      * rewrite Ev0 in Ej. inversion Ej; subst v0. exists v1. split; [exact Ev1|].
        rewrite Hv0id, String.eqb_refl, orb_true_r. exact Hs1.
      * destruct (Hw j v0 Ej) as [w [Ew Hsw]]. exists w.
        rewrite (Hother j Hne). split; [exact Ew|].
        assert (Hneq : String.eqb (v_id v0) id = false).
        { apply String.eqb_neq. intros Heq. apply Hne.
          destruct Hok as [Hids Hnd].
          assert (Hj : nth_error (vertexIdArray (graph pk0)) j = Some id).
          { rewrite Hids, (map_nth_error v_id _ _ Ej). congruence. }
          apply (proj1 (NoDup_nth_error _) Hnd j slot).
          - apply nth_error_Some. congruence.
          - congruence. }
        rewrite Hneq, orb_false_r. exact Hsw.
    + exists pk'. split; [|exact Hw'].
      simpl. unfold bind at 1. unfold applyNewState at 1.
      unfold bind at 1. rewrite (orderAt_run pk order from), Hid
        by (rewrite (sf_order _ _ Hfr); exact Ho).
      unfold bind at 1. rewrite Hgs.
      assert (Hl : nth_error (map (target (graph pk0) order) (seq 0 n)) from
                   = Some (spec_newState (graph pk0) v0s)).
      { rewrite (map_nth_error _ _ _ (B := State)) with (d := from).
        - unfold target. rewrite Hid, Hvof. reflexivity.
        - rewrite nth_error_seq. destruct (Nat.ltb_spec from n); [reflexivity | lia]. }
      rewrite Hl, Hrun. exact Hloop.
Qed.

(** [updateStates] on a well-formed graph, with an order whose first
    [vertexCount()] entries are ids of vertices. *)
Lemma updateStates_spec pk order :
  WF (graph pk) -> topologicalSortOrder pk = Some order ->
  (forall i, i < vertexCount (graph pk) ->
             exists id, nth_error order i = Some id
                        /\ In id (vertexIdArray (graph pk))) ->
  exists pk',
    updateStates pk = (Return tt, pk')
    /\ sameFrame pk pk'
    /\ forall j v,
        nth_error (vertexArray (graph pk)) j = Some v ->
        exists v',
          nth_error (vertexArray (graph pk')) j = Some v'
          /\ v_state v' = if visited (graph pk) order (v_id v)
                          then spec_newState (graph pk) v
                          else v_state v.
Proof.
  intros Hwf Ho Hord.
  destruct (applyLoop_run pk order Hwf Ho Hord (vertexCount (graph pk)) 0 pk)
    as [pk' [Hloop Hw]]; [reflexivity | apply sameFrame_refl | |].
  { intros j v0 Ej. exists v0. simpl. auto. }
  assert (Hrun : updateStates pk = (Return tt, pk')).
  { unfold updateStates. unfold bind at 1. unfold gets at 1. unfold bind at 1.
    rewrite (computeNewStates_run pk order _ Hwf Ho 0) by (intros i Hi; apply Hord; lia).
    exact Hloop. }
  exists pk'. split; [exact Hrun|]. split.
  - pose proof (updateStates_sameFrame pk) as H. rewrite Hrun in H. exact H.
  - exact Hw.
Qed.

(** ** Two runs of [updateStates] in a row *)

Lemma WF_sameFrame pk pk' : sameFrame pk pk' -> WF (graph pk) -> WF (graph pk').
Proof.
  intros Hfr [H1 H2 H3 H4 H5].
  assert (He : edges (graph pk') = edges (graph pk)).
  { unfold edges. rewrite (sf_starts _ _ Hfr), (sf_ends _ _ Hfr). reflexivity. }
  constructor.
  - rewrite (sf_ids _ _ Hfr), (sf_vids _ _ Hfr). exact H1.
  - rewrite (sf_ids _ _ Hfr). exact H2.
  - rewrite (sf_starts _ _ Hfr), (sf_ends _ _ Hfr). exact H3.
  - rewrite He, (sf_ids _ _ Hfr). exact H4.
  - rewrite He. exact H5.
Qed.

Lemma sameFrame_vertexCount pk pk' :
  sameFrame pk pk' -> vertexCount (graph pk') = vertexCount (graph pk).
Proof.
  intros Hfr. unfold vertexCount.
  rewrite <- (length_map v_id (vertexArray (graph pk'))), (sf_vids _ _ Hfr).
  apply length_map.
Qed.

Lemma sameFrame_v_id pk pk' j v v' :
  sameFrame pk pk' ->
  nth_error (vertexArray (graph pk)) j = Some v ->
  nth_error (vertexArray (graph pk')) j = Some v' ->
  v_id v' = v_id v.
Proof.
  intros Hfr Hv Hv'.
  apply (map_nth_error v_id) in Hv. apply (map_nth_error v_id) in Hv'.
  rewrite (sf_vids _ _ Hfr) in Hv'. congruence.
Qed.

Lemma sameFrame_edges pk pk' :
  sameFrame pk pk' -> edges (graph pk') = edges (graph pk).
Proof.
  intros Hfr. unfold edges.
  rewrite (sf_starts _ _ Hfr), (sf_ends _ _ Hfr). reflexivity.
Qed.

Lemma spec_newState_kept g v :
  v_state v <> NOT_READY -> spec_newState g v = v_state v.
Proof.
  intros H. unfold spec_newState. destruct (v_state v); try reflexivity.
  contradiction.
Qed.

Lemma spec_newState_NOT_READY g v :
  spec_newState g v = NOT_READY ->
  v_state v = NOT_READY
  /\ Nat.eqb (indegree g (v_id v)) 0 = false
  /\ forallb (fun p => State_eqb (v_state p) SUCCESS) (parentsOf g v) = false
  /\ existsb (fun p => State_eqb (v_state p) FAIL) (parentsOf g v) = false.
Proof.
  unfold spec_newState. destruct (v_state v); simpl; try discriminate.
  destruct (Nat.eqb (indegree g (v_id v)) 0); [discriminate|].
  destruct (forallb _ _); [discriminate|].
  destruct (existsb _ _); [discriminate|]. auto.
Qed.

(** What the second run finds: the same edges, and the same states at the
    parents of a vertex that the first run left NOT_READY, as soon as no
    parent was NOT_READY. *)
Lemma updateStates_twice pk order :
  WF (graph pk) -> topologicalSortOrder pk = Some order ->
  (forall i, i < vertexCount (graph pk) ->
             exists id, nth_error order i = Some id
                        /\ In id (vertexIdArray (graph pk))) ->
  exists pk1 pk2,
    updateStates pk = (Return tt, pk1)
    /\ updateStates pk1 = (Return tt, pk2)
    /\ (forall j v1 v2,
          nth_error (vertexArray (graph pk1)) j = Some v1 ->
          nth_error (vertexArray (graph pk2)) j = Some v2 ->
          v_state v1 <> NOT_READY -> v_state v2 = v_state v1)
    /\ ((forall v p, In v (vertexArray (graph pk)) -> v_state v = NOT_READY ->
                     In p (parentsOf (graph pk) v) -> v_state p <> NOT_READY) ->
        map v_state (vertexArray (graph pk2)) = map v_state (vertexArray (graph pk1))).
Proof.
  intros Hwf Ho Hord.
  destruct (updateStates_spec pk order Hwf Ho Hord) as [pk1 [Hrun1 [Hfr1 Hst1]]].
  pose proof (WF_sameFrame _ _ Hfr1 Hwf) as Hwf1.
  assert (Ho1 : topologicalSortOrder pk1 = Some order)
    by (rewrite (sf_order _ _ Hfr1); exact Ho).
  assert (Hord1 : forall i, i < vertexCount (graph pk1) ->
             exists id, nth_error order i = Some id
                        /\ In id (vertexIdArray (graph pk1))).
  { intros i Hi. rewrite (sameFrame_vertexCount _ _ Hfr1) in Hi.
    rewrite (sf_ids _ _ Hfr1). apply Hord. exact Hi. }
  destruct (updateStates_spec pk1 order Hwf1 Ho1 Hord1) as [pk2 [Hrun2 [Hfr2 Hst2]]].
  exists pk1, pk2. split; [exact Hrun1|]. split; [exact Hrun2|].
  assert (Hkeep : forall j v1 v2,
          nth_error (vertexArray (graph pk1)) j = Some v1 ->
          nth_error (vertexArray (graph pk2)) j = Some v2 ->
          v_state v1 <> NOT_READY -> v_state v2 = v_state v1).
  { intros j v1 v2 E1 E2 Hne. destruct (Hst2 j v1 E1) as [w [Ew Hw]].
    rewrite E2 in Ew. inversion Ew; subst w. rewrite Hw.
    destruct (visited (graph pk1) order (v_id v1));
      [apply spec_newState_kept; exact Hne | reflexivity]. }
  split; [exact Hkeep|]. intros Hsettled.
  apply nth_error_ext. intros j. rewrite !nth_error_map.
  destruct (nth_error (vertexArray (graph pk1)) j) as [v1|] eqn:E1.
  2: { assert (Hn : nth_error (vertexArray (graph pk2)) j = None).
       { apply nth_error_None. apply nth_error_None in E1.
         pose proof (sameFrame_vertexCount _ _ Hfr2). unfold vertexCount in *. lia. }
       rewrite Hn. reflexivity. }
  destruct (Hst2 j v1 E1) as [v2 [E2 Hs2]]. rewrite E2. simpl. f_equal.
  destruct (State_eqb (v_state v1) NOT_READY) eqn:Hnr.
  2: { apply (Hkeep j v1 v2 E1 E2). intros Heq. rewrite Heq in Hnr. discriminate. }
  assert (Hv1 : v_state v1 = NOT_READY) by (destruct (v_state v1); try discriminate; auto).
  rewrite Hs2. destruct (visited (graph pk1) order (v_id v1)) eqn:Hvis; [|reflexivity].
  assert (Hj : j < length (vertexArray (graph pk))).
  { pose proof (sameFrame_vertexCount _ _ Hfr1). unfold vertexCount in *.
    rewrite <- H. apply nth_error_Some. congruence. }
  destruct (nth_error (vertexArray (graph pk)) j) as [v|] eqn:E0;
    [|apply nth_error_None in E0; lia].
  destruct (Hst1 j v E0) as [w [Ew Hs1]]. rewrite E1 in Ew. inversion Ew; subst w.
  pose proof (sameFrame_v_id _ _ j v v1 Hfr1 E0 E1) as Hid.
  assert (Hvis0 : visited (graph pk) order (v_id v) = true).
  { unfold visited in *. rewrite (sameFrame_vertexCount _ _ Hfr1), Hid in Hvis.
    exact Hvis. }
  rewrite Hvis0 in Hs1. rewrite Hv1 in Hs1. symmetry in Hs1.
  destruct (spec_newState_NOT_READY _ _ Hs1) as [Hv0 [Hdeg [Hall Hex]]].
  (* the parents of the vertex kept their states *)
  assert (Hparents : forall p1, In p1 (parentsOf (graph pk1) v1) ->
            exists p, In p (parentsOf (graph pk) v) /\ v_state p = v_state p1).
  { intros p1 Hp1. apply parentsOf_In in Hp1. destruct Hp1 as [Hp1V Hedge].
    apply In_nth_error in Hp1V. destruct Hp1V as [k Ek1].
    assert (Hk : k < length (vertexArray (graph pk))).
    { pose proof (sameFrame_vertexCount _ _ Hfr1). unfold vertexCount in *.
      rewrite <- H. apply nth_error_Some. congruence. }
    destruct (nth_error (vertexArray (graph pk)) k) as [p|] eqn:Ek0;
      [|apply nth_error_None in Ek0; lia].
    pose proof (sameFrame_v_id _ _ k p p1 Hfr1 Ek0 Ek1) as Hpid.
    assert (Hpar : In p (parentsOf (graph pk) v)).
    { apply parentsOf_In. split; [eapply nth_error_In; eauto|].
      rewrite (sameFrame_edges _ _ Hfr1), Hpid, Hid in Hedge. exact Hedge. }
    exists p. split; [exact Hpar|].
    destruct (Hst1 k p Ek0) as [w [Ew' Hsw]]. rewrite Ek1 in Ew'.
    inversion Ew'; subst w.
    rewrite Hsw. destruct (visited (graph pk) order (v_id p)); [|reflexivity].
    rewrite spec_newState_kept; [reflexivity|].
    apply (Hsettled v p); [eapply nth_error_In; eauto | exact Hv0 | exact Hpar]. }
  unfold spec_newState. rewrite Hv1. simpl.
  unfold indegree in *. rewrite (sameFrame_edges _ _ Hfr1), Hid, Hdeg.
  assert (Hall1 : forallb (fun p => State_eqb (v_state p) SUCCESS)
                          (parentsOf (graph pk1) v1) = false).
  { destruct (forallb _ (parentsOf (graph pk1) v1)) eqn:E; [|reflexivity].
    rewrite <- Hall. symmetry. apply forallb_forall. intros p Hp.
    rewrite forallb_forall in E.
    apply parentsOf_In in Hp. destruct Hp as [HpV Hedge].
    apply In_nth_error in HpV. destruct HpV as [k Ek0].
    destruct (Hst1 k p Ek0) as [p1 [Ek1 Hsp]].
    pose proof (sameFrame_v_id _ _ k p p1 Hfr1 Ek0 Ek1) as Hpid.
    assert (Hp1 : In p1 (parentsOf (graph pk1) v1)).
    { apply parentsOf_In. split; [eapply nth_error_In; eauto|].
      rewrite (sameFrame_edges _ _ Hfr1), Hpid, Hid. exact Hedge. }
    specialize (E p1 Hp1). destruct (Hparents p1 Hp1) as [q [Hq Hqs]].
    assert (Hpne : v_state p <> NOT_READY).
    { apply (Hsettled v p); [eapply nth_error_In; eauto | exact Hv0 |].
      apply parentsOf_In. split; [eapply nth_error_In; eauto | exact Hedge]. }
    rewrite Hsp in E. destruct (visited (graph pk) order (v_id p)); [|exact E].
    rewrite spec_newState_kept in E by exact Hpne. exact E. }
  rewrite Hall1.
  assert (Hex1 : existsb (fun p => State_eqb (v_state p) FAIL)
                         (parentsOf (graph pk1) v1) = false).
  { destruct (existsb _ (parentsOf (graph pk1) v1)) eqn:E; [|reflexivity].
    rewrite <- Hex. symmetry. apply existsb_exists. apply existsb_exists in E.
    destruct E as [p1 [Hp1 Hf]]. destruct (Hparents p1 Hp1) as [p [Hp Hps]].
    exists p. split; [exact Hp|]. rewrite Hps. exact Hf. }
  rewrite Hex1. reflexivity.
Qed.

(** ** [setState] with NOT_READY or READY *)

Lemma setState_inert vertexId newState pk v :
  getVertex (graph pk) vertexId = Return v ->
  newState = "NOT_READY" \/ newState = "READY" ->
  exists slot st,
    indexOf vertexId (vertexIdArray (graph pk)) = Some slot
    /\ nth_error (vertexArray (graph pk)) slot = Some v
    /\ state_of_string newState = Some st
    /\ (st = NOT_READY \/ st = READY)
    /\ setState vertexId newState pk
       = (Return tt,
          set_graph pk (updateSlot slot (fun v => Vertex_withState v st) (graph pk))).
Proof.
  intros Hget Hst. unfold getVertex in Hget.
  destruct (indexOf vertexId (vertexIdArray (graph pk))) as [slot|] eqn:Hidx;
    [|discriminate].
  destruct (nth_error (vertexArray (graph pk)) slot) as [w|] eqn:Ev; [|discriminate].
  inversion Hget; subst w.
  assert (Hrun : forall st, st = NOT_READY \/ st = READY ->
            (getVertex_setState (Some vertexId) st ;;;
             match st with
             | SUCCESS => afterSuccess
             | FAIL => afterFail vertexId
             | _ => ret tt
             end) pk
            = (Return tt,
               set_graph pk (updateSlot slot (fun v => Vertex_withState v st) (graph pk)))).
  { intros st Hs. unfold bind, getVertex_setState, bind, getVertexSlot, liftO.
    rewrite Hidx, Ev. destruct Hs as [-> | ->]; reflexivity. }
  exists slot. destruct Hst as [-> | ->].
  - exists NOT_READY. repeat split; auto.
    unfold setState. unfold bind at 1. unfold gets at 1. unfold hasVertexId.
    rewrite Hidx. change (state_of_string "NOT_READY") with (Some NOT_READY).
    cbv iota. apply Hrun. auto.
  - exists READY. repeat split; auto.
    unfold setState. unfold bind at 1. unfold gets at 1. unfold hasVertexId.
    rewrite Hidx. change (state_of_string "READY") with (Some READY).
    cbv iota. apply Hrun. auto.
Qed.

Lemma diamondPK_WF : WF (graph diamondPK).
Proof. solve_WF. Qed.

Lemma chainPK_WF : WF (graph chainPK).
Proof. solve_WF. Qed.

Lemma failedChain_WF : WF (graph failedChain).
Proof. solve_WF. Qed.

(** ** Building a digraph *)

Lemma hasVertexId_In g id : hasVertexId g id = true <-> In id (vertexIdArray g).
Proof.
  unfold hasVertexId. destruct (indexOf id (vertexIdArray g)) as [i|] eqn:E.
  - split; [|reflexivity]. intros _. apply indexOf_Some in E.
    destruct E as [E _]. eapply nth_error_In; eauto.
  - split; [discriminate|]. intros H. apply indexOf_None in E. contradiction.
Qed.

Lemma hasVertexId_false g id : hasVertexId g id = false <-> ~ In id (vertexIdArray g).
Proof.
  rewrite <- hasVertexId_In. destruct (hasVertexId g id); split; intros H;
    try discriminate; try reflexivity; try tauto.
Qed.

Lemma combine_snoc A B (l : list A) (r : list B) a b :
  length l = length r -> combine (l ++ [a]) (r ++ [b]) = combine l r ++ [(a, b)].
Proof.
  revert r; induction l as [|x l IH]; intros [|y r] H; simpl in *; try discriminate.
  - reflexivity.
  - rewrite IH by lia. reflexivity.
Qed.

Lemma NoDup_snoc A (l : list A) a : NoDup l -> ~ In a l -> NoDup (l ++ [a]).
Proof.
  intros Hnd Hnin. apply NoDup_app; [assumption | repeat constructor; intros [] |].
  intros x Hx [<-|[]]. contradiction.
Qed.

Lemma addVertex_fresh g id data :
  hasVertexId g id = false ->
  addVertex id data g
  = (Return (mkVertex id NOT_READY data false),
     mkDigraph (vertexArray g ++ [mkVertex id NOT_READY data false])
               (vertexIdArray g ++ [id])
               (vertexStateArray g ++ [NOT_READY])
               (startVertexIdArray g) (endVertexIdArray g)).
Proof.
  unfold hasVertexId, addVertex.
  destruct (indexOf id (vertexIdArray g)); [discriminate | reflexivity].
Qed.

Lemma addVertex_known g id data :
  hasVertexId g id = true ->
  addVertex id data g = (Throw (Error "Duplicate Vertex ID"), g).
Proof.
  unfold hasVertexId, addVertex.
  destruct (indexOf id (vertexIdArray g)); [reflexivity | discriminate].
Qed.

Lemma addVertex_WF g id data : WF g -> WF (snd (addVertex id data g)).
Proof.
  intros Hwf. destruct (hasVertexId g id) eqn:Hh.
  - rewrite addVertex_known by assumption. exact Hwf.
  - rewrite addVertex_fresh by assumption. destruct Hwf as [H1 H2 H3 H4 H5].
    constructor; simpl.
    + rewrite map_app, H1. reflexivity.
    + apply NoDup_snoc; [assumption|]. apply hasVertexId_false. assumption.
    + assumption.
    + intros s e Hin. destruct (H4 s e Hin). rewrite !in_app_iff. auto.
    + assumption.
Qed.

(** When [addEdge] returns, and what it leaves. *)
Lemma addEdge_run g s e :
  length (startVertexIdArray g) = length (endVertexIdArray g) ->
  (hasVertexId g s = true /\ hasVertexId g e = true /\ s <> e
   /\ ~ In (s, e) (edges g)
   /\ addEdge s e g
      = (Return tt, withEdges g (startVertexIdArray g ++ [s])
                                (endVertexIdArray g ++ [e])))
  \/ (exists err, addEdge s e g = (Throw err, g)
                  /\ (hasVertexId g s = false \/ hasVertexId g e = false
                      \/ s = e \/ In (s, e) (edges g))).
Proof.
  intros Hlen. unfold addEdge, hasVertexId.
  destruct (indexOf s (vertexIdArray g)); [|right; eexists; split; [reflexivity | auto]].
  destruct (indexOf e (vertexIdArray g)); [|right; eexists; split; [reflexivity | auto]].
  destruct (String.eqb_spec s e) as [->|Hne];
    [right; eexists; split; [reflexivity | auto]|].
  destruct (findEdge s e (startVertexIdArray g) (endVertexIdArray g)) as [i|] eqn:E.
  - right. eexists. split; [reflexivity|]. do 3 right.
    apply findEdge_Some in E. destruct E as [E _]. eapply nth_error_In; eauto.
  - left. apply findEdge_None in E. auto.
Qed.

Lemma addEdge_WF g s e : WF g -> WF (snd (addEdge s e g)).
Proof.
  intros Hwf. destruct (addEdge_run g s e (wf_parallel g Hwf))
    as [[Hs [He [Hne [Hnin Hrun]]]] | [err [Hrun _]]]; rewrite Hrun; [|exact Hwf].
  destruct Hwf as [H1 H2 H3 H4 H5].
  assert (Hc : edges (withEdges g (startVertexIdArray g ++ [s])
                                  (endVertexIdArray g ++ [e]))
               = edges g ++ [(s, e)]).
  { unfold edges. simpl. apply combine_snoc. exact H3. }
  constructor; simpl; try assumption.
  - rewrite !length_app, H3. reflexivity.
  - intros a b Hin. rewrite Hc in Hin. apply in_app_or in Hin.
    destruct Hin as [Hin|[Heq|[]]]; [auto|]. inversion Heq; subst.
    split; apply hasVertexId_In; assumption.
  - rewrite Hc. apply NoDup_snoc; assumption.
Qed.

Lemma removeEdge_WF g s e : WF g -> WF (snd (removeEdge s e g)).
Proof.
  intros Hwf. unfold removeEdge.
  destruct (findEdge s e (startVertexIdArray g) (endVertexIdArray g)) as [i|] eqn:E;
    [|exact Hwf].
  apply findEdge_Some in E. destruct E as [_ Hi].
  destruct Hwf as [H1 H2 H3 H4 H5].
  assert (Hc : edges (withEdges g (splice1 i (startVertexIdArray g))
                                  (splice1 i (endVertexIdArray g)))
               = splice1 i (edges g)).
  { unfold edges. simpl. apply splice1_combine. }
  constructor; simpl; try assumption.
  - pose proof (splice1_length _ (startVertexIdArray g) i Hi).
    assert (Hi' : i < length (endVertexIdArray g)) by lia.
    pose proof (splice1_length _ (endVertexIdArray g) i Hi'). lia.
  - intros a b Hin. rewrite Hc in Hin. apply splice1_In in Hin. auto.
  - rewrite Hc. apply splice1_NoDup. assumption.
Qed.

Lemma applyOp_WF g op : WF g -> WF (applyOp g op).
Proof.
  intros Hwf. destruct op; simpl.
  - apply addVertex_WF. exact Hwf.
  - apply addEdge_WF. exact Hwf.
  - exact Hwf.
  - apply removeEdge_WF. exact Hwf.
  - destruct (topologicalSort_result g Hwf) as [L [Hrun _]]. rewrite Hrun. exact Hwf.
Qed.

Lemma applyOps_WF ops : forall g, WF g -> WF (applyOps ops g).
Proof.
  induction ops as [|op ops IH]; intros g Hwf; simpl; [exact Hwf|].
  apply IH. apply applyOp_WF. exact Hwf.
Qed.

Lemma findEdge_snoc s e starts ends :
  length starts = length ends ->
  findEdge s e starts ends = None ->
  findEdge s e (starts ++ [s]) (ends ++ [e]) = Some (length starts).
Proof.
  revert ends; induction starts as [|s' starts IH]; intros [|e' ends] Hlen Hnone;
    simpl in *; try discriminate.
  - rewrite !String.eqb_refl. reflexivity.
  - destruct (String.eqb s' s && String.eqb e' e); [discriminate|].
    destruct (findEdge s e starts ends) eqn:E; [discriminate|].
    rewrite IH by (auto; lia). reflexivity.
Qed.

Lemma splice1_snoc A (l : list A) x : splice1 (length l) (l ++ [x]) = l.
Proof. induction l as [|a l IH]; simpl; [reflexivity | rewrite IH; reflexivity]. Qed.

Lemma addEdge_removeEdge_run g s e :
  length (startVertexIdArray g) = length (endVertexIdArray g) ->
  fst (addEdge s e g) = Return tt ->
  removeEdge s e (snd (addEdge s e g)) = (Return tt, g).
Proof.
  intros Hlen Hret.
  destruct (addEdge_run g s e Hlen) as [[_ [_ [_ [Hnin Hrun]]]] | [err [Hrun _]]];
    rewrite Hrun in *; [|discriminate].
  simpl. unfold removeEdge. simpl.
  rewrite findEdge_snoc by (auto; apply findEdge_None; exact Hnin).
  rewrite splice1_snoc. rewrite Hlen at 1. rewrite splice1_snoc.
  change (withEdges (withEdges g (startVertexIdArray g ++ [s])
                               (endVertexIdArray g ++ [e]))
                    (startVertexIdArray g) (endVertexIdArray g))
    with (withEdges g (startVertexIdArray g) (endVertexIdArray g)).
  rewrite withEdges_id. reflexivity.
Qed.

Lemma count_splice1 A (f : A -> bool) (l : list A) i x :
  nth_error l i = Some x ->
  length (filter f (splice1 i l)) + (if f x then 1 else 0) = length (filter f l).
Proof.
  revert i; induction l as [|a l IH]; intros [|i] H; simpl in *; try discriminate.
  - inversion H; subst. destruct (f x); simpl; lia.
  - specialize (IH i H). destruct (f a); simpl; lia.
Qed.

(** [removeEdge] on an edge of the graph. *)
Lemma removeEdge_present g s e :
  WF g -> In (s, e) (edges g) ->
  exists g',
    removeEdge s e g = (Return tt, g')
    /\ edgeCount g' + 1 = edgeCount g
    /\ (forall p, In p (edges g') <-> In p (edges g) /\ p <> (s, e))
    /\ indegree g' e + 1 = indegree g e
    /\ outdegree g' s + 1 = outdegree g s
    /\ vertexArray g' = vertexArray g
    /\ vertexIdArray g' = vertexIdArray g.
Proof.
  intros Hwf Hin. destruct (removeEdge_In g s e Hin) as [i [Hrun [Hnth Hi]]].
  eexists. split; [exact Hrun|].
  assert (Hc : edges (withEdges g (splice1 i (startVertexIdArray g))
                                  (splice1 i (endVertexIdArray g)))
               = splice1 i (edges g)).
  { unfold edges. simpl. apply splice1_combine. }
  split; [unfold edgeCount; simpl; apply splice1_length; exact Hi|].
  split; [intros p; rewrite Hc; apply splice1_In_iff; [apply Hwf | exact Hnth]|].
  unfold indegree, outdegree. rewrite Hc.
  pose proof (count_splice1 _ (fun se => String.eqb (snd se) e) _ i _ Hnth) as H1.
  pose proof (count_splice1 _ (fun se => String.eqb (fst se) s) _ i _ Hnth) as H2.
  simpl in H1, H2. rewrite String.eqb_refl in H1, H2. auto.
Qed.

Lemma removeEdge_absent g s e :
  length (startVertexIdArray g) = length (endVertexIdArray g) ->
  ~ In (s, e) (edges g) ->
  removeEdge s e g = (Throw (Error "Edge Doesn't Exist"), g).
Proof.
  intros _ Hnin. unfold removeEdge.
  rewrite (proj2 (findEdge_None s e _ _) Hnin). reflexivity.
Qed.

(** ** Degrees *)

Lemma list_sum_map_add A (f h : A -> nat) l :
  list_sum (map (fun x => f x + h x) l) = list_sum (map f l) + list_sum (map h l).
Proof. induction l as [|a l IH]; simpl; [reflexivity | rewrite IH; lia]. Qed.

Lemma list_sum_indicator (ids : list string) e :
  NoDup ids -> In e ids ->
  list_sum (map (fun v => if String.eqb e v then 1 else 0) ids) = 1.
Proof.
  induction 1 as [|a l Hnin Hnd IH]; intros Hin; [destruct Hin|]. simpl.
  destruct (String.eqb_spec e a) as [->|Hne].
  - assert (Hz : list_sum (map (fun v => if String.eqb a v then 1 else 0) l) = 0).
    { clear IH Hin Hnd. induction l as [|b l IHl]; simpl; [reflexivity|].
      destruct (String.eqb_spec a b) as [->|_]; [exfalso; apply Hnin; left; reflexivity|].
      apply IHl. intros H. apply Hnin. right. exact H. }
    rewrite Hz. reflexivity.
  - destruct Hin as [->|Hin]; [contradiction|]. rewrite IH by assumption. reflexivity.
Qed.

Lemma degree_sum (ids : list string) (E : list (string * string))
      (proj : string * string -> string) :
  NoDup ids -> (forall p, In p E -> In (proj p) ids) ->
  list_sum (map (fun v => length (filter (fun se => String.eqb (proj se) v) E)) ids)
  = length E.
Proof.
  intros Hnd. induction E as [|p E IH]; intros Hin; simpl.
  - clear Hnd Hin. induction ids as [|a l IHl]; simpl; [reflexivity | exact IHl].
  - transitivity
      (list_sum (map (fun v => length (filter (fun se => String.eqb (proj se) v) E)
                               + (if String.eqb (proj p) v then 1 else 0)) ids)).
    + f_equal. apply map_ext. intros v.
      destruct (String.eqb (proj p) v); simpl; lia.
    + rewrite list_sum_map_add, IH by (intros q Hq; apply Hin; right; exact Hq).
      rewrite (list_sum_indicator ids (proj p) Hnd (Hin p (or_introl eq_refl))). lia.
Qed.

Lemma edgeCount_edges g :
  length (startVertexIdArray g) = length (endVertexIdArray g) ->
  edgeCount g = length (edges g).
Proof.
  intros H. unfold edgeCount, edges. rewrite length_combine, <- H.
  symmetry. apply Nat.min_id.
Qed.

(** ** Roots, children and parents *)

Lemma getVerticesWithIndegree0_indegree g :
  length (startVertexIdArray g) = length (endVertexIdArray g) ->
  getVerticesWithIndegree0 g
  = filter (fun v => Nat.eqb (indegree g (v_id v)) 0) (vertexArray g).
Proof.
  intros Hlen. unfold getVerticesWithIndegree0. apply filter_ext. intros v.
  destruct (indexOf (v_id v) (endVertexIdArray g)) as [i|] eqn:E.
  - symmetry. apply Nat.eqb_neq. intros Hz.
    apply indexOf_Some in E. destruct E as [E _]. apply nth_error_In in E.
    apply (in_combine_ends (startVertexIdArray g)) in E; [|exact Hlen].
    destruct E as [s Hs]. apply (proj1 (indegree_zero g (v_id v)) Hz s). exact Hs.
  - symmetry. apply Nat.eqb_eq. apply indegree_zero. intros s Hs.
    apply indexOf_None in E. apply E.
    apply (in_combine_ends (startVertexIdArray g)); [exact Hlen | eauto].
Qed.

Lemma getChildVertexIds_run g p :
  WF g ->
  getChildVertexIds g p = Return (childIds (edges g) p).
Proof.
  intros Hwf. unfold getChildVertexIds. rewrite getChildVertices_childIds.
  apply idsOf_run; [apply WF_VOK; exact Hwf|].
  intros c Hc. apply childIds_In in Hc. apply (wf_endpoints g Hwf p c Hc).
Qed.

(** ** Looking a vertex up after [addVertex] *)

Lemma indexOf_snoc_other x id ids :
  x <> id -> indexOf x (ids ++ [id]) = indexOf x ids.
Proof.
  intros Hne. induction ids as [|y ids IH]; simpl.
  - destruct (String.eqb_spec id x); [congruence | reflexivity].
  - destruct (String.eqb y x); [reflexivity|]. rewrite IH. reflexivity.
Qed.

Lemma indexOf_snoc_new id ids :
  ~ In id ids -> indexOf id (ids ++ [id]) = Some (length ids).
Proof.
  induction ids as [|y ids IH]; simpl; intros Hnin.
  - rewrite String.eqb_refl. reflexivity.
  - destruct (String.eqb_spec y id) as [->|_]; [exfalso; auto|].
    rewrite IH by tauto. reflexivity.
Qed.

Lemma indexOf_snoc_old id ids :
  In id ids -> indexOf id (ids ++ [id]) = indexOf id ids.
Proof.
  induction ids as [|y ids IH]; simpl; intros Hin; [destruct Hin|].
  destruct (String.eqb_spec y id) as [->|Hne]; [reflexivity|].
  destruct Hin as [->|Hin]; [contradiction|]. rewrite IH by assumption. reflexivity.
Qed.

Lemma addVertex_lookup g id data :
  length (vertexIdArray g) = length (vertexArray g) ->
  hasVertexId g id = false ->
  getVertex (snd (addVertex id data g)) id
  = Return (mkVertex id NOT_READY data false)
  /\ forall x, x <> id ->
       getVertex (snd (addVertex id data g)) x = getVertex g x.
Proof.
  intros Hlen Hfresh. rewrite addVertex_fresh by assumption. simpl.
  unfold getVertex. simpl. split.
  - rewrite indexOf_snoc_new by (apply hasVertexId_false; assumption).
    rewrite Hlen, nth_error_app2, Nat.sub_diag by lia. reflexivity.
  - intros x Hx. rewrite indexOf_snoc_other by assumption.
    destruct (indexOf x (vertexIdArray g)) as [i|] eqn:E; [|reflexivity].
    apply indexOf_Some in E. destruct E as [_ Hi].
    rewrite nth_error_app1 by lia. reflexivity.
Qed.

Lemma addVertex_hasVertexId g id data :
  hasVertexId (snd (addVertex id data g)) id = true.
Proof.
  destruct (hasVertexId g id) eqn:Hh.
  - rewrite addVertex_known by assumption. exact Hh.
  - rewrite addVertex_fresh by assumption. unfold hasVertexId. simpl.
    rewrite indexOf_snoc_new by (apply hasVertexId_false; assumption). reflexivity.
Qed.

(** ** Removing an edge and adding it again *)

Lemma Permutation_splice1 A (l : list A) i x :
  nth_error l i = Some x -> Permutation (splice1 i l ++ [x]) l.
Proof.
  revert i; induction l as [|a l IH]; intros [|i] Hn; simpl in *; try discriminate.
  - inversion Hn; subst. apply Permutation_sym, Permutation_cons_append.
  - constructor. apply IH. exact Hn.
Qed.

Lemma removeEdge_addEdge_run g s e :
  WF g -> In (s, e) (edges g) -> s <> e ->
  exists g1 g2,
    removeEdge s e g = (Return tt, g1)
    /\ addEdge s e g1 = (Return tt, g2)
    /\ Permutation (edges g2) (edges g)
    /\ vertexArray g2 = vertexArray g
    /\ vertexIdArray g2 = vertexIdArray g.
Proof.
  intros Hwf Hin Hne.
  destruct (removeEdge_In g s e Hin) as [i [Hrun [Hnth Hi]]].
  set (g1 := withEdges g (splice1 i (startVertexIdArray g))
                         (splice1 i (endVertexIdArray g))) in *.
  assert (Hc : edges g1 = splice1 i (edges g)).
  { unfold edges, g1. simpl. apply splice1_combine. }
  assert (Hwf1 : WF g1).
  { pose proof (removeEdge_WF g s e Hwf) as H. rewrite Hrun in H. exact H. }
  destruct (wf_endpoints g Hwf s e Hin) as [Hs He].
  destruct (addEdge_run g1 s e (wf_parallel g1 Hwf1))
    as [[_ [_ [_ [_ Hadd]]]] | [err [_ Hwhy]]].
  - exists g1. eexists. split; [exact Hrun|]. split; [exact Hadd|].
    split; [|split; reflexivity].
    change (Permutation
              (combine (startVertexIdArray g1 ++ [s]) (endVertexIdArray g1 ++ [e]))
              (edges g)).
    rewrite combine_snoc by (apply (wf_parallel g1 Hwf1)).
    change (combine (startVertexIdArray g1) (endVertexIdArray g1)) with (edges g1).
    rewrite Hc. apply Permutation_splice1. exact Hnth.
  - exfalso. destruct Hwhy as [H|[H|[H|H]]].
    + apply hasVertexId_false in H. apply H. exact Hs.
    + apply hasVertexId_false in H. apply H. exact He.
    + contradiction.
    + rewrite Hc in H.
      apply (splice1_In_iff _ _ i (s, e) (s, e) (wf_simple g Hwf) Hnth) in H.
      destruct H as [_ H]. apply H. reflexivity.
Qed.

(** ** Looking a vertex up *)

Lemma getVertex_spec g id :
  VOK g ->
  (forall v, getVertex g id = Return v <-> In v (vertexArray g) /\ v_id v = id)
  /\ (getVertex g id = Throw (Error "Vertex Not Found") <-> hasVertexId g id = false).
Proof.
  intros Hok. split.
  - intros v. split.
    + intros H. unfold getVertex in H.
      destruct (indexOf id (vertexIdArray g)) as [i|] eqn:E; [|discriminate].
      destruct (nth_error (vertexArray g) i) as [w|] eqn:Hn; [|discriminate].
      inversion H; subst w.
      assert (Hv : vertexOfId g id = Some v) by (unfold vertexOfId; rewrite E; exact Hn).
      apply (vertexOfId_Some g id v Hok) in Hv. tauto.
    + intros [Hin <-]. pose proof (vertexOfId_In g v Hok Hin) as Hv.
      unfold vertexOfId in Hv. unfold getVertex.
      destruct (indexOf (v_id v) (vertexIdArray g)); [|discriminate].
      rewrite Hv. reflexivity.
  - unfold getVertex, hasVertexId.
    destruct (indexOf id (vertexIdArray g)) as [i|] eqn:E.
    + apply indexOf_Some in E. destruct E as [_ Hi].
      rewrite (VOK_length g Hok) in Hi.
      destruct (nth_error (vertexArray g) i) eqn:Hn.
      * split; discriminate.
      * apply nth_error_None in Hn. lia.
    + split; reflexivity.
Qed.

(** ** The graph of a scheduler stays well formed *)

Lemma keepsWF_refl pk : keepsWF pk pk.
Proof. intros H. exact H. Qed.

Lemma keepsWF_trans a b c : keepsWF a b -> keepsWF b c -> keepsWF a c.
Proof. unfold keepsWF. auto. Qed.

Lemma sameFrame_keepsWF A (m : P A) : steps sameFrame m -> steps keepsWF m.
Proof. intros H pk Hwf. eapply WF_sameFrame; [apply H | exact Hwf]. Qed.

Lemma liftG_keepsWF A (m : G A) :
  (forall g, WF g -> WF (snd (m g))) -> steps keepsWF (liftG m).
Proof.
  intros H pk Hwf. unfold liftG. specialize (H (graph pk) Hwf).
  destruct (m (graph pk)) as [r g']. exact H.
Qed.

Lemma topologicalSort_WF g : WF g -> WF (snd (topologicalSort g)).
Proof.
  intros Hwf. destruct (topologicalSort_result g Hwf) as [L [Hts _]].
  rewrite Hts. exact Hwf.
Qed.

Lemma updateSlot_WF i f g :
  (forall v, v_id (f v) = v_id v) -> WF g -> WF (updateSlot i f g).
Proof.
  intros Hf Hwf.
  destruct (VOK_updateSlot i f g Hf (WF_VOK g Hwf)) as [Hids Hnd].
  destruct (updateSlot_edges i f g) as [Hs He].
  assert (Hedges : edges (updateSlot i f g) = edges g)
    by (unfold edges; rewrite Hs, He; reflexivity).
  constructor.
  - exact Hids.
  - exact Hnd.
  - rewrite Hs, He. apply Hwf.
  - intros s e. rewrite Hedges, updateSlot_vertexIdArray. apply Hwf.
  - rewrite Hedges. apply Hwf.
Qed.

Ltac keepsWF_leaf :=
  first [ solve [auto]
        | apply sameFrame_keepsWF; sameFrame_leaf
        | apply liftG_keepsWF; intros ? ?;
          first [ apply addVertex_WF | apply addEdge_WF | apply topologicalSort_WF ];
          assumption
        | intros ? ?; simpl; apply updateSlot_WF; [reflexivity | assumption]
        | intros ? ?; assumption ].

Ltac keepsWF_steps := steps_split keepsWF_leaf keepsWF_refl keepsWF_trans.

Lemma updateStates_keepsWF : steps keepsWF updateStates.
Proof. apply sameFrame_keepsWF. apply updateStates_sameFrame. Qed.

Lemma getVertex_setState_sameFrame x s : steps sameFrame (getVertex_setState x s).
Proof.
  pose proof Vertex_setState_sameFrame.
  unfold getVertex_setState, getVertexSlot. sameFrame_steps.
Qed.

Lemma getVertex_setState_keepsWF x s : steps keepsWF (getVertex_setState x s).
Proof. apply sameFrame_keepsWF. apply getVertex_setState_sameFrame. Qed.

Lemma stateFlags_keepsWF : steps keepsWF stateFlags.
Proof. intros pk. rewrite <- (stateFlags_pure pk). apply keepsWF_refl. Qed.

Lemma failedStatesError_keepsWF : steps keepsWF failedStatesError.
Proof. intros pk. rewrite <- (failedStatesError_pure pk). apply keepsWF_refl. Qed.

Lemma writeToLog_keepsWF level msg : steps keepsWF (writeToLog level msg).
Proof. intros pk H. exact H. Qed.

Lemma runFinalCallback_keepsWF pkError :
  steps keepsWF pkError -> steps keepsWF (runFinalCallback pkError).
Proof.
  intros H. pose proof writeToLog_keepsWF.
  unfold runFinalCallback, emit. keepsWF_steps.
Qed.

Lemma startReadyProcesses_keepsWF : steps keepsWF startReadyProcesses.
Proof.
  pose proof getVertex_setState_keepsWF.
  unfold startReadyProcesses, startIfReady, getVertexP. keepsWF_steps.
Qed.

Lemma afterSuccess_keepsWF : steps keepsWF afterSuccess.
Proof.
  pose proof updateStates_keepsWF. pose proof stateFlags_keepsWF.
  pose proof writeToLog_keepsWF. pose proof startReadyProcesses_keepsWF.
  pose proof (runFinalCallback_keepsWF _ failedStatesError_keepsWF).
  assert (steps keepsWF (runFinalCallback (ret None)))
    by (apply runFinalCallback_keepsWF; keepsWF_steps).
  unfold afterSuccess, decrementRunning, stopRunning. keepsWF_steps.
Qed.

Lemma afterFail_keepsWF vertexId : steps keepsWF (afterFail vertexId).
Proof.
  pose proof updateStates_keepsWF. pose proof stateFlags_keepsWF.
  pose proof writeToLog_keepsWF.
  pose proof (runFinalCallback_keepsWF _ failedStatesError_keepsWF).
  assert (steps keepsWF (runFinalCallback (ret (Some (StateFailed vertexId)))))
    by (apply runFinalCallback_keepsWF; keepsWF_steps).
  unfold afterFail, decrementRunning, stopRunning. keepsWF_steps.
Qed.

Lemma setState_keepsWF vertexId newState : steps keepsWF (setState vertexId newState).
Proof.
  pose proof afterSuccess_keepsWF. pose proof afterFail_keepsWF.
  pose proof getVertex_setState_keepsWF.
  unfold setState. keepsWF_steps.
Qed.

Lemma start_keepsWF sharedData : steps keepsWF (start sharedData).
Proof.
  pose proof updateStates_keepsWF. pose proof startReadyProcesses_keepsWF.
  pose proof getVertex_setState_keepsWF.
  unfold start, initializeStates. keepsWF_steps.
Qed.

Lemma processSuccessful_keepsWF id this data :
  steps keepsWF (processSuccessful id this data).
Proof.
  pose proof setState_keepsWF.
  unfold processSuccessful, assignData. keepsWF_steps.
Qed.

Lemma callListeners_keepsWF success k payload listeners :
  steps keepsWF (callListeners success k listeners payload).
Proof.
  pose proof processSuccessful_keepsWF. pose proof setState_keepsWF.
  induction listeners as [|id rest IH]; simpl; unfold processFailed; keepsWF_steps.
Qed.

Lemma runCall_keepsWF c : steps keepsWF (runCall c).
Proof.
  pose proof processSuccessful_keepsWF. pose proof setState_keepsWF.
  pose proof callListeners_keepsWF.
  destruct c; unfold runCall, processFailed, Service_emit; keepsWF_steps.
Qed.

Lemma PK_addVertex_keepsWF vertexId service :
  steps keepsWF (PK_addVertex vertexId service).
Proof. unfold PK_addVertex. keepsWF_steps. Qed.

Lemma runUse_keepsWF u : steps keepsWF (runUse u).
Proof.
  pose proof runCall_keepsWF. pose proof start_keepsWF.
  pose proof PK_addVertex_keepsWF.
  destruct u; unfold runUse, newService, PK_addEdge; keepsWF_steps.
Qed.

Lemma runUses_WF uses : forall pk, WF (graph pk) -> WF (graph (runUses uses pk)).
Proof.
  induction uses as [|u uses IH]; intros pk Hwf; simpl; [exact Hwf|].
  apply IH. apply runUse_keepsWF. exact Hwf.
Qed.

(** ** The graph stays well formed, whatever the program does *)

Section AnyProgram.

Context {U : UserCode}.

Hypothesis serviceStart_keepsWF :
  forall vertexId r, steps keepsWF (serviceStart vertexId r).
Hypothesis finalCallback_keepsWF :
  forall e r, steps keepsWF (finalCallback e r).

Lemma steps_eq_keepsWF A (m : P A) : steps eq m -> steps keepsWF m.
Proof. intros H pk. rewrite <- (H pk). apply keepsWF_refl. Qed.

Ltac wf_leaf :=
  first [ solve [auto]
        | apply steps_eq_keepsWF;
          solve [auto using stateFlags_pure, failedStatesError_pure,
                            computeNewStates_pure]
        | keepsWF_leaf ].

Ltac wf_steps := steps_split wf_leaf keepsWF_refl keepsWF_trans.

Lemma emitStart_wf i : steps keepsWF (emitStart i).
Proof using serviceStart_keepsWF.
  pose proof writeToLog_keepsWF. unfold emitStart, emit. wf_steps.
Qed.

Lemma Vertex_setState_wf this s : steps keepsWF (Vertex_setState this s).
Proof using serviceStart_keepsWF.
  pose proof emitStart_wf. unfold Vertex_setState. wf_steps.
Qed.

Lemma getVertex_setState_wf x s : steps keepsWF (getVertex_setState x s).
Proof using serviceStart_keepsWF.
  pose proof Vertex_setState_wf.
  unfold getVertex_setState, getVertexSlot. wf_steps.
Qed.

Lemma updateStates_wf : steps keepsWF updateStates.
Proof using serviceStart_keepsWF.
  pose proof Vertex_setState_wf.
  unfold updateStates, applyNewState, orderAt, getVertexSlot. wf_steps.
Qed.

Lemma startReadyProcesses_wf : steps keepsWF startReadyProcesses.
Proof using serviceStart_keepsWF.
  pose proof getVertex_setState_wf.
  unfold startReadyProcesses, startIfReady, getVertexP. wf_steps.
Qed.

Lemma runFinalCallback_wf pkError :
  steps keepsWF pkError -> steps keepsWF (runFinalCallback pkError).
Proof using finalCallback_keepsWF.
  intros H. pose proof writeToLog_keepsWF.
  unfold runFinalCallback, callFinalCallback, emit. wf_steps.
Qed.

Lemma setState_wf vertexId newState : steps keepsWF (setState vertexId newState).
Proof using serviceStart_keepsWF finalCallback_keepsWF.
  pose proof updateStates_wf. pose proof startReadyProcesses_wf.
  pose proof getVertex_setState_wf. pose proof writeToLog_keepsWF.
  assert (steps keepsWF (runFinalCallback failedStatesError))
    by (apply runFinalCallback_wf; wf_steps).
  assert (steps keepsWF (runFinalCallback (ret None)))
    by (apply runFinalCallback_wf; wf_steps).
  assert (steps keepsWF (runFinalCallback (ret (Some (StateFailed vertexId)))))
    by (apply runFinalCallback_wf; wf_steps).
  unfold setState, afterSuccess, afterFail, decrementRunning, stopRunning.
  wf_steps.
Qed.

Lemma start_wf sharedData : steps keepsWF (start sharedData).
Proof using serviceStart_keepsWF.
  pose proof updateStates_wf. pose proof startReadyProcesses_wf.
  pose proof getVertex_setState_wf.
  unfold start, initializeStates. wf_steps.
Qed.

Lemma callListeners_wf success k payload listeners :
  steps keepsWF (callListeners success k listeners payload).
Proof using serviceStart_keepsWF finalCallback_keepsWF.
  pose proof setState_wf.
  induction listeners as [|id rest IH]; simpl;
    unfold processSuccessful, processFailed, assignData; wf_steps.
Qed.

Lemma runUse_wf u : steps keepsWF (runUse u).
Proof using serviceStart_keepsWF finalCallback_keepsWF.
  pose proof setState_wf. pose proof callListeners_wf. pose proof start_wf.
  pose proof PK_addVertex_keepsWF.
  destruct u as [| | | |c]; [| | | |destruct c];
    unfold runUse, runCall, newService, PK_addEdge, processSuccessful,
      processFailed, assignData, Service_emit, emit;
    wf_steps.
Qed.

Lemma runScript_wf script : steps keepsWF (runScript script).
Proof using serviceStart_keepsWF finalCallback_keepsWF.
  pose proof runUse_wf.
  induction script as [|u rest IH]; simpl; wf_steps.
Qed.

Lemma runUses_wf uses : forall pk, WF (graph pk) -> WF (graph (runUses uses pk)).
Proof using serviceStart_keepsWF finalCallback_keepsWF.
  induction uses as [|u uses IH]; intros pk Hwf; simpl; [exact Hwf|].
  apply IH. apply runUse_wf. exact Hwf.
Qed.

End AnyProgram.

Lemma scripted_keepsWF fuel code :
  (forall vertexId r,
      steps keepsWF (serviceStart (UserCode := scripted fuel code) vertexId r))
  /\ (forall e r,
        steps keepsWF (finalCallback (UserCode := scripted fuel code) e r)).
Proof.
  induction fuel as [|fuel [IHs IHc]]; simpl.
  - split; intros; intros pk; apply keepsWF_refl.
  - split; intros; apply (runScript_wf (U := scripted fuel code)); assumption.
Qed.

Lemma scripted_runUses_WF fuel code uses pk :
  WF (graph pk) -> WF (graph (runUses (U := scripted fuel code) uses pk)).
Proof.
  destruct (scripted_keepsWF fuel code) as [Hs Hc].
  apply (runUses_wf (U := scripted fuel code)); assumption.
Qed.

(** ** Running [setState] step by step *)

Lemma bind_Return St A B (m : M St A) (k : A -> M St B) s a s' :
  m s = (Return a, s') -> bind m k s = k a s'.
Proof. intros H. unfold bind. rewrite H. reflexivity. Qed.

Lemma bind_Throw St A B (m : M St A) (k : A -> M St B) s e s' :
  m s = (Throw e, s') -> bind m k s = (Throw e, s').
Proof. intros H. unfold bind. rewrite H. reflexivity. Qed.

Lemma state_of_string_None newState :
  state_of_string newState = None <-> ~ In newState VALID_STATES.
Proof.
  unfold state_of_string.
  destruct (indexOf newState VALID_STATES) as [i|] eqn:E.
  - pose proof (indexOf_Some _ _ _ E) as [Hn Hi]. simpl in Hi.
    split.
    + do 5 (destruct i as [|i]; [discriminate|]). lia.
    + intros H. exfalso. apply H. eapply nth_error_In; eauto.
  - apply indexOf_None in E. tauto.
Qed.

Lemma setState_rejects vertexId newState pk :
  hasVertexId (graph pk) vertexId = false \/ ~ In newState VALID_STATES ->
  setState vertexId newState pk
  = (Throw (Error (if hasVertexId (graph pk) vertexId
                   then "Invalid State" else "Vertex Not Found")), pk).
Proof.
  intros H. unfold setState. unfold bind at 1. unfold gets at 1.
  destruct (hasVertexId (graph pk) vertexId) eqn:Hh; [|reflexivity].
  destruct H as [H|H]; [discriminate|].
  apply state_of_string_None in H. rewrite H. reflexivity.
Qed.

Lemma getVertex_slot g vertexId v :
  getVertex g vertexId = Return v ->
  exists slot,
    indexOf vertexId (vertexIdArray g) = Some slot
    /\ nth_error (vertexArray g) slot = Some v.
Proof.
  unfold getVertex.
  destruct (indexOf vertexId (vertexIdArray g)) as [slot|]; [|discriminate].
  destruct (nth_error (vertexArray g) slot) as [w|] eqn:Ev; [|discriminate].
  intros H. inversion H; subst w. eauto.
Qed.

Lemma commit_run vertexId st pk slot v :
  indexOf vertexId (vertexIdArray (graph pk)) = Some slot ->
  nth_error (vertexArray (graph pk)) slot = Some v ->
  st <> IN_PROGRESS ->
  getVertex_setState (Some vertexId) st pk
  = (Return tt,
     set_graph pk (updateSlot slot (fun v => Vertex_withState v st) (graph pk))).
Proof.
  intros Hidx Hn Hst. unfold getVertex_setState.
  rewrite (bind_Return _ _ _ _ _ pk slot pk).
  - apply Vertex_setState_run. exact Hst.
  - unfold getVertexSlot, liftO. rewrite Hidx, Hn. reflexivity.
Qed.

Lemma setState_SUCCESS_run vertexId pk slot v :
  indexOf vertexId (vertexIdArray (graph pk)) = Some slot ->
  nth_error (vertexArray (graph pk)) slot = Some v ->
  setState vertexId "SUCCESS" pk
  = (updateStates ;;;
     flags <- stateFlags ;;
     let '(allStatesSuccessful, someStateFailed, allStatesFinal) := flags in
     if allStatesFinal then
       stopRunning ;;;
       if allStatesSuccessful then
         writeToLog "INFO" "All tasks completed successfully, ooh RAH!" ;;;
         runFinalCallback (ret None)
       else
         writeToLog "ERROR" "One task failed, :-(" ;;;
         runFinalCallback failedStatesError
     else if allStatesSuccessful then
       writeToLog "INFO" "All tasks completed successfully, ooh RAH!" ;;;
       runFinalCallback (ret None)
     else if someStateFailed then
       writeToLog "ERROR" "Some task failed!" ;;;
       quit <- gets quitOnFailure ;;
       if quit then
         stopRunning ;;;
         runFinalCallback failedStatesError
       else updateStates
     else startReadyProcesses)
      (set_numberOfRunningProcesses
         (set_graph pk (updateSlot slot (fun v => Vertex_withState v SUCCESS) (graph pk)))
         (numberOfRunningProcesses pk - 1)).
Proof.
  intros Hidx Hn. unfold setState. unfold bind at 1. unfold gets at 1.
  unfold hasVertexId. rewrite Hidx.
  change (state_of_string "SUCCESS") with (Some SUCCESS). cbv iota.
  rewrite (bind_Return _ _ _ _ _ _ _ _
             (commit_run vertexId SUCCESS pk slot v Hidx Hn ltac:(discriminate))).
  reflexivity.
Qed.

Lemma setState_FAIL_run vertexId pk slot v :
  indexOf vertexId (vertexIdArray (graph pk)) = Some slot ->
  nth_error (vertexArray (graph pk)) slot = Some v ->
  setState vertexId "FAIL" pk
  = (updateStates ;;;
     flags <- stateFlags ;;
     let '(allStatesSuccessful, someStateFailed, allStatesFinal) := flags in
     quit <- gets quitOnFailure ;;
     if quit then
       stopRunning ;;;
       runFinalCallback (ret (Some (StateFailed vertexId)))
     else
       updateStates ;;;
       if allStatesFinal && someStateFailed
       then runFinalCallback failedStatesError
       else ret tt)
      (set_numberOfRunningProcesses
         (set_trace
            (set_graph pk (updateSlot slot (fun v => Vertex_withState v FAIL) (graph pk)))
            (trace pk ++ [EvLog "ERROR" (logLine (pkGuid pk) "Task failed - darn!")]))
         (numberOfRunningProcesses pk - 1)).
Proof.
  intros Hidx Hn. unfold setState. unfold bind at 1. unfold gets at 1.
  unfold hasVertexId. rewrite Hidx.
  change (state_of_string "FAIL") with (Some FAIL). cbv iota.
  rewrite (bind_Return _ _ _ _ _ _ _ _
             (commit_run vertexId FAIL pk slot v Hidx Hn ltac:(discriminate))).
  reflexivity.
Qed.

Lemma updateStates_no_order pk :
  topologicalSortOrder pk = None -> 0 < vertexCount (graph pk) ->
  updateStates pk = (Throw (TypeError "Cannot read properties of undefined"), pk).
Proof.
  intros Ho Hc. unfold updateStates. unfold bind at 1. unfold gets at 1.
  destruct (vertexCount (graph pk)) as [|n]; [lia|].
  apply bind_Throw. simpl. apply bind_Throw.
  unfold orderAt, bind, gets. rewrite Ho. reflexivity.
Qed.

Lemma updateStates_empty_order pk :
  topologicalSortOrder pk = Some [] -> 0 < vertexCount (graph pk) ->
  updateStates pk = (Throw (Error "Vertex Not Found"), pk).
Proof.
  intros Ho Hc. unfold updateStates. unfold bind at 1. unfold gets at 1.
  destruct (vertexCount (graph pk)) as [|n]; [lia|].
  apply bind_Throw. simpl.
  rewrite (bind_Return _ _ _ _ _ _ _ _ (orderAt_run pk [] 0 Ho)).
  apply bind_Throw. reflexivity.
Qed.

Lemma setState_before_start vertexId newState pk v :
  topologicalSortOrder pk = None ->
  getVertex (graph pk) vertexId = Return v ->
  newState = "SUCCESS" \/ newState = "FAIL" ->
  exists msg st pk',
    setState vertexId newState pk = (Throw (TypeError msg), pk')
    /\ state_name st = newState
    /\ getVertex (graph pk') vertexId = Return (Vertex_withState v st)
    /\ (numberOfRunningProcesses pk' = numberOfRunningProcesses pk - 1)%Z
    /\ finalCallbackExecuted pk' = finalCallbackExecuted pk
    /\ isCurrentlyRunning pk' = isCurrentlyRunning pk
    /\ countFinalCallbacks (trace pk') = countFinalCallbacks (trace pk).
Proof.
  intros Ho Hget Hst. destruct (getVertex_slot _ _ _ Hget) as [slot [Hidx Hn]].
  assert (Hlook : forall st,
             getVertex (updateSlot slot (fun v => Vertex_withState v st) (graph pk))
                       vertexId
             = Return (Vertex_withState v st)).
  { intros st. unfold getVertex. rewrite updateSlot_vertexIdArray, Hidx.
    rewrite (updateSlot_nth_eq slot _ (graph pk) v Hn). reflexivity. }
  assert (Hcount : forall st,
             0 < vertexCount (updateSlot slot (fun v => Vertex_withState v st) (graph pk))).
  { intros st. unfold vertexCount.
    assert (Hs : nth_error (vertexArray (updateSlot slot
                   (fun v => Vertex_withState v st) (graph pk))) slot <> None)
      by (rewrite (updateSlot_nth_eq slot _ (graph pk) v Hn); discriminate).
    apply nth_error_Some in Hs. lia. }
  exists "Cannot read properties of undefined".
  destruct Hst as [-> | ->].
  - exists SUCCESS. eexists. split.
    + rewrite (setState_SUCCESS_run vertexId pk slot v Hidx Hn).
      apply bind_Throw. apply updateStates_no_order; [exact Ho | apply Hcount].
    + simpl. repeat split; auto.
  - exists FAIL. eexists. split.
    + rewrite (setState_FAIL_run vertexId pk slot v Hidx Hn).
      apply bind_Throw. apply updateStates_no_order; [exact Ho | apply Hcount].
    + simpl. repeat split; auto.
      rewrite countFinalCallbacks_app. unfold countFinalCallbacks at 2. simpl. lia.
Qed.

(** ** [start] *)

Lemma silent_refl pk : silent pk pk.
Proof. split; reflexivity. Qed.

Lemma silent_trans a b c : silent a b -> silent b c -> silent a c.
Proof. intros [A1 A2] [B1 B2]. split; congruence. Qed.

Lemma updateSlot_silent i f :
  (forall v, startListener (f v) = startListener v) ->
  steps silent (modify (fun pk => set_graph pk (updateSlot i f (graph pk)))).
Proof.
  intros Hf pk. split; [reflexivity|]. simpl. apply updateSlot_map.
  intros v _. apply Hf.
Qed.

Ltac silent_leaf :=
  first [ solve [auto]
        | apply updateSlot_silent; intros; reflexivity
        | intro; split; reflexivity ].

Ltac silent_steps := steps_split silent_leaf silent_refl silent_trans.

Lemma initializeStates_silent : steps silent initializeStates.
Proof.
  unfold initializeStates, getVertex_setState, getVertexSlot, Vertex_setState.
  silent_steps.
Qed.

Lemma initializeStates_sameFrame : steps sameFrame initializeStates.
Proof.
  pose proof getVertex_setState_sameFrame.
  unfold initializeStates. sameFrame_steps.
Qed.

Lemma initializeStates_spec pk :
  VOK (graph pk) ->
  exists pk',
    initializeStates pk = (Return tt, pk')
    /\ sameFrame pk pk'
    /\ silent pk pk'
    /\ forall v, In v (vertexArray (graph pk')) -> v_state v = NOT_READY.
Proof.
  intros Hok.
  destruct (initializeLoop (vertexIdArray (graph pk))
              (length (vertexArray (graph pk))) 0 pk Hok eq_refl eq_refl)
    as [pk' [Hrun [_ [_ Hall]]]].
  assert (Hrun' : initializeStates pk = (Return tt, pk')).
  { unfold initializeStates, bind, gets. simpl.
    rewrite (VOK_getVertexIds _ Hok). exact Hrun. }
  exists pk'. split; [exact Hrun'|].
  pose proof (initializeStates_sameFrame pk) as Hf.
  pose proof (initializeStates_silent pk) as Hs.
  rewrite Hrun' in Hf, Hs. simpl in Hf, Hs.
  split; [exact Hf|]. split; [exact Hs|].
  intros v Hv. apply In_nth_error in Hv. destruct Hv as [j Hj].
  destruct (Hall j v Hj) as [H _]. apply H. lia.
Qed.

(** [start] up to the call of [updateStates]: the order is stored, the
    counters and flags are reset and every vertex is NOT_READY. *)
Lemma start_prefix sharedData pk :
  WF (graph pk) ->
  exists L pk1,
    topologicalSort (graph pk) = (Return L, graph pk)
    /\ start sharedData pk = (updateStates ;;; startReadyProcesses) pk1
    /\ WF (graph pk1)
    /\ (forall v, In v (vertexArray (graph pk1)) -> v_state v = NOT_READY)
    /\ topologicalSortOrder pk1 = Some (vertexIdsFromArray L)
    /\ numberOfRunningProcesses pk1 = 0%Z
    /\ isCurrentlyRunning pk1 = true
    /\ finalCallbackExecuted pk1 = false
    /\ results pk1 = sharedData
    /\ maxNumberOfRunningProcesses pk1 = maxNumberOfRunningProcesses pk
    /\ quitOnFailure pk1 = quitOnFailure pk
    /\ services pk1 = services pk
    /\ silent pk pk1
    /\ vertexIdArray (graph pk1) = vertexIdArray (graph pk)
    /\ edges (graph pk1) = edges (graph pk)
    /\ map v_id (vertexArray (graph pk1)) = map v_id (vertexArray (graph pk))
    /\ map v_data (vertexArray (graph pk1)) = map v_data (vertexArray (graph pk)).
Proof.
  intros Hwf.
  destruct (topologicalSort_result (graph pk) Hwf) as [L [Hts _]].
  exists L.
  set (pkA := set_isCurrentlyRunning
                (set_numberOfRunningProcesses
                   (set_topologicalSortOrder
                      (set_results (set_finalCallbackExecuted pk false) sharedData)
                      (Some (vertexIdsFromArray L))) 0) true).
  assert (HwfA : WF (graph pkA)) by exact Hwf.
  destruct (initializeStates_spec pkA (WF_VOK _ HwfA))
    as [pk1 [Hrun [Hf [Hs Hall]]]].
  exists pk1. split; [exact Hts|]. split.
  { unfold start. unfold bind at 1. unfold modify at 1.
    unfold bind at 1. unfold modify at 1. unfold bind at 1.
    unfold liftG at 1. simpl graph. rewrite Hts.
    replace (set_graph (set_results (set_finalCallbackExecuted pk false) sharedData)
                       (graph pk))
      with (set_results (set_finalCallbackExecuted pk false) sharedData)
      by (destruct pk; reflexivity).
    unfold bind at 1. unfold modify at 1. unfold bind at 1. unfold modify at 1.
    unfold bind at 1. unfold modify at 1.
    fold pkA. rewrite (bind_Return _ _ _ _ _ _ _ _ Hrun). reflexivity. }
  split; [exact (WF_sameFrame pkA pk1 Hf HwfA)|].
  split; [exact Hall|].
  destruct Hf as [F1 F2 F3 F4 F5 F6 F7 F8 F9 F10 F11 F12 F13 F14 F15].
  split; [exact F7|]. split; [exact F6|]. split; [exact F4|].
  split; [exact F2|]. split; [exact F8|]. split; [exact F5|].
  split; [exact F3|]. split; [exact F9|]. split; [exact Hs|].
  split; [exact F10|].
  split; [unfold edges; rewrite F12, F13; reflexivity|].
  split; [exact F14 | exact F15].
Qed.

Lemma has_cycle_vertexCount g : WF g -> has_cycle g -> 0 < vertexCount g.
Proof.
  intros Hwf [v Hp].
  assert (He : exists s e, In (s, e) (edges g))
    by (destruct Hp; eauto).
  destruct He as [s [e He]]. destruct (wf_endpoints g Hwf s e He) as [Hs _].
  unfold vertexCount. rewrite <- (VOK_length g (WF_VOK g Hwf)).
  destruct (vertexIdArray g); [destruct Hs | simpl; lia].
Qed.

Lemma start_cycle sharedData pk :
  WF (graph pk) -> has_cycle (graph pk) ->
  exists pk',
    start sharedData pk = (Throw (Error "Vertex Not Found"), pk')
    /\ (forall v, In v (vertexArray (graph pk')) -> v_state v = NOT_READY)
    /\ trace pk' = trace pk
    /\ isCurrentlyRunning pk' = true
    /\ topologicalSortOrder pk' = Some []
    /\ numberOfRunningProcesses pk' = 0%Z
    /\ finalCallbackExecuted pk' = false.
Proof.
  intros Hwf Hcyc.
  destruct (start_prefix sharedData pk Hwf)
    as (L & pk1 & Hts & Hrun & Hwf1 & Hall & Ho & Hn & Hr & Hx & _ & _ & _ & _
        & Hs & _ & _ & Hid & _).
  destruct (topologicalSort_result (graph pk) Hwf) as [L' [Hts' [Hnil _]]].
  assert (L' = L) by congruence. subst L'.
  assert (HL : L = []) by (apply Hnil; left; exact Hcyc). subst L.
  exists pk1. split.
  - rewrite Hrun. apply bind_Throw. apply updateStates_empty_order; [exact Ho|].
    unfold vertexCount. rewrite <- (length_map v_id), Hid, length_map.
    apply has_cycle_vertexCount; assumption.
  - destruct Hs as [Ht _]. repeat split; auto.
Qed.

Lemma cyclePK_WF : WF (graph cyclePK).
Proof. solve_WF. Qed.

Lemma cyclePK_has_cycle : has_cycle (graph cyclePK).
Proof.
  exists "A". apply path_step with "B".
  - vm_compute. auto.
  - apply path_edge. vm_compute. auto.
Qed.

(** ** Dispatch: [startReadyProcesses] *)

Lemma sameSetup_refl pk : sameSetup pk pk.
Proof. apply sameFrame_refl. Qed.

Lemma sameSetup_trans a b c : sameSetup a b -> sameSetup b c -> sameSetup a c.
Proof. apply sameFrame_trans. Qed.

Lemma sameFrame_sameSetup a b : sameFrame a b -> sameSetup a b.
Proof. intros []. constructor; simpl; auto. Qed.

Lemma sameSetup_number pk n : sameSetup pk (set_numberOfRunningProcesses pk n).
Proof. constructor; reflexivity. Qed.

Lemma ss_order pk pk' : sameSetup pk pk' -> topologicalSortOrder pk' = topologicalSortOrder pk.
Proof. intros H. exact (sf_order _ _ H). Qed.

Lemma ss_running pk pk' : sameSetup pk pk' -> isCurrentlyRunning pk' = isCurrentlyRunning pk.
Proof. intros H. exact (sf_running _ _ H). Qed.

Lemma ss_executed pk pk' : sameSetup pk pk' -> finalCallbackExecuted pk' = finalCallbackExecuted pk.
Proof. intros H. exact (sf_executed _ _ H). Qed.

Lemma ss_results pk pk' : sameSetup pk pk' -> results pk' = results pk.
Proof. intros H. exact (sf_results _ _ H). Qed.

Lemma ss_max pk pk' : sameSetup pk pk' -> maxNumberOfRunningProcesses pk' = maxNumberOfRunningProcesses pk.
Proof. intros H. exact (sf_max _ _ H). Qed.

Lemma ss_quit pk pk' : sameSetup pk pk' -> quitOnFailure pk' = quitOnFailure pk.
Proof. intros H. exact (sf_quit _ _ H). Qed.

Lemma ss_services pk pk' : sameSetup pk pk' -> services pk' = services pk.
Proof. intros H. exact (sf_services _ _ H). Qed.

Lemma ss_ids pk pk' : sameSetup pk pk' -> vertexIdArray (graph pk') = vertexIdArray (graph pk).
Proof. intros H. exact (sf_ids _ _ H). Qed.

Lemma ss_starts pk pk' : sameSetup pk pk' -> startVertexIdArray (graph pk') = startVertexIdArray (graph pk).
Proof. intros H. exact (sf_starts _ _ H). Qed.

Lemma ss_ends pk pk' : sameSetup pk pk' -> endVertexIdArray (graph pk') = endVertexIdArray (graph pk).
Proof. intros H. exact (sf_ends _ _ H). Qed.

Lemma ss_vids pk pk' : sameSetup pk pk' -> map v_id (vertexArray (graph pk')) = map v_id (vertexArray (graph pk)).
Proof. intros H. exact (sf_vids _ _ H). Qed.

Lemma ss_vdata pk pk' : sameSetup pk pk' -> map v_data (vertexArray (graph pk')) = map v_data (vertexArray (graph pk)).
Proof. intros H. exact (sf_vdata _ _ H). Qed.

Lemma ss_edges pk pk' : sameSetup pk pk' -> edges (graph pk') = edges (graph pk).
Proof. intros H. unfold edges. rewrite (ss_starts _ _ H), (ss_ends _ _ H). reflexivity. Qed.

Lemma sameSetup_VOK pk pk' : sameSetup pk pk' -> VOK (graph pk) -> VOK (graph pk').
Proof.
  intros H [Hids Hnd]. pose proof (sf_ids _ _ H) as Hi.
  pose proof (sf_vids _ _ H) as Hv. simpl in Hi, Hv.
  split; [rewrite Hi, Hv; exact Hids | rewrite Hi; exact Hnd].
Qed.

Lemma sameSetup_length pk pk' :
  sameSetup pk pk' ->
  length (vertexArray (graph pk')) = length (vertexArray (graph pk)).
Proof.
  intros H. pose proof (sf_vids _ _ H) as Hv. simpl in Hv.
  rewrite <- (length_map v_id), Hv, length_map. reflexivity.
Qed.

Lemma State_eqb_eq a b : State_eqb a b = true <-> a = b.
Proof. destruct a, b; simpl; split; intros H; try reflexivity; discriminate. Qed.

Lemma dispatch_run slot pk v :
  VOK (graph pk) -> nth_error (vertexArray (graph pk)) slot = Some v ->
  exists pk',
    (modify (fun pk => set_numberOfRunningProcesses pk
                         (numberOfRunningProcesses pk + 1)) ;;;
     getVertex_setState (Some (v_id v)) IN_PROGRESS) pk = (Return tt, pk')
    /\ (numberOfRunningProcesses pk' = numberOfRunningProcesses pk + 1)%Z
    /\ sameSetup pk pk'
    /\ (forall j, j <> slot ->
          nth_error (vertexArray (graph pk')) j = nth_error (vertexArray (graph pk)) j)
    /\ exists v', nth_error (vertexArray (graph pk')) slot = Some v'
                  /\ v_state v' = IN_PROGRESS.
Proof.
  intros Hok Hv.
  set (pk1 := set_numberOfRunningProcesses pk (numberOfRunningProcesses pk + 1)).
  destruct (VOK_slot (graph pk1) slot v pk1 eq_refl Hok Hv) as [_ [Hslot _]].
  destruct (Vertex_setState_effect slot IN_PROGRESS pk1 v Hv)
    as [pk' [Hrun [Hother Hthis]]].
  exists pk'. split.
  { unfold bind at 1. unfold modify at 1. fold pk1.
    unfold getVertex_setState. rewrite (bind_Return _ _ _ _ _ _ _ _ Hslot).
    exact Hrun. }
  pose proof (Vertex_setState_sameFrame slot IN_PROGRESS pk1) as Hf.
  rewrite Hrun in Hf. simpl in Hf.
  split; [exact (sf_number _ _ Hf)|].
  split.
  { apply sameSetup_trans with pk1;
      [apply sameSetup_number | apply sameFrame_sameSetup; exact Hf]. }
  split; [exact Hother | exact Hthis].
Qed.

Lemma dispatchLoop ids count :
  forall from pk,
    VOK (graph pk) -> ids = vertexIdArray (graph pk) ->
    from + count = length (vertexArray (graph pk)) ->
    exists pk',
      forRange from count (startIfReady ids) pk = (Return tt, pk')
      /\ sameSetup pk pk'
      /\ (numberOfRunningProcesses pk <= numberOfRunningProcesses pk')%Z
      /\ forall j v,
          nth_error (vertexArray (graph pk)) j = Some v ->
          exists v',
            nth_error (vertexArray (graph pk')) j = Some v'
            /\ (j < from \/ v_state v <> READY -> v_state v' = v_state v)
            /\ (from <= j -> v_state v = READY ->
                v_state v' = IN_PROGRESS
                \/ (v_state v' = READY
                    /\ (0 < maxNumberOfRunningProcesses pk)%Z
                    /\ (maxNumberOfRunningProcesses pk
                        <= numberOfRunningProcesses pk')%Z)).
Proof.
  induction count as [|count IH]; intros from pk Hok Hids Hlen.
  - exists pk. simpl. split; [reflexivity|]. split; [apply sameSetup_refl|].
    split; [lia|]. intros j v Hv. exists v. split; [exact Hv|].
    split; [reflexivity|]. intros Hj.
    assert (j < length (vertexArray (graph pk)))
      by (apply nth_error_Some; congruence). lia.
  - assert (Hlt : from < length (vertexArray (graph pk))) by lia.
    destruct (nth_error (vertexArray (graph pk)) from) as [v|] eqn:Ev;
      [|apply nth_error_None in Ev; lia].
    destruct (VOK_slot (graph pk) from v pk eq_refl Hok Ev) as [Hid [_ Hget]].
    assert (Hid' : nth_error ids from = Some (v_id v))
      by (rewrite Hids; exact Hid).
    (* the turn of the loop at [from] *)
    assert (Hturn :
      exists pk1,
        startIfReady ids from pk = (Return tt, pk1)
        /\ sameSetup pk pk1
        /\ (numberOfRunningProcesses pk <= numberOfRunningProcesses pk1)%Z
        /\ (forall j, j <> from ->
              nth_error (vertexArray (graph pk1)) j
              = nth_error (vertexArray (graph pk)) j)
        /\ exists v1,
            nth_error (vertexArray (graph pk1)) from = Some v1
            /\ (v_state v <> READY -> v_state v1 = v_state v)
            /\ (v_state v = READY ->
                v_state v1 = IN_PROGRESS
                \/ (v_state v1 = READY
                    /\ (0 < maxNumberOfRunningProcesses pk)%Z
                    /\ (maxNumberOfRunningProcesses pk
                        <= numberOfRunningProcesses pk1)%Z))).
    { unfold startIfReady. rewrite Hid'.
      rewrite (bind_Return _ _ _ _ _ _ _ _ Hget).
      assert (Hstay :
        exists pk1,
          ret tt pk = (Return tt, pk1)
          /\ sameSetup pk pk1
          /\ (numberOfRunningProcesses pk <= numberOfRunningProcesses pk1)%Z
          /\ (forall j, j <> from ->
                nth_error (vertexArray (graph pk1)) j
                = nth_error (vertexArray (graph pk)) j)
          /\ nth_error (vertexArray (graph pk1)) from = Some v
          /\ pk1 = pk).
      { exists pk. split; [reflexivity|]. split; [apply sameSetup_refl|].
        split; [lia|]. auto. }
      assert (Hgo :
        exists pk1,
          (modify (fun pk => set_numberOfRunningProcesses pk
                               (numberOfRunningProcesses pk + 1)) ;;;
           getVertex_setState (Some (v_id v)) IN_PROGRESS) pk = (Return tt, pk1)
          /\ sameSetup pk pk1
          /\ (numberOfRunningProcesses pk <= numberOfRunningProcesses pk1)%Z
          /\ (forall j, j <> from ->
                nth_error (vertexArray (graph pk1)) j
                = nth_error (vertexArray (graph pk)) j)
          /\ exists v1, nth_error (vertexArray (graph pk1)) from = Some v1
                        /\ v_state v1 = IN_PROGRESS).
      { destruct (dispatch_run from pk v Hok Ev) as [pk1 [Hr [Hn [Hs [Ho Ht]]]]].
        exists pk1. split; [exact Hr|]. split; [exact Hs|]. split; [lia|].
        split; assumption. }
      destruct (State_eqb (v_state v) READY) eqn:Hr.
      - apply State_eqb_eq in Hr.
        unfold bind at 1. unfold gets at 1. unfold bind at 1. unfold gets at 1.
        destruct (Z.ltb_spec 0 (maxNumberOfRunningProcesses pk)) as [Hpos|Hnpos];
          simpl andb.
        + destruct (Z.ltb_spec (numberOfRunningProcesses pk)
                               (maxNumberOfRunningProcesses pk)) as [Hroom|Hfull].
          * destruct Hgo as [pk1 [Hr1 [Hs [Hn [Ho [v1 [Hv1 Hst]]]]]]].
            exists pk1. split; [exact Hr1|]. split; [exact Hs|]. split; [exact Hn|].
            split; [exact Ho|]. exists v1. split; [exact Hv1|].
            split; [intros Hc; contradiction | intros _; left; exact Hst].
          * destruct (Z.leb_spec (maxNumberOfRunningProcesses pk) 0); [lia|].
            destruct Hstay as [pk1 [Hr1 [Hs [Hn [Ho [Hv1 Heq]]]]]].
            exists pk1. split; [exact Hr1|]. split; [exact Hs|]. split; [exact Hn|].
            split; [exact Ho|]. exists v. split; [exact Hv1|].
            split; [reflexivity|]. intros _. right. subst pk1.
            split; [exact Hr|]. split; lia.
        + destruct (Z.leb_spec (maxNumberOfRunningProcesses pk) 0); [|lia].
          destruct Hgo as [pk1 [Hr1 [Hs [Hn [Ho [v1 [Hv1 Hst]]]]]]].
          exists pk1. split; [exact Hr1|]. split; [exact Hs|]. split; [exact Hn|].
          split; [exact Ho|]. exists v1. split; [exact Hv1|].
          split; [intros Hc; contradiction | intros _; left; exact Hst].
      - destruct Hstay as [pk1 [Hr1 [Hs [Hn [Ho [Hv1 Heq]]]]]].
        exists pk1. split; [exact Hr1|]. split; [exact Hs|]. split; [exact Hn|].
        split; [exact Ho|]. exists v. split; [exact Hv1|].
        split; [reflexivity|]. intros Hc. rewrite Hc in Hr. discriminate. }
    destruct Hturn as [pk1 [Hrun1 [Hs1 [Hn1 [Ho1 [v1 [Hv1 [Hkeep1 Hgo1]]]]]]]].
    destruct (IH (S from) pk1) as [pk' [Hrun [Hs [Hn Hall]]]].
    { apply (sameSetup_VOK pk pk1 Hs1 Hok). }
    { pose proof (sf_ids _ _ Hs1) as Hi. simpl in Hi. congruence. }
    { rewrite (sameSetup_length pk pk1 Hs1). lia. }
    assert (Hmax1 : maxNumberOfRunningProcesses pk1 = maxNumberOfRunningProcesses pk)
      by exact (sf_max _ _ Hs1).
    exists pk'. split.
    { simpl. rewrite (bind_Return _ _ _ _ _ _ _ _ Hrun1). exact Hrun. }
    split; [apply sameSetup_trans with pk1; assumption|].
    split; [lia|].
    intros j v0 Hv0. destruct (Nat.eq_dec j from) as [->|Hne].
    + assert (v0 = v) by congruence. subst v0.
      destruct (Hall from v1 Hv1) as [v' [Hv' [Hk _]]].
      exists v'. split; [exact Hv'|].
      assert (Hsame : v_state v' = v_state v1) by (apply Hk; left; lia).
      split.
      * intros [Hc|Hc]; [lia|]. rewrite Hsame. apply Hkeep1. exact Hc.
      * intros _ Hr. rewrite Hsame. destruct (Hgo1 Hr) as [Hip|[Hrd [Hp Hm]]].
        -- left. exact Hip.
        -- right. split; [exact Hrd|]. split; lia.
    + assert (Hv0' : nth_error (vertexArray (graph pk1)) j = Some v0)
        by (rewrite Ho1 by exact Hne; exact Hv0).
      destruct (Hall j v0 Hv0') as [v' [Hv' [Hk Hg]]].
      exists v'. split; [exact Hv'|]. split.
      * intros [Hc|Hc]; apply Hk; [left; lia | right; exact Hc].
      * intros Hj Hr. rewrite Hmax1 in Hg. apply Hg; [lia | exact Hr].
Qed.

Lemma startReadyProcesses_spec pk :
  VOK (graph pk) ->
  exists pk',
    startReadyProcesses pk = (Return tt, pk')
    /\ sameSetup pk pk'
    /\ (numberOfRunningProcesses pk <= numberOfRunningProcesses pk')%Z
    /\ forall j v,
        nth_error (vertexArray (graph pk)) j = Some v ->
        exists v',
          nth_error (vertexArray (graph pk')) j = Some v'
          /\ (v_state v <> READY -> v_state v' = v_state v)
          /\ (v_state v = READY ->
              v_state v' = IN_PROGRESS
              \/ (v_state v' = READY
                  /\ (0 < maxNumberOfRunningProcesses pk)%Z
                  /\ (maxNumberOfRunningProcesses pk
                      <= numberOfRunningProcesses pk')%Z)).
Proof.
  intros Hok.
  destruct (dispatchLoop (vertexIdArray (graph pk))
              (length (vertexArray (graph pk))) 0 pk Hok eq_refl eq_refl)
    as [pk' [Hrun [Hs [Hn Hall]]]].
  exists pk'. split.
  { unfold startReadyProcesses, bind, gets. simpl.
    rewrite (VOK_getVertexIds _ Hok). exact Hrun. }
  split; [exact Hs|]. split; [exact Hn|].
  intros j v Hv. destruct (Hall j v Hv) as [v' [Hv' [Hk Hg]]].
  exists v'. split; [exact Hv'|]. split.
  - intros Hc. apply Hk. right. exact Hc.
  - apply Hg. lia.
Qed.

(** ** [start] on a graph without a cycle *)

Lemma order_covers g order :
  WF g -> NoDup order -> (forall x, In x order <-> In x (vertexIdArray g)) ->
  length order = vertexCount g
  /\ (forall i, i < vertexCount g ->
        exists id, nth_error order i = Some id /\ In id (vertexIdArray g))
  /\ (forall v, In v (vertexArray g) -> visited g order (v_id v) = true).
Proof.
  intros Hwf Hnd Hall.
  assert (Hlen : length order = vertexCount g).
  { unfold vertexCount. rewrite <- (VOK_length g (WF_VOK g Hwf)).
    apply Permutation_length.
    apply NoDup_Permutation; [exact Hnd | apply Hwf | exact Hall]. }
  split; [exact Hlen|]. split.
  - intros i Hi. destruct (nth_error order i) as [id|] eqn:E.
    + exists id. split; [reflexivity|]. apply Hall. eapply nth_error_In; eauto.
    + apply nth_error_None in E. lia.
  - intros v Hv. unfold visited. rewrite firstn_all2 by lia.
    apply existsb_exists. exists (v_id v). split; [|apply String.eqb_refl].
    apply Hall. rewrite (wf_ids g Hwf). apply in_map. exact Hv.
Qed.

Lemma spec_newState_fresh g v :
  WF g -> (forall w, In w (vertexArray g) -> v_state w = NOT_READY) ->
  In v (vertexArray g) ->
  spec_newState g v = if Nat.eqb (indegree g (v_id v)) 0 then READY else NOT_READY.
Proof.
  intros Hwf Hall Hv. unfold spec_newState. rewrite (Hall v Hv). simpl.
  destruct (Nat.eqb (indegree g (v_id v)) 0) eqn:Hd; [reflexivity|].
  apply Nat.eqb_neq in Hd. unfold indegree in Hd.
  destruct (filter (fun se => String.eqb (snd se) (v_id v)) (edges g))
    as [|[s e] rest] eqn:Ef; [simpl in Hd; lia|].
  assert (Hin : In (s, e) (filter (fun se => String.eqb (snd se) (v_id v)) (edges g)))
    by (rewrite Ef; left; reflexivity).
  apply filter_In in Hin. destruct Hin as [Hin He]. simpl in He.
  apply String.eqb_eq in He. subst e.
  destruct (wf_endpoints g Hwf _ _ Hin) as [Hs _].
  destruct (vertexOfId_id g s (WF_VOK g Hwf) Hs) as [p Hp].
  destruct (vertexOfId_Some g s p (WF_VOK g Hwf) Hp) as [Hpid Hpin].
  assert (Hpar : In p (parentsOf g v)).
  { apply parentsOf_In. split; [exact Hpin|]. rewrite Hpid. exact Hin. }
  destruct (forallb (fun p0 => State_eqb (v_state p0) SUCCESS) (parentsOf g v)) eqn:Hf.
  { rewrite forallb_forall in Hf. specialize (Hf p Hpar).
    rewrite (Hall p Hpin) in Hf. discriminate. }
  destruct (existsb (fun p0 => State_eqb (v_state p0) FAIL) (parentsOf g v)) eqn:Hx;
    [|reflexivity].
  apply existsb_exists in Hx. destruct Hx as [q [Hq Hqs]].
  apply parentsOf_In in Hq. destruct Hq as [Hq _].
  rewrite (Hall q Hq) in Hqs. discriminate.
Qed.

Lemma start_dag sharedData pk :
  WF (graph pk) -> ~ has_cycle (graph pk) ->
  exists pk' L,
    start sharedData pk = (Return tt, pk')
    /\ fst (topologicalSort (graph pk)) = Return L
    /\ topologicalSortOrder pk' = Some (vertexIdsFromArray L)
    /\ isCurrentlyRunning pk' = true
    /\ finalCallbackExecuted pk' = false
    /\ results pk' = sharedData
    /\ map v_id (vertexArray (graph pk')) = map v_id (vertexArray (graph pk))
    /\ map v_data (vertexArray (graph pk')) = map v_data (vertexArray (graph pk))
    /\ edges (graph pk') = edges (graph pk)
    /\ forall v', In v' (vertexArray (graph pk')) ->
         (indegree (graph pk) (v_id v') = 0 ->
          v_state v' = IN_PROGRESS
          \/ (v_state v' = READY
              /\ (0 < maxNumberOfRunningProcesses pk
                  <= numberOfRunningProcesses pk')%Z))
         /\ (indegree (graph pk) (v_id v') <> 0 -> v_state v' = NOT_READY).
Proof.
  intros Hwf Hacyc.
  destruct (start_prefix sharedData pk Hwf)
    as (L & pk1 & Hts & Hrun & Hwf1 & Hall & Ho & Hn & Hr & Hx & Hres & Hmax & _ & _
        & _ & Hids & Hedges & Hvid & Hvdata).
  destruct (topologicalSort_result (graph pk) Hwf) as [L' [Hts' [_ Htopo]]].
  assert (L' = L) by congruence. subst L'.
  destruct (Htopo Hacyc) as [Hnd [Hsame _]].
  assert (Hsame1 : forall x, In x (vertexIdsFromArray L)
                             <-> In x (vertexIdArray (graph pk1)))
    by (intros x; rewrite Hids; apply Hsame).
  destruct (order_covers (graph pk1) (vertexIdsFromArray L) Hwf1 Hnd Hsame1)
    as [_ [Hcov Hvis]].
  destruct (updateStates_spec pk1 (vertexIdsFromArray L) Hwf1 Ho Hcov)
    as [pk2 [Hrun2 [Hf2 Hst2]]].
  assert (Hwf2 : WF (graph pk2)) by exact (WF_sameFrame pk1 pk2 Hf2 Hwf1).
  destruct (startReadyProcesses_spec pk2 (WF_VOK _ Hwf2))
    as [pk3 [Hrun3 [Hs3 [Hn3 Hst3]]]].
  exists pk3, L. split.
  { rewrite Hrun. rewrite (bind_Return _ _ _ _ _ _ _ _ Hrun2). exact Hrun3. }
  split; [rewrite Hts; reflexivity|].
  split; [rewrite (ss_order _ _ Hs3), (sf_order _ _ Hf2); exact Ho|].
  split; [rewrite (ss_running _ _ Hs3), (sf_running _ _ Hf2); exact Hr|].
  split; [rewrite (ss_executed _ _ Hs3), (sf_executed _ _ Hf2); exact Hx|].
  split; [rewrite (ss_results _ _ Hs3), (sf_results _ _ Hf2); exact Hres|].
  split; [rewrite (ss_vids _ _ Hs3), (sf_vids _ _ Hf2); exact Hvid|].
  split; [rewrite (ss_vdata _ _ Hs3), (sf_vdata _ _ Hf2); exact Hvdata|].
  split; [rewrite (ss_edges _ _ Hs3), (sameFrame_edges _ _ Hf2); exact Hedges|].
  intros v3 Hv3. apply In_nth_error in Hv3. destruct Hv3 as [j Hj].
  assert (Hlen31 : length (vertexArray (graph pk3)) = length (vertexArray (graph pk1))).
  { rewrite (sameSetup_length _ _ Hs3).
    apply (sameFrame_vertexCount pk1 pk2 Hf2). }
  destruct (nth_error (vertexArray (graph pk1)) j) as [v1|] eqn:E1.
  2:{ apply nth_error_None in E1.
      assert (j < length (vertexArray (graph pk3)))
        by (apply nth_error_Some; congruence). lia. }
  destruct (Hst2 j v1 E1) as [v2 [E2 Hs2]].
  destruct (Hst3 j v2 E2) as [v3' [E3 [Hkeep Hgo]]].
  assert (v3' = v3) by congruence. subst v3'.
  assert (Hin1 : In v1 (vertexArray (graph pk1))) by (eapply nth_error_In; eauto).
  rewrite (Hvis v1 Hin1), (spec_newState_fresh _ _ Hwf1 Hall Hin1) in Hs2.
  assert (Hid2 : v_id v2 = v_id v1) by exact (sameFrame_v_id pk1 pk2 j v1 v2 Hf2 E1 E2).
  assert (Hid3 : v_id v3 = v_id v2).
  { apply (map_nth_error v_id) in E2. apply (map_nth_error v_id) in E3.
    rewrite (ss_vids _ _ Hs3) in E3. congruence. }
  assert (Hdeg : indegree (graph pk1) (v_id v1) = indegree (graph pk) (v_id v3)).
  { unfold indegree. rewrite Hedges, Hid3, Hid2. reflexivity. }
  rewrite Hdeg in Hs2.
  assert (Hmax2 : maxNumberOfRunningProcesses pk2 = maxNumberOfRunningProcesses pk)
    by (rewrite (sf_max _ _ Hf2); exact Hmax).
  split.
  - intros Hz. rewrite Hz in Hs2. simpl in Hs2.
    destruct (Hgo Hs2) as [Hip|[Hrd Hb]]; [left; exact Hip|].
    right. split; [exact Hrd|]. rewrite <- Hmax2. exact Hb.
  - intros Hnz. apply Nat.eqb_neq in Hnz. rewrite Hnz in Hs2.
    rewrite Hkeep; [exact Hs2|]. rewrite Hs2. discriminate.
Qed.

Lemma diamondPK_acyclic : ~ has_cycle (graph diamondPK).
Proof.
  apply (ordered_acyclic (graph diamondPK) ["A"; "B"; "C"; "D"]).
  - solve_NoDup.
  - intros s e H. vm_compute in H.
    repeat (destruct H as [H|H]; [inversion H; subst; clear H|]); [| | | |destruct H].
    + exists [], [], ["C"; "D"]. reflexivity.
    + exists [], ["B"], ["D"]. reflexivity.
    + exists ["A"], ["C"], []. reflexivity.
    + exists ["A"; "B"], [], []. reflexivity.
Qed.

(** ** Dependencies are respected *)

Lemma keepsSafe_refl pk : keepsSafe pk pk.
Proof. intros H. exact H. Qed.

Lemma keepsSafe_trans a b c : keepsSafe a b -> keepsSafe b c -> keepsSafe a c.
Proof. unfold keepsSafe. auto. Qed.

Lemma same_graph_keepsSafe pk pk' :
  graph pk' = graph pk -> topologicalSortOrder pk' = topologicalSortOrder pk ->
  keepsSafe pk pk'.
Proof.
  intros Hg Ho [Hwf [Hs [order Hc]]]. unfold SafeInv, covers.
  rewrite Hg, Ho. eauto.
Qed.

Lemma steps_eq_keepsSafe A (m : P A) : steps eq m -> steps keepsSafe m.
Proof. intros H s. rewrite <- (H s). apply keepsSafe_refl. Qed.

Lemma covers_sameSetup pk pk' : sameSetup pk pk' -> covers pk -> covers pk'.
Proof.
  intros H [order [Ho Hc]]. exists order.
  split; [rewrite (ss_order _ _ H); exact Ho|].
  unfold vertexCount in *. rewrite (sameSetup_length _ _ H), (ss_ids _ _ H).
  exact Hc.
Qed.

Lemma WF_sameSetup pk pk' : sameSetup pk pk' -> WF (graph pk) -> WF (graph pk').
Proof. intros H Hwf. exact (WF_sameFrame _ _ H Hwf). Qed.

Lemma indegree_edge g s e : In (s, e) (edges g) -> indegree g e <> 0.
Proof. intros Hin Hz. rewrite indegree_zero in Hz. exact (Hz s Hin). Qed.

Lemma updateStates_keepsSafe : steps keepsSafe updateStates.
Proof.
  intros pk [Hwf [Hsafe [order [Ho [Hcov | [Hnil Hpos]]]]]].
  2:{ subst order. rewrite (updateStates_empty_order pk Ho Hpos). simpl.
      split; [exact Hwf|]. split; [exact Hsafe|]. exists []. auto. }
  destruct (updateStates_spec pk order Hwf Ho Hcov) as [pk' [Hrun [Hf Hst]]].
  rewrite Hrun. simpl.
  split; [exact (WF_sameFrame _ _ Hf Hwf)|]. split.
  2:{ apply (covers_sameSetup pk pk' (sameFrame_sameSetup _ _ Hf)).
      exists order. auto. }
  assert (Hlen : length (vertexArray (graph pk')) = length (vertexArray (graph pk)))
    by exact (sameFrame_vertexCount _ _ Hf).
  assert (Hback : forall w', In w' (vertexArray (graph pk')) ->
            exists w, In w (vertexArray (graph pk)) /\ v_id w' = v_id w
                      /\ (v_state w <> NOT_READY -> v_state w' = v_state w)
                      /\ (v_state w = NOT_READY ->
                          v_state w' = NOT_READY
                          \/ v_state w' = spec_newState (graph pk) w)).
  { intros w' Hw'. apply In_nth_error in Hw'. destruct Hw' as [j Hj].
    destruct (nth_error (vertexArray (graph pk)) j) as [w|] eqn:Ew.
    2:{ apply nth_error_None in Ew.
        assert (j < length (vertexArray (graph pk')))
          by (apply nth_error_Some; congruence). lia. }
    destruct (Hst j w Ew) as [w'' [Hw'' Hs]].
    assert (w'' = w') by congruence. subst w''.
    exists w. split; [eapply nth_error_In; eauto|].
    split; [exact (sameFrame_v_id _ _ _ _ _ Hf Ew Hj)|].
    destruct (visited (graph pk) order (v_id w)).
    - split; [intros Hne; rewrite Hs; apply spec_newState_kept; exact Hne|].
      intros _. right. exact Hs.
    - split; [intros _; exact Hs|]. intros Hnr. left. congruence. }
  intros v' p' Hv' Hp' Hedge Hrel.
  destruct (Hback v' Hv') as [v [Hv [Hvid [Hvk Hvn]]]].
  destruct (Hback p' Hp') as [p [Hp [Hpid [Hpk _]]]].
  rewrite (sameFrame_edges _ _ Hf), Hvid, Hpid in Hedge.
  assert (Hdone : v_state p = SUCCESS -> v_state p' = SUCCESS).
  { intros Hps. rewrite Hpk; [exact Hps|]. rewrite Hps. discriminate. }
  apply Hdone.
  destruct (State_eqb (v_state v) NOT_READY) eqn:Hnr.
  - apply State_eqb_eq in Hnr. destruct (Hvn Hnr) as [Hc|Hspec].
    + rewrite Hc in Hrel. discriminate.
    + unfold spec_newState in Hspec. rewrite Hnr in Hspec. simpl in Hspec.
      destruct (Nat.eqb (indegree (graph pk) (v_id v)) 0) eqn:Hd.
      { apply Nat.eqb_eq in Hd. exfalso.
        exact (indegree_edge _ _ _ Hedge Hd). }
      destruct (forallb (fun q => State_eqb (v_state q) SUCCESS)
                        (parentsOf (graph pk) v)) eqn:Hfa.
      * rewrite forallb_forall in Hfa. apply State_eqb_eq. apply Hfa.
        apply parentsOf_In. split; assumption.
      * destruct (existsb (fun q => State_eqb (v_state q) FAIL)
                          (parentsOf (graph pk) v));
          rewrite Hspec in Hrel; discriminate.
  - assert (Hne : v_state v <> NOT_READY)
      by (intros Hc; rewrite Hc in Hnr; discriminate).
    rewrite (Hvk Hne) in Hrel. exact (Hsafe v p Hv Hp Hedge Hrel).
Qed.

(** Writing a state to a vertex that is released and not yet SUCCESS: no
    vertex depends on it yet. *)
Lemma write_keepsSafe slot s pk v :
  nth_error (vertexArray (graph pk)) slot = Some v ->
  released (v_state v) = true -> v_state v <> SUCCESS ->
  keepsSafe pk (snd (Vertex_setState slot s pk)).
Proof.
  intros Hv Hrel Hns [Hwf [Hsafe Hcov]].
  destruct (Vertex_setState_effect slot s pk v Hv)
    as [pk' [Hrun [Hother [v1 [Hv1 Hs1]]]]].
  pose proof (Vertex_setState_sameFrame slot s pk) as Hf.
  rewrite Hrun in *. simpl in *.
  split; [exact (WF_sameFrame _ _ Hf Hwf)|]. split.
  2:{ exact (covers_sameSetup pk pk' (sameFrame_sameSetup _ _ Hf) Hcov). }
  assert (Hback : forall w', In w' (vertexArray (graph pk')) ->
            (w' = v1 /\ v_id v1 = v_id v)
            \/ (In w' (vertexArray (graph pk)) /\ w' <> v)).
  { intros w' Hw'. apply In_nth_error in Hw'. destruct Hw' as [j Hj].
    destruct (Nat.eq_dec j slot) as [->|Hne].
    - left. split; [congruence|]. exact (sameFrame_v_id _ _ _ _ _ Hf Hv Hv1).
    - right. rewrite (Hother j Hne) in Hj. split; [eapply nth_error_In; eauto|].
      intros ->. apply Hne.
      pose proof (WF_VOK _ Hwf) as [Hids Hnd].
      apply (map_nth_error v_id) in Hj. apply (map_nth_error v_id) in Hv.
      rewrite <- Hids in Hj, Hv.
      pose proof (indexOf_nth_NoDup _ Hnd _ _ Hj).
      pose proof (indexOf_nth_NoDup _ Hnd _ _ Hv). congruence. }
  assert (Hvin : In v (vertexArray (graph pk))) by (eapply nth_error_In; eauto).
  intros w' p' Hw' Hp' Hedge Hrel'.
  rewrite (sameFrame_edges _ _ Hf) in Hedge.
  destruct (Hback w' Hw') as [[-> Hid]|[Hw Hwne]];
    destruct (Hback p' Hp') as [[-> Hpid]|[Hp Hpne]].
  - rewrite Hid in Hedge. pose proof (Hsafe v v Hvin Hvin Hedge Hrel). contradiction.
  - rewrite Hid in Hedge. exact (Hsafe v p' Hvin Hp Hedge Hrel).
  - rewrite Hpid in Hedge. pose proof (Hsafe w' v Hw Hvin Hedge Hrel'). contradiction.
  - exact (Hsafe w' p' Hw Hp Hedge Hrel').
Qed.

Lemma startIfReady_keepsSafe ids i : steps keepsSafe (startIfReady ids i).
Proof.
  intros pk. unfold startIfReady. unfold bind at 1.
  destruct (getVertexP (nth_error ids i) pk) as [[v| |] pk1] eqn:E; simpl.
  2-3: (assert (Hp : steps eq (getVertexP (nth_error ids i)))
          by (unfold getVertexP; pure_steps);
        specialize (Hp pk); rewrite E in Hp; simpl in Hp; subst pk1;
        apply keepsSafe_refl).
  destruct (getVertexP_Return _ _ _ _ E) as [-> [slot [Hslot Hv]]].
  destruct (State_eqb (v_state v) READY) eqn:Hr; [|apply keepsSafe_refl].
  apply State_eqb_eq in Hr.
  assert (Hgo : keepsSafe pk
            (snd ((modify (fun pk => set_numberOfRunningProcesses pk
                                       (numberOfRunningProcesses pk + 1)) ;;;
                   getVertex_setState (nth_error ids i) IN_PROGRESS) pk))).
  { unfold bind at 1. unfold modify at 1.
    set (pk1 := set_numberOfRunningProcesses pk (numberOfRunningProcesses pk + 1)).
    assert (Hslot1 : getVertexSlot (nth_error ids i) pk1 = (Return slot, pk1)).
    { unfold getVertexSlot, liftO in *. simpl in *.
      destruct (nth_error ids i) as [id|]; [|discriminate].
      destruct (indexOf id (vertexIdArray (graph pk))); [|discriminate].
      destruct (nth_error (vertexArray (graph pk)) n); inversion Hslot; reflexivity. }
    unfold getVertex_setState. rewrite (bind_Return _ _ _ _ _ _ _ _ Hslot1).
    apply keepsSafe_trans with pk1;
      [apply same_graph_keepsSafe; reflexivity|].
    apply (write_keepsSafe slot IN_PROGRESS pk1 v Hv);
      rewrite Hr; [reflexivity | discriminate]. }
  unfold bind at 1. unfold gets at 1. unfold bind at 1. unfold gets at 1.
  destruct (Z.ltb 0 (maxNumberOfRunningProcesses pk)
            && Z.ltb (numberOfRunningProcesses pk) (maxNumberOfRunningProcesses pk));
    [exact Hgo|].
  destruct (Z.leb (maxNumberOfRunningProcesses pk) 0);
    [exact Hgo | apply keepsSafe_refl].
Qed.

Lemma startReadyProcesses_keepsSafe : steps keepsSafe startReadyProcesses.
Proof.
  pose proof startIfReady_keepsSafe. unfold startReadyProcesses.
  steps_split ltac:(solve [auto]) keepsSafe_refl keepsSafe_trans.
Qed.

Ltac keepsSafe_leaf :=
  first [ solve [auto]
        | apply steps_eq_keepsSafe; solve [auto using stateFlags_pure,
                                                      failedStatesError_pure]
        | intro; apply same_graph_keepsSafe; reflexivity ].

Ltac keepsSafe_steps := steps_split keepsSafe_leaf keepsSafe_refl keepsSafe_trans.

Lemma runFinalCallback_keepsSafe pkError :
  steps keepsSafe pkError -> steps keepsSafe (runFinalCallback pkError).
Proof.
  intros H. unfold runFinalCallback, writeToLog, emit. keepsSafe_steps.
Qed.

Lemma afterSuccess_keepsSafe : steps keepsSafe afterSuccess.
Proof.
  pose proof updateStates_keepsSafe. pose proof startReadyProcesses_keepsSafe.
  assert (steps keepsSafe (runFinalCallback failedStatesError))
    by (apply runFinalCallback_keepsSafe; keepsSafe_steps).
  assert (steps keepsSafe (runFinalCallback (ret None)))
    by (apply runFinalCallback_keepsSafe; keepsSafe_steps).
  unfold afterSuccess, decrementRunning, stopRunning, writeToLog, emit.
  keepsSafe_steps.
Qed.

Lemma afterFail_keepsSafe vertexId : steps keepsSafe (afterFail vertexId).
Proof.
  pose proof updateStates_keepsSafe.
  assert (steps keepsSafe (runFinalCallback failedStatesError))
    by (apply runFinalCallback_keepsSafe; keepsSafe_steps).
  assert (steps keepsSafe (runFinalCallback (ret (Some (StateFailed vertexId)))))
    by (apply runFinalCallback_keepsSafe; keepsSafe_steps).
  unfold afterFail, decrementRunning, stopRunning, writeToLog, emit.
  keepsSafe_steps.
Qed.

(** A completion event of a running task. *)
Lemma complete_keepsSafe vertexId newState pk v :
  getVertex (graph pk) vertexId = Return v ->
  v_state v = IN_PROGRESS ->
  newState = "SUCCESS" \/ newState = "FAIL" ->
  keepsSafe pk (run (setState vertexId newState) pk).
Proof.
  intros Hget Hip Hst. destruct (getVertex_slot _ _ _ Hget) as [slot [Hidx Hn]].
  assert (Hcommit : forall st, st <> IN_PROGRESS ->
            keepsSafe pk (snd (getVertex_setState (Some vertexId) st pk))).
  { intros st Hne. unfold getVertex_setState.
    assert (Hslot : getVertexSlot (Some vertexId) pk = (Return slot, pk))
      by (unfold getVertexSlot, liftO; rewrite Hidx, Hn; reflexivity).
    rewrite (bind_Return _ _ _ _ _ _ _ _ Hslot).
    apply (write_keepsSafe slot st pk v Hn); rewrite Hip;
      [reflexivity | discriminate]. }
  unfold run, setState. unfold bind at 1. unfold gets at 1.
  unfold hasVertexId. rewrite Hidx.
  destruct Hst as [-> | ->].
  - change (state_of_string "SUCCESS") with (Some SUCCESS). cbv iota.
    pose proof (Hcommit SUCCESS ltac:(discriminate)) as Hc.
    rewrite (commit_run vertexId SUCCESS pk slot v Hidx Hn ltac:(discriminate)) in Hc.
    rewrite (bind_Return _ _ _ _ _ _ _ _
               (commit_run vertexId SUCCESS pk slot v Hidx Hn ltac:(discriminate))).
    eapply keepsSafe_trans; [exact Hc | apply afterSuccess_keepsSafe].
  - change (state_of_string "FAIL") with (Some FAIL). cbv iota.
    pose proof (Hcommit FAIL ltac:(discriminate)) as Hc.
    rewrite (commit_run vertexId FAIL pk slot v Hidx Hn ltac:(discriminate)) in Hc.
    rewrite (bind_Return _ _ _ _ _ _ _ _
               (commit_run vertexId FAIL pk slot v Hidx Hn ltac:(discriminate))).
    eapply keepsSafe_trans; [exact Hc | apply afterFail_keepsSafe].
Qed.

Lemma start_SafeInv sharedData pk :
  WF (graph pk) -> SafeInv (run (start sharedData) pk).
Proof.
  intros Hwf.
  destruct (start_prefix sharedData pk Hwf)
    as (L & pk1 & Hts & Hrun & Hwf1 & Hall & Ho & _ & _ & _ & _ & _ & _ & _
        & _ & Hids & _ & Hvid & _).
  assert (Hinv1 : SafeInv pk1).
  { split; [exact Hwf1|]. split.
    - intros v p Hv _ _ Hrel. rewrite (Hall v Hv) in Hrel. discriminate.
    - exists (vertexIdsFromArray L). split; [exact Ho|].
      destruct (topologicalSort_result (graph pk) Hwf) as [L' [Hts' [Hnil Htopo]]].
      assert (L' = L) by congruence. subst L'.
      assert (Hcount : vertexCount (graph pk1) = vertexCount (graph pk)).
      { unfold vertexCount. rewrite <- (length_map v_id), Hvid. apply length_map. }
      destruct L as [|x L].
      + destruct (proj1 Hnil eq_refl) as [Hcyc|Hzero].
        * right. split; [reflexivity|]. rewrite Hcount.
          apply has_cycle_vertexCount; assumption.
        * left. intros i Hi. rewrite Hcount in Hi. lia.
      + left.
        assert (Hacyc : ~ has_cycle (graph pk)).
        { intros Hc. assert (Hx : x :: L = []) by (apply Hnil; left; exact Hc).
          discriminate. }
        destruct (Htopo Hacyc) as [Hnd [Hsame _]].
        apply (order_covers (graph pk1) _ Hwf1 Hnd).
        intros y. rewrite Hids. apply Hsame. }
  unfold run. rewrite Hrun.
  assert (Hm : steps keepsSafe (updateStates ;;; startReadyProcesses)).
  { pose proof updateStates_keepsSafe. pose proof startReadyProcesses_keepsSafe.
    keepsSafe_steps. }
  exact (Hm pk1 Hinv1).
Qed.

Lemma campaign_SafeInv pk : campaign pk -> SafeInv pk.
Proof.
  induction 1 as [pk d Hwf | pk id st v _ IH Hget Hip Hst].
  - apply start_SafeInv. exact Hwf.
  - exact (complete_keepsSafe id st pk v Hget Hip Hst IH).
Qed.

(** ** The loops over the states of the vertices *)

Lemma skipn_nth A (l : list A) n x :
  nth_error l n = Some x -> skipn n l = x :: skipn (S n) l.
Proof.
  revert n; induction l as [|a l IH]; intros [|n] H; simpl in *; try discriminate.
  - inversion H. reflexivity.
  - apply IH. exact H.
Qed.

Lemma scanStates_run pk count :
  VOK (graph pk) ->
  forall from a b c,
    from + count = length (vertexArray (graph pk)) ->
    scanStates (vertexIdArray (graph pk)) from count a b c pk
    = (Return
         (a && forallb (fun v => State_eqb (v_state v) SUCCESS)
                       (skipn from (vertexArray (graph pk))),
          b || existsb (fun v => State_eqb (v_state v) FAIL)
                       (skipn from (vertexArray (graph pk))),
          c && forallb (fun v => State_eqb (v_state v) SUCCESS
                                 || State_eqb (v_state v) FAIL)
                       (skipn from (vertexArray (graph pk)))), pk).
Proof.
  intros Hok. induction count as [|count IH]; intros from a b c Hlen.
  - rewrite skipn_all2 by lia. simpl.
    rewrite !andb_true_r, orb_false_r. reflexivity.
  - destruct (nth_error (vertexArray (graph pk)) from) as [v|] eqn:Ev;
      [|apply nth_error_None in Ev; lia].
    destruct (VOK_slot (graph pk) from v pk eq_refl Hok Ev) as [Hid [_ Hget]].
    simpl scanStates. rewrite Hid.
    rewrite (bind_Return _ _ _ _ _ _ _ _ Hget).
    rewrite IH by lia. rewrite (skipn_nth _ _ _ _ Ev). simpl.
    rewrite !andb_assoc, orb_assoc. reflexivity.
Qed.

Lemma stateFlags_run pk :
  VOK (graph pk) ->
  stateFlags pk
  = (Return
       (forallb (fun v => State_eqb (v_state v) SUCCESS) (vertexArray (graph pk)),
        existsb (fun v => State_eqb (v_state v) FAIL) (vertexArray (graph pk)),
        forallb (fun v => State_eqb (v_state v) SUCCESS
                          || State_eqb (v_state v) FAIL)
                (vertexArray (graph pk))), pk).
Proof.
  intros Hok. unfold stateFlags. unfold bind at 1. unfold gets at 1.
  unfold bind at 1. unfold gets at 1. rewrite (VOK_getVertexIds _ Hok).
  rewrite (scanStates_run pk _ Hok 0 true false true) by reflexivity.
  reflexivity.
Qed.

Lemma vertexStatesFrom_run pk count :
  VOK (graph pk) ->
  forall from,
    from + count = length (vertexArray (graph pk)) ->
    vertexStatesFrom (vertexIdArray (graph pk)) from count pk
    = (Return (map (fun v => (v_state v, Some (v_id v)))
                   (skipn from (vertexArray (graph pk)))), pk).
Proof.
  intros Hok. induction count as [|count IH]; intros from Hlen.
  - rewrite skipn_all2 by lia. reflexivity.
  - destruct (nth_error (vertexArray (graph pk)) from) as [v|] eqn:Ev;
      [|apply nth_error_None in Ev; lia].
    destruct (VOK_slot (graph pk) from v pk eq_refl Hok Ev) as [Hid [_ Hget]].
    simpl vertexStatesFrom. rewrite Hid.
    rewrite (bind_Return _ _ _ _ _ _ _ _ Hget).
    rewrite (bind_Return _ _ _ _ _ _ _ _ (IH (S from) ltac:(lia))).
    rewrite (skipn_nth _ _ _ _ Ev). reflexivity.
Qed.

Lemma bucket_states st (l : list Vertex) :
  bucket st (map (fun v => (v_state v, Some (v_id v))) l)
  = map v_id (filter (fun v => State_eqb (v_state v) st) l).
Proof.
  unfold bucket. induction l as [|v l IH]; simpl; [reflexivity|].
  destruct (State_eqb (v_state v) st); simpl; rewrite IH; reflexivity.
Qed.

Lemma overallState_run pk :
  VOK (graph pk) ->
  overallState pk
  = (Return (mkOverallState (pkGuid pk) (topologicalSortOrder pk)
               (idsInState (graph pk) NOT_READY) (idsInState (graph pk) READY)
               (idsInState (graph pk) IN_PROGRESS) (idsInState (graph pk) SUCCESS)
               (idsInState (graph pk) FAIL)
               (quitOnFailure pk) (isCurrentlyRunning pk)
               (maxNumberOfRunningProcesses pk) (numberOfRunningProcesses pk)
               (results pk)), pk).
Proof.
  intros Hok. unfold overallState. unfold bind at 1. unfold gets at 1.
  unfold bind at 1. unfold gets at 1. rewrite (VOK_getVertexIds _ Hok).
  rewrite (bind_Return _ _ _ _ _ _ _ _
             (vertexStatesFrom_run pk _ Hok 0 eq_refl)).
  unfold bind, get, ret. simpl skipn. rewrite !bucket_states. reflexivity.
Qed.

Lemma overallState_FAIL_run pk :
  VOK (graph pk) ->
  overallState_FAIL pk = (Return (idsInState (graph pk) FAIL), pk).
Proof.
  intros Hok. unfold overallState_FAIL. unfold bind at 1. unfold gets at 1.
  unfold bind at 1. unfold gets at 1. rewrite (VOK_getVertexIds _ Hok).
  rewrite (bind_Return _ _ _ _ _ _ _ _
             (vertexStatesFrom_run pk _ Hok 0 eq_refl)).
  unfold ret. simpl skipn. rewrite bucket_states. reflexivity.
Qed.

Lemma idsInState_In g st id :
  In id (idsInState g st)
  <-> exists v, In v (vertexArray g) /\ v_id v = id /\ v_state v = st.
Proof.
  unfold idsInState. rewrite in_map_iff. split.
  - intros [v [Hid Hin]]. apply filter_In in Hin. destruct Hin as [Hin Hs].
    apply State_eqb_eq in Hs. eauto.
  - intros [v [Hin [Hid Hs]]]. exists v. split; [exact Hid|].
    apply filter_In. split; [exact Hin|]. apply State_eqb_eq. exact Hs.
Qed.

(** ** [updateStates] when nothing is waiting or running *)

Lemma updateSlot_same slot f g v :
  nth_error (vertexArray g) slot = Some v -> f v = v -> updateSlot slot f g = g.
Proof.
  intros Hn Hf. unfold updateSlot. rewrite Hn, Hf, (setNth_same _ _ _ _ Hn).
  destruct g; reflexivity.
Qed.

Lemma Vertex_withState_same v : Vertex_withState v (v_state v) = v.
Proof. destruct v; reflexivity. Qed.

Lemma applyLoop_id pk order :
  WF (graph pk) -> topologicalSortOrder pk = Some order ->
  (forall i, i < vertexCount (graph pk) ->
             exists id, nth_error order i = Some id
                        /\ In id (vertexIdArray (graph pk))) ->
  (forall v, In v (vertexArray (graph pk)) ->
             v_state v <> NOT_READY /\ v_state v <> IN_PROGRESS) ->
  forall count from,
    from + count = vertexCount (graph pk) ->
    forRange from count
      (applyNewState (map (target (graph pk) order)
                          (seq 0 (vertexCount (graph pk))))) pk
    = (Return tt, pk).
Proof.
  intros Hwf Ho Hord Hst. pose proof (WF_VOK _ Hwf) as Hok.
  induction count as [|count IH]; intros from Hlen; [reflexivity|].
  destruct (Hord from) as [id [Hid Hin]]; [lia|].
  destruct (indexOf_In id _ Hin) as [slot Hslot].
  destruct (indexOf_Some _ _ _ Hslot) as [Hnth Hlt].
  rewrite (VOK_length _ Hok) in Hlt.
  destruct (nth_error (vertexArray (graph pk)) slot) as [v|] eqn:Ev;
    [|apply nth_error_None in Ev; lia].
  assert (Hvof : vertexOfId (graph pk) id = Some v)
    by (unfold vertexOfId; rewrite Hslot; exact Ev).
  assert (Hvin : In v (vertexArray (graph pk))) by (eapply nth_error_In; eauto).
  destruct (Hst v Hvin) as [Hnr Hnip].
  assert (Hgs : getVertexSlot (Some id) pk = (Return slot, pk))
    by (unfold getVertexSlot, liftO; rewrite Hslot, Ev; reflexivity).
  assert (Hl : nth_error (map (target (graph pk) order)
                              (seq 0 (vertexCount (graph pk)))) from
               = Some (v_state v)).
  { rewrite (map_nth_error _ _ _ (B := State)) with (d := from).
    - unfold target. rewrite Hid, Hvof, (spec_newState_kept _ _ Hnr). reflexivity.
    - rewrite nth_error_seq.
      destruct (Nat.ltb_spec from (vertexCount (graph pk))); [reflexivity | lia]. }
  simpl forRange. unfold bind at 1. unfold applyNewState at 1.
  unfold bind at 1. rewrite (orderAt_run pk order from Ho), Hid.
  unfold bind at 1. rewrite Hgs, Hl.
  rewrite (Vertex_setState_run slot (v_state v) pk Hnip).
  rewrite (updateSlot_same slot _ (graph pk) v Ev (Vertex_withState_same v)).
  rewrite set_graph_id. apply IH. lia.
Qed.

Lemma updateStates_settled pk order :
  WF (graph pk) -> topologicalSortOrder pk = Some order ->
  (forall i, i < vertexCount (graph pk) ->
             exists id, nth_error order i = Some id
                        /\ In id (vertexIdArray (graph pk))) ->
  (forall v, In v (vertexArray (graph pk)) ->
             v_state v <> NOT_READY /\ v_state v <> IN_PROGRESS) ->
  updateStates pk = (Return tt, pk).
Proof.
  intros Hwf Ho Hord Hst.
  unfold updateStates. unfold bind at 1. unfold gets at 1. unfold bind at 1.
  rewrite (computeNewStates_run pk order _ Hwf Ho 0) by (intros i Hi; apply Hord; lia).
  apply (applyLoop_id pk order Hwf Ho Hord Hst). reflexivity.
Qed.

(** ** The final callback, step by step *)

Lemma runFinalCallback_run pkError pk e :
  finalCallbackExecuted pk = false ->
  pkError (set_finalCallbackExecuted
             (set_trace pk (trace pk ++ [EvLog "INFO"
                (logLine (pkGuid pk) "Final callback executing")])) true)
  = (Return e,
     set_finalCallbackExecuted
       (set_trace pk (trace pk ++ [EvLog "INFO"
          (logLine (pkGuid pk) "Final callback executing")])) true) ->
  exists pk',
    runFinalCallback pkError pk = (Return tt, pk')
    /\ trace pk'
       = trace pk
         ++ [EvLog "INFO" (logLine (pkGuid pk) "Final callback executing");
             EvFinalCallback e (results pk);
             EvLog "INFO" (logLine (pkGuid pk) "Final callback executed")]
    /\ finalCallbackExecuted pk' = true
    /\ graph pk' = graph pk
    /\ isCurrentlyRunning pk' = isCurrentlyRunning pk
    /\ numberOfRunningProcesses pk' = numberOfRunningProcesses pk
    /\ topologicalSortOrder pk' = topologicalSortOrder pk
    /\ results pk' = results pk.
Proof.
  intros Hf Hpk. unfold runFinalCallback. unfold bind at 1. unfold gets at 1.
  rewrite Hf. unfold bind at 1. rewrite writeToLog_run.
  unfold bind at 1. unfold modify at 1. cbv beta.
  rewrite (bind_Return _ _ _ _ _ _ _ _ Hpk).
  eexists. split; [reflexivity|]. simpl.
  rewrite <- !app_assoc. simpl. repeat split; reflexivity.
Qed.

Lemma all_final_flags (l : list Vertex) :
  (forall v, In v l -> v_state v = SUCCESS \/ v_state v = FAIL) ->
  forallb (fun v => State_eqb (v_state v) SUCCESS || State_eqb (v_state v) FAIL) l
  = true
  /\ forallb (fun v => State_eqb (v_state v) SUCCESS) l
     = negb (existsb (fun v => State_eqb (v_state v) FAIL) l).
Proof.
  induction l as [|v l IH]; intros H; [split; reflexivity|].
  destruct IH as [IH1 IH2]; [intros w Hw; apply H; right; exact Hw|].
  simpl. rewrite IH1, IH2.
  destruct (H v (or_introl eq_refl)) as [-> | ->]; simpl; split; reflexivity.
Qed.

Lemma In_updateSlot g slot f v w' :
  VOK g -> nth_error (vertexArray g) slot = Some v ->
  In w' (vertexArray (updateSlot slot f g)) ->
  w' = f v \/ (In w' (vertexArray g) /\ w' <> v).
Proof.
  intros [Hids Hnd] Hv Hw'. apply In_nth_error in Hw'. destruct Hw' as [j Hj].
  destruct (Nat.eq_dec j slot) as [->|Hne].
  - rewrite (updateSlot_nth_eq slot f g v Hv) in Hj. left. congruence.
  - rewrite updateSlot_nth_neq in Hj by congruence. right.
    split; [eapply nth_error_In; eauto|]. intros ->. apply Hne.
    apply (map_nth_error v_id) in Hj. apply (map_nth_error v_id) in Hv.
    rewrite <- Hids in Hj, Hv.
    pose proof (indexOf_nth_NoDup _ Hnd _ _ Hj).
    pose proof (indexOf_nth_NoDup _ Hnd _ _ Hv). congruence.
Qed.

Lemma updateSlot_length i f g :
  length (vertexArray (updateSlot i f g)) = length (vertexArray g).
Proof.
  unfold updateSlot. destruct (nth_error (vertexArray g) i); [|reflexivity].
  simpl. apply length_setNth.
Qed.

(** The success of the last task. *)
Lemma last_success vertexId pk order v :
  WF (graph pk) -> topologicalSortOrder pk = Some order ->
  (forall i, i < vertexCount (graph pk) ->
             exists id, nth_error order i = Some id
                        /\ In id (vertexIdArray (graph pk))) ->
  finalCallbackExecuted pk = false ->
  getVertex (graph pk) vertexId = Return v ->
  (forall w, In w (vertexArray (graph pk)) -> w <> v ->
             v_state w = SUCCESS \/ v_state w = FAIL) ->
  exists pk',
    setState vertexId "SUCCESS" pk = (Return tt, pk')
    /\ isCurrentlyRunning pk' = false
    /\ finalCallbackExecuted pk' = true
    /\ (numberOfRunningProcesses pk' = numberOfRunningProcesses pk - 1)%Z
    /\ (forall w', In w' (vertexArray (graph pk')) ->
                   v_state w' = SUCCESS \/ v_state w' = FAIL)
    /\ getVertex (graph pk') vertexId = Return (Vertex_withState v SUCCESS)
    /\ trace pk'
       = trace pk
         ++ (if existsb (fun w => State_eqb (v_state w) FAIL) (vertexArray (graph pk'))
             then [EvLog "ERROR" (logLine (pkGuid pk) "One task failed, :-(");
                   EvLog "INFO" (logLine (pkGuid pk) "Final callback executing");
                   EvFinalCallback
                     (Some (FailedStates (idsInState (graph pk') FAIL))) (results pk);
                   EvLog "INFO" (logLine (pkGuid pk) "Final callback executed")]
             else [EvLog "INFO" (logLine (pkGuid pk)
                                   "All tasks completed successfully, ooh RAH!");
                   EvLog "INFO" (logLine (pkGuid pk) "Final callback executing");
                   EvFinalCallback None (results pk);
                   EvLog "INFO" (logLine (pkGuid pk) "Final callback executed")]).
Proof.
  intros Hwf Ho Hord Hf Hget Hothers.
  destruct (getVertex_slot _ _ _ Hget) as [slot [Hidx Hn]].
  set (g1 := updateSlot slot (fun v => Vertex_withState v SUCCESS) (graph pk)).
  set (pk1 := set_numberOfRunningProcesses (set_graph pk g1)
                (numberOfRunningProcesses pk - 1)).
  assert (Hwf1 : WF (graph pk1))
    by (apply updateSlot_WF; [reflexivity | exact Hwf]).
  assert (Hfinal : forall w', In w' (vertexArray (graph pk1)) ->
                              v_state w' = SUCCESS \/ v_state w' = FAIL).
  { intros w' Hw'.
    destruct (In_updateSlot _ _ _ _ _ (WF_VOK _ Hwf) Hn Hw') as [-> | [Hin Hne]].
    - left. reflexivity.
    - apply Hothers; assumption. }
  assert (Hord1 : forall i, i < vertexCount (graph pk1) ->
             exists id, nth_error order i = Some id
                        /\ In id (vertexIdArray (graph pk1))).
  { intros i Hi. unfold vertexCount in Hi. simpl in Hi. unfold g1 in Hi.
    rewrite updateSlot_length in Hi. simpl. unfold g1.
    rewrite updateSlot_vertexIdArray. apply Hord. exact Hi. }
  assert (Hsettled : updateStates pk1 = (Return tt, pk1)).
  { apply (updateStates_settled pk1 order Hwf1 Ho Hord1).
    intros w Hw. destruct (Hfinal w Hw) as [-> | ->]; split; discriminate. }
  destruct (all_final_flags _ Hfinal) as [Hc Ha].
  assert (Hlook : getVertex g1 vertexId = Return (Vertex_withState v SUCCESS)).
  { unfold getVertex, g1. rewrite updateSlot_vertexIdArray, Hidx.
    rewrite (updateSlot_nth_eq slot _ (graph pk) v Hn). reflexivity. }
  rewrite (setState_SUCCESS_run vertexId pk slot v Hidx Hn). fold g1. fold pk1.
  rewrite (bind_Return _ _ _ _ _ _ _ _ Hsettled).
  rewrite (bind_Return _ _ _ _ _ _ _ _ (stateFlags_run pk1 (WF_VOK _ Hwf1))).
  rewrite Hc, Ha. cbv beta iota.
  unfold bind at 1. unfold stopRunning at 1. unfold modify at 1.
  set (pk2 := set_isCurrentlyRunning pk1 false).
  destruct (existsb (fun w => State_eqb (v_state w) FAIL) (vertexArray (graph pk1)))
    eqn:Hb; cbv beta iota delta [negb].
  - unfold bind at 1. rewrite writeToLog_run.
    match goal with
    | |- context [runFinalCallback failedStatesError ?p] =>
        destruct (runFinalCallback_run failedStatesError p
                    (Some (FailedStates (idsInState g1 FAIL))))
          as (pk' & Hrun & Ht & Hx & Hg & Hr & Hnum & _ & _)
    end.
    { exact Hf. }
    { unfold failedStatesError.
      match goal with
      | |- bind overallState_FAIL _ ?p = _ =>
          rewrite (bind_Return _ _ _ _ _ p _ p
                     (overallState_FAIL_run p (WF_VOK _ Hwf1)))
      end.
      reflexivity. }
    exists pk'. split; [exact Hrun|]. rewrite Hg. simpl graph.
    split; [exact Hr|]. split; [exact Hx|]. split; [exact Hnum|].
    split; [exact Hfinal|]. split; [exact Hlook|].
    change (vertexArray (graph pk1)) with (vertexArray g1) in Hb.
    rewrite Hb, Ht. simpl. rewrite <- app_assoc. reflexivity.
  - unfold bind at 1. rewrite writeToLog_run.
    match goal with
    | |- context [runFinalCallback (ret None) ?p] =>
        destruct (runFinalCallback_run (ret None) p None)
          as (pk' & Hrun & Ht & Hx & Hg & Hr & Hnum & _ & _)
    end.
    { exact Hf. }
    { reflexivity. }
    exists pk'. split; [exact Hrun|]. rewrite Hg. simpl graph.
    split; [exact Hr|]. split; [exact Hx|]. split; [exact Hnum|].
    split; [exact Hfinal|]. split; [exact Hlook|].
    change (vertexArray (graph pk1)) with (vertexArray g1) in Hb.
    rewrite Hb, Ht. simpl. rewrite <- app_assoc. reflexivity.
Qed.

(** The failure of a task when the scheduler quits on failure. *)
Lemma quit_on_failure vertexId pk order v :
  WF (graph pk) -> topologicalSortOrder pk = Some order ->
  (forall i, i < vertexCount (graph pk) ->
             exists id, nth_error order i = Some id
                        /\ In id (vertexIdArray (graph pk))) ->
  finalCallbackExecuted pk = false ->
  quitOnFailure pk = true ->
  getVertex (graph pk) vertexId = Return v ->
  exists pk' evs,
    setState vertexId "FAIL" pk = (Return tt, pk')
    /\ isCurrentlyRunning pk' = false
    /\ finalCallbackExecuted pk' = true
    /\ (numberOfRunningProcesses pk' = numberOfRunningProcesses pk - 1)%Z
    /\ (exists v', getVertex (graph pk') vertexId = Return v' /\ v_state v' = FAIL)
    /\ countFinalCallbacks evs = 0
    /\ trace pk'
       = trace pk
         ++ [EvLog "ERROR" (logLine (pkGuid pk) "Task failed - darn!")]
         ++ evs
         ++ [EvLog "INFO" (logLine (pkGuid pk) "Final callback executing");
             EvFinalCallback (Some (StateFailed vertexId)) (results pk);
             EvLog "INFO" (logLine (pkGuid pk) "Final callback executed")].
Proof.
  intros Hwf Ho Hord Hf Hq Hget.
  destruct (getVertex_slot _ _ _ Hget) as [slot [Hidx Hn]].
  set (g1 := updateSlot slot (fun v => Vertex_withState v FAIL) (graph pk)).
  set (pk1 := set_numberOfRunningProcesses
                (set_trace (set_graph pk g1)
                   (trace pk ++ [EvLog "ERROR"
                                   (logLine (pkGuid pk) "Task failed - darn!")]))
                (numberOfRunningProcesses pk - 1)).
  assert (Hwf1 : WF (graph pk1))
    by (apply updateSlot_WF; [reflexivity | exact Hwf]).
  assert (Hord1 : forall i, i < vertexCount (graph pk1) ->
             exists id, nth_error order i = Some id
                        /\ In id (vertexIdArray (graph pk1))).
  { intros i Hi. unfold vertexCount in Hi. simpl in Hi. unfold g1 in Hi.
    rewrite updateSlot_length in Hi. simpl. unfold g1.
    rewrite updateSlot_vertexIdArray. apply Hord. exact Hi. }
  destruct (updateStates_spec pk1 order Hwf1 Ho Hord1) as [pk2 [Hrun2 [Hf2 Hst2]]].
  pose proof (updateStates_quiet pk1) as Hquiet. rewrite Hrun2 in Hquiet.
  destruct Hquiet as [Hx2 [evs [Ht2 Hc2]]]. simpl in Hx2, Ht2.
  assert (Hwf2 : WF (graph pk2)) by exact (WF_sameFrame _ _ Hf2 Hwf1).
  assert (Hq2 : quitOnFailure pk2 = true) by (rewrite (sf_quit _ _ Hf2); exact Hq).
  destruct (runFinalCallback_run (ret (Some (StateFailed vertexId)))
              (set_isCurrentlyRunning pk2 false) (Some (StateFailed vertexId)))
    as (pk' & Hrun & Ht & Hx & Hg & Hr & Hnum & _ & _).
  { simpl. rewrite Hx2. exact Hf. }
  { reflexivity. }
  exists pk', evs. split.
  { rewrite (setState_FAIL_run vertexId pk slot v Hidx Hn). fold g1. fold pk1.
    rewrite (bind_Return _ _ _ _ _ _ _ _ Hrun2).
    rewrite (bind_Return _ _ _ _ _ _ _ _ (stateFlags_run pk2 (WF_VOK _ Hwf2))).
    cbv beta iota. unfold bind at 1. unfold gets at 1. rewrite Hq2.
    unfold bind at 1. unfold stopRunning at 1. unfold modify at 1.
    exact Hrun. }
  split; [exact Hr|]. split; [exact Hx|].
  split; [rewrite Hnum; simpl; rewrite (sf_number _ _ Hf2); reflexivity|].
  split.
  { assert (E1 : nth_error (vertexArray (graph pk1)) slot
                 = Some (Vertex_withState v FAIL))
      by exact (updateSlot_nth_eq slot _ (graph pk) v Hn).
    destruct (Hst2 slot _ E1) as [v2 [E2 Hs2]].
    exists v2. split.
    - rewrite Hg. simpl graph. unfold getVertex.
      rewrite (sf_ids _ _ Hf2). simpl. unfold g1.
      rewrite updateSlot_vertexIdArray, Hidx, E2. reflexivity.
    - rewrite Hs2. destruct (visited _ _ _); [|reflexivity].
      apply spec_newState_kept. simpl. discriminate. }
  split; [exact Hc2|].
  rewrite Ht. simpl. rewrite Ht2. simpl.
  rewrite (sf_guid _ _ Hf2), (sf_results _ _ Hf2). simpl.
  rewrite <- !app_assoc. reflexivity.
Qed.

(** ** After a failure nothing is started *)

Lemma calm_refl pk : calm pk pk.
Proof.
  intros H Hf. split; [exact H|]. split; [exact Hf|]. split; [reflexivity|].
  intros j w Hw Hs. eauto.
Qed.

Lemma calm_trans a b c : calm a b -> calm b c -> calm a c.
Proof.
  intros Hab Hbc Ha Hfa. destruct (Hab Ha Hfa) as [Hb [Hfb [Hi1 Hk1]]].
  destruct (Hbc Hb Hfb) as [Hc [Hfc [Hi2 Hk2]]].
  split; [exact Hc|]. split; [exact Hfc|]. split; [congruence|].
  intros j w Hw Hs. destruct (Hk1 j w Hw Hs) as [w1 [Hw1 Hs1]].
  destruct (Hk2 j w1 Hw1) as [w2 [Hw2 Hs2]]; [congruence|].
  exists w2. split; [exact Hw2 | congruence].
Qed.

Lemma same_graph_calm pk pk' :
  graph pk' = graph pk -> topologicalSortOrder pk' = topologicalSortOrder pk ->
  calm pk pk'.
Proof.
  intros Hg Ho Hinv Hf. split; [exact (same_graph_keepsSafe pk pk' Hg Ho Hinv)|].
  split; [rewrite Hg; exact Hf|].
  split; [rewrite Hg; reflexivity|]. intros j w Hw Hs. rewrite Hg. eauto.
Qed.

Lemma steps_eq_calm A (m : P A) : steps eq m -> steps calm m.
Proof. intros H s. rewrite <- (H s). apply calm_refl. Qed.

Lemma calm_bind A B (m : P A) (k : A -> P B) pk :
  calm pk (snd (m pk)) ->
  (forall a pk2, m pk = (Return a, pk2) -> calm pk2 (snd (k a pk2))) ->
  calm pk (snd (bind m k pk)).
Proof.
  intros Hm Hk. unfold bind. destruct (m pk) as [[a| |] pk2] eqn:E; simpl in *;
    try exact Hm.
  apply calm_trans with pk2; [exact Hm | apply (Hk a pk2 eq_refl)].
Qed.

Lemma updateStates_calm : steps calm updateStates.
Proof.
  intros pk Hinv Hfail.
  assert (Hkept : stateKept pk (snd (updateStates pk))).
  { destruct Hinv as [Hwf [_ [order [Ho [Hcov | [Hnil Hpos]]]]]].
    2:{ subst order. rewrite (updateStates_empty_order pk Ho Hpos). simpl.
        intros j w Hw Hs. eauto. }
    destruct (updateStates_spec pk order Hwf Ho Hcov) as [pk' [Hrun [Hf Hst]]].
    rewrite Hrun. simpl. intros j w Hw Hs.
    destruct (Hst j w Hw) as [w' [Hw' Hs']]. exists w'. split; [exact Hw'|].
    rewrite Hs'. destruct (visited _ _ _); [|reflexivity].
    apply spec_newState_kept. exact Hs. }
  split; [exact (updateStates_keepsSafe pk Hinv)|]. split.
  { destruct Hfail as [f [Hin Hs]]. apply In_nth_error in Hin.
    destruct Hin as [j Hj].
    destruct (Hkept j f Hj) as [f' [Hf' Hs']]; [rewrite Hs; discriminate|].
    exists f'. split; [eapply nth_error_In; eauto | congruence]. }
  split; [exact (proj2 (proj2 (proj2 (proj2 (updateStates_sameIP pk)))))|].
  exact Hkept.
Qed.

Ltac calm_leaf :=
  first [ solve [auto]
        | apply steps_eq_calm; solve [auto using stateFlags_pure,
                                                 failedStatesError_pure]
        | intro; apply same_graph_calm; reflexivity ].

Ltac calm_steps := steps_split calm_leaf calm_refl calm_trans.

Lemma runFinalCallback_calm pkError :
  steps calm pkError -> steps calm (runFinalCallback pkError).
Proof.
  intros H. unfold runFinalCallback, writeToLog, emit. calm_steps.
Qed.

Lemma afterFail_calm vertexId : steps calm (afterFail vertexId).
Proof.
  pose proof updateStates_calm.
  assert (steps calm (runFinalCallback failedStatesError))
    by (apply runFinalCallback_calm; calm_steps).
  assert (steps calm (runFinalCallback (ret (Some (StateFailed vertexId)))))
    by (apply runFinalCallback_calm; calm_steps).
  unfold afterFail, decrementRunning, stopRunning, writeToLog, emit.
  calm_steps.
Qed.

Lemma failed_flags (l : list Vertex) :
  (exists f, In f l /\ v_state f = FAIL) ->
  forallb (fun v => State_eqb (v_state v) SUCCESS) l = false
  /\ existsb (fun v => State_eqb (v_state v) FAIL) l = true.
Proof.
  intros [f [Hin Hs]]. split.
  - destruct (forallb _ l) eqn:E; [|reflexivity].
    rewrite forallb_forall in E. specialize (E f Hin). rewrite Hs in E. discriminate.
  - apply existsb_exists. exists f. split; [exact Hin|]. rewrite Hs. reflexivity.
Qed.

(** [afterSuccess] when some vertex is FAIL: the branch that dispatches is
    not taken. *)
Lemma afterSuccess_calm : steps calm afterSuccess.
Proof.
  intros pk. unfold afterSuccess.
  apply calm_bind; [apply same_graph_calm; reflexivity|]. intros _ pk1 _.
  apply calm_bind; [apply updateStates_calm|]. intros _ pk2 _.
  intros Hinv2 Hfail2.
  destruct (failed_flags _ Hfail2) as [Ha Hb].
  pose proof (WF_VOK _ (proj1 Hinv2)) as Hok2.
  rewrite (bind_Return _ _ _ _ _ _ _ _ (stateFlags_run pk2 Hok2)).
  rewrite Ha, Hb. cbv beta iota.
  match goal with
  | |- SafeInv (snd (?m pk2)) /\ _ => assert (Hm : steps calm m)
  end.
  { pose proof updateStates_calm.
    assert (steps calm (runFinalCallback failedStatesError))
      by (apply runFinalCallback_calm; calm_steps).
    unfold stopRunning, writeToLog, emit. calm_steps. }
  exact (Hm pk2 Hinv2 Hfail2).
Qed.

Lemma setState_SUCCESS_commit vertexId pk slot v :
  indexOf vertexId (vertexIdArray (graph pk)) = Some slot ->
  nth_error (vertexArray (graph pk)) slot = Some v ->
  setState vertexId "SUCCESS" pk
  = afterSuccess
      (set_graph pk (updateSlot slot (fun v => Vertex_withState v SUCCESS) (graph pk))).
Proof.
  intros Hidx Hn. unfold setState. unfold bind at 1. unfold gets at 1.
  unfold hasVertexId. rewrite Hidx.
  change (state_of_string "SUCCESS") with (Some SUCCESS). cbv iota.
  rewrite (bind_Return _ _ _ _ _ _ _ _
             (commit_run vertexId SUCCESS pk slot v Hidx Hn ltac:(discriminate))).
  reflexivity.
Qed.

Lemma setState_FAIL_commit vertexId pk slot v :
  indexOf vertexId (vertexIdArray (graph pk)) = Some slot ->
  nth_error (vertexArray (graph pk)) slot = Some v ->
  setState vertexId "FAIL" pk
  = afterFail vertexId
      (set_graph pk (updateSlot slot (fun v => Vertex_withState v FAIL) (graph pk))).
Proof.
  intros Hidx Hn. unfold setState. unfold bind at 1. unfold gets at 1.
  unfold hasVertexId. rewrite Hidx.
  change (state_of_string "FAIL") with (Some FAIL). cbv iota.
  rewrite (bind_Return _ _ _ _ _ _ _ _
             (commit_run vertexId FAIL pk slot v Hidx Hn ltac:(discriminate))).
  reflexivity.
Qed.

Lemma nothing_starts_after_failure vertexId newState pk v :
  campaign pk ->
  getVertex (graph pk) vertexId = Return v ->
  v_state v = IN_PROGRESS ->
  newState = "SUCCESS" \/ newState = "FAIL" ->
  newState = "FAIL"
  \/ (exists f, In f (vertexArray (graph pk)) /\ v_state f = FAIL) ->
  (forall j w',
      nth_error (vertexArray (graph (run (setState vertexId newState) pk))) j
      = Some w' ->
      v_state w' = IN_PROGRESS ->
      exists w, nth_error (vertexArray (graph pk)) j = Some w
                /\ v_state w = IN_PROGRESS)
  /\ (forall j w,
        nth_error (vertexArray (graph pk)) j = Some w -> v_state w = READY ->
        exists w',
          nth_error (vertexArray (graph (run (setState vertexId newState) pk))) j
          = Some w'
          /\ v_state w' = READY).
Proof.
  intros Hc Hget Hip Hst Hfail.
  pose proof (campaign_SafeInv pk Hc) as Hinv.
  destruct (getVertex_slot _ _ _ Hget) as [slot [Hidx Hn]].
  (* the commit *)
  assert (Hcommit : forall st, st <> IN_PROGRESS ->
            let pk0 := set_graph pk
                         (updateSlot slot (fun v => Vertex_withState v st) (graph pk)) in
            SafeInv pk0
            /\ (forall j, j <> slot ->
                  nth_error (vertexArray (graph pk0)) j
                  = nth_error (vertexArray (graph pk)) j)
            /\ nth_error (vertexArray (graph pk0)) slot = Some (Vertex_withState v st)).
  { intros st Hne pk0. split.
    - pose proof (write_keepsSafe slot st pk v Hn) as Hw.
      rewrite (Vertex_setState_run slot st pk Hne) in Hw. apply Hw; [| |exact Hinv];
        rewrite Hip; [reflexivity | discriminate].
    - split.
      + intros j Hj. apply updateSlot_nth_neq. congruence.
      + exact (updateSlot_nth_eq slot (fun v => Vertex_withState v st)
                 (graph pk) v Hn). }
  (* what a calm rest gives *)
  assert (Hrest : forall st pk',
            st <> IN_PROGRESS ->
            someFailed (updateSlot slot (fun v => Vertex_withState v st) (graph pk)) ->
            calm (set_graph pk
                    (updateSlot slot (fun v => Vertex_withState v st) (graph pk))) pk' ->
            (forall j w',
                nth_error (vertexArray (graph pk')) j = Some w' ->
                v_state w' = IN_PROGRESS ->
                exists w, nth_error (vertexArray (graph pk)) j = Some w
                          /\ v_state w = IN_PROGRESS)
            /\ (forall j w,
                  nth_error (vertexArray (graph pk)) j = Some w -> v_state w = READY ->
                  exists w', nth_error (vertexArray (graph pk')) j = Some w'
                             /\ v_state w' = READY)).
  { intros st pk' Hne Hfail0 Hcalm.
    destruct (Hcommit st Hne) as [Hinv0 [Hother Hthis]].
    destruct (Hcalm Hinv0 Hfail0) as [_ [_ [Hmap Hkept]]]. split.
    - intros j w' Hw' Hs'.
      assert (Hlt : j < length (vertexArray (graph pk'))) 
        by (apply nth_error_Some; congruence).
      rewrite (ipMap_length _ _ Hmap) in Hlt.
      destruct (nth_error (vertexArray
                  (graph (set_graph pk (updateSlot slot
                     (fun v => Vertex_withState v st) (graph pk))))) j)
        as [w0|] eqn:E0; [|apply nth_error_None in E0; lia].
      pose proof (ipMap_nth _ _ j w0 w' Hmap E0 Hw') as Hsame.
      unfold isInProgress in Hsame. rewrite Hs' in Hsame. simpl in Hsame.
      symmetry in Hsame. apply State_eqb_eq in Hsame.
      destruct (Nat.eq_dec j slot) as [->|Hj].
      + rewrite Hthis in E0. inversion E0; subst w0. simpl in Hsame. contradiction.
      + rewrite (Hother j Hj) in E0. eauto.
    - intros j w Hw Hs.
      destruct (Nat.eq_dec j slot) as [->|Hj]; [congruence|].
      rewrite <- (Hother j Hj) in Hw.
      destruct (Hkept j w Hw) as [w' [Hw' Hs']]; [rewrite Hs; discriminate|].
      exists w'. split; [exact Hw' | congruence]. }
  unfold run. destruct Hst as [-> | ->].
  - rewrite (setState_SUCCESS_commit vertexId pk slot v Hidx Hn).
    apply (Hrest SUCCESS); [discriminate| |apply afterSuccess_calm].
    destruct Hfail as [Hx | [f [Hfin Hfs]]]; [discriminate|].
    apply In_nth_error in Hfin. destruct Hfin as [jf Hjf].
    exists f. split; [|exact Hfs].
    destruct (Nat.eq_dec jf slot) as [->|Hne]; [congruence|].
    apply (nth_error_In _ jf).
    rewrite updateSlot_nth_neq by congruence. exact Hjf.
  - rewrite (setState_FAIL_commit vertexId pk slot v Hidx Hn).
    apply (Hrest FAIL); [discriminate| |apply afterFail_calm].
    exists (Vertex_withState v FAIL). split; [|reflexivity].
    apply (nth_error_In _ slot).
    exact (updateSlot_nth_eq slot (fun v => Vertex_withState v FAIL) (graph pk) v Hn).
Qed.

Lemma pairPK_WF : WF (graph pairPK).
Proof. solve_WF. Qed.

(** ** No task waits without a reason *)

Lemma keepsPrompt_refl pk : keepsPrompt pk pk.
Proof. intros H. exact H. Qed.

Lemma keepsPrompt_trans a b c : keepsPrompt a b -> keepsPrompt b c -> keepsPrompt a c.
Proof. unfold keepsPrompt. auto. Qed.

Lemma sorted_sameSetup pk pk' : sameSetup pk pk' -> sorted pk -> sorted pk'.
Proof.
  intros H [order [Ho [Hnd Hall]]]. exists order.
  split; [rewrite (ss_order _ _ H); exact Ho|]. split; [exact Hnd|].
  intros x. rewrite (ss_ids _ _ H). apply Hall.
Qed.

Lemma sameSetup_slot pk pk' j w' :
  sameSetup pk pk' ->
  nth_error (vertexArray (graph pk')) j = Some w' ->
  exists w, nth_error (vertexArray (graph pk)) j = Some w /\ v_id w' = v_id w.
Proof.
  intros H Hw'.
  destruct (nth_error (vertexArray (graph pk)) j) as [w|] eqn:E.
  - exists w. split; [reflexivity|].
    apply (map_nth_error v_id) in E. apply (map_nth_error v_id) in Hw'.
    rewrite (ss_vids _ _ H) in Hw'. congruence.
  - apply nth_error_None in E.
    assert (j < length (vertexArray (graph pk')))
      by (apply nth_error_Some; congruence).
    rewrite (sameSetup_length _ _ H) in *. lia.
Qed.

Lemma sameSetup_slot_fwd pk pk' j w :
  sameSetup pk pk' ->
  nth_error (vertexArray (graph pk)) j = Some w ->
  exists w', nth_error (vertexArray (graph pk')) j = Some w' /\ v_id w' = v_id w.
Proof.
  intros H Hw.
  destruct (nth_error (vertexArray (graph pk')) j) as [w'|] eqn:E.
  - exists w'. split; [reflexivity|].
    apply (map_nth_error v_id) in E. apply (map_nth_error v_id) in Hw.
    rewrite (ss_vids _ _ H) in E. congruence.
  - apply nth_error_None in E.
    assert (j < length (vertexArray (graph pk)))
      by (apply nth_error_Some; congruence).
    rewrite (sameSetup_length _ _ H) in *. lia.
Qed.

(** [Prompt] goes over to a scheduler that differs in states only, when
    no vertex became NOT_READY and none became SUCCESS. *)
Lemma Prompt_transfer pk pk' :
  sameSetup pk pk' ->
  (forall j w w',
      nth_error (vertexArray (graph pk)) j = Some w ->
      nth_error (vertexArray (graph pk')) j = Some w' ->
      (v_state w' = NOT_READY -> v_state w = NOT_READY)
      /\ (v_state w' = SUCCESS -> v_state w = SUCCESS)) ->
  Prompt (graph pk) -> Prompt (graph pk').
Proof.
  intros Hs Hslots Hp v' Hv' Hnr. apply In_nth_error in Hv'.
  destruct Hv' as [j Hj].
  destruct (sameSetup_slot pk pk' j v' Hs Hj) as [v [Ev Hid]].
  destruct (Hslots j v v' Ev Hj) as [H1 _].
  destruct (Hp v (nth_error_In _ _ Ev) (H1 Hnr)) as [p [Hpin [Hedge Hps]]].
  apply In_nth_error in Hpin. destruct Hpin as [i Hi].
  destruct (sameSetup_slot_fwd pk pk' i p Hs Hi) as [p' [Ep' Hpid]].
  exists p'. split; [eapply nth_error_In; eauto|].
  split; [rewrite (ss_edges _ _ Hs), Hpid, Hid; exact Hedge|].
  intros Hc. apply Hps. exact (proj2 (Hslots i p p' Hi Ep') Hc).
Qed.

Lemma same_graph_keepsPrompt pk pk' :
  graph pk' = graph pk -> topologicalSortOrder pk' = topologicalSortOrder pk ->
  keepsPrompt pk pk'.
Proof.
  intros Hg Ho [Hwf [Hs Hp]]. unfold PromptInv, sorted. rewrite Hg, Ho. auto.
Qed.

Lemma steps_eq_keepsPrompt A (m : P A) : steps eq m -> steps keepsPrompt m.
Proof. intros H s. rewrite <- (H s). apply keepsPrompt_refl. Qed.

Lemma spec_newState_cases g v :
  spec_newState g v = v_state v
  \/ (v_state v = NOT_READY
      /\ (spec_newState g v = READY \/ spec_newState g v = FAIL)).
Proof.
  unfold spec_newState. destruct (State_eqb (v_state v) NOT_READY) eqn:E; simpl.
  - apply State_eqb_eq in E.
    destruct (Nat.eqb _ 0); [auto|].
    destruct (forallb _ _); [auto|]. destruct (existsb _ _); auto.
  - left. reflexivity.
Qed.

(** [updateStates] with the order of [start]: it returns and every vertex
    is visited. *)
Lemma updateStates_sorted pk :
  WF (graph pk) -> sorted pk ->
  exists pk',
    updateStates pk = (Return tt, pk')
    /\ sameFrame pk pk'
    /\ (forall j w,
           nth_error (vertexArray (graph pk)) j = Some w ->
           exists w',
             nth_error (vertexArray (graph pk')) j = Some w'
             /\ v_state w' = spec_newState (graph pk) w)
    /\ PromptInv pk'.
Proof.
  intros Hwf [order [Ho [Hnd Hall]]].
  destruct (order_covers (graph pk) order Hwf Hnd Hall) as [_ [Hcov Hvis]].
  destruct (updateStates_spec pk order Hwf Ho Hcov) as [pk' [Hrun [Hf Hst]]].
  assert (Hst' : forall j w,
             nth_error (vertexArray (graph pk)) j = Some w ->
             exists w',
               nth_error (vertexArray (graph pk')) j = Some w'
               /\ v_state w' = spec_newState (graph pk) w).
  { intros j w Hw. destruct (Hst j w Hw) as [w' [Hw' Hs]].
    exists w'. split; [exact Hw'|].
    rewrite (Hvis w (nth_error_In _ _ Hw)) in Hs. exact Hs. }
  exists pk'. split; [exact Hrun|]. split; [exact Hf|]. split; [exact Hst'|].
  pose proof (sameFrame_sameSetup _ _ Hf) as Hs.
  split; [exact (WF_sameFrame _ _ Hf Hwf)|].
  split; [apply (sorted_sameSetup pk pk' Hs); exists order; auto|].
  intros v' Hv' Hnr. apply In_nth_error in Hv'. destruct Hv' as [j Hj].
  destruct (sameSetup_slot pk pk' j v' Hs Hj) as [v [Ev Hid]].
  destruct (Hst' j v Ev) as [v'' [Ev'' Hsv]].
  assert (v'' = v') by congruence. subst v''.
  rewrite Hnr in Hsv. symmetry in Hsv.
  destruct (spec_newState_NOT_READY _ _ Hsv) as [_ [_ [Hfa _]]].
  assert (Hex : exists p, In p (parentsOf (graph pk) v) /\ v_state p <> SUCCESS).
  { clear - Hfa. induction (parentsOf (graph pk) v) as [|p l IH];
      [discriminate|].
    simpl in Hfa. destruct (State_eqb (v_state p) SUCCESS) eqn:E.
    - destruct (IH Hfa) as [q [Hq Hs]]. exists q. split; [right; exact Hq | exact Hs].
    - exists p. split; [left; reflexivity|]. intros Hc. rewrite Hc in E. discriminate. }
  destruct Hex as [p [Hpar Hps]]. apply parentsOf_In in Hpar.
  destruct Hpar as [Hpin Hedge]. apply In_nth_error in Hpin.
  destruct Hpin as [i Hi].
  destruct (Hst' i p Hi) as [p' [Ep' Hsp]].
  exists p'. split; [eapply nth_error_In; eauto|]. split.
  - rewrite (sameFrame_edges _ _ Hf), Hid.
    rewrite (sameFrame_v_id _ _ _ _ _ Hf Hi Ep'). exact Hedge.
  - rewrite Hsp. destruct (spec_newState_cases (graph pk) p) as [-> | [_ [-> | ->]]];
      [exact Hps | discriminate | discriminate].
Qed.

Lemma updateStates_keepsPrompt : steps keepsPrompt updateStates.
Proof.
  intros pk [Hwf [Hs _]].
  destruct (updateStates_sorted pk Hwf Hs) as [pk' [Hrun [_ [_ Hinv]]]].
  rewrite Hrun. exact Hinv.
Qed.

Lemma startReadyProcesses_keepsPrompt : steps keepsPrompt startReadyProcesses.
Proof.
  intros pk [Hwf [Hs Hp]].
  destruct (startReadyProcesses_spec pk (WF_VOK _ Hwf)) as [pk' [Hrun [Hss [_ Hst]]]].
  rewrite Hrun. simpl.
  split; [exact (WF_sameSetup _ _ Hss Hwf)|].
  split; [exact (sorted_sameSetup _ _ Hss Hs)|].
  apply (Prompt_transfer pk pk' Hss); [|exact Hp].
  intros j w w' Hw Hw'. destruct (Hst j w Hw) as [w'' [Hw'' [Hk Hg]]].
  assert (w'' = w') by congruence. subst w''.
  destruct (State_eqb (v_state w) READY) eqn:E.
  - apply State_eqb_eq in E.
    destruct (Hg E) as [H|[H _]]; rewrite H; split; intros Hc; discriminate.
  - assert (Hne : v_state w <> READY) by (intros Hc; rewrite Hc in E; discriminate).
    rewrite (Hk Hne). auto.
Qed.

Ltac keepsPrompt_leaf :=
  first [ solve [auto]
        | apply steps_eq_keepsPrompt; solve [auto using stateFlags_pure,
                                                        failedStatesError_pure]
        | intro; apply same_graph_keepsPrompt; reflexivity ].

Ltac keepsPrompt_steps :=
  steps_split keepsPrompt_leaf keepsPrompt_refl keepsPrompt_trans.

Lemma runFinalCallback_keepsPrompt pkError :
  steps keepsPrompt pkError -> steps keepsPrompt (runFinalCallback pkError).
Proof.
  intros H. unfold runFinalCallback, writeToLog, emit. keepsPrompt_steps.
Qed.

(** What follows the commit in [setState] re-establishes [Prompt]. *)
Lemma afterSuccess_prompt pk :
  WF (graph pk) -> sorted pk -> PromptInv (snd (afterSuccess pk)).
Proof.
  intros Hwf Hs. unfold afterSuccess. unfold bind at 1.
  unfold decrementRunning at 1. unfold modify at 1.
  set (pk1 := set_numberOfRunningProcesses pk (numberOfRunningProcesses pk - 1)).
  destruct (updateStates_sorted pk1 Hwf Hs) as [pk2 [Hrun [_ [_ Hinv]]]].
  rewrite (bind_Return _ _ _ _ _ _ _ _ Hrun).
  match goal with
  | |- PromptInv (snd (?m pk2)) => assert (Hm : steps keepsPrompt m)
  end.
  { pose proof updateStates_keepsPrompt. pose proof startReadyProcesses_keepsPrompt.
    assert (steps keepsPrompt (runFinalCallback failedStatesError))
      by (apply runFinalCallback_keepsPrompt; keepsPrompt_steps).
    assert (steps keepsPrompt (runFinalCallback (ret None)))
      by (apply runFinalCallback_keepsPrompt; keepsPrompt_steps).
    unfold stopRunning, writeToLog, emit. keepsPrompt_steps. }
  exact (Hm pk2 Hinv).
Qed.

Lemma afterFail_prompt vertexId pk :
  WF (graph pk) -> sorted pk -> PromptInv (snd (afterFail vertexId pk)).
Proof.
  intros Hwf Hs. unfold afterFail. unfold bind at 1. rewrite writeToLog_run.
  unfold bind at 1. unfold decrementRunning at 1. unfold modify at 1.
  match goal with
  | |- context [bind updateStates _ ?p] =>
      destruct (updateStates_sorted p Hwf Hs) as [pk2 [Hrun [_ [_ Hinv]]]]
  end.
  rewrite (bind_Return _ _ _ _ _ _ _ _ Hrun).
  match goal with
  | |- PromptInv (snd (?m pk2)) => assert (Hm : steps keepsPrompt m)
  end.
  { pose proof updateStates_keepsPrompt.
    assert (steps keepsPrompt (runFinalCallback failedStatesError))
      by (apply runFinalCallback_keepsPrompt; keepsPrompt_steps).
    assert (steps keepsPrompt (runFinalCallback (ret (Some (StateFailed vertexId)))))
      by (apply runFinalCallback_keepsPrompt; keepsPrompt_steps).
    unfold stopRunning, writeToLog, emit. keepsPrompt_steps. }
  exact (Hm pk2 Hinv).
Qed.

(** ** While nothing fails, a READY task waits for the bound only *)

Lemma sameGraph_refl pk : sameGraph pk pk.
Proof. split; reflexivity. Qed.

Lemma sameGraph_trans a b c : sameGraph a b -> sameGraph b c -> sameGraph a c.
Proof. intros [A1 A2] [B1 B2]. split; congruence. Qed.

Ltac sameGraph_leaf :=
  first [ solve [auto]
        | intro; split; reflexivity ].

Ltac sameGraph_steps := steps_split sameGraph_leaf sameGraph_refl sameGraph_trans.

Lemma runFinalCallback_None_sameGraph : steps sameGraph (runFinalCallback (ret None)).
Proof. unfold runFinalCallback, writeToLog, emit. sameGraph_steps. Qed.

Lemma spec_newState_FAIL g v :
  spec_newState g v = FAIL ->
  v_state v = FAIL \/ exists p, In p (parentsOf g v) /\ v_state p = FAIL.
Proof.
  unfold spec_newState. destruct (State_eqb (v_state v) NOT_READY) eqn:E; simpl.
  - destruct (Nat.eqb _ 0); [discriminate|].
    destruct (forallb _ _); [discriminate|].
    destruct (existsb _ (parentsOf g v)) eqn:Hx; [|discriminate].
    intros _. right. apply existsb_exists in Hx. destruct Hx as [p [Hp Hs]].
    apply State_eqb_eq in Hs. eauto.
  - auto.
Qed.

Lemma not_failed_flags (l : list Vertex) :
  ~ (exists f, In f l /\ v_state f = FAIL) ->
  existsb (fun v => State_eqb (v_state v) FAIL) l = false
  /\ forallb (fun v => State_eqb (v_state v) SUCCESS || State_eqb (v_state v) FAIL) l
     = forallb (fun v => State_eqb (v_state v) SUCCESS) l.
Proof.
  induction l as [|v l IH]; intros H; [split; reflexivity|].
  destruct IH as [IH1 IH2].
  { intros [f [Hin Hs]]. apply H. exists f. split; [right; exact Hin | exact Hs]. }
  assert (Hv : State_eqb (v_state v) FAIL = false).
  { destruct (State_eqb (v_state v) FAIL) eqn:E; [|reflexivity].
    exfalso. apply H. exists v. split; [left; reflexivity|].
    apply State_eqb_eq. exact E. }
  simpl. rewrite Hv, IH1, IH2. split; [reflexivity|].
  destruct (State_eqb (v_state v) SUCCESS); reflexivity.
Qed.

Lemma steps_sameSetup_startReadyProcesses : steps sameSetup startReadyProcesses.
Proof.
  assert (Hset : forall x s, steps sameSetup (getVertex_setState x s)).
  { intros x s pk. apply sameFrame_sameSetup. apply getVertex_setState_sameFrame. }
  assert (Hnum : forall f, steps sameSetup
                   (modify (fun pk => set_numberOfRunningProcesses pk (f pk)))).
  { intros f pk. apply sameSetup_number. }
  unfold startReadyProcesses, startIfReady, getVertexP.
  steps_split ltac:(first [solve [auto] | apply Hnum]) sameSetup_refl sameSetup_trans.
Qed.

Lemma afterSuccess_workConserving pk :
  WF (graph pk) -> sorted pk -> SafeInv pk ->
  WorkConserving (snd (afterSuccess pk)).
Proof.
  intros Hwf Hs Hsafe Hnofail.
  assert (Hno0 : ~ someFailed (graph pk)).
  { intros Hf0. apply Hnofail.
    exact (proj1 (proj2 (afterSuccess_calm pk Hsafe Hf0))). }
  clear Hnofail. remember (snd (afterSuccess pk)) as pk' eqn:Heq.
  revert Heq.
  unfold afterSuccess. unfold bind at 1. unfold decrementRunning at 1.
  unfold modify at 1.
  set (pk1 := set_numberOfRunningProcesses pk (numberOfRunningProcesses pk - 1)).
  destruct (updateStates_sorted pk1 Hwf Hs) as [pk2 [Hrun [Hf2 [Hst2 Hinv2]]]].
  rewrite (bind_Return _ _ _ _ _ _ _ _ Hrun).
  assert (Hno2 : ~ (exists f, In f (vertexArray (graph pk2)) /\ v_state f = FAIL)).
  { intros [f2 [Hin Hfs]]. apply Hno0. apply In_nth_error in Hin.
    destruct Hin as [j Hj].
    destruct (sameSetup_slot pk1 pk2 j f2 (sameFrame_sameSetup _ _ Hf2) Hj)
      as [w [Hw _]].
    destruct (Hst2 j w Hw) as [w' [Hw' Hsw]].
    assert (w' = f2) by congruence. subst w'. rewrite Hfs in Hsw. symmetry in Hsw.
    destruct (spec_newState_FAIL _ _ Hsw) as [Hwf'|[p [Hp Hps]]].
    - exists w. split; [exact (nth_error_In _ _ Hw) | exact Hwf'].
    - apply parentsOf_In in Hp. exists p. split; [apply Hp | exact Hps]. }
  destruct (not_failed_flags _ Hno2) as [Hb Hc].
  destruct Hinv2 as [Hwf2 _].
  rewrite (bind_Return _ _ _ _ _ _ _ _ (stateFlags_run pk2 (WF_VOK _ Hwf2))).
  rewrite Hb, Hc. cbv beta iota.
  destruct (forallb (fun v => State_eqb (v_state v) SUCCESS) (vertexArray (graph pk2)))
    eqn:Ha; cbv beta iota.
  - (* every task has succeeded *)
    match goal with
    | |- context [snd (?m pk2)] => assert (Hm : steps sameGraph m)
    end.
    { pose proof runFinalCallback_None_sameGraph.
      unfold stopRunning, writeToLog, emit. sameGraph_steps. }
    destruct (Hm pk2) as [Hg _]. intros -> v' Hv' Hready. exfalso.
    rewrite Hg in Hv'. rewrite forallb_forall in Ha. specialize (Ha v' Hv').
    rewrite Hready in Ha. discriminate.
  - destruct (startReadyProcesses_spec pk2 (WF_VOK _ Hwf2))
      as [pk3 [Hrun3 [Hss [_ Hst3]]]].
    rewrite Hrun3. simpl. intros -> v' Hv' Hready.
    apply In_nth_error in Hv'. destruct Hv' as [j Hj].
    destruct (sameSetup_slot pk2 pk3 j v' Hss Hj) as [w [Hw _]].
    destruct (Hst3 j w Hw) as [w' [Hw' [Hk Hg]]].
    assert (w' = v') by congruence. subst w'.
    destruct (State_eqb (v_state w) READY) eqn:E.
    + apply State_eqb_eq in E. destruct (Hg E) as [H|[_ H]]; [congruence|].
      unfold capReached. rewrite (ss_max _ _ Hss). exact H.
    + assert (Hne : v_state w <> READY) by (intros Hc'; rewrite Hc' in E; discriminate).
      rewrite (Hk Hne) in Hready. contradiction.
Qed.

Lemma start_sameSetup sharedData pk :
  WF (graph pk) ->
  vertexIdArray (graph (run (start sharedData) pk)) = vertexIdArray (graph pk)
  /\ edges (graph (run (start sharedData) pk)) = edges (graph pk)
  /\ map v_id (vertexArray (graph (run (start sharedData) pk)))
     = map v_id (vertexArray (graph pk)).
Proof.
  intros Hwf.
  destruct (start_prefix sharedData pk Hwf)
    as (L & pk1 & _ & Hrun & _ & _ & _ & _ & _ & _ & _ & _ & _ & _
        & _ & Hids & Hedges & Hvid & _).
  assert (Hm : steps sameSetup (updateStates ;;; startReadyProcesses)).
  { pose proof steps_sameSetup_startReadyProcesses.
    assert (steps sameSetup updateStates)
      by (intros s; apply sameFrame_sameSetup; apply updateStates_sameFrame).
    steps_split ltac:(solve [auto]) sameSetup_refl sameSetup_trans. }
  unfold run. rewrite Hrun. specialize (Hm pk1).
  rewrite (ss_ids _ _ Hm), (ss_edges _ _ Hm), (ss_vids _ _ Hm). auto.
Qed.

Lemma commit_SafeInv pk slot st v :
  SafeInv pk ->
  nth_error (vertexArray (graph pk)) slot = Some v ->
  v_state v = IN_PROGRESS -> st <> IN_PROGRESS ->
  SafeInv (set_graph pk (updateSlot slot (fun v => Vertex_withState v st) (graph pk))).
Proof.
  intros Hinv Hn Hip Hne.
  pose proof (write_keepsSafe slot st pk v Hn) as Hw.
  rewrite (Vertex_setState_run slot st pk Hne) in Hw. apply Hw; [| |exact Hinv];
    rewrite Hip; [reflexivity | discriminate].
Qed.

Lemma commit_sameSetup pk slot st :
  sameSetup pk
    (set_graph pk (updateSlot slot (fun v => Vertex_withState v st) (graph pk))).
Proof.
  apply sameFrame_sameSetup.
  apply (updateSlot_sameFrame slot (fun v => Vertex_withState v st));
    intros; reflexivity.
Qed.

Lemma has_cycle_or_not g :
  WF g -> has_cycle g \/ ~ has_cycle g.
Proof.
  intros Hwf. destruct (topologicalSort_result g Hwf) as [L [_ [Hnil _]]].
  destruct L as [|x L].
  - destruct (proj1 Hnil eq_refl) as [Hc|Hz]; [left; exact Hc|].
    right. intros Hc. pose proof (has_cycle_vertexCount g Hwf Hc). lia.
  - right. intros Hc. assert (Hx : x :: L = []) by (apply Hnil; left; exact Hc).
    discriminate.
Qed.

Lemma campaign_live pk :
  campaign pk ->
  WF (graph pk) /\ WorkConserving pk
  /\ ((sorted pk /\ Prompt (graph pk))
      \/ (has_cycle (graph pk) /\ allNotReady (graph pk))).
Proof.
  induction 1 as [pk d Hwf | pk id st v Hc IH Hget Hip Hst].
  - pose proof (start_keepsWF d pk Hwf) as Hwf'.
    destruct (start_sameSetup d pk Hwf) as [Hids [Hedges Hvid]].
    split; [exact Hwf'|].
    destruct (has_cycle_or_not _ Hwf) as [Hcyc|Hacyc].
    + destruct (start_cycle d pk Hwf Hcyc) as [pk' [Hrun [Hall _]]].
      unfold run in *. rewrite Hrun in *. simpl in *. split.
      * intros _ w Hw Hr. rewrite (Hall w Hw) in Hr. discriminate.
      * right. split; [|exact Hall]. destruct Hcyc as [x Hx]. exists x.
        rewrite Hedges. exact Hx.
    + destruct (start_dag d pk Hwf Hacyc)
        as (pk' & L & Hrun & Hts & Ho & _ & _ & _ & _ & _ & _ & Hst').
      destruct (topologicalSort_result _ Hwf) as [L' [Hts' [_ Htopo]]].
      rewrite Hts' in Hts. simpl in Hts. inversion Hts; subst L'.
      destruct (Htopo Hacyc) as [Hnd [Hsame _]].
      pose proof (proj2 (start_inFlightOK d pk Hwf)) as Hmax.
      unfold run in *. rewrite Hrun in *. simpl in *. split.
      * intros _ w Hw Hr. destruct (Hst' w Hw) as [H0 Hn0].
        destruct (Nat.eq_dec (indegree (graph pk) (v_id w)) 0) as [Hz|Hnz].
        -- destruct (H0 Hz) as [Hx|[_ Hx]]; [congruence|].
           unfold capReached. rewrite Hmax. exact Hx.
        -- rewrite (Hn0 Hnz) in Hr. discriminate.
      * left. split.
        -- exists (vertexIdsFromArray L). split; [exact Ho|]. split; [exact Hnd|].
           intros x. rewrite Hids. apply Hsame.
        -- intros w Hw Hnr. destruct (Hst' w Hw) as [H0 _].
           destruct (Nat.eq_dec (indegree (graph pk) (v_id w)) 0) as [Hz|Hnz].
           { destruct (H0 Hz) as [Hx|[Hx _]]; congruence. }
           assert (Hex : exists s, In (s, v_id w) (edges (graph pk))).
           { unfold indegree in Hnz.
             destruct (filter (fun se => String.eqb (snd se) (v_id w))
                              (edges (graph pk))) as [|[s e] rest] eqn:Ef;
               [simpl in Hnz; lia|].
             assert (Hin : In (s, e) (filter (fun se => String.eqb (snd se) (v_id w))
                                             (edges (graph pk))))
               by (rewrite Ef; left; reflexivity).
             apply filter_In in Hin. destruct Hin as [Hin He]. simpl in He.
             apply String.eqb_eq in He. subst e. eauto. }
           destruct Hex as [s Hs].
           destruct (wf_endpoints _ Hwf s _ Hs) as [Hsin _].
           rewrite <- Hids in Hsin.
           destruct (vertexOfId_id _ s (WF_VOK _ Hwf') Hsin) as [p Hp].
           destruct (vertexOfId_Some _ s p (WF_VOK _ Hwf') Hp) as [Hpid Hpin].
           exists p. split; [exact Hpin|]. split; [rewrite Hedges, Hpid; exact Hs|].
           destruct (Hst' p Hpin) as [Hp0 Hpn].
           destruct (Nat.eq_dec (indegree (graph pk) (v_id p)) 0) as [Hz|Hnz'].
           { destruct (Hp0 Hz) as [Hx|[Hx _]]; rewrite Hx; discriminate. }
           rewrite (Hpn Hnz'). discriminate.
  - destruct IH as [Hwf [Hwc Hcase]].
    destruct (getVertex_slot _ _ _ Hget) as [slot [Hidx Hn]].
    destruct Hcase as [[Hs Hp] | [_ Hall]].
    2:{ rewrite (Hall v (nth_error_In _ _ Hn)) in Hip. discriminate. }
    pose proof (campaign_SafeInv pk Hc) as Hsafe.
    assert (Hpre : forall st0, st0 <> IN_PROGRESS ->
              let pk0 := set_graph pk
                           (updateSlot slot (fun v => Vertex_withState v st0) (graph pk)) in
              WF (graph pk0) /\ sorted pk0 /\ SafeInv pk0).
    { intros st0 Hne pk0.
      pose proof (commit_sameSetup pk slot st0) as Hss.
      split; [exact (WF_sameSetup _ _ Hss Hwf)|].
      split; [exact (sorted_sameSetup _ _ Hss Hs)|].
      exact (commit_SafeInv pk slot st0 v Hsafe Hn Hip Hne). }
    unfold run. destruct Hst as [-> | ->].
    + rewrite (setState_SUCCESS_commit id pk slot v Hidx Hn).
      destruct (Hpre SUCCESS ltac:(discriminate)) as [Hwf0 [Hs0 Hsafe0]].
      destruct (afterSuccess_prompt _ Hwf0 Hs0) as [Hwf' [Hs' Hp']].
      split; [exact Hwf'|].
      split; [exact (afterSuccess_workConserving _ Hwf0 Hs0 Hsafe0)|].
      left. split; assumption.
    + rewrite (setState_FAIL_commit id pk slot v Hidx Hn).
      destruct (Hpre FAIL ltac:(discriminate)) as [Hwf0 [Hs0 Hsafe0]].
      destruct (afterFail_prompt id _ Hwf0 Hs0) as [Hwf' [Hs' Hp']].
      split; [exact Hwf'|]. split; [|left; split; assumption].
      intros Hnofail. exfalso. apply Hnofail.
      apply (afterFail_calm id _ Hsafe0).
      exists (Vertex_withState v FAIL). split; [|reflexivity].
      apply (nth_error_In _ slot).
      exact (updateSlot_nth_eq slot (fun v => Vertex_withState v FAIL) (graph pk) v Hn).
Qed.

Lemma started_diamond_acyclic : ~ has_cycle (graph (run (start (JObj [])) diamondPK)).
Proof.
  apply (ordered_acyclic _ ["A"; "B"; "C"; "D"]).
  - solve_NoDup.
  - intros s e H. vm_compute in H.
    repeat (destruct H as [H|H]; [inversion H; subst; clear H|]); [| | | |destruct H].
    + exists [], [], ["C"; "D"]. reflexivity.
    + exists [], ["B"], ["D"]. reflexivity.
    + exists ["A"], ["C"], []. reflexivity.
    + exists ["A"; "B"], [], []. reflexivity.
Qed.

(** ** [PigeonKeeper.addVertex] *)

Lemma PK_addVertex_fresh vertexId service pk :
  length (vertexIdArray (graph pk)) = length (vertexArray (graph pk)) ->
  hasVertexId (graph pk) vertexId = false ->
  let g2 := mkDigraph
              (vertexArray (graph pk) ++ [mkVertex vertexId NOT_READY (JObj []) true])
              (vertexIdArray (graph pk) ++ [vertexId])
              (vertexStateArray (graph pk) ++ [NOT_READY])
              (startVertexIdArray (graph pk)) (endVertexIdArray (graph pk)) in
  PK_addVertex vertexId service pk
  = match nth_error (services pk) service with
    | Some s =>
        (Return tt,
         set_services (set_graph pk g2)
           (setNth service
              (mkService (successListeners s ++ [vertexId])
                         (errorListeners s ++ [vertexId]) (s_data s))
              (services pk)))
    | None =>
        (Throw (TypeError "Cannot read properties of undefined (reading 'once')"),
         set_graph pk g2)
    end.
Proof.
  intros Hlen Hfresh g2. unfold PK_addVertex.
  assert (Hadd : liftG (addVertex vertexId (JObj [])) pk
                 = (Return (mkVertex vertexId NOT_READY (JObj []) false),
                    set_graph pk
                      (mkDigraph
                         (vertexArray (graph pk)
                          ++ [mkVertex vertexId NOT_READY (JObj []) false])
                         (vertexIdArray (graph pk) ++ [vertexId])
                         (vertexStateArray (graph pk) ++ [NOT_READY])
                         (startVertexIdArray (graph pk))
                         (endVertexIdArray (graph pk))))).
  { unfold liftG. rewrite (addVertex_fresh _ _ _ Hfresh). reflexivity. }
  rewrite (bind_Return _ _ _ _ _ _ _ _ Hadd).
  unfold bind at 1. unfold gets at 1. unfold bind at 1. unfold modify at 1.
  cbv beta.
  assert (Hslot :
    updateSlot
      (vertexCount
         (graph (set_graph pk
            (mkDigraph
               (vertexArray (graph pk) ++ [mkVertex vertexId NOT_READY (JObj []) false])
               (vertexIdArray (graph pk) ++ [vertexId])
               (vertexStateArray (graph pk) ++ [NOT_READY])
               (startVertexIdArray (graph pk)) (endVertexIdArray (graph pk))))) - 1)
      (fun v => Vertex_withListener v true)
      (graph (set_graph pk
         (mkDigraph
            (vertexArray (graph pk) ++ [mkVertex vertexId NOT_READY (JObj []) false])
            (vertexIdArray (graph pk) ++ [vertexId])
            (vertexStateArray (graph pk) ++ [NOT_READY])
            (startVertexIdArray (graph pk)) (endVertexIdArray (graph pk)))))
    = g2).
  { unfold vertexCount. simpl. rewrite length_app. simpl.
    replace (length (vertexArray (graph pk)) + 1 - 1)
      with (length (vertexArray (graph pk))) by lia.
    unfold updateSlot. simpl.
    rewrite nth_error_app2, Nat.sub_diag by lia. simpl.
    unfold withVertexArray. simpl.
    rewrite (setNth_split _ (vertexArray (graph pk)) []). reflexivity. }
  rewrite Hslot. unfold bind at 1. unfold gets at 1. cbv beta iota.
  change (services (set_graph
            (set_graph pk
               (mkDigraph
                  (vertexArray (graph pk)
                   ++ [mkVertex vertexId NOT_READY (JObj []) false])
                  (vertexIdArray (graph pk) ++ [vertexId])
                  (vertexStateArray (graph pk) ++ [NOT_READY])
                  (startVertexIdArray (graph pk)) (endVertexIdArray (graph pk))))
            g2))
    with (services pk).
  destruct (nth_error (services pk) service) as [s|]; reflexivity.
Qed.

(** ** Ids and edges are never touched by [setState] *)

Lemma sameShape_refl pk : sameShape pk pk.
Proof. repeat split. Qed.

Lemma sameShape_trans a b c : sameShape a b -> sameShape b c -> sameShape a c.
Proof. intros [A1 [A2 A3]] [B1 [B2 B3]]. repeat split; congruence. Qed.

Lemma sameFrame_sameShape A (m : P A) : steps sameFrame m -> steps sameShape m.
Proof.
  intros H pk. specialize (H pk). split; [exact (sf_ids _ _ H)|].
  split; [exact (sf_vids _ _ H) | exact (sameFrame_edges _ _ H)].
Qed.

Ltac sameShape_leaf :=
  first [ solve [auto]
        | apply sameFrame_sameShape; first [ solve [auto] | sameFrame_leaf ]
        | intro; repeat split ].

Ltac sameShape_steps := steps_split sameShape_leaf sameShape_refl sameShape_trans.

Lemma runFinalCallback_sameShape pkError :
  steps sameShape pkError -> steps sameShape (runFinalCallback pkError).
Proof. intros H. unfold runFinalCallback, writeToLog, emit. sameShape_steps. Qed.

Lemma startReadyProcesses_sameShape : steps sameShape startReadyProcesses.
Proof.
  intros pk. pose proof (steps_sameSetup_startReadyProcesses pk) as H.
  split; [exact (ss_ids _ _ H)|]. split; [exact (ss_vids _ _ H) | exact (ss_edges _ _ H)].
Qed.

Lemma setState_sameShape vertexId newState : steps sameShape (setState vertexId newState).
Proof.
  pose proof startReadyProcesses_sameShape.
  assert (steps sameShape updateStates)
    by (apply sameFrame_sameShape; apply updateStates_sameFrame).
  assert (forall x s, steps sameShape (getVertex_setState x s))
    by (intros; apply sameFrame_sameShape; apply getVertex_setState_sameFrame).
  assert (steps sameShape stateFlags)
    by (intros pk; rewrite <- (stateFlags_pure pk); apply sameShape_refl).
  assert (steps sameShape failedStatesError)
    by (intros pk; rewrite <- (failedStatesError_pure pk); apply sameShape_refl).
  assert (forall e, steps sameShape e -> steps sameShape (runFinalCallback e))
    by (apply runFinalCallback_sameShape).
  assert (steps sameShape (runFinalCallback (ret None)))
    by (apply runFinalCallback_sameShape; sameShape_steps).
  assert (forall id, steps sameShape (runFinalCallback (ret (Some (StateFailed id)))))
    by (intros; apply runFinalCallback_sameShape; sameShape_steps).
  unfold setState, afterSuccess, afterFail, decrementRunning, stopRunning,
    writeToLog, emit.
  sameShape_steps.
Qed.

(** ** What is finished stays finished *)

Lemma settles_refl pk : settles pk pk.
Proof. intros H. split; [exact H|]. intros j w Hw _. eauto. Qed.

Lemma settles_trans a b c : settles a b -> settles b c -> settles a c.
Proof.
  intros Hab Hbc Ha. destruct (Hab Ha) as [Hb Hk1]. destruct (Hbc Hb) as [Hc Hk2].
  split; [exact Hc|]. intros j w Hw Hf.
  destruct (Hk1 j w Hw Hf) as [w1 [Hw1 Hs1]].
  destruct (Hk2 j w1 Hw1) as [w2 [Hw2 Hs2]]; [rewrite Hs1; exact Hf|].
  exists w2. split; [exact Hw2 | congruence].
Qed.

Lemma same_graph_settles pk pk' :
  graph pk' = graph pk -> topologicalSortOrder pk' = topologicalSortOrder pk ->
  settles pk pk'.
Proof.
  intros Hg Ho Hinv. split; [exact (same_graph_keepsSafe pk pk' Hg Ho Hinv)|].
  intros j w Hw _. rewrite Hg. eauto.
Qed.

Lemma steps_eq_settles A (m : P A) : steps eq m -> steps settles m.
Proof. intros H s. rewrite <- (H s). apply settles_refl. Qed.

Lemma updateStates_stateKept pk :
  SafeInv pk -> stateKept pk (snd (updateStates pk)).
Proof.
  intros [Hwf [_ [order [Ho [Hcov | [Hnil Hpos]]]]]].
  2:{ subst order. rewrite (updateStates_empty_order pk Ho Hpos). simpl.
      intros j w Hw Hs. eauto. }
  destruct (updateStates_spec pk order Hwf Ho Hcov) as [pk' [Hrun [Hf Hst]]].
  rewrite Hrun. simpl. intros j w Hw Hs.
  destruct (Hst j w Hw) as [w' [Hw' Hs']]. exists w'. split; [exact Hw'|].
  rewrite Hs'. destruct (visited _ _ _); [|reflexivity].
  apply spec_newState_kept. exact Hs.
Qed.

Lemma updateStates_settles : steps settles updateStates.
Proof.
  intros pk Hinv. split; [exact (updateStates_keepsSafe pk Hinv)|].
  intros j w Hw Hf.
  apply (updateStates_stateKept pk Hinv j w Hw).
  intros Hc. rewrite Hc in Hf. discriminate.
Qed.

Lemma startReadyProcesses_settles : steps settles startReadyProcesses.
Proof.
  intros pk Hinv. split; [exact (startReadyProcesses_keepsSafe pk Hinv)|].
  destruct (startReadyProcesses_spec pk (WF_VOK _ (proj1 Hinv)))
    as [pk' [Hrun [_ [_ Hst]]]].
  rewrite Hrun. simpl. intros j w Hw Hf.
  destruct (Hst j w Hw) as [w' [Hw' [Hk _]]]. exists w'. split; [exact Hw'|].
  apply Hk. intros Hc. rewrite Hc in Hf. discriminate.
Qed.

Ltac settles_leaf :=
  first [ solve [auto]
        | apply steps_eq_settles; solve [auto using stateFlags_pure,
                                                    failedStatesError_pure]
        | intro; apply same_graph_settles; reflexivity ].

Ltac settles_steps := steps_split settles_leaf settles_refl settles_trans.

Lemma runFinalCallback_settles pkError :
  steps settles pkError -> steps settles (runFinalCallback pkError).
Proof. intros H. unfold runFinalCallback, writeToLog, emit. settles_steps. Qed.

Lemma afterSuccess_settles : steps settles afterSuccess.
Proof.
  pose proof updateStates_settles. pose proof startReadyProcesses_settles.
  assert (steps settles (runFinalCallback failedStatesError))
    by (apply runFinalCallback_settles; settles_steps).
  assert (steps settles (runFinalCallback (ret None)))
    by (apply runFinalCallback_settles; settles_steps).
  unfold afterSuccess, decrementRunning, stopRunning, writeToLog, emit.
  settles_steps.
Qed.

Lemma afterFail_settles vertexId : steps settles (afterFail vertexId).
Proof.
  pose proof updateStates_settles.
  assert (steps settles (runFinalCallback failedStatesError))
    by (apply runFinalCallback_settles; settles_steps).
  assert (steps settles (runFinalCallback (ret (Some (StateFailed vertexId)))))
    by (apply runFinalCallback_settles; settles_steps).
  unfold afterFail, decrementRunning, stopRunning, writeToLog, emit.
  settles_steps.
Qed.

Lemma finished_stays_finished vertexId newState pk v :
  campaign pk ->
  getVertex (graph pk) vertexId = Return v ->
  v_state v = IN_PROGRESS ->
  newState = "SUCCESS" \/ newState = "FAIL" ->
  forall j w,
    nth_error (vertexArray (graph pk)) j = Some w ->
    v_state w = SUCCESS \/ v_state w = FAIL ->
    exists w',
      nth_error (vertexArray (graph (run (setState vertexId newState) pk))) j = Some w'
      /\ v_state w' = v_state w /\ v_id w' = v_id w.
Proof.
  intros Hc Hget Hip Hst j w Hw Hfin.
  pose proof (campaign_SafeInv pk Hc) as Hsafe.
  destruct (getVertex_slot _ _ _ Hget) as [slot [Hidx Hn]].
  assert (Hj : j <> slot).
  { intros ->. rewrite Hn in Hw. inversion Hw; subst w.
    rewrite Hip in Hfin. destruct Hfin; discriminate. }
  assert (Hf : isFinal (v_state w) = true)
    by (destruct Hfin as [-> | ->]; reflexivity).
  assert (Hid : forall w',
             nth_error (vertexArray (graph (run (setState vertexId newState) pk))) j
             = Some w' -> v_id w' = v_id w).
  { intros w' Hw'. destruct (setState_sameShape vertexId newState pk) as [_ [Hv _]].
    apply (map_nth_error v_id) in Hw'. apply (map_nth_error v_id) in Hw.
    unfold run in Hw'. rewrite Hv in Hw'. congruence. }
  assert (Hrest : forall st pk',
            st <> IN_PROGRESS ->
            settles (set_graph pk
                       (updateSlot slot (fun v => Vertex_withState v st) (graph pk))) pk' ->
            exists w', nth_error (vertexArray (graph pk')) j = Some w'
                       /\ v_state w' = v_state w).
  { intros st pk' Hne Hset.
    destruct (Hset (commit_SafeInv pk slot st v Hsafe Hn Hip Hne)) as [_ Hk].
    apply (Hk j w); [|exact Hf].
    simpl. rewrite updateSlot_nth_neq by congruence. exact Hw. }
  assert (Hex : exists w',
            nth_error (vertexArray (graph (run (setState vertexId newState) pk))) j
            = Some w' /\ v_state w' = v_state w).
  { unfold run. destruct Hst as [-> | ->].
    - rewrite (setState_SUCCESS_commit vertexId pk slot v Hidx Hn).
      apply (Hrest SUCCESS); [discriminate | apply afterSuccess_settles].
    - rewrite (setState_FAIL_commit vertexId pk slot v Hidx Hn).
      apply (Hrest FAIL); [discriminate | apply afterFail_settles]. }
  destruct Hex as [w' [Hw' Hs']]. exists w'. split; [exact Hw'|].
  split; [exact Hs' | exact (Hid w' Hw')].
Qed.

(** ** A failure reaches the children at once *)

Lemma spec_newState_failed_parent g c p :
  v_state c = NOT_READY -> In p (parentsOf g c) -> v_state p = FAIL ->
  spec_newState g c = FAIL.
Proof.
  intros Hc Hp Hps. unfold spec_newState. rewrite Hc. simpl.
  pose proof (proj1 (parentsOf_In g c p) Hp) as [_ Hedge].
  destruct (Nat.eqb (indegree g (v_id c)) 0) eqn:Hd.
  { apply Nat.eqb_eq in Hd. exfalso. exact (indegree_edge _ _ _ Hedge Hd). }
  destruct (forallb (fun q => State_eqb (v_state q) SUCCESS) (parentsOf g c)) eqn:Hfa.
  { rewrite forallb_forall in Hfa. specialize (Hfa p Hp). rewrite Hps in Hfa.
    discriminate. }
  destruct (existsb (fun q => State_eqb (v_state q) FAIL) (parentsOf g c)) eqn:Hx;
    [reflexivity|].
  assert (Ht : existsb (fun q => State_eqb (v_state q) FAIL) (parentsOf g c) = true).
  { apply existsb_exists. exists p. split; [exact Hp|]. rewrite Hps. reflexivity. }
  congruence.
Qed.

Lemma failure_reaches_children vertexId pk v :
  campaign pk ->
  getVertex (graph pk) vertexId = Return v ->
  v_state v = IN_PROGRESS ->
  forall c,
    In c (vertexArray (graph (run (setState vertexId "FAIL") pk))) ->
    In (vertexId, v_id c) (edges (graph pk)) ->
    v_state c = FAIL.
Proof.
  intros Hc Hget Hip c Hcin Hedge.
  pose proof (campaign_SafeInv pk Hc) as Hsafe.
  destruct (campaign_live pk Hc) as [Hwf [_ Hcase]].
  destruct (getVertex_slot _ _ _ Hget) as [slot [Hidx Hn]].
  destruct Hcase as [[Hs _] | [_ Hall]].
  2:{ rewrite (Hall v (nth_error_In _ _ Hn)) in Hip. discriminate. }
  assert (Hvid : v_id v = vertexId).
  { destruct (indexOf_Some _ _ _ Hidx) as [Hnth _].
    rewrite (wf_ids _ Hwf) in Hnth. rewrite (map_nth_error v_id _ _ Hn) in Hnth.
    congruence. }
  (* the child before the event *)
  apply In_nth_error in Hcin. destruct Hcin as [j Hj].
  destruct (setState_sameShape vertexId "FAIL" pk) as [_ [Hvids _]].
  assert (Hc0 : exists c0, nth_error (vertexArray (graph pk)) j = Some c0
                           /\ v_id c0 = v_id c).
  { destruct (nth_error (vertexArray (graph pk)) j) as [c0|] eqn:E.
    - exists c0. split; [reflexivity|].
      apply (map_nth_error v_id) in E. apply (map_nth_error v_id) in Hj.
      unfold run in Hj. rewrite Hvids in Hj. congruence.
    - apply nth_error_None in E.
      assert (Hlt : j < length (vertexArray (graph (run (setState vertexId "FAIL") pk))))
        by (apply nth_error_Some; congruence).
      unfold run in Hlt.
      rewrite <- (length_map v_id), Hvids, length_map in Hlt. lia. }
  destruct Hc0 as [c0 [Ec0 Hcid]]. rewrite <- Hcid, <- Hvid in Hedge.
  assert (Hnotrel : released (v_state c0) = false).
  { destruct (released (v_state c0)) eqn:E; [|reflexivity].
    pose proof (proj1 (proj2 Hsafe) c0 v (nth_error_In _ _ Ec0)
                  (nth_error_In _ _ Hn) Hedge E) as Hx.
    congruence. }
  assert (Hjs : j <> slot).
  { intros ->. assert (c0 = v) by congruence. subst c0.
    rewrite Hip in Hnotrel. discriminate. }
  (* the run *)
  set (g0 := updateSlot slot (fun v => Vertex_withState v FAIL) (graph pk)) in *.
  set (pk0 := set_graph pk g0).
  pose proof (commit_sameSetup pk slot FAIL) as Hss0. fold g0 in Hss0. fold pk0 in Hss0.
  assert (Hwf0 : WF (graph pk0)) by exact (WF_sameSetup _ _ Hss0 Hwf).
  assert (Hs0 : sorted pk0) by exact (sorted_sameSetup _ _ Hss0 Hs).
  assert (Hsafe0 : SafeInv pk0)
    by exact (commit_SafeInv pk slot FAIL v Hsafe Hn Hip ltac:(discriminate)).
  assert (Ev0 : nth_error (vertexArray (graph pk0)) slot = Some (Vertex_withState v FAIL))
    by exact (updateSlot_nth_eq slot (fun v => Vertex_withState v FAIL) (graph pk) v Hn).
  assert (Ec0' : nth_error (vertexArray (graph pk0)) j = Some c0).
  { simpl. unfold g0. rewrite updateSlot_nth_neq by congruence. exact Ec0. }
  revert Hj. unfold run.
  rewrite (setState_FAIL_commit vertexId pk slot v Hidx Hn). fold g0. fold pk0.
  unfold afterFail. unfold bind at 1. rewrite writeToLog_run.
  unfold bind at 1. unfold decrementRunning at 1. unfold modify at 1.
  match goal with
  | |- context [bind updateStates _ ?p] => set (p1 := p)
  end.
  assert (Hsafe1 : SafeInv p1)
    by (apply (same_graph_keepsSafe pk0 p1); [reflexivity | reflexivity | exact Hsafe0]).
  destruct (updateStates_sorted p1 Hwf0 Hs0) as [pk2 [Hrun [Hf2 [Hst2 _]]]].
  rewrite (bind_Return _ _ _ _ _ _ _ _ Hrun).
  assert (Hsafe2 : SafeInv pk2).
  { pose proof (updateStates_keepsSafe p1 Hsafe1) as H. rewrite Hrun in H. exact H. }
  destruct (Hst2 j c0 Ec0') as [c2 [Ec2 Hsc2]].
  assert (Hc2 : v_state c2 = FAIL).
  { rewrite Hsc2. destruct (v_state c0) eqn:Ec0s; simpl in Hnotrel;
      try discriminate.
    - apply (spec_newState_failed_parent _ c0 (Vertex_withState v FAIL));
        [exact Ec0s | | reflexivity].
      apply parentsOf_In. split; [exact (nth_error_In _ _ Ev0)|].
      pose proof (ss_edges _ _ Hss0) as He0.
      change (In (v_id v, v_id c0) (edges (graph pk0))).
      rewrite He0. exact Hedge.
    - rewrite spec_newState_kept; [exact Ec0s | rewrite Ec0s; discriminate]. }
  match goal with
  | |- context [snd (?m pk2)] => assert (Hm : steps calm m)
  end.
  { pose proof updateStates_calm.
    assert (steps calm (runFinalCallback failedStatesError))
      by (apply runFinalCallback_calm; calm_steps).
    assert (steps calm (runFinalCallback (ret (Some (StateFailed vertexId)))))
      by (apply runFinalCallback_calm; calm_steps).
    unfold stopRunning, writeToLog, emit. calm_steps. }
  destruct (Hm pk2 Hsafe2) as [_ [_ [_ Hk]]].
  { exists c2. split; [exact (nth_error_In _ _ Ec2) | exact Hc2]. }
  destruct (Hk j c2 Ec2) as [c' [Ec' Hsc']]; [rewrite Hc2; discriminate|].
  intros Hj. assert (c' = c) by congruence. subst c'. congruence.
Qed.

(** ** What was started is not started again *)

Lemma lasts_refl pk : lasts pk pk.
Proof. intros H. split; [exact H|]. intros j w Hw _. eauto. Qed.

Lemma lasts_trans a b c : lasts a b -> lasts b c -> lasts a c.
Proof.
  intros Hab Hbc Ha. destruct (Hab Ha) as [Hb Hk1]. destruct (Hbc Hb) as [Hc Hk2].
  split; [exact Hc|]. intros j w Hw Hf.
  destruct (Hk1 j w Hw Hf) as [w1 [Hw1 Hs1]].
  destruct (Hk2 j w1 Hw1) as [w2 [Hw2 Hs2]]; [rewrite Hs1; exact Hf|].
  exists w2. split; [exact Hw2 | congruence].
Qed.

Lemma same_graph_lasts pk pk' :
  graph pk' = graph pk -> topologicalSortOrder pk' = topologicalSortOrder pk ->
  lasts pk pk'.
Proof.
  intros Hg Ho Hinv. split; [exact (same_graph_keepsSafe pk pk' Hg Ho Hinv)|].
  intros j w Hw _. rewrite Hg. eauto.
Qed.

Lemma steps_eq_lasts A (m : P A) : steps eq m -> steps lasts m.
Proof. intros H s. rewrite <- (H s). apply lasts_refl. Qed.

Lemma updateStates_lasts : steps lasts updateStates.
Proof.
  intros pk Hinv. split; [exact (updateStates_keepsSafe pk Hinv)|].
  intros j w Hw Hf.
  apply (updateStates_stateKept pk Hinv j w Hw).
  intros Hc. rewrite Hc in Hf. discriminate.
Qed.

Lemma startReadyProcesses_lasts : steps lasts startReadyProcesses.
Proof.
  intros pk Hinv. split; [exact (startReadyProcesses_keepsSafe pk Hinv)|].
  destruct (startReadyProcesses_spec pk (WF_VOK _ (proj1 Hinv)))
    as [pk' [Hrun [_ [_ Hst]]]].
  rewrite Hrun. simpl. intros j w Hw Hf.
  destruct (Hst j w Hw) as [w' [Hw' [Hk _]]]. exists w'. split; [exact Hw'|].
  apply Hk. intros Hc. rewrite Hc in Hf. discriminate.
Qed.

Ltac lasts_leaf :=
  first [ solve [auto]
        | apply steps_eq_lasts; solve [auto using stateFlags_pure,
                                                  failedStatesError_pure]
        | intro; apply same_graph_lasts; reflexivity ].

Ltac lasts_steps := steps_split lasts_leaf lasts_refl lasts_trans.

Lemma runFinalCallback_lasts pkError :
  steps lasts pkError -> steps lasts (runFinalCallback pkError).
Proof.
  intros H. unfold runFinalCallback, callFinalCallback, writeToLog, emit.
  lasts_steps.
Qed.

Lemma afterSuccess_lasts : steps lasts afterSuccess.
Proof.
  pose proof updateStates_lasts. pose proof startReadyProcesses_lasts.
  assert (steps lasts (runFinalCallback failedStatesError))
    by (apply runFinalCallback_lasts; lasts_steps).
  assert (steps lasts (runFinalCallback (ret None)))
    by (apply runFinalCallback_lasts; lasts_steps).
  unfold afterSuccess, decrementRunning, stopRunning, writeToLog, emit.
  lasts_steps.
Qed.

Lemma afterFail_lasts vertexId : steps lasts (afterFail vertexId).
Proof.
  pose proof updateStates_lasts.
  assert (steps lasts (runFinalCallback failedStatesError))
    by (apply runFinalCallback_lasts; lasts_steps).
  assert (steps lasts (runFinalCallback (ret (Some (StateFailed vertexId)))))
    by (apply runFinalCallback_lasts; lasts_steps).
  unfold afterFail, decrementRunning, stopRunning, writeToLog, emit.
  lasts_steps.
Qed.

(** A commit of a running task: the vertex takes the new state, every
    other vertex that was started keeps its state. *)
Lemma commit_lasts vertexId newState st pk v :
  campaign pk ->
  getVertex (graph pk) vertexId = Return v ->
  v_state v = IN_PROGRESS ->
  (newState = "SUCCESS" /\ st = SUCCESS) \/ (newState = "FAIL" /\ st = FAIL) ->
  exists slot,
    nth_error (vertexArray (graph pk)) slot = Some v
    /\ indexOf vertexId (vertexIdArray (graph pk)) = Some slot
    /\ (exists w', nth_error (vertexArray (graph (run (setState vertexId newState) pk)))
                             slot = Some w' /\ v_state w' = st)
    /\ forall j w,
        j <> slot ->
        nth_error (vertexArray (graph pk)) j = Some w ->
        isStarted (v_state w) = true ->
        exists w',
          nth_error (vertexArray (graph (run (setState vertexId newState) pk))) j
          = Some w' /\ v_state w' = v_state w.
Proof.
  intros Hc Hget Hip Hst.
  pose proof (campaign_SafeInv pk Hc) as Hsafe.
  destruct (getVertex_slot _ _ _ Hget) as [slot [Hidx Hn]].
  exists slot. split; [exact Hn|]. split; [exact Hidx|].
  assert (Hne : st <> IN_PROGRESS)
    by (destruct Hst as [[_ ->] | [_ ->]]; discriminate).
  assert (Hstarted : isStarted st = true)
    by (destruct Hst as [[_ ->] | [_ ->]]; reflexivity).
  set (pk1 := set_graph pk
                (updateSlot slot (fun v => Vertex_withState v st) (graph pk))).
  assert (Hl : lasts pk1 (run (setState vertexId newState) pk)).
  { unfold run. destruct Hst as [[-> ->] | [-> ->]].
    - rewrite (setState_SUCCESS_commit vertexId pk slot v Hidx Hn).
      apply afterSuccess_lasts.
    - rewrite (setState_FAIL_commit vertexId pk slot v Hidx Hn).
      apply afterFail_lasts. }
  destruct (Hl (commit_SafeInv pk slot st v Hsafe Hn Hip Hne)) as [_ Hk].
  split.
  - destruct (Hk slot (Vertex_withState v st)) as [w' [Hw' Hs']].
    + exact (updateSlot_nth_eq slot (fun v => Vertex_withState v st) (graph pk) v Hn).
    + exact Hstarted.
    + exists w'. split; [exact Hw' | exact Hs'].
  - intros j w Hj Hw Hf. apply (Hk j w); [|exact Hf].
    unfold pk1. simpl. rewrite updateSlot_nth_neq by congruence. exact Hw.
Qed.

(** Counting the slots that enter and leave IN_PROGRESS. *)
Lemma count_in_and_out (ps : list (Vertex * Vertex)) :
  length (filter isInProgress (map snd ps))
  + length (filter (fun p => isInProgress (fst p) && negb (isInProgress (snd p))) ps)
  = length (filter isInProgress (map fst ps))
    + length (filter (fun p => negb (isInProgress (fst p)) && isInProgress (snd p)) ps).
Proof.
  induction ps as [|[a b] ps IH]; simpl; [reflexivity|].
  destruct (isInProgress a), (isInProgress b); simpl; lia.
Qed.

Lemma filter_single A (f : A -> bool) (l : list A) k x :
  nth_error l k = Some x -> f x = true ->
  (forall j y, j <> k -> nth_error l j = Some y -> f y = false) ->
  length (filter f l) = 1.
Proof.
  revert k; induction l as [|a l IH]; intros k Hk Hx Hall.
  - destruct k; discriminate.
  - destruct k as [|k]; simpl in Hk.
    + inversion Hk; subst a. simpl. rewrite Hx. simpl. f_equal.
      apply length_zero_iff_nil. apply filter_nil_iff.
      intros y Hy. destruct (In_nth_error _ _ Hy) as [j Hj].
      apply (Hall (S j) y); [lia | exact Hj].
    + simpl. rewrite (Hall 0 a); [|lia|reflexivity].
      apply (IH k Hk Hx). intros j y Hj Hy. apply (Hall (S j) y); [lia | exact Hy].
Qed.

Lemma map_combine_eq A B (l : list A) :
  forall l' : list B,
    length l' = length l ->
    map fst (combine l l') = l /\ map snd (combine l l') = l'.
Proof.
  induction l as [|a l IH]; intros [|b l'] Hlen; simpl in *; try discriminate;
    [split; reflexivity|].
  destruct (IH l') as [H1 H2]; [lia|]. rewrite H1, H2. split; reflexivity.
Qed.

Lemma nth_error_combine A B (l : list A) :
  forall (l' : list B) j p,
    nth_error (combine l l') j = Some p ->
    nth_error l j = Some (fst p) /\ nth_error l' j = Some (snd p).
Proof.
  induction l as [|a l IH]; intros [|b l'] j p H; simpl in *;
    try (destruct j; discriminate).
  destruct j as [|j]; simpl in *.
  - inversion H; subst p. split; reflexivity.
  - apply IH. exact H.
Qed.

Lemma nth_error_combine_Some A B (l : list A) :
  forall (l' : list B) j a b,
    nth_error l j = Some a -> nth_error l' j = Some b ->
    nth_error (combine l l') j = Some (a, b).
Proof.
  induction l as [|a0 l IH]; intros [|b0 l'] j a b Ha Hb; simpl in *;
    try (destruct j; discriminate).
  destruct j as [|j]; simpl in *.
  - congruence.
  - apply IH; assumption.
Qed.

Lemma countInProgress_between g g' :
  length (vertexArray g') = length (vertexArray g) ->
  countInProgress g' + endedBetween g g' = countInProgress g + startedBetween g g'.
Proof.
  intros Hlen. unfold countInProgress, endedBetween, startedBetween.
  pose proof (count_in_and_out (combine (vertexArray g) (vertexArray g'))) as H.
  destruct (map_combine_eq _ _ (vertexArray g) (vertexArray g') Hlen) as [H1 H2].
  rewrite H1, H2 in H. exact H.
Qed.

(** A commit of a running task takes exactly one vertex out of
    IN_PROGRESS. *)
Lemma commit_ends_one vertexId newState st pk v :
  campaign pk ->
  getVertex (graph pk) vertexId = Return v ->
  v_state v = IN_PROGRESS ->
  (newState = "SUCCESS" /\ st = SUCCESS) \/ (newState = "FAIL" /\ st = FAIL) ->
  length (vertexArray (graph (run (setState vertexId newState) pk)))
  = length (vertexArray (graph pk))
  /\ endedBetween (graph pk) (graph (run (setState vertexId newState) pk)) = 1
  /\ stateOfId (graph (run (setState vertexId newState) pk)) vertexId = st.
Proof.
  intros Hc Hget Hip Hst.
  destruct (commit_lasts vertexId newState st pk v Hc Hget Hip Hst)
    as [slot [Hn [Hidx [[w' [Hw' Hs']] Hrest]]]].
  destruct (setState_sameShape vertexId newState pk) as [Hids [Hv _]].
  assert (Hlen : length (vertexArray (graph (run (setState vertexId newState) pk)))
                 = length (vertexArray (graph pk))).
  { unfold run. rewrite <- (length_map v_id), Hv, length_map. reflexivity. }
  assert (Hne : isInProgress w' = false).
  { unfold isInProgress. rewrite Hs'.
    destruct Hst as [[_ ->] | [_ ->]]; reflexivity. }
  split; [exact Hlen|]. split.
  - unfold endedBetween.
    apply (filter_single _ _ _ slot (v, w')).
    + apply nth_error_combine_Some; assumption.
    + simpl. unfold isInProgress at 1. rewrite Hip, Hne. reflexivity.
    + intros j [a b] Hj Hab.
      destruct (nth_error_combine _ _ _ _ _ _ Hab) as [Ha Hb]. simpl in *.
      destruct (isInProgress a) eqn:Ea; [|reflexivity].
      destruct (Hrest j a Hj Ha) as [b' [Hb' Hsb]].
      { unfold isInProgress in Ea. destruct (v_state a); try discriminate.
        reflexivity. }
      rewrite Hb in Hb'. inversion Hb'; subst b'.
      unfold isInProgress in *. rewrite Hsb, Ea. reflexivity.
  - unfold stateOfId, vertexOfId. unfold run. rewrite Hids, Hidx.
    unfold run in Hw'. rewrite Hw'. exact Hs'.
Qed.

(** ** Start functions that return without calling the scheduler *)

Lemma bind_ext St A B (m m' : M St A) (k k' : A -> M St B) s :
  m s = m' s -> (forall a s', k a s' = k' a s') -> bind m k s = bind m' k' s.
Proof.
  intros Hm Hk. unfold bind. rewrite Hm.
  destruct (m' s) as [[a| |] s']; [apply Hk | reflexivity | reflexivity].
Qed.

Lemma forRange_ext St (body body' : nat -> M St unit) :
  (forall i s, body i s = body' i s) ->
  forall count from s, forRange from count body s = forRange from count body' s.
Proof.
  intros Hb. induction count as [|count IH]; intros from s; simpl; [reflexivity|].
  apply bind_ext; [apply Hb | intros _ s'; apply IH].
Qed.

Section ReturnsAtOnce.

Context {U : UserCode}.

Hypothesis serviceStart_returns :
  forall vertexId r pk, serviceStart vertexId r pk = (Return tt, pk).

Ltac same_run :=
  repeat first
    [ reflexivity
    | assumption
    | apply bind_ext; [|intros ? ?]
    | apply forRange_ext; intros ? ?
    | match goal with
      | |- (if ?b then _ else _) _ = _ => destruct b
      | |- (match ?x with _ => _ end) _ = _ => destruct x
      end ].

Lemma emitStart_returns i pk :
  emitStart (U := U) i pk = emitStart (U := asynchronous) i pk.
Proof using serviceStart_returns.
  unfold emitStart. same_run. apply serviceStart_returns.
Qed.

Lemma Vertex_setState_returns this s pk :
  Vertex_setState (U := U) this s pk = Vertex_setState (U := asynchronous) this s pk.
Proof using serviceStart_returns.
  pose proof emitStart_returns. unfold Vertex_setState. same_run; auto.
Qed.

Lemma getVertex_setState_returns x s pk :
  getVertex_setState (U := U) x s pk
  = getVertex_setState (U := asynchronous) x s pk.
Proof using serviceStart_returns.
  pose proof Vertex_setState_returns. unfold getVertex_setState. same_run; auto.
Qed.

Lemma initializeStates_returns pk :
  initializeStates (U := U) pk = initializeStates (U := asynchronous) pk.
Proof using serviceStart_returns.
  pose proof getVertex_setState_returns. unfold initializeStates. same_run; auto.
Qed.

Lemma updateStates_returns pk :
  updateStates (U := U) pk = updateStates (U := asynchronous) pk.
Proof using serviceStart_returns.
  pose proof Vertex_setState_returns.
  unfold updateStates, applyNewState. same_run; auto.
Qed.

Lemma startReadyProcesses_returns pk :
  startReadyProcesses (U := U) pk = startReadyProcesses (U := asynchronous) pk.
Proof using serviceStart_returns.
  pose proof getVertex_setState_returns.
  unfold startReadyProcesses, startIfReady. same_run; auto.
Qed.

Lemma start_returns sharedData pk :
  start (U := U) sharedData pk = start (U := asynchronous) sharedData pk.
Proof using serviceStart_returns.
  pose proof initializeStates_returns. pose proof updateStates_returns.
  pose proof startReadyProcesses_returns.
  unfold start. same_run; auto.
Qed.

End ReturnsAtOnce.

(** ** The count of running tasks, whatever way the tasks report *)

Lemma still_refl pk : still pk pk.
Proof.
  split; [apply sameFrame_refl|]. split; [reflexivity|]. split; [reflexivity|].
  intros j v Hv. exists v. split; [exact Hv|]. split; [reflexivity|].
  intros H. rewrite H. discriminate.
Qed.

Lemma still_trans a b c : still a b -> still b c -> still a c.
Proof.
  intros [F1 [T1 [L1 H1]]] [F2 [T2 [L2 H2]]].
  split; [eapply sameFrame_trans; eassumption|].
  split; [congruence|]. split; [congruence|].
  intros j v Hv. destruct (H1 j v Hv) as [v1 [Hv1 [K1 N1]]].
  destruct (H2 j v1 Hv1) as [v2 [Hv2 [K2 N2]]].
  exists v2. split; [exact Hv2|]. split.
  - intros Hne. rewrite <- (K1 Hne). apply K2. rewrite (K1 Hne). exact Hne.
  - intros Hnr. destruct (State_eqb (v_state v1) NOT_READY) eqn:E.
    + apply State_eqb_eq in E. apply N2. exact E.
    + assert (Hne : v_state v1 <> NOT_READY)
        by (intros Hc; rewrite Hc in E; discriminate).
      rewrite (K2 Hne). apply N1. exact Hnr.
Qed.

Lemma still_length pk pk' :
  still pk pk' -> length (vertexArray (graph pk')) = length (vertexArray (graph pk)).
Proof.
  intros [F _]. rewrite <- (length_map v_id (vertexArray (graph pk'))), (sf_vids _ _ F).
  apply length_map.
Qed.

Lemma still_slot pk pk' j v' :
  still pk pk' -> nth_error (vertexArray (graph pk')) j = Some v' ->
  exists v,
    nth_error (vertexArray (graph pk)) j = Some v
    /\ (v_state v <> NOT_READY -> v_state v' = v_state v)
    /\ (v_state v = NOT_READY -> v_state v' <> IN_PROGRESS)
    /\ startListener v' = startListener v.
Proof.
  intros Hs Hv'. pose proof (still_length _ _ Hs) as Hlen.
  destruct Hs as [F [T [L H]]].
  destruct (nth_error (vertexArray (graph pk)) j) as [v|] eqn:Ev.
  - destruct (H j v Ev) as [w [Hw [K N]]]. rewrite Hv' in Hw. inversion Hw; subst w.
    exists v. split; [reflexivity|]. split; [exact K|]. split; [exact N|].
    apply (map_nth_error startListener) in Ev.
    apply (map_nth_error startListener) in Hv'. rewrite L in Hv'. congruence.
  - apply nth_error_None in Ev.
    assert (j < length (vertexArray (graph pk')))
      by (apply nth_error_Some; congruence).
    lia.
Qed.

Lemma still_ipMap pk pk' : still pk pk' -> ipMap (graph pk') = ipMap (graph pk).
Proof.
  intros Hs. unfold ipMap. apply nth_error_ext. intros j.
  rewrite !nth_error_map.
  destruct (nth_error (vertexArray (graph pk')) j) as [v'|] eqn:Ev'.
  - destruct (still_slot pk pk' j v' Hs Ev') as [v [Hv [K [N _]]]].
    rewrite Hv. simpl. f_equal. unfold isInProgress.
    destruct (State_eqb (v_state v) NOT_READY) eqn:E.
    + apply State_eqb_eq in E. specialize (N E). rewrite E.
      destruct (v_state v'); try reflexivity. contradiction.
    + rewrite K; [reflexivity|]. intros Hc. rewrite Hc in E. discriminate.
  - apply nth_error_None in Ev'. rewrite (still_length _ _ Hs) in Ev'.
    apply nth_error_None in Ev'. rewrite Ev'. reflexivity.
Qed.

Lemma still_VOK pk pk' : still pk pk' -> VOK (graph pk) -> VOK (graph pk').
Proof.
  intros [F _] [Hids Hnd]. split.
  - rewrite (sf_ids _ _ F), (sf_vids _ _ F). exact Hids.
  - rewrite (sf_ids _ _ F). exact Hnd.
Qed.

Lemma still_Tidy pk pk' : still pk pk' -> Tidy pk -> Tidy pk'.
Proof.
  intros Hs Ht Hrun v' Hin Hip.
  apply In_nth_error in Hin. destruct Hin as [j Hj].
  destruct (still_slot pk pk' j v' Hs Hj) as [v [Hv [K [N L]]]].
  rewrite L. destruct Hs as [F _]. rewrite (sf_running _ _ F) in Hrun.
  apply (Ht Hrun v); [eapply nth_error_In; eauto|].
  destruct (State_eqb (v_state v) NOT_READY) eqn:E.
  - apply State_eqb_eq in E. exfalso. exact (N E Hip).
  - rewrite <- K; [exact Hip|]. intros Hc. rewrite Hc in E. discriminate.
Qed.

Lemma still_settled pk pk' : still pk pk' -> settled pk pk'.
Proof.
  intros [F [_ [_ H]]]. split; [|exact (sf_ids _ _ F)].
  intros j w Hw Hf. destruct (H j w Hw) as [w' [Hw' [K _]]].
  exists w'. split; [exact Hw'|]. apply K. intros Hc. rewrite Hc in Hf. discriminate.
Qed.

Lemma still_flightStep pk pk' : still pk pk' -> flightStep pk pk'.
Proof.
  intros Hs [Hok [[Hn Hb] Ht]]. split; [|apply still_settled; exact Hs].
  split; [exact (still_VOK _ _ Hs Hok)|]. split; [|exact (still_Tidy _ _ Hs Ht)].
  pose proof (still_ipMap _ _ Hs) as Hip. destruct Hs as [F _].
  unfold inFlightOK.
  rewrite (sf_number _ _ F), (sf_max _ _ F), (countInProgress_ipMap _ _ Hip).
  split; assumption.
Qed.

Lemma newStateOf_Fit v pk s :
  fst (newStateOf v pk) = Return s ->
  (v_state v <> NOT_READY -> s = v_state v)
  /\ (v_state v = NOT_READY -> s <> IN_PROGRESS).
Proof.
  unfold newStateOf. destruct (v_state v) eqn:Ev; simpl.
  2-5: intros H; inversion H; split; [reflexivity | discriminate].
  unfold bind, gets, liftO, ret.
  destruct (Nat.eqb (indegree (graph pk) (v_id v)) 0).
  { intros H; inversion H; split; [contradiction | discriminate]. }
  destruct (getParentVertexIds (graph pk) (v_id v)); simpl; try discriminate.
  destruct (scanParents a true false pk) as [[[f1 f2]| |] pk']; simpl;
    try discriminate.
  destruct f1; [|destruct f2]; intros H; inversion H;
    (split; [contradiction | discriminate]).
Qed.

Lemma computeNewStates_Fit count :
  forall from pk l,
    fst (computeNewStates from count pk) = Return l ->
    forall k s, nth_error l k = Some s -> Fit pk (from + k) s.
Proof.
  induction count as [|count IH]; intros from pk l; simpl.
  - intros H. inversion H. intros [|k] s; discriminate.
  - unfold bind at 1.
    destruct (orderAt from pk) as [[x| |] pk1] eqn:E1; simpl; try discriminate.
    assert (pk1 = pk).
    { assert (Hp : steps eq (orderAt from)) by (unfold orderAt; pure_steps).
      specialize (Hp pk). rewrite E1 in Hp. auto. }
    subst pk1. unfold bind at 1.
    destruct (getVertexP x pk) as [[v| |] pk1] eqn:E2; simpl; try discriminate.
    assert (pk1 = pk).
    { assert (Hp : steps eq (getVertexP x)) by (unfold getVertexP; pure_steps).
      specialize (Hp pk). rewrite E2 in Hp. auto. }
    subst pk1. unfold bind at 1.
    destruct (newStateOf v pk) as [[s0| |] pk1] eqn:E3; simpl; try discriminate.
    assert (pk1 = pk).
    { pose proof (newStateOf_pure v pk) as Hp. rewrite E3 in Hp. auto. }
    subst pk1. unfold bind at 1.
    destruct (computeNewStates (S from) count pk) as [[rest| |] pk1] eqn:E4; simpl;
      try discriminate.
    intros H. inversion H; subst l. intros [|k] s Hs; simpl in Hs.
    + inversion Hs; subst s0. rewrite Nat.add_0_r.
      intros x' slot v' Hx Hslot Hv.
      rewrite E1 in Hx. simpl in Hx. inversion Hx; subst x'.
      assert (Hv2 : nth_error (vertexArray (graph pk)) slot = Some v).
      { apply (getVertexP_slot x); [rewrite E2; reflexivity | assumption]. }
      rewrite Hv in Hv2. inversion Hv2; subst v'.
      apply (newStateOf_Fit v pk). rewrite E3. reflexivity.
    + replace (from + S k) with (S from + k) by lia.
      apply (IH (S from) pk rest); [rewrite E4; reflexivity | assumption].
Qed.

(** The order and the slots are read alike after propagation has begun. *)
Lemma still_orderAt pk0 pk i : still pk0 pk -> fst (orderAt i pk) = fst (orderAt i pk0).
Proof.
  intros [F _]. unfold orderAt, bind, gets. simpl. rewrite (sf_order _ _ F).
  destruct (topologicalSortOrder pk0); reflexivity.
Qed.

Lemma orderAt_pure i pk : snd (orderAt i pk) = pk.
Proof.
  assert (Hp : steps eq (orderAt i)) by (unfold orderAt; pure_steps).
  symmetry. apply Hp.
Qed.

Lemma getVertexSlot_pure x pk : snd (getVertexSlot x pk) = pk.
Proof. reflexivity. Qed.

Lemma still_getVertexSlot pk0 pk x :
  still pk0 pk -> fst (getVertexSlot x pk) = fst (getVertexSlot x pk0).
Proof.
  intros Hs. pose proof (still_length _ _ Hs) as Hlen. destruct Hs as [F _].
  unfold getVertexSlot, liftO. simpl. destruct x as [id|]; [|reflexivity].
  rewrite (sf_ids _ _ F).
  destruct (indexOf id (vertexIdArray (graph pk0))) as [i|]; [|reflexivity].
  destruct (nth_error (vertexArray (graph pk)) i) eqn:E1;
    destruct (nth_error (vertexArray (graph pk0)) i) eqn:E0; try reflexivity.
  - apply nth_error_None in E0.
    assert (i < length (vertexArray (graph pk))) by (apply nth_error_Some; congruence).
    lia.
  - apply nth_error_None in E1.
    assert (i < length (vertexArray (graph pk0))) by (apply nth_error_Some; congruence).
    lia.
Qed.

Lemma getVertexSlot_Some x pk slot :
  fst (getVertexSlot x pk) = Return slot ->
  exists v, nth_error (vertexArray (graph pk)) slot = Some v.
Proof.
  unfold getVertexSlot, liftO. simpl. destruct x as [id|]; [|discriminate].
  destruct (indexOf id (vertexIdArray (graph pk))) as [i|]; [|discriminate].
  destruct (nth_error (vertexArray (graph pk)) i) as [v|] eqn:E; [|discriminate].
  intros H. inversion H; subst. eauto.
Qed.

(** Writing a state in a slot, seen from the states before propagation. *)
Lemma write_still pk0 pk slot s v0 :
  still pk0 pk ->
  nth_error (vertexArray (graph pk0)) slot = Some v0 ->
  (v_state v0 <> NOT_READY -> s = v_state v0) ->
  (v_state v0 = NOT_READY -> s <> IN_PROGRESS) ->
  still pk0 (set_graph pk (updateSlot slot (fun v => Vertex_withState v s) (graph pk))).
Proof.
  intros [F [T [L H]]] Hv0 K N.
  assert (F' : sameFrame pk (set_graph pk (updateSlot slot
                                             (fun v => Vertex_withState v s) (graph pk))))
    by (apply (updateSlot_sameFrame slot (fun v => Vertex_withState v s));
        intros; reflexivity).
  split; [eapply sameFrame_trans; eassumption|]. split; [exact T|]. split.
  - simpl. rewrite <- L. apply updateSlot_map. intros; reflexivity.
  - intros j v Hv. destruct (H j v Hv) as [v1 [Hv1 [K1 N1]]]. simpl.
    destruct (Nat.eq_dec slot j) as [->|Hne].
    + rewrite (updateSlot_nth_eq j _ _ v1 Hv1). eexists. split; [reflexivity|].
      rewrite Hv0 in Hv. inversion Hv; subst v0. simpl. split.
      * intros Hx. apply K. exact Hx.
      * intros Hx. apply N. exact Hx.
    + rewrite updateSlot_nth_neq by exact Hne. exists v1. auto.
Qed.

Section Flight.

Context {U : UserCode}.

(** A write that calls no start function. *)
Lemma Vertex_setState_write this s pk v :
  nth_error (vertexArray (graph pk)) this = Some v ->
  (s = IN_PROGRESS -> isCurrentlyRunning pk = true -> startListener v = false) ->
  Vertex_setState this s pk
  = (Return tt,
     set_graph pk (updateSlot this (fun v => Vertex_withState v s) (graph pk))).
Proof.
  intros Hv Hl. destruct s; try reflexivity.
  unfold Vertex_setState. unfold bind at 1. unfold modify at 1.
  unfold bind at 1. unfold gets at 1. cbv beta iota.
  change (isCurrentlyRunning (set_graph pk _)) with (isCurrentlyRunning pk).
  destruct (isCurrentlyRunning pk) eqn:Er; [|reflexivity].
  unfold emitStart. unfold bind at 1. unfold get at 1. cbv beta iota.
  change (graph (set_graph pk ?g)) with g.
  rewrite (updateSlot_nth_eq this _ _ v Hv). simpl.
  rewrite (Hl eq_refl eq_refl). reflexivity.
Qed.

Lemma applyNewState_still l i pk0 pk :
  Tidy pk0 -> still pk0 pk ->
  (forall s, nth_error l i = Some s -> Fit pk0 i s) ->
  still pk0 (snd (applyNewState l i pk)).
Proof.
  intros Ht Hs Hfit. unfold applyNewState. unfold bind at 1.
  pose proof (still_orderAt pk0 pk i Hs) as Ho.
  pose proof (orderAt_pure i pk) as Hop.
  destruct (orderAt i pk) as [[x| |] pk1]; simpl in *; subst pk1; try exact Hs.
  unfold bind at 1.
  pose proof (still_getVertexSlot pk0 pk x Hs) as Hg.
  pose proof (getVertexSlot_pure x pk) as Hgp.
  destruct (getVertexSlot x pk) as [[slot| |] pk1] eqn:Eg; simpl in *; subst pk1;
    try exact Hs.
  destruct (nth_error l i) as [s|] eqn:El; [|exact Hs].
  destruct (getVertexSlot_Some x pk0 slot (eq_sym Hg)) as [v0 Hv0].
  destruct (Hfit s eq_refl x slot v0 (eq_sym Ho) (eq_sym Hg) Hv0) as [K N].
  destruct (getVertexSlot_Some x pk slot) as [v Hv]; [rewrite Eg; reflexivity|].
  rewrite (Vertex_setState_write slot s pk v Hv).
  - simpl. apply (write_still pk0 pk slot s v0 Hs Hv0 K N).
  - intros -> Hrun.
    destruct (still_slot pk0 pk slot v Hs Hv) as [w [Hw [_ [_ L]]]].
    rewrite Hv0 in Hw. inversion Hw; subst w. rewrite L.
    destruct Hs as [F _]. rewrite (sf_running _ _ F) in Hrun.
    apply (Ht Hrun v0); [eapply nth_error_In; eauto|].
    destruct (State_eqb (v_state v0) NOT_READY) eqn:E.
    + apply State_eqb_eq in E. exfalso. exact (N E eq_refl).
    + symmetry. apply K. intros Hc. rewrite Hc in E. discriminate.
Qed.

Lemma applyLoop_still l count :
  forall from pk0 pk,
    Tidy pk0 -> still pk0 pk ->
    (forall i s, nth_error l i = Some s -> Fit pk0 i s) ->
    still pk0 (snd (forRange from count (applyNewState l) pk)).
Proof.
  induction count as [|count IH]; intros from pk0 pk Ht Hs Hfit; simpl.
  - exact Hs.
  - unfold bind.
    pose proof (applyNewState_still l from pk0 pk Ht Hs (fun s => Hfit from s)) as H1.
    destruct (applyNewState l from pk) as [[[]| |] pk1]; simpl in *; try exact H1.
    apply IH; assumption.
Qed.

(** Propagation calls no start function while the scheduler is tidy. *)
Lemma updateStates_still pk : Tidy pk -> still pk (snd (updateStates pk)).
Proof.
  intros Ht. unfold updateStates. unfold bind at 1. unfold gets at 1.
  unfold bind at 1.
  pose proof (computeNewStates_pure (vertexCount (graph pk)) 0 pk) as Hp.
  pose proof (computeNewStates_Fit (vertexCount (graph pk)) 0 pk) as Hg.
  destruct (computeNewStates 0 (vertexCount (graph pk)) pk) as [[l| |] pk1];
    simpl in *; subst pk1; try apply still_refl.
  apply applyLoop_still; [exact Ht | apply still_refl|].
  intros i s Hs. apply (Hg l eq_refl i s Hs).
Qed.

Lemma updateStates_flight : steps flightStep updateStates.
Proof.
  intros pk Hinv. apply still_flightStep; [|exact Hinv].
  apply updateStates_still. apply Hinv.
Qed.

End Flight.

Lemma settled_refl pk : settled pk pk.
Proof. split; [|reflexivity]. intros j w Hw _. eauto. Qed.

Lemma settled_trans a b c : settled a b -> settled b c -> settled a c.
Proof.
  intros [H1 I1] [H2 I2]. split; [|congruence].
  intros j w Hw Hf. destruct (H1 j w Hw Hf) as [w1 [Hw1 Hs1]].
  destruct (H2 j w1 Hw1) as [w2 [Hw2 Hs2]]; [rewrite Hs1; exact Hf|].
  exists w2. split; [exact Hw2 | congruence].
Qed.

Lemma same_graph_settled pk pk' : graph pk' = graph pk -> settled pk pk'.
Proof.
  intros Hg. split; [|rewrite Hg; reflexivity]. intros j w Hw _. rewrite Hg. eauto.
Qed.

Lemma flightStep_refl pk : flightStep pk pk.
Proof. intros H. split; [exact H | apply settled_refl]. Qed.

Lemma flightStep_trans a b c : flightStep a b -> flightStep b c -> flightStep a c.
Proof.
  intros Hab Hbc Ha. destruct (Hab Ha) as [Hb K1]. destruct (Hbc Hb) as [Hc K2].
  split; [exact Hc | eapply settled_trans; eassumption].
Qed.

(** Steps that leave the graph, the count and the flag of running alone. *)
Lemma same_flight pk pk' :
  graph pk' = graph pk ->
  numberOfRunningProcesses pk' = numberOfRunningProcesses pk ->
  maxNumberOfRunningProcesses pk' = maxNumberOfRunningProcesses pk ->
  isCurrentlyRunning pk' = isCurrentlyRunning pk ->
  flightStep pk pk'.
Proof.
  intros Hg Hn Hm Hr [Hok [[Hc Hb] Ht]]. split.
  - split; [rewrite Hg; exact Hok|]. split.
    + unfold inFlightOK. rewrite Hn, Hm, Hg. split; assumption.
    + unfold Tidy. rewrite Hr, Hg. exact Ht.
  - apply same_graph_settled. exact Hg.
Qed.

(** Stopping the scheduler. *)
Lemma stop_flight pk : flightStep pk (set_isCurrentlyRunning pk false).
Proof.
  intros [Hok [Hc Ht]]. split.
  - split; [exact Hok|]. split; [exact Hc|]. intros Hr. discriminate Hr.
  - apply same_graph_settled. reflexivity.
Qed.

Lemma steps_eq_flight A (m : P A) : steps eq m -> steps flightStep m.
Proof. intros H pk. rewrite <- (H pk). apply flightStep_refl. Qed.

Lemma setNth_setNth A i (x y : A) l : setNth i y (setNth i x l) = setNth i y l.
Proof.
  revert i; induction l as [|a l IH]; intros [|i]; simpl; auto.
  rewrite IH. reflexivity.
Qed.

Lemma updateSlot_twice i f h g :
  updateSlot i h (updateSlot i f g) = updateSlot i (fun v => h (f v)) g.
Proof.
  unfold updateSlot. destruct (nth_error (vertexArray g) i) as [v|] eqn:E.
  - simpl. rewrite nth_error_setNth_eq
      by (apply nth_error_Some; congruence).
    unfold withVertexArray. simpl. rewrite setNth_setNth. reflexivity.
  - rewrite E. reflexivity.
Qed.

(** A vertex READY becomes IN_PROGRESS and the count goes up by one, within
    the bound; its start listener is off if the scheduler runs. *)
Lemma started_flight pk pk' slot v f :
  FlightInv pk ->
  nth_error (vertexArray (graph pk)) slot = Some v ->
  v_state v = READY ->
  ((0 < maxNumberOfRunningProcesses pk)%Z ->
   (numberOfRunningProcesses pk < maxNumberOfRunningProcesses pk)%Z) ->
  (forall w, v_id (f w) = v_id w) ->
  v_state (f v) = IN_PROGRESS ->
  (isCurrentlyRunning pk = true -> startListener (f v) = false) ->
  graph pk' = updateSlot slot f (graph pk) ->
  numberOfRunningProcesses pk' = (numberOfRunningProcesses pk + 1)%Z ->
  maxNumberOfRunningProcesses pk' = maxNumberOfRunningProcesses pk ->
  isCurrentlyRunning pk' = isCurrentlyRunning pk ->
  FlightInv pk' /\ settled pk pk'.
Proof.
  intros [Hok [[Hc Hb] Ht]] Hv Hready Hroom Hid Hip Hl Hg Hn Hm Hr. split.
  - split; [rewrite Hg; apply VOK_updateSlot; assumption|]. split.
    + unfold inFlightOK. rewrite Hn, Hm, Hg.
      pose proof (countInProgress_updateSlot slot f (graph pk) v Hv) as Hcount.
      unfold isInProgress in Hcount. rewrite Hready, Hip in Hcount. simpl in Hcount.
      split; [lia|]. intros Hpos. specialize (Hroom Hpos). lia.
    + intros Hrun w' Hin Hw'. rewrite Hr in Hrun. rewrite Hg in Hin.
      destruct (In_updateSlot _ _ _ _ _ Hok Hv Hin) as [-> | [Hold _]].
      * apply Hl. exact Hrun.
      * apply (Ht Hrun w' Hold Hw').
  - split; [|rewrite Hg; apply updateSlot_vertexIdArray].
    intros j w Hw Hf. rewrite Hg.
    assert (Hne : slot <> j).
    { intros ->. rewrite Hv in Hw. inversion Hw; subst w.
      rewrite Hready in Hf. discriminate. }
    rewrite updateSlot_nth_neq by exact Hne. eauto.
Qed.

(** Changes of data: the ids, the states and the listeners stay. *)
Lemma sameStates_flight pk pk' :
  vertexIdArray (graph pk') = vertexIdArray (graph pk) ->
  map v_id (vertexArray (graph pk')) = map v_id (vertexArray (graph pk)) ->
  map v_state (vertexArray (graph pk')) = map v_state (vertexArray (graph pk)) ->
  map startListener (vertexArray (graph pk'))
  = map startListener (vertexArray (graph pk)) ->
  numberOfRunningProcesses pk' = numberOfRunningProcesses pk ->
  maxNumberOfRunningProcesses pk' = maxNumberOfRunningProcesses pk ->
  isCurrentlyRunning pk' = isCurrentlyRunning pk ->
  flightStep pk pk'
  /\ forall id v,
      getVertex (graph pk) id = Return v ->
      exists v1, getVertex (graph pk') id = Return v1 /\ v_state v1 = v_state v.
Proof.
  intros Hids Hvids Hst Hl Hn Hm Hr.
  assert (Hslot : forall j w',
             nth_error (vertexArray (graph pk')) j = Some w' ->
             exists w, nth_error (vertexArray (graph pk)) j = Some w
                       /\ v_state w' = v_state w
                       /\ startListener w' = startListener w).
  { intros j w' Hw'.
    pose proof (map_nth_error v_state _ _ Hw') as H1. rewrite Hst in H1.
    pose proof (map_nth_error startListener _ _ Hw') as H2. rewrite Hl in H2.
    rewrite nth_error_map in H1. rewrite nth_error_map in H2.
    destruct (nth_error (vertexArray (graph pk)) j) as [w|]; [|discriminate].
    simpl in H1, H2. exists w. split; [reflexivity|]. split; congruence. }
  assert (Hslot' : forall j w,
             nth_error (vertexArray (graph pk)) j = Some w ->
             exists w', nth_error (vertexArray (graph pk')) j = Some w'
                        /\ v_state w' = v_state w).
  { intros j w Hw.
    pose proof (map_nth_error v_state _ _ Hw) as H1. rewrite <- Hst in H1.
    rewrite nth_error_map in H1.
    destruct (nth_error (vertexArray (graph pk')) j) as [w'|]; [|discriminate].
    simpl in H1. exists w'. split; [reflexivity | congruence]. }
  split.
  - intros [[Hok1 Hok2] [[Hc Hb] Ht]]. split.
    + split; [split; congruence|]. split.
      * unfold inFlightOK. rewrite Hn, Hm.
        assert (Hip : ipMap (graph pk') = ipMap (graph pk)).
        { unfold ipMap, isInProgress.
          rewrite <- (map_map v_state (fun s => State_eqb s IN_PROGRESS)).
          rewrite <- (map_map v_state (fun s => State_eqb s IN_PROGRESS)
                              (vertexArray (graph pk))).
          rewrite Hst. reflexivity. }
        rewrite (countInProgress_ipMap _ _ Hip). split; assumption.
      * intros Hrun w' Hin Hw'. rewrite Hr in Hrun.
        apply In_nth_error in Hin. destruct Hin as [j Hj].
        destruct (Hslot j w' Hj) as [w [Hw [Hs Hlw]]]. rewrite Hlw.
        apply (Ht Hrun w); [eapply nth_error_In; eauto | congruence].
    + split; [|exact Hids]. intros j w Hw _. apply Hslot'. exact Hw.
  - intros id v Hget. unfold getVertex in *. rewrite Hids.
    destruct (indexOf id (vertexIdArray (graph pk))) as [slot|]; [|discriminate].
    destruct (nth_error (vertexArray (graph pk)) slot) as [w|] eqn:Ew; [|discriminate].
    inversion Hget; subst w.
    destruct (Hslot' slot v Ew) as [w' [Hw' Hs']]. rewrite Hw'. eauto.
Qed.

Lemma assignData_flight this data pk :
  assignData this data pk = (Return tt, snd (assignData this data pk))
  /\ flightStep pk (snd (assignData this data pk))
  /\ forall id v,
      getVertex (graph pk) id = Return v ->
      exists v1, getVertex (graph (snd (assignData this data pk))) id = Return v1
                 /\ v_state v1 = v_state v.
Proof.
  split; [destruct this; reflexivity|].
  apply (sameStates_flight pk (snd (assignData this data pk)));
    destruct this as [slot|k]; simpl; try reflexivity;
    try apply updateSlot_vertexIdArray;
    apply updateSlot_map; intros; reflexivity.
Qed.

Section Reports.

Context {U : UserCode}.

Hypothesis serviceStart_flight :
  forall vertexId r, steps (taskStep vertexId) (serviceStart vertexId r).
Hypothesis finalCallback_flight :
  forall e r, steps flightStep (finalCallback e r).

(** The two branches of [startReadyProcesses] that start a task: the
    count is raised and the vertex is IN_PROGRESS, with its listener
    taken off, before the start function runs. *)
Lemma dispatch_flight x pk v :
  FlightInv pk ->
  getVertexP x pk = (Return v, pk) ->
  v_state v = READY ->
  ((0 < maxNumberOfRunningProcesses pk)%Z ->
   (numberOfRunningProcesses pk < maxNumberOfRunningProcesses pk)%Z) ->
  let pk' := snd ((modify (fun pk => set_numberOfRunningProcesses pk
                                       (numberOfRunningProcesses pk + 1)) ;;;
                   getVertex_setState x IN_PROGRESS) pk) in
  FlightInv pk' /\ settled pk pk'.
Proof using serviceStart_flight.
  intros Hinv Hget Hready Hroom pk'.
  assert (E : pk' = snd ((modify (fun pk => set_numberOfRunningProcesses pk
                                             (numberOfRunningProcesses pk + 1)) ;;;
                          getVertex_setState x IN_PROGRESS) pk)) by reflexivity.
  clearbody pk'.
  destruct (getVertexP_Return x pk v pk Hget) as [_ [slot [Hslot Hv]]].
  unfold bind at 1 in E. unfold modify at 1 in E.
  set (pk1 := set_numberOfRunningProcesses pk (numberOfRunningProcesses pk + 1)) in E.
  assert (Hslot1 : getVertexSlot x pk1 = (Return slot, pk1)).
  { unfold getVertexSlot, liftO in *. simpl in *.
    destruct x as [id|]; [|discriminate].
    destruct (indexOf id (vertexIdArray (graph pk))); [|discriminate].
    destruct (nth_error (vertexArray (graph pk)) n); inversion Hslot; reflexivity. }
  assert (Hidx : indexOf (v_id v) (vertexIdArray (graph pk)) = Some slot).
  { destruct Hinv as [[Hids Hnd] _].
    apply indexOf_nth_NoDup; [exact Hnd|].
    rewrite Hids. apply map_nth_error. exact Hv. }
  unfold getVertex_setState in E. unfold bind at 1 in E. rewrite Hslot1 in E.
  unfold Vertex_setState in E. unfold bind at 1 in E. unfold modify at 1 in E.
  unfold bind at 1 in E. unfold gets at 1 in E. cbv beta iota in E.
  set (pk2 := set_graph pk1 (updateSlot slot (fun v => Vertex_withState v IN_PROGRESS)
                                        (graph pk1))) in E.
  change (isCurrentlyRunning pk2) with (isCurrentlyRunning pk) in E.
  destruct (isCurrentlyRunning pk) eqn:Er.
  2:{ simpl in E. subst pk'.
      apply (started_flight pk pk2 slot v
               (fun v => Vertex_withState v IN_PROGRESS) Hinv Hv Hready Hroom);
        try reflexivity; try exact Er.
      intros Hc. rewrite Er in Hc. discriminate. }
  unfold emitStart in E. unfold bind at 1 in E. unfold get at 1 in E.
  cbv beta iota in E.
  assert (Hv2 : nth_error (vertexArray (graph pk2)) slot
                = Some (Vertex_withState v IN_PROGRESS))
    by (exact (updateSlot_nth_eq slot (fun v => Vertex_withState v IN_PROGRESS)
                 (graph pk) v Hv)).
  rewrite Hv2 in E.
  change (startListener (Vertex_withState v IN_PROGRESS)) with (startListener v) in E.
  destruct (startListener v) eqn:El.
  2:{ simpl in E. subst pk'.
      apply (started_flight pk pk2 slot v
               (fun v => Vertex_withState v IN_PROGRESS) Hinv Hv Hready Hroom);
        try reflexivity; try exact Er.
      intros _. exact El. }
  unfold bind at 1 in E. unfold modify at 1 in E.
  unfold bind at 1 in E. rewrite writeToLog_run in E.
  unfold bind at 1 in E. unfold gets at 1 in E.
  unfold bind at 1 in E. unfold emit at 1 in E. unfold modify at 1 in E.
  match type of E with
  | context [serviceStart ?id ?r ?p] =>
      set (pk5 := p) in E; set (r5 := r) in E; set (id5 := id) in E
  end.
  assert (H5 : FlightInv pk5 /\ settled pk pk5).
  { apply (started_flight pk pk5 slot v
             (fun v => Vertex_withListener (Vertex_withState v IN_PROGRESS) false)
             Hinv Hv Hready Hroom); try reflexivity; try exact Er.
    unfold pk5. simpl. unfold pk2. simpl. apply updateSlot_twice. }
  destruct H5 as [Hinv5 Hk5].
  assert (Hip5 : exists v', getVertex (graph pk5) id5 = Return v'
                            /\ v_state v' = IN_PROGRESS).
  { exists (Vertex_withListener (Vertex_withState v IN_PROGRESS) false).
    split; [|reflexivity].
    unfold getVertex, pk5. simpl. unfold pk2. simpl.
    rewrite !updateSlot_vertexIdArray. unfold id5. simpl. rewrite Hidx.
    rewrite updateSlot_twice.
    rewrite (updateSlot_nth_eq slot _ _ v Hv). reflexivity. }
  destruct (serviceStart_flight id5 r5 pk5 Hinv5 Hip5) as [Hinv6 Hk6].
  subst pk'. split; [exact Hinv6 | eapply settled_trans; eassumption].
Qed.

Lemma startIfReady_flight ids i : steps flightStep (startIfReady ids i).
Proof using serviceStart_flight.
  intros pk. unfold startIfReady. unfold bind at 1.
  destruct (getVertexP (nth_error ids i) pk) as [[v| |] pk1] eqn:E; simpl.
  2-3: (assert (Hp : steps eq (getVertexP (nth_error ids i)))
          by (unfold getVertexP; pure_steps);
        specialize (Hp pk); rewrite E in Hp; simpl in Hp; subst pk1;
        apply flightStep_refl).
  destruct (getVertexP_Return _ _ _ _ E) as [-> _].
  destruct (State_eqb (v_state v) READY) eqn:Hr; [|apply flightStep_refl].
  assert (Hready : v_state v = READY) by (destruct (v_state v); try discriminate; auto).
  unfold bind at 1. unfold gets at 1. unfold bind at 1. unfold gets at 1.
  destruct (Z.ltb_spec 0 (maxNumberOfRunningProcesses pk)) as [Hpos|Hnpos]; simpl.
  - destruct (Z.ltb_spec (numberOfRunningProcesses pk)
                         (maxNumberOfRunningProcesses pk)) as [Hlt|Hge].
    + intros Hinv. apply (dispatch_flight _ pk v Hinv E Hready). auto.
    + destruct (Z.leb_spec (maxNumberOfRunningProcesses pk) 0); [lia|].
      apply flightStep_refl.
  - destruct (Z.leb_spec (maxNumberOfRunningProcesses pk) 0); [|lia].
    intros Hinv. apply (dispatch_flight _ pk v Hinv E Hready). lia.
Qed.

Lemma startReadyProcesses_flight : steps flightStep startReadyProcesses.
Proof using serviceStart_flight.
  pose proof startIfReady_flight. unfold startReadyProcesses.
  steps_split ltac:(solve [auto]) flightStep_refl flightStep_trans.
Qed.

Ltac flight_leaf :=
  first [ solve [auto]
        | apply steps_eq_flight;
          solve [auto using stateFlags_pure, failedStatesError_pure]
        | intro; apply same_flight; reflexivity
        | intro; apply stop_flight ].

Ltac flight_steps := steps_split flight_leaf flightStep_refl flightStep_trans.

Lemma runFinalCallback_flight pkError :
  steps flightStep pkError -> steps flightStep (runFinalCallback pkError).
Proof using finalCallback_flight.
  intros H. unfold runFinalCallback, callFinalCallback, writeToLog, emit.
  flight_steps.
Qed.

(** A commit of a running task, with the decrement: the count is right
    again before propagation starts. *)
Lemma committed_flight pk pk' slot v st :
  FlightInv pk ->
  nth_error (vertexArray (graph pk)) slot = Some v ->
  v_state v = IN_PROGRESS -> st <> IN_PROGRESS ->
  graph pk' = updateSlot slot (fun v => Vertex_withState v st) (graph pk) ->
  numberOfRunningProcesses pk' = (numberOfRunningProcesses pk - 1)%Z ->
  maxNumberOfRunningProcesses pk' = maxNumberOfRunningProcesses pk ->
  isCurrentlyRunning pk' = isCurrentlyRunning pk ->
  FlightInv pk' /\ settled pk pk'.
Proof.
  intros [Hok [[Hc Hb] Ht]] Hv Hip Hne Hg Hn Hm Hr. split.
  - split; [rewrite Hg; apply VOK_updateSlot; [reflexivity | assumption]|]. split.
    + unfold inFlightOK. rewrite Hn, Hm, Hg.
      pose proof (countInProgress_updateSlot slot
                    (fun v => Vertex_withState v st) (graph pk) v Hv) as Hcount.
      unfold isInProgress in Hcount. rewrite Hip in Hcount. simpl in Hcount.
      assert (Hst : State_eqb st IN_PROGRESS = false)
        by (destruct st; try reflexivity; contradiction).
      rewrite Hst in Hcount.
      split; [lia|]. intros Hpos. specialize (Hb Hpos). lia.
    + intros Hrun w' Hin Hw'. rewrite Hr in Hrun. rewrite Hg in Hin.
      destruct (In_updateSlot _ _ _ _ _ Hok Hv Hin) as [-> | [Hold _]].
      * simpl in Hw'. contradiction.
      * apply (Ht Hrun w' Hold Hw').
  - split; [|rewrite Hg; apply updateSlot_vertexIdArray].
    intros j w Hw Hf. rewrite Hg.
    assert (Hneq : slot <> j).
    { intros ->. rewrite Hv in Hw. inversion Hw; subst w.
      rewrite Hip in Hf. discriminate. }
    rewrite updateSlot_nth_neq by exact Hneq. eauto.
Qed.

Lemma commit_run_any vertexId st pk slot v :
  indexOf vertexId (vertexIdArray (graph pk)) = Some slot ->
  nth_error (vertexArray (graph pk)) slot = Some v ->
  st <> IN_PROGRESS ->
  getVertex_setState (Some vertexId) st pk
  = (Return tt,
     set_graph pk (updateSlot slot (fun v => Vertex_withState v st) (graph pk))).
Proof.
  intros Hidx Hn Hst. unfold getVertex_setState.
  rewrite (bind_Return _ _ _ _ _ pk slot pk).
  - apply (Vertex_setState_write slot st pk v Hn). intros Hc. contradiction.
  - unfold getVertexSlot, liftO. rewrite Hidx, Hn. reflexivity.
Qed.

(** A completion event of a running task. *)
Lemma complete_flight vertexId newState st pk v :
  FlightInv pk ->
  getVertex (graph pk) vertexId = Return v ->
  v_state v = IN_PROGRESS ->
  (newState = "SUCCESS" /\ st = SUCCESS) \/ (newState = "FAIL" /\ st = FAIL) ->
  forall pk', pk' = snd (setState vertexId newState pk) ->
  FlightInv pk' /\ settled pk pk' /\ stateOfId (graph pk') vertexId = st.
Proof using serviceStart_flight finalCallback_flight.
  intros Hinv Hget Hip Hst pk' E.
  destruct (getVertex_slot _ _ _ Hget) as [slot [Hidx Hn]].
  assert (Hne : st <> IN_PROGRESS)
    by (destruct Hst as [[_ ->] | [_ ->]]; discriminate).
  assert (Hfin : isFinal st = true)
    by (destruct Hst as [[_ ->] | [_ ->]]; reflexivity).
  pose proof updateStates_flight as Hu.
  pose proof startReadyProcesses_flight as Hd.
  assert (Hc1 : steps flightStep (runFinalCallback failedStatesError))
    by (apply runFinalCallback_flight; flight_steps).
  assert (Hc2 : steps flightStep (runFinalCallback (ret None)))
    by (apply runFinalCallback_flight; flight_steps).
  assert (Hc3 : steps flightStep (runFinalCallback (ret (Some (StateFailed vertexId)))))
    by (apply runFinalCallback_flight; flight_steps).
  assert (Hrest : exists (rest : P unit) pk2,
             pk' = snd (rest pk2) /\ steps flightStep rest
             /\ graph pk2 = updateSlot slot (fun v => Vertex_withState v st) (graph pk)
             /\ numberOfRunningProcesses pk2 = (numberOfRunningProcesses pk - 1)%Z
             /\ maxNumberOfRunningProcesses pk2 = maxNumberOfRunningProcesses pk
             /\ isCurrentlyRunning pk2 = isCurrentlyRunning pk).
  { unfold setState in E. unfold bind at 1 in E. unfold gets at 1 in E.
    unfold hasVertexId in E. rewrite Hidx in E.
    destruct Hst as [[-> ->] | [-> ->]].
    - change (state_of_string "SUCCESS") with (Some SUCCESS) in E. cbv iota beta in E.
      unfold bind at 1 in E.
      rewrite (commit_run_any vertexId SUCCESS pk slot v Hidx Hn Hne) in E.
      unfold afterSuccess in E. unfold bind at 1 in E.
      unfold decrementRunning at 1 in E. unfold modify at 1 in E. cbv beta iota in E.
      match type of E with
      | _ = snd (?m ?p) => exists m, p; split; [exact E|]; split; [flight_steps|]
      end.
      repeat split.
    - change (state_of_string "FAIL") with (Some FAIL) in E. cbv iota beta in E.
      unfold bind at 1 in E.
      rewrite (commit_run_any vertexId FAIL pk slot v Hidx Hn Hne) in E.
      unfold afterFail in E. unfold bind at 1 in E. rewrite writeToLog_run in E.
      unfold bind at 1 in E.
      unfold decrementRunning at 1 in E. unfold modify at 1 in E. cbv beta iota in E.
      match type of E with
      | _ = snd (?m ?p) => exists m, p; split; [exact E|]; split; [flight_steps|]
      end.
      repeat split. }
  destruct Hrest as [rest [pk2 [E2 [Hsteps [Hg [Hn2 [Hm2 Hr2]]]]]]].
  clear E. subst pk'.
  destruct (committed_flight pk pk2 slot v st Hinv Hn Hip Hne Hg Hn2 Hm2 Hr2)
    as [Hinv2 Hk2].
  destruct (Hsteps pk2 Hinv2) as [Hinv3 Hk3].
  split; [exact Hinv3|]. split; [eapply settled_trans; eassumption|].
  destruct Hk3 as [Hkept Hids3]. destruct Hk2 as [_ Hids2].
  destruct (Hkept slot (Vertex_withState v st)) as [w' [Hw' Hs']].
  - rewrite Hg.
    exact (updateSlot_nth_eq slot (fun v => Vertex_withState v st) (graph pk) v Hn).
  - exact Hfin.
  - unfold stateOfId, vertexOfId. rewrite Hids3, Hids2, Hidx, Hw'. exact Hs'.
Qed.

(** A report of a running task, as its emitter or [setState] makes it. *)
Lemma report_flight vertexId c :
  completes vertexId c -> steps (taskStep vertexId) (runCall c).
Proof using serviceStart_flight finalCallback_flight.
  intros Hc pk Hinv [v [Hget Hip]].
  destruct Hc as [-> | [-> | [[this [data ->]] | [this [err ->]]]]]; simpl.
  - destruct (complete_flight vertexId "SUCCESS" SUCCESS pk v Hinv Hget Hip
                (or_introl (conj eq_refl eq_refl)) _ eq_refl) as [H1 [H2 _]].
    split; assumption.
  - destruct (complete_flight vertexId "FAIL" FAIL pk v Hinv Hget Hip
                (or_intror (conj eq_refl eq_refl)) _ eq_refl) as [H1 [H2 _]].
    split; assumption.
  - unfold processSuccessful. unfold bind.
    destruct (assignData_flight this data pk) as [Ha [Hstep Hsame]].
    rewrite Ha. destruct (Hstep Hinv) as [Hinv1 Hk1].
    destruct (Hsame vertexId v Hget) as [v1 [Hget1 Hs1]].
    destruct (complete_flight vertexId "SUCCESS" SUCCESS _ v1 Hinv1 Hget1
                ltac:(congruence) (or_introl (conj eq_refl eq_refl)) _ eq_refl)
      as [H1 [H2 _]].
    split; [exact H1 | eapply settled_trans; eassumption].
  - unfold processFailed.
    destruct (complete_flight vertexId "FAIL" FAIL pk v Hinv Hget Hip
                (or_intror (conj eq_refl eq_refl)) _ eq_refl) as [H1 [H2 _]].
    split; assumption.
Qed.

(** After [start] on a graph built through the interface. *)
Lemma start_flight sharedData pk :
  WF (graph pk) -> FlightInv (run (start sharedData) pk).
Proof using serviceStart_flight.
  intros Hwf.
  assert (E : exists pk1,
             run (start sharedData) pk = snd ((updateStates ;;; startReadyProcesses) pk1)
             /\ FlightInv pk1).
  { unfold run, start.
    unfold bind at 1. unfold modify at 1. unfold bind at 1. unfold modify at 1.
    unfold bind at 1.
    set (pk0 := set_results (set_finalCallbackExecuted pk false) sharedData).
    change (WF (graph pk0)) in Hwf. clearbody pk0.
    destruct (topologicalSort_result (graph pk0) Hwf) as [L [Hts _]].
    unfold liftG at 1. rewrite Hts. rewrite set_graph_id.
    unfold bind at 1. unfold modify at 1. unfold bind at 1. unfold modify at 1.
    unfold bind at 1. unfold modify at 1. unfold bind at 1.
    change (initializeStates (U := U))
      with (initializeStates (U := asynchronous)).
    match goal with
    | |- context [initializeStates ?p] =>
        destruct (initializeStates_spec p) as [pk1 [Hrun [Hf [_ Hall]]]];
        [apply WF_VOK; exact Hwf | rewrite Hrun];
        pose proof (WF_VOK _ (WF_sameFrame p pk1 Hf Hwf)) as Hok1;
        pose proof (sf_number _ _ Hf) as Hn1
    end.
    simpl in Hn1. exists pk1. split; [reflexivity|].
    assert (Hzero : countInProgress (graph pk1) = 0).
    { unfold countInProgress. apply length_zero_iff_nil. apply filter_nil_iff.
      intros v Hv. unfold isInProgress. rewrite (Hall v Hv). reflexivity. }
    split; [exact Hok1|]. split.
    - unfold inFlightOK. rewrite Hn1, Hzero. split; [reflexivity | lia].
    - intros _ v Hv Hip. rewrite (Hall v Hv) in Hip. discriminate. }
  destruct E as [pk1 [-> Hinv1]].
  pose proof updateStates_flight. pose proof startReadyProcesses_flight.
  assert (Hm : steps flightStep (updateStates ;;; startReadyProcesses))
    by flight_steps.
  apply (Hm pk1 Hinv1).
Qed.

Lemma campaign_flight pk : campaign pk -> FlightInv pk.
Proof using serviceStart_flight finalCallback_flight.
  induction 1 as [pk d Hwf | pk id st v _ IH Hget Hip Hst].
  - apply start_flight. exact Hwf.
  - destruct Hst as [-> | ->].
    + apply (complete_flight id "SUCCESS" SUCCESS pk v IH Hget Hip
               (or_introl (conj eq_refl eq_refl)) _ eq_refl).
    + apply (complete_flight id "FAIL" FAIL pk v IH Hget Hip
               (or_intror (conj eq_refl eq_refl)) _ eq_refl).
Qed.

End Reports.

(** The functions of a program whose tasks report at most once keep the
    count right, at every depth. *)
Lemma scripted_flight fuel code :
  reportsOnce code ->
  (forall vertexId r,
      steps (taskStep vertexId)
            (serviceStart (UserCode := scripted fuel code) vertexId r))
  /\ (forall e r,
        steps flightStep (finalCallback (UserCode := scripted fuel code) e r)).
Proof.
  intros [Hs Hc]. induction fuel as [|fuel [IHs IHc]].
  - split; intros; intros pk Hinv; try intros _;
      (split; [exact Hinv | apply settled_refl]).
  - split.
    + intros vertexId r pk. simpl.
      destruct (Hs vertexId r) as [-> | [c [-> Hcomp]]]; simpl.
      * intros Hinv _. split; [exact Hinv | apply settled_refl].
      * pose proof (report_flight (U := scripted fuel code) IHs IHc vertexId c
                      Hcomp pk) as Hrep.
        unfold bind. destruct (runCall c pk) as [[[]| |] pk1]; exact Hrep.
    + intros e r pk. simpl. rewrite Hc. simpl. apply flightStep_refl.
Qed.

Lemma reportAtOnce_reportsOnce atOnce serviceOf :
  reportsOnce (reportAtOnce atOnce serviceOf).
Proof.
  split; [|intros; reflexivity].
  intros vertexId r. simpl. destruct (atOnce vertexId); [right | left; reflexivity].
  eexists. split; [reflexivity|]. right. right. left. eauto.
Qed.

Lemma scripted_campaign_flight fuel code pk :
  reportsOnce code -> campaign (U := scripted fuel code) pk -> FlightInv pk.
Proof.
  intros Hcode Hc. destruct (scripted_flight fuel code Hcode) as [Hs Hf].
  apply (campaign_flight (U := scripted fuel code) Hs Hf pk Hc).
Qed.

Lemma filter_some A (f : A -> bool) (l : list A) k x :
  nth_error l k = Some x -> f x = true -> 1 <= length (filter f l).
Proof.
  revert k; induction l as [|a l IH]; intros [|k] Hk Hx; simpl in *; try discriminate.
  - inversion Hk; subst a. rewrite Hx. simpl. lia.
  - specialize (IH k Hk Hx). destruct (f a); simpl; lia.
Qed.

(** A completion event of a running task, whatever way the tasks report:
    the vertex takes the state, and the count follows the vertices. *)
Lemma scripted_commit fuel code pk vertexId newState st v :
  reportsOnce code ->
  campaign (U := scripted fuel code) pk ->
  getVertex (graph pk) vertexId = Return v ->
  v_state v = IN_PROGRESS ->
  (newState = "SUCCESS" /\ st = SUCCESS) \/ (newState = "FAIL" /\ st = FAIL) ->
  let pk' := run (setState (U := scripted fuel code) vertexId newState) pk in
  stateOfId (graph pk') vertexId = st
  /\ 1 <= endedBetween (graph pk) (graph pk')
  /\ numberOfRunningProcesses pk'
     = (numberOfRunningProcesses pk
        - Z.of_nat (endedBetween (graph pk) (graph pk'))
        + Z.of_nat (startedBetween (graph pk) (graph pk')))%Z.
Proof.
  intros Hcode Hc Hget Hip Hst pk'.
  pose proof (scripted_campaign_flight fuel code pk Hcode Hc) as Hinv.
  destruct (scripted_flight fuel code Hcode) as [Hs Hf].
  destruct (complete_flight (U := scripted fuel code) Hs Hf vertexId newState st pk v
              Hinv Hget Hip Hst pk' eq_refl) as [Hinv' [[Hkept Hids] Hstate]].
  destruct Hinv as [Hok [[Hn _] _]]. destruct Hinv' as [Hok' [[Hn' _] _]].
  assert (Hlen : length (vertexArray (graph pk')) = length (vertexArray (graph pk))).
  { rewrite <- (VOK_length _ Hok'), <- (VOK_length _ Hok), Hids. reflexivity. }
  pose proof (countInProgress_between (graph pk) (graph pk') Hlen) as Hcount.
  destruct (getVertex_slot _ _ _ Hget) as [slot [Hidx Hv]].
  assert (Hended : 1 <= endedBetween (graph pk) (graph pk')).
  { unfold stateOfId, vertexOfId in Hstate. rewrite Hids, Hidx in Hstate.
    destruct (nth_error (vertexArray (graph pk')) slot) as [w'|] eqn:Ew'.
    - unfold endedBetween. apply (filter_some _ _ _ slot (v, w')).
      + apply nth_error_combine_Some; assumption.
      + simpl. unfold isInProgress. rewrite Hip, Hstate.
        destruct Hst as [[_ ->] | [_ ->]]; reflexivity.
    - apply nth_error_None in Ew'.
      assert (slot < length (vertexArray (graph pk)))
        by (apply nth_error_Some; congruence).
      lia. }
  split; [exact Hstate|]. split; [exact Hended | lia].
Qed.

(** The sample tasks of the repository on the diamond: every task reports
    success inside its start function, so [start] returns with every
    vertex SUCCESS, the final callback made and the scheduler stopped. *)
Lemma start_with_tasks_that_report_at_once :
  let pk := run (start (U := scripted 9 (reportAtOnce (fun _ => true) diamondServices))
                       (JObj []))
                diamondPK in
  vertexStates pk = [("A", SUCCESS); ("B", SUCCESS); ("C", SUCCESS); ("D", SUCCESS)]
  /\ isCurrentlyRunning pk = false
  /\ countFinalCallbacks (trace pk) = 1
  /\ numberOfRunningProcesses pk = 0%Z.
Proof. vm_compute. repeat split. Qed.

(** * The properties of the specification

    A statement that names no program is about the scheduler run with the
    program [asynchronous]: the start function of a task returns without
    calling the scheduler, the task reports later, in a call of its own,
    and the final callback leaves the scheduler alone. A statement about
    every program names it: [scripted fuel code]. *)

(** C1. Whatever a program does with a scheduler (declarations, calls of
    [start], of [setState], completion events in any number and order),
    and whatever its start functions and its final callback do in turn
    (a task that reports inside its start function, a callback that calls
    the scheduler again), in every campaign, from one call of [start] to
    the next, [finalCallback] is called at most once; it is not called
    before the next [start] when [finalCallbackExecuted] is set, and the
    flag is set once the campaign under way has made its callback. The
    block of the callback tests the flag first and does nothing when it is
    set; otherwise it sets the flag before it builds the error and calls
    [finalCallback], which therefore runs on a scheduler whose flag is
    set. *)
Theorem finalCallback_at_most_once :
  forall (fuel : nat) (code : Program),
    (forall (uses : list Use) (pk : PigeonKeeper),
        exists evs,
          trace (runUses (U := scripted fuel code) uses pk) = trace pk ++ evs
          /\ Forall (fun c => countFinalCallbacks c <= 1) (campaigns evs)
          /\ (finalCallbackExecuted pk = true ->
              countFinalCallbacks (hd [] (campaigns evs)) = 0)
          /\ (countFinalCallbacks (last (campaigns evs) []) = 1 ->
              finalCallbackExecuted (runUses (U := scripted fuel code) uses pk)
              = true))
    /\ (forall (pkError : P (option PkError)) (pk : PigeonKeeper),
          (finalCallbackExecuted pk = true ->
           runFinalCallback (U := scripted fuel code) pkError pk = (Return tt, pk))
          /\ (finalCallbackExecuted pk = false ->
              exists pk1,
                finalCallbackExecuted pk1 = true
                /\ trace pk1
                   = trace pk
                     ++ [EvLog "INFO" (logLine (pkGuid pk) "Final callback executing")]
                /\ runFinalCallback (U := scripted fuel code) pkError pk
                   = (e <- pkError ;;
                      callFinalCallback (U := scripted fuel code) e ;;;
                      writeToLog "INFO" "Final callback executed") pk1)).
Proof.
  intros fuel code. split.
  - intros uses pk.
    destruct (scripted_runUses_guarded fuel code uses pk) as [evs [T C]].
    destruct (C (finalCallbackExecuted pk) (fun E => E)) as [seen' [Hs Hf]].
    exists evs. split; [exact T|].
    destruct (campaignScan_campaigns evs _ _ Hs) as [Hall Hhd].
    split; [exact Hall|]. split; [exact Hhd|].
    intros Hlast. apply Hf. apply (campaignScan_last evs _ _ Hs). exact Hlast.
  - intros pkError pk. split; intros F.
    + unfold runFinalCallback. unfold bind at 1. unfold gets at 1.
      rewrite F. reflexivity.
    + exists (set_finalCallbackExecuted
                (set_trace pk
                   (trace pk
                    ++ [EvLog "INFO" (logLine (pkGuid pk) "Final callback executing")]))
                true).
      split; [reflexivity|]. split; [reflexivity|].
      unfold runFinalCallback. unfold bind at 1. unfold gets at 1.
      rewrite F. reflexivity.
Qed.

(** C2. Propagation on a well-formed graph, with an order whose first
    [vertexCount()] entries are ids of vertices: [updateStates] returns,
    and the state of every vertex after the call is the state that the rule
    of the specification gives on the states before the call, if its id is
    among those entries, and its state before the call otherwise; nothing
    else of the scheduler changes but the trace. *)
Theorem updateStates_two_pass :
  forall (pk : PigeonKeeper) (order : list string),
    WF (graph pk) ->
    topologicalSortOrder pk = Some order ->
    (forall i, i < vertexCount (graph pk) ->
               exists id, nth_error order i = Some id
                          /\ In id (vertexIdArray (graph pk))) ->
    exists pk',
      updateStates pk = (Return tt, pk')
      /\ sameFrame pk pk'
      /\ forall j v,
          nth_error (vertexArray (graph pk)) j = Some v ->
          exists v',
            nth_error (vertexArray (graph pk')) j = Some v'
            /\ v_id v' = v_id v
            /\ v_state v' = if visited (graph pk) order (v_id v)
                            then spec_newState (graph pk) v
                            else v_state v.
Proof.
  intros pk order Hwf Ho Hord.
  destruct (updateStates_spec pk order Hwf Ho Hord) as [pk' [Hrun [Hfr Hst]]].
  exists pk'. split; [exact Hrun|]. split; [exact Hfr|].
  intros j v Hv. destruct (Hst j v Hv) as [v' [Hv' Hs]].
  exists v'. split; [exact Hv'|]. split; [|exact Hs].
  apply (sameFrame_v_id pk pk' j); assumption.
Qed.

Lemma updateStates_two_pass_witness :
  exists pk',
    updateStates failedChain = (Return tt, pk')
    /\ sameFrame failedChain pk'
    /\ forall j v,
        nth_error (vertexArray (graph failedChain)) j = Some v ->
        exists v',
          nth_error (vertexArray (graph pk')) j = Some v'
          /\ v_id v' = v_id v
          /\ v_state v' = if visited (graph failedChain) ["A"; "B"; "C"] (v_id v)
                          then spec_newState (graph failedChain) v
                          else v_state v.
Proof.
  apply (updateStates_two_pass failedChain ["A"; "B"; "C"]).
  - exact failedChain_WF.
  - vm_compute. reflexivity.
  - intros i Hi.
    assert (Hc : vertexCount (graph failedChain) = 3) by (vm_compute; reflexivity).
    rewrite Hc in Hi.
    destruct i as [|[|[|i]]]; [| | |lia]; eexists; (split; [reflexivity|]);
      vm_compute; tauto.
Defined.

(** C3 (as stated, refuted). On the graph without vertices
    [topologicalSort] returns the empty list, and the graph has no cycle. *)
Lemma topologicalSort_empty_graph :
  ~ (fst (topologicalSort emptyDigraph) = Return [] <-> has_cycle emptyDigraph).
Proof.
  intros [H _]. destruct (H eq_refl) as [v Hv].
  inversion Hv as [a b Hin | a b c Hin _]; destruct Hin.
Qed.

(** C3 (amended). On a well-formed graph [topologicalSort] returns the
    empty list if and only if the graph has a cycle or has no vertex;
    when the graph has no cycle it returns every vertex exactly once, and
    for every edge (s, e) the vertex s before the vertex e. *)
Theorem topologicalSort_kahn :
  forall g : Digraph,
    WF g ->
    exists L,
      fst (topologicalSort g) = Return L
      /\ (L = [] <-> has_cycle g \/ vertexCount g = 0)
      /\ (~ has_cycle g ->
          NoDup (vertexIdsFromArray L)
          /\ Permutation (vertexIdsFromArray L) (vertexIdArray g)
          /\ forall s e, In (s, e) (edges g) ->
                         before (vertexIdsFromArray L) s e).
Proof.
  intros g Hwf. destruct (topologicalSort_result g Hwf) as [L [Hrun [Hnil Hdag]]].
  exists L. rewrite Hrun. split; [reflexivity|]. split; [exact Hnil|].
  intros Hacyc. destruct (Hdag Hacyc) as [Hnd [Hall Hord]].
  split; [exact Hnd|]. split; [|exact Hord].
  apply NoDup_Permutation; [exact Hnd | apply Hwf | exact Hall].
Qed.

Lemma topologicalSort_kahn_witness :
  exists L,
    fst (topologicalSort diamond) = Return L
    /\ (L = [] <-> has_cycle diamond \/ vertexCount diamond = 0)
    /\ (~ has_cycle diamond ->
        NoDup (vertexIdsFromArray L)
        /\ Permutation (vertexIdsFromArray L) (vertexIdArray diamond)
        /\ forall s e, In (s, e) (edges diamond) ->
                       before (vertexIdsFromArray L) s e).
Proof. apply (topologicalSort_kahn diamond). exact diamond_WF. Defined.

(** C4 (as stated, refuted). One task A, at most one task running: after
    [start] the task emits "error" and then "success". Both listeners are
    in place, so [setState] commits twice for the one start, and
    [numberOfRunningProcesses] is -1 although the bound is 1. *)
Lemma inFlight_negative_after_two_reports :
  let pk := runUses [UseStart (JObj []);
                     UseCall (CallEmit false 0 (JStr "boom"));
                     UseCall (CallEmit true 0 (JStr "done"))] singlePK in
  (0 < maxNumberOfRunningProcesses pk)%Z
  /\ numberOfRunningProcesses pk = (-1)%Z
  /\ ~ ((0 < maxNumberOfRunningProcesses pk)%Z ->
        (0 <= numberOfRunningProcesses pk <= maxNumberOfRunningProcesses pk)%Z).
Proof.
  vm_compute. split; [reflexivity|]. split; [reflexivity|].
  intros H. destruct (H eq_refl) as [H0 _]. apply H0. reflexivity.
Qed.

(** C4 (amended). In a campaign ([start] on a graph built through the
    interface, then completion events) in which every report is for a task
    that is running, its vertex being IN_PROGRESS (each task reports at
    most once inside its start function, or later in a completion event),
    [numberOfRunningProcesses] is the number of vertices IN_PROGRESS, and
    when [maxNumberOfRunningProcesses] is positive it stays between 0 and
    that bound. A completion event puts the new state in the vertex, and
    the count follows the vertices that leave and enter IN_PROGRESS, the
    completing one among those that leave. When the tasks report after
    their start function has returned, the commit takes exactly this one
    vertex out of IN_PROGRESS: the count after the call is the count
    before, less one, plus the number of tasks that the call started. *)
Theorem inFlight_bounded :
  forall (fuel : nat) (code : Program) (pk : PigeonKeeper),
    reportsOnce code ->
    campaign (U := scripted fuel code) pk ->
    (numberOfRunningProcesses pk = Z.of_nat (countInProgress (graph pk))
     /\ ((0 < maxNumberOfRunningProcesses pk)%Z ->
         (0 <= numberOfRunningProcesses pk <= maxNumberOfRunningProcesses pk)%Z))
    /\ (forall (vertexId newState : string) (st : State) (v : Vertex),
          getVertex (graph pk) vertexId = Return v ->
          v_state v = IN_PROGRESS ->
          (newState = "SUCCESS" /\ st = SUCCESS) \/ (newState = "FAIL" /\ st = FAIL) ->
          let pk' := run (setState (U := scripted fuel code) vertexId newState) pk in
          stateOfId (graph pk') vertexId = st
          /\ 1 <= endedBetween (graph pk) (graph pk')
          /\ numberOfRunningProcesses pk'
             = (numberOfRunningProcesses pk
                - Z.of_nat (endedBetween (graph pk) (graph pk'))
                + Z.of_nat (startedBetween (graph pk) (graph pk')))%Z)
    /\ (forall (pk0 : PigeonKeeper) (vertexId newState : string) (st : State)
               (v : Vertex),
          campaign (U := asynchronous) pk0 ->
          getVertex (graph pk0) vertexId = Return v ->
          v_state v = IN_PROGRESS ->
          (newState = "SUCCESS" /\ st = SUCCESS) \/ (newState = "FAIL" /\ st = FAIL) ->
          let pk' := run (setState (U := asynchronous) vertexId newState) pk0 in
          stateOfId (graph pk') vertexId = st
          /\ endedBetween (graph pk0) (graph pk') = 1
          /\ numberOfRunningProcesses pk'
             = (numberOfRunningProcesses pk0 - 1
                + Z.of_nat (startedBetween (graph pk0) (graph pk')))%Z
          /\ maxNumberOfRunningProcesses pk' = maxNumberOfRunningProcesses pk0).
Proof.
  intros fuel code pk Hcode Hc. split; [|split].
  - destruct (scripted_campaign_flight fuel code pk Hcode Hc) as [_ [[Hn Hb] _]].
    split; [exact Hn|]. intros Hpos. specialize (Hb Hpos). lia.
  - intros vertexId newState st v Hget Hip Hst.
    apply (scripted_commit fuel code pk vertexId newState st v); assumption.
  - intros pk0 vertexId newState st v Hc0 Hget Hip Hst pk'.
    destruct (campaign_inFlightOK pk0 Hc0) as [Hn Hb].
    destruct (commit_ends_one vertexId newState st pk0 v Hc0 Hget Hip Hst)
      as [Hlen [Hend Hstate]].
    assert (Hst' : newState = "SUCCESS" \/ newState = "FAIL")
      by (destruct Hst as [[-> _] | [-> _]]; auto).
    assert (Hc' : campaign pk')
      by (apply (campaign_complete pk0 vertexId newState v); assumption).
    destruct (campaign_inFlightOK pk' Hc') as [Hn' _].
    pose proof (countInProgress_between (graph pk0) (graph pk') Hlen) as Hcount.
    fold pk' in Hend, Hstate. rewrite Hend in Hcount.
    split; [exact Hstate|]. split; [exact Hend|]. split; [lia|].
    apply (setState_complete vertexId newState pk0 v Hget Hip Hst').
    split; assumption.
Qed.

Lemma inFlight_bounded_witness :
  let code := reportAtOnce (fun vertexId => String.eqb vertexId "A") diamondServices in
  let pk := run (start (U := scripted 9 code) (JObj [])) diamondPK in
  (numberOfRunningProcesses pk = Z.of_nat (countInProgress (graph pk))
   /\ ((0 < maxNumberOfRunningProcesses pk)%Z ->
       (0 <= numberOfRunningProcesses pk <= maxNumberOfRunningProcesses pk)%Z))
  /\ (forall (vertexId newState : string) (st : State) (v : Vertex),
        getVertex (graph pk) vertexId = Return v ->
        v_state v = IN_PROGRESS ->
        (newState = "SUCCESS" /\ st = SUCCESS) \/ (newState = "FAIL" /\ st = FAIL) ->
        let pk' := run (setState (U := scripted 9 code) vertexId newState) pk in
        stateOfId (graph pk') vertexId = st
        /\ 1 <= endedBetween (graph pk) (graph pk')
        /\ numberOfRunningProcesses pk'
           = (numberOfRunningProcesses pk
              - Z.of_nat (endedBetween (graph pk) (graph pk'))
              + Z.of_nat (startedBetween (graph pk) (graph pk')))%Z)
  /\ (forall (pk0 : PigeonKeeper) (vertexId newState : string) (st : State)
             (v : Vertex),
        campaign (U := asynchronous) pk0 ->
        getVertex (graph pk0) vertexId = Return v ->
        v_state v = IN_PROGRESS ->
        (newState = "SUCCESS" /\ st = SUCCESS) \/ (newState = "FAIL" /\ st = FAIL) ->
        let pk' := run (setState (U := asynchronous) vertexId newState) pk0 in
        stateOfId (graph pk') vertexId = st
        /\ endedBetween (graph pk0) (graph pk') = 1
        /\ numberOfRunningProcesses pk'
           = (numberOfRunningProcesses pk0 - 1
              + Z.of_nat (startedBetween (graph pk0) (graph pk')))%Z
        /\ maxNumberOfRunningProcesses pk' = maxNumberOfRunningProcesses pk0).
Proof.
  apply (inFlight_bounded 9
           (reportAtOnce (fun vertexId => String.eqb vertexId "A") diamondServices)
           (run (start (U := scripted 9
                               (reportAtOnce (fun vertexId => String.eqb vertexId "A")
                                             diamondServices))
                       (JObj []))
                diamondPK)).
  - apply reportAtOnce_reportsOnce.
  - apply campaign_start. exact diamondPK_WF.
Defined.

(** C5. [topologicalSort] on a well-formed graph returns, with a cycle or
    without, and leaves the graph as it was: the arrays of the start ids
    and of the end ids of the edges are the arrays before the call. *)
Theorem topologicalSort_non_destructive :
  forall g : Digraph,
    WF g ->
    (exists L, fst (topologicalSort g) = Return L)
    /\ startVertexIdArray (snd (topologicalSort g)) = startVertexIdArray g
    /\ endVertexIdArray (snd (topologicalSort g)) = endVertexIdArray g
    /\ snd (topologicalSort g) = g.
Proof.
  intros g Hwf. destruct (topologicalSort_result g Hwf) as [L [Hrun _]].
  rewrite Hrun. simpl. split; [exists L; reflexivity | auto].
Qed.

Lemma topologicalSort_non_destructive_witness :
  ((exists L, fst (topologicalSort twoCycle) = Return L)
   /\ startVertexIdArray (snd (topologicalSort twoCycle)) = startVertexIdArray twoCycle
   /\ endVertexIdArray (snd (topologicalSort twoCycle)) = endVertexIdArray twoCycle
   /\ snd (topologicalSort twoCycle) = twoCycle)
  /\ ((exists L, fst (topologicalSort diamond) = Return L)
      /\ startVertexIdArray (snd (topologicalSort diamond)) = startVertexIdArray diamond
      /\ endVertexIdArray (snd (topologicalSort diamond)) = endVertexIdArray diamond
      /\ snd (topologicalSort diamond) = diamond).
Proof.
  split.
  - apply (topologicalSort_non_destructive twoCycle). exact twoCycle_WF.
  - apply (topologicalSort_non_destructive diamond). exact diamond_WF.
Defined.

(** C6 (as stated, refuted). On the chain A -> B -> C with A failed, the
    first run of [updateStates] fails B and leaves C NOT_READY, the second
    run fails C: two runs do not leave the states of one run. *)
Lemma updateStates_not_idempotent :
  vertexStates (run updateStates failedChain)
    = [("A", FAIL); ("B", FAIL); ("C", NOT_READY)]
  /\ vertexStates (run updateStates (run updateStates failedChain))
    = [("A", FAIL); ("B", FAIL); ("C", FAIL)]
  /\ vertexStates (run updateStates (run updateStates failedChain))
     <> vertexStates (run updateStates failedChain).
Proof.
  split; [vm_compute; reflexivity|]. split; [vm_compute; reflexivity|].
  intros H. vm_compute in H. discriminate H.
Qed.

(** C6 (amended). On a well-formed graph, with an order whose first
    [vertexCount()] entries are ids of vertices, [updateStates] run twice
    in a row returns twice; a vertex that is not NOT_READY after the first
    run has the same state after the second; and when no NOT_READY vertex
    has a NOT_READY parent before the first run, every vertex has the same
    state after the second run as after the first. *)
Theorem updateStates_idempotent_when_settled :
  forall (pk : PigeonKeeper) (order : list string),
    WF (graph pk) ->
    topologicalSortOrder pk = Some order ->
    (forall i, i < vertexCount (graph pk) ->
               exists id, nth_error order i = Some id
                          /\ In id (vertexIdArray (graph pk))) ->
    exists pk1 pk2,
      updateStates pk = (Return tt, pk1)
      /\ updateStates pk1 = (Return tt, pk2)
      /\ (forall j v1 v2,
            nth_error (vertexArray (graph pk1)) j = Some v1 ->
            nth_error (vertexArray (graph pk2)) j = Some v2 ->
            v_state v1 <> NOT_READY -> v_state v2 = v_state v1)
      /\ ((forall v p, In v (vertexArray (graph pk)) -> v_state v = NOT_READY ->
                       In p (parentsOf (graph pk) v) -> v_state p <> NOT_READY) ->
          map v_state (vertexArray (graph pk2))
          = map v_state (vertexArray (graph pk1))).
Proof. intros pk order. apply updateStates_twice. Qed.

Lemma updateStates_idempotent_when_settled_witness :
  exists pk1 pk2,
    updateStates (run updateStates failedChain) = (Return tt, pk1)
    /\ updateStates pk1 = (Return tt, pk2)
    /\ (forall j v1 v2,
          nth_error (vertexArray (graph pk1)) j = Some v1 ->
          nth_error (vertexArray (graph pk2)) j = Some v2 ->
          v_state v1 <> NOT_READY -> v_state v2 = v_state v1)
    /\ ((forall v p,
            In v (vertexArray (graph (run updateStates failedChain))) ->
            v_state v = NOT_READY ->
            In p (parentsOf (graph (run updateStates failedChain)) v) ->
            v_state p <> NOT_READY) ->
        map v_state (vertexArray (graph pk2))
        = map v_state (vertexArray (graph pk1))).
Proof.
  apply (updateStates_idempotent_when_settled
           (run updateStates failedChain) ["A"; "B"; "C"]).
  - solve_WF.
  - vm_compute. reflexivity.
  - intros i Hi.
    assert (Hc : vertexCount (graph (run updateStates failedChain)) = 3)
      by (vm_compute; reflexivity).
    rewrite Hc in Hi.
    destruct i as [|[|[|i]]]; [| | |lia]; eexists; (split; [reflexivity|]);
      vm_compute; tauto.
Defined.

(** C7 (the code at the failing input). Chain A -> B -> C,
    [quitOnFailure = false]: after [start], the task of A emits its error.
    The commit to FAIL runs propagation twice, after which A, B and C are
    all FAIL; yet no final callback is made, the flag is not set and the
    scheduler is still running: the test uses the flags computed before
    the second propagation, when C was still NOT_READY. *)
Theorem failure_of_a_chain_is_not_reported :
  let pk := run (Service_emit false 0 (JStr "boom")) (run (start (JObj [])) chainPK) in
  vertexStates (run (start (JObj [])) chainPK)
    = [("A", IN_PROGRESS); ("B", NOT_READY); ("C", NOT_READY)]
  /\ quitOnFailure pk = false
  /\ vertexStates pk = [("A", FAIL); ("B", FAIL); ("C", FAIL)]
  /\ fst (stateFlags pk) = Return (false, true, true)
  /\ countFinalCallbacks (trace pk) = 0
  /\ finalCallbackExecuted pk = false
  /\ isCurrentlyRunning pk = true.
Proof. vm_compute. repeat split. Qed.

(** C8 (the code at the failing input). [removeVertex] calls
    [vertexIdArray.index], which no array has: the call throws a TypeError
    before anything is removed, for every graph and every id; after
    [addVertex("A")] on the empty graph and [removeVertex("A")] the graph
    still has one vertex. *)
Theorem removeVertex_always_throws :
  (forall g id,
      removeVertex id g
      = (Throw (TypeError "vertexIdArray.index is not a function"), g))
  /\ vertexCount emptyDigraph = 0
  /\ vertexCount (snd (removeVertex "A" (snd (addVertex "A" (JObj []) emptyDigraph))))
     = 1.
Proof. split; [intros g id; reflexivity | split; reflexivity]. Qed.

(** C9 (the code at the failing input). One task A: after [start] the
    task emits "success" with the payload "payload". [processSuccessful]
    runs with [this] bound to the emitter: the payload is stored in the
    property [data] of the service, the data of the vertex is still the
    empty object of [addVertex], and the vertex is SUCCESS. Called on the
    vertex itself, the same function stores the payload in the vertex. *)
Theorem processSuccessful_stores_on_the_emitter :
  let pk0 := run (start (JObj [])) singlePK in
  let pk := run (Service_emit true 0 (JStr "payload")) pk0 in
  map v_data (vertexArray (graph pk)) = [JObj []]
  /\ map s_data (services pk) = [JStr "payload"]
  /\ vertexStates pk = [("A", SUCCESS)]
  /\ map v_data (vertexArray (graph
           (run (processSuccessful "A" (RefVertex 0) (JStr "payload")) pk0)))
     = [JStr "payload"].
Proof. vm_compute. repeat split. Qed.

(** C10. For the id of a vertex of the graph and [newState] "NOT_READY"
    or "READY", [setState] returns and writes that state into that vertex:
    the scheduler after the call is the scheduler before the call with the
    state of the vertex replaced; so the count of running tasks, the flags
    [isCurrentlyRunning] and [finalCallbackExecuted], [results], the edges,
    the ids and data of all vertices and every other vertex are as before,
    and the trace is as before: no propagation, no dispatch, no callback. *)
Theorem setState_NOT_READY_READY_frame :
  forall (pk : PigeonKeeper) (vertexId newState : string) (v : Vertex),
    getVertex (graph pk) vertexId = Return v ->
    newState = "NOT_READY" \/ newState = "READY" ->
    exists slot st,
      state_of_string newState = Some st
      /\ nth_error (vertexArray (graph pk)) slot = Some v
      /\ setState vertexId newState pk
         = (Return tt,
            set_graph pk (updateSlot slot (fun v => Vertex_withState v st) (graph pk)))
      /\ sameFrame pk (run (setState vertexId newState) pk)
      /\ trace (run (setState vertexId newState) pk) = trace pk
      /\ nth_error (vertexArray (graph (run (setState vertexId newState) pk))) slot
         = Some (Vertex_withState v st)
      /\ forall j, j <> slot ->
           nth_error (vertexArray (graph (run (setState vertexId newState) pk))) j
           = nth_error (vertexArray (graph pk)) j.
Proof.
  intros pk vertexId newState v Hget Hst.
  destruct (setState_inert vertexId newState pk v Hget Hst)
    as [slot [st [Hidx [Hv [Hs [_ Hrun]]]]]].
  exists slot, st. split; [exact Hs|]. split; [exact Hv|]. split; [exact Hrun|].
  unfold run. rewrite Hrun. simpl. split.
  - apply (updateSlot_sameFrame slot (fun v => Vertex_withState v st));
      intros; reflexivity.
  - split; [reflexivity|]. split.
    + apply (updateSlot_nth_eq slot (fun v => Vertex_withState v st) _ v Hv).
    + intros j Hj. apply updateSlot_nth_neq. auto.
Qed.

Lemma setState_NOT_READY_READY_frame_witness :
  exists slot st,
    state_of_string "READY" = Some st
    /\ nth_error (vertexArray (graph chainPK)) slot = Some (vtx "B")
    /\ setState "B" "READY" chainPK
       = (Return tt,
          set_graph chainPK
            (updateSlot slot (fun v => Vertex_withState v st) (graph chainPK)))
    /\ sameFrame chainPK (run (setState "B" "READY") chainPK)
    /\ trace (run (setState "B" "READY") chainPK) = trace chainPK
    /\ nth_error (vertexArray (graph (run (setState "B" "READY") chainPK))) slot
       = Some (Vertex_withState (vtx "B") st)
    /\ forall j, j <> slot ->
         nth_error (vertexArray (graph (run (setState "B" "READY") chainPK))) j
         = nth_error (vertexArray (graph chainPK)) j.
Proof.
  apply (setState_NOT_READY_READY_frame chainPK "B" "READY" (vtx "B")).
  - vm_compute. reflexivity.
  - right. reflexivity.
Defined.

(** * Further properties of the digraph and of the scheduler

    A statement that names no program is about the scheduler run with the
    program [asynchronous]: the start function of a task returns without
    calling the scheduler, the task reports later, in a call of its own,
    and the final callback leaves the scheduler alone. A statement about
    every program names it: [scripted fuel code]. *)

(** X1. Every digraph obtained from the empty one by calls of [addVertex],
    [addEdge], [removeVertex], [removeEdge] and [topologicalSort], in any
    number and order and with any arguments, failed calls included, is
    well formed: the vertex arrays are parallel, the ids are pairwise
    different, the edge arrays are parallel, every edge joins two vertices
    of the graph, and no edge occurs twice. *)
Theorem built_digraph_is_well_formed :
  forall ops : list GraphOp, WF (applyOps ops emptyDigraph).
Proof. intros ops. apply applyOps_WF. exact emptyDigraph_WF. Qed.

(** X2. [addVertex] with an id that the graph does not have returns the
    new vertex, in state NOT_READY and with the data given; [getVertex]
    then finds it under its id and finds every other id as before; the
    graph has one vertex more and the same edges. *)
Theorem addVertex_then_getVertex :
  forall (g : Digraph) (id : string) (data : JsVal),
    length (vertexIdArray g) = length (vertexArray g) ->
    hasVertexId g id = false ->
    fst (addVertex id data g) = Return (mkVertex id NOT_READY data false)
    /\ getVertex (snd (addVertex id data g)) id
       = Return (mkVertex id NOT_READY data false)
    /\ (forall x, x <> id ->
          getVertex (snd (addVertex id data g)) x = getVertex g x)
    /\ vertexCount (snd (addVertex id data g)) = S (vertexCount g)
    /\ edges (snd (addVertex id data g)) = edges g.
Proof.
  intros g id data Hlen Hfresh.
  destruct (addVertex_lookup g id data Hlen Hfresh) as [H1 H2].
  split; [rewrite addVertex_fresh by assumption; reflexivity|].
  split; [exact H1|]. split; [exact H2|].
  rewrite addVertex_fresh by assumption. unfold vertexCount, edges. simpl.
  rewrite length_app. simpl. split; [lia | reflexivity].
Qed.

Lemma addVertex_then_getVertex_witness :
  fst (addVertex "E" (JStr "d") diamond) = Return (mkVertex "E" NOT_READY (JStr "d") false)
  /\ getVertex (snd (addVertex "E" (JStr "d") diamond)) "E"
     = Return (mkVertex "E" NOT_READY (JStr "d") false)
  /\ (forall x, x <> "E" ->
        getVertex (snd (addVertex "E" (JStr "d") diamond)) x = getVertex diamond x)
  /\ vertexCount (snd (addVertex "E" (JStr "d") diamond)) = S (vertexCount diamond)
  /\ edges (snd (addVertex "E" (JStr "d") diamond)) = edges diamond.
Proof.
  apply (addVertex_then_getVertex diamond "E" (JStr "d")); reflexivity.
Defined.

(** X3. An id is taken once: whatever the graph, the id and the data, a
    second [addVertex] with the id of a first one throws "Duplicate Vertex
    ID" and leaves the graph as the first call left it. *)
Theorem addVertex_twice_throws :
  forall (g : Digraph) (id : string) (d1 d2 : JsVal),
    addVertex id d2 (snd (addVertex id d1 g))
    = (Throw (Error "Duplicate Vertex ID"), snd (addVertex id d1 g)).
Proof.
  intros g id d1 d2. apply addVertex_known. apply addVertex_hasVertexId.
Qed.

(** X4. On a graph with parallel edge arrays [addEdge] returns exactly
    when both ids are ids of vertices, they differ and the edge is not in
    the graph; it then appends the edge and touches nothing else; when it
    does not return, the graph is as before. *)
Theorem addEdge_returns_iff :
  forall (g : Digraph) (s e : string),
    length (startVertexIdArray g) = length (endVertexIdArray g) ->
    (fst (addEdge s e g) = Return tt <->
     hasVertexId g s = true /\ hasVertexId g e = true /\ s <> e
     /\ ~ In (s, e) (edges g))
    /\ (fst (addEdge s e g) = Return tt ->
        edges (snd (addEdge s e g)) = edges g ++ [(s, e)]
        /\ vertexArray (snd (addEdge s e g)) = vertexArray g
        /\ vertexIdArray (snd (addEdge s e g)) = vertexIdArray g)
    /\ (fst (addEdge s e g) <> Return tt -> snd (addEdge s e g) = g).
Proof.
  intros g s e Hlen.
  destruct (addEdge_run g s e Hlen)
    as [[Hs [He [Hne [Hnin Hrun]]]] | [err [Hrun Hwhy]]]; rewrite Hrun; simpl.
  - split; [tauto|]. split; [|intros H; exfalso; apply H; reflexivity].
    intros _. unfold edges. simpl. rewrite combine_snoc by exact Hlen. auto.
  - split; [|split; [discriminate | reflexivity]].
    split; [discriminate|]. intros [Hs [He [Hne Hnin]]].
    destruct Hwhy as [H|[H|[H|H]]]; congruence || contradiction.
Qed.

Lemma addEdge_returns_iff_witness :
  (fst (addEdge "A" "D" diamond) = Return tt <->
   hasVertexId diamond "A" = true /\ hasVertexId diamond "D" = true /\ "A" <> "D"
   /\ ~ In ("A", "D") (edges diamond))
  /\ (fst (addEdge "A" "D" diamond) = Return tt ->
      edges (snd (addEdge "A" "D" diamond)) = edges diamond ++ [("A", "D")]
      /\ vertexArray (snd (addEdge "A" "D" diamond)) = vertexArray diamond
      /\ vertexIdArray (snd (addEdge "A" "D" diamond)) = vertexIdArray diamond)
  /\ (fst (addEdge "A" "D" diamond) <> Return tt ->
      snd (addEdge "A" "D" diamond) = diamond).
Proof. apply (addEdge_returns_iff diamond "A" "D"). reflexivity. Defined.

(** X5. Undoing [addEdge]: when [addEdge(s, e)] returns, [removeEdge(s, e)]
    returns too and the digraph is again the one before the two calls, edge
    arrays entry by entry. *)
Theorem addEdge_then_removeEdge :
  forall (g : Digraph) (s e : string),
    length (startVertexIdArray g) = length (endVertexIdArray g) ->
    fst (addEdge s e g) = Return tt ->
    removeEdge s e (snd (addEdge s e g)) = (Return tt, g).
Proof. exact addEdge_removeEdge_run. Qed.

Lemma addEdge_then_removeEdge_witness :
  removeEdge "A" "D" (snd (addEdge "A" "D" diamond)) = (Return tt, diamond).
Proof. apply (addEdge_then_removeEdge diamond "A" "D"); reflexivity. Defined.

(** X6. The other way round the edge moves to the end of the edge arrays:
    on a well-formed digraph, for an edge (s, e) of the graph with s and e
    different, [removeEdge(s, e)] and then [addEdge(s, e)] both return, and
    the graph has the same vertices and the same edges as before, the
    edges up to their order. *)
Theorem removeEdge_then_addEdge :
  forall (g : Digraph) (s e : string),
    WF g -> In (s, e) (edges g) -> s <> e ->
    exists g1 g2,
      removeEdge s e g = (Return tt, g1)
      /\ addEdge s e g1 = (Return tt, g2)
      /\ Permutation (edges g2) (edges g)
      /\ vertexArray g2 = vertexArray g
      /\ vertexIdArray g2 = vertexIdArray g.
Proof. exact removeEdge_addEdge_run. Qed.

Lemma removeEdge_then_addEdge_witness :
  exists g1 g2,
    removeEdge "A" "B" diamond = (Return tt, g1)
    /\ addEdge "A" "B" g1 = (Return tt, g2)
    /\ Permutation (edges g2) (edges diamond)
    /\ vertexArray g2 = vertexArray diamond
    /\ vertexIdArray g2 = vertexIdArray diamond.
Proof.
  apply (removeEdge_then_addEdge diamond "A" "B").
  - exact diamond_WF.
  - vm_compute. auto.
  - discriminate.
Defined.

(** X7. On a well-formed digraph [removeEdge(s, e)] of an edge of the graph
    returns and removes that edge and no other: one edge less, the indegree
    of e and the outdegree of s one less, the vertices untouched. For a
    pair that is no edge of the graph it throws "Edge Doesn't Exist" and
    changes nothing. *)
Theorem removeEdge_outcome :
  forall (g : Digraph) (s e : string),
    WF g ->
    (In (s, e) (edges g) ->
     exists g',
       removeEdge s e g = (Return tt, g')
       /\ edgeCount g' + 1 = edgeCount g
       /\ (forall p, In p (edges g') <-> In p (edges g) /\ p <> (s, e))
       /\ indegree g' e + 1 = indegree g e
       /\ outdegree g' s + 1 = outdegree g s
       /\ vertexArray g' = vertexArray g
       /\ vertexIdArray g' = vertexIdArray g)
    /\ (~ In (s, e) (edges g) ->
        removeEdge s e g = (Throw (Error "Edge Doesn't Exist"), g)).
Proof.
  intros g s e Hwf. split.
  - apply removeEdge_present. exact Hwf.
  - apply removeEdge_absent. apply Hwf.
Qed.

Lemma removeEdge_outcome_witness :
  (In ("A", "B") (edges diamond) ->
   exists g',
     removeEdge "A" "B" diamond = (Return tt, g')
     /\ edgeCount g' + 1 = edgeCount diamond
     /\ (forall p, In p (edges g') <-> In p (edges diamond) /\ p <> ("A", "B"))
     /\ indegree g' "B" + 1 = indegree diamond "B"
     /\ outdegree g' "A" + 1 = outdegree diamond "A"
     /\ vertexArray g' = vertexArray diamond
     /\ vertexIdArray g' = vertexIdArray diamond)
  /\ (~ In ("A", "B") (edges diamond) ->
      removeEdge "A" "B" diamond = (Throw (Error "Edge Doesn't Exist"), diamond)).
Proof. apply (removeEdge_outcome diamond "A" "B"). exact diamond_WF. Defined.

(** X8. Every edge is counted once at its end and once at its start: on a
    well-formed digraph the indegrees of the vertices add up to
    [edgeCount()], and so do the outdegrees. *)
Theorem degrees_add_up_to_edgeCount :
  forall g : Digraph,
    WF g ->
    list_sum (map (indegree g) (vertexIdArray g)) = edgeCount g
    /\ list_sum (map (outdegree g) (vertexIdArray g)) = edgeCount g.
Proof.
  intros g Hwf. rewrite (edgeCount_edges g (wf_parallel g Hwf)). split.
  - apply (degree_sum (vertexIdArray g) (edges g) snd (wf_nodup g Hwf)).
    intros [s e] Hin. apply (wf_endpoints g Hwf s e Hin).
  - apply (degree_sum (vertexIdArray g) (edges g) fst (wf_nodup g Hwf)).
    intros [s e] Hin. apply (wf_endpoints g Hwf s e Hin).
Qed.

Lemma degrees_add_up_to_edgeCount_witness :
  list_sum (map (indegree diamond) (vertexIdArray diamond)) = edgeCount diamond
  /\ list_sum (map (outdegree diamond) (vertexIdArray diamond)) = edgeCount diamond.
Proof. apply (degrees_add_up_to_edgeCount diamond). exact diamond_WF. Defined.

(** X9. [getVerticesWithIndegree0], which searches the array of edge ends,
    agrees with [indegree], which counts along the array of edge starts:
    with parallel edge arrays it returns the vertices of indegree 0 and no
    other, in the order of the vertex array. *)
Theorem getVerticesWithIndegree0_are_the_roots :
  forall g : Digraph,
    length (startVertexIdArray g) = length (endVertexIdArray g) ->
    getVerticesWithIndegree0 g
    = filter (fun v => Nat.eqb (indegree g (v_id v)) 0) (vertexArray g)
    /\ forall v, In v (getVerticesWithIndegree0 g)
                 <-> In v (vertexArray g) /\ indegree g (v_id v) = 0.
Proof.
  intros g Hlen. rewrite (getVerticesWithIndegree0_indegree g Hlen).
  split; [reflexivity|]. intros v. rewrite filter_In, Nat.eqb_eq. tauto.
Qed.

Lemma getVerticesWithIndegree0_are_the_roots_witness :
  getVerticesWithIndegree0 diamond
  = filter (fun v => Nat.eqb (indegree diamond (v_id v)) 0) (vertexArray diamond)
  /\ forall v, In v (getVerticesWithIndegree0 diamond)
               <-> In v (vertexArray diamond) /\ indegree diamond (v_id v) = 0.
Proof. apply (getVerticesWithIndegree0_are_the_roots diamond). reflexivity. Defined.

(** X10. Children and parents are the two readings of one edge set: on a
    well-formed digraph [getChildVertexIds(p)] and [getParentVertexIds(c)]
    return, c is among the children of p exactly when p is among the
    parents of c, exactly when (p, c) is an edge; the lists have
    [outdegree(p)] and [indegree(c)] entries. *)
Theorem children_and_parents_agree :
  forall (g : Digraph) (p c : string),
    WF g ->
    exists cs ps,
      getChildVertexIds g p = Return cs
      /\ getParentVertexIds g c = Return ps
      /\ (In c cs <-> In (p, c) (edges g))
      /\ (In p ps <-> In (p, c) (edges g))
      /\ length cs = outdegree g p
      /\ length ps = indegree g c.
Proof.
  intros g p c Hwf. eexists. eexists.
  split; [apply getChildVertexIds_run; exact Hwf|].
  split; [apply getParentVertexIds_run; exact Hwf|].
  split; [apply childIds_In|].
  split.
  - rewrite in_map_iff. split.
    + intros [[s e] [Hs Hin]]. simpl in Hs. subst s.
      apply filter_In in Hin. destruct Hin as [Hin He]. simpl in He.
      apply String.eqb_eq in He. subst e. exact Hin.
    + intros Hin. exists (p, c). split; [reflexivity|].
      apply filter_In. split; [exact Hin|]. simpl. apply String.eqb_refl.
  - unfold childIds, outdegree, indegree. rewrite !length_map. split; reflexivity.
Qed.

Lemma children_and_parents_agree_witness :
  exists cs ps,
    getChildVertexIds diamond "A" = Return cs
    /\ getParentVertexIds diamond "D" = Return ps
    /\ (In "D" cs <-> In ("A", "D") (edges diamond))
    /\ (In "A" ps <-> In ("A", "D") (edges diamond))
    /\ length cs = outdegree diamond "A"
    /\ length ps = indegree diamond "D".
Proof. apply (children_and_parents_agree diamond "A" "D"). exact diamond_WF. Defined.

(** X11. With the vertex arrays parallel and the ids pairwise different,
    [getVertex(id)] returns a vertex exactly when that vertex is in the
    graph and has the id [id], and throws "Vertex Not Found" exactly when
    [hasVertexId(id)] is false. *)
Theorem getVertex_finds_the_vertex_with_that_id :
  forall (g : Digraph) (id : string),
    vertexIdArray g = map v_id (vertexArray g) ->
    NoDup (vertexIdArray g) ->
    (forall v, getVertex g id = Return v <-> In v (vertexArray g) /\ v_id v = id)
    /\ (getVertex g id = Throw (Error "Vertex Not Found") <-> hasVertexId g id = false).
Proof. intros g id H1 H2. apply getVertex_spec. split; assumption. Qed.

Lemma getVertex_finds_the_vertex_with_that_id_witness :
  (forall v, getVertex diamond "C" = Return v
             <-> In v (vertexArray diamond) /\ v_id v = "C")
  /\ (getVertex diamond "C" = Throw (Error "Vertex Not Found")
      <-> hasVertexId diamond "C" = false).
Proof.
  apply (getVertex_finds_the_vertex_with_that_id diamond "C").
  - reflexivity.
  - apply diamond_WF.
Defined.

(** X12. Whatever a program does with a scheduler made by the constructor
    (it makes emitters, calls [addVertex], [addEdge], [start] and
    [setState], its tasks emit "success" and "error", in any number and
    order, with any arguments, calls that throw included), and whatever
    its start functions and its final callback do in turn, the digraph of
    the scheduler is well formed at every moment: parallel arrays, ids
    pairwise different, every edge between two vertices of the graph, no
    edge twice. *)
Theorem scheduler_graph_is_well_formed :
  forall (fuel : nat) (code : Program) (uses : list Use)
         (pkName guid : string) (quitOnFailure : bool)
         (maxNumRunningProcesses : Z),
    WF (graph (runUses (U := scripted fuel code) uses
                 (newPigeonKeeper pkName guid quitOnFailure maxNumRunningProcesses))).
Proof. intros. apply scripted_runUses_WF. exact emptyDigraph_WF. Qed.

(** X13. [setState] checks the vertex first and the state second: for an
    id that is no vertex of the graph it throws "Vertex Not Found", for a
    vertex of the graph and a string that is none of the five state names
    it throws "Invalid State"; in both cases the scheduler is as before. *)
Theorem setState_rejects_unknown_vertex_and_state :
  forall (pk : PigeonKeeper) (vertexId newState : string),
    hasVertexId (graph pk) vertexId = false \/ ~ In newState VALID_STATES ->
    setState vertexId newState pk
    = (Throw (Error (if hasVertexId (graph pk) vertexId
                     then "Invalid State" else "Vertex Not Found")), pk).
Proof. intros pk vertexId newState. apply setState_rejects. Qed.

Lemma setState_rejects_unknown_vertex_and_state_witness :
  setState "A" "success" diamondPK = (Throw (Error "Invalid State"), diamondPK).
Proof.
  apply (setState_rejects_unknown_vertex_and_state diamondPK "A" "success").
  right. vm_compute. intuition discriminate.
Defined.

(** X14. A task that reports before [start] was ever called: with
    [topologicalSortOrder] still undefined, [setState(id, "SUCCESS")] and
    [setState(id, "FAIL")] on a vertex of the graph throw a TypeError, but
    only after the state of the vertex was changed and
    [numberOfRunningProcesses] decremented; no final callback is made and
    the flags are as before. *)
Theorem setState_before_start_throws_after_the_commit :
  forall (pk : PigeonKeeper) (vertexId newState : string) (v : Vertex),
    topologicalSortOrder pk = None ->
    getVertex (graph pk) vertexId = Return v ->
    newState = "SUCCESS" \/ newState = "FAIL" ->
    exists msg st pk',
      setState vertexId newState pk = (Throw (TypeError msg), pk')
      /\ state_name st = newState
      /\ getVertex (graph pk') vertexId = Return (Vertex_withState v st)
      /\ (numberOfRunningProcesses pk' = numberOfRunningProcesses pk - 1)%Z
      /\ finalCallbackExecuted pk' = finalCallbackExecuted pk
      /\ isCurrentlyRunning pk' = isCurrentlyRunning pk
      /\ countFinalCallbacks (trace pk') = countFinalCallbacks (trace pk).
Proof.
  intros pk vertexId newState v. apply setState_before_start.
Qed.

Lemma setState_before_start_throws_after_the_commit_witness :
  exists msg st pk',
    setState "A" "SUCCESS" singlePK = (Throw (TypeError msg), pk')
    /\ state_name st = "SUCCESS"
    /\ getVertex (graph pk') "A"
       = Return (Vertex_withState (mkVertex "A" NOT_READY (JObj []) true) st)
    /\ (numberOfRunningProcesses pk' = numberOfRunningProcesses singlePK - 1)%Z
    /\ finalCallbackExecuted pk' = finalCallbackExecuted singlePK
    /\ isCurrentlyRunning pk' = isCurrentlyRunning singlePK
    /\ countFinalCallbacks (trace pk') = countFinalCallbacks (trace singlePK).
Proof.
  apply (setState_before_start_throws_after_the_commit singlePK "A" "SUCCESS").
  - vm_compute. reflexivity.
  - vm_compute. reflexivity.
  - left. reflexivity.
Defined.

(** X15. [addEdge] accepts edges that close a cycle, and [start] does
    not report the cycle: on a well-formed graph with a cycle [start]
    throws "Vertex Not Found" (from [updateStates], which reads the empty
    topological order). No task is started and no callback is made, every
    vertex is NOT_READY, and the scheduler is left with [isRunning()]
    true. *)
Theorem start_on_a_cycle_throws :
  forall (pk : PigeonKeeper) (sharedData : JsVal),
    WF (graph pk) -> has_cycle (graph pk) ->
    exists pk',
      start sharedData pk = (Throw (Error "Vertex Not Found"), pk')
      /\ (forall v, In v (vertexArray (graph pk')) -> v_state v = NOT_READY)
      /\ trace pk' = trace pk
      /\ isCurrentlyRunning pk' = true
      /\ topologicalSortOrder pk' = Some []
      /\ numberOfRunningProcesses pk' = 0%Z
      /\ finalCallbackExecuted pk' = false.
Proof. intros pk sharedData. apply start_cycle. Qed.

Lemma start_on_a_cycle_throws_witness :
  exists pk',
    start (JObj []) cyclePK = (Throw (Error "Vertex Not Found"), pk')
    /\ (forall v, In v (vertexArray (graph pk')) -> v_state v = NOT_READY)
    /\ trace pk' = trace cyclePK
    /\ isCurrentlyRunning pk' = true
    /\ topologicalSortOrder pk' = Some []
    /\ numberOfRunningProcesses pk' = 0%Z
    /\ finalCallbackExecuted pk' = false.
Proof.
  apply (start_on_a_cycle_throws cyclePK (JObj [])).
  - exact cyclePK_WF.
  - exact cyclePK_has_cycle.
Defined.

(** X16. When the start functions of the tasks return without calling the
    scheduler, [startReadyProcesses], on vertex arrays that are parallel
    with pairwise different ids, returns; the one change of state it makes
    is from READY to IN_PROGRESS, it never lowers
    [numberOfRunningProcesses], and it leaves a vertex READY only when
    [maxNumberOfRunningProcesses] is positive and reached. It touches no
    id, no data, no edge and no flag. *)
Theorem startReadyProcesses_starts_what_the_bound_allows :
  forall (U : UserCode) (pk : PigeonKeeper),
    (forall vertexId r p, serviceStart (UserCode := U) vertexId r p = (Return tt, p)) ->
    VOK (graph pk) ->
    exists pk',
      startReadyProcesses (U := U) pk = (Return tt, pk')
      /\ sameSetup pk pk'
      /\ (numberOfRunningProcesses pk <= numberOfRunningProcesses pk')%Z
      /\ (forall j v,
             nth_error (vertexArray (graph pk)) j = Some v ->
             exists v',
               nth_error (vertexArray (graph pk')) j = Some v'
               /\ (v_state v <> READY -> v_state v' = v_state v)
               /\ (v_state v = READY ->
                   v_state v' = IN_PROGRESS \/ v_state v' = READY))
      /\ ((exists v', In v' (vertexArray (graph pk')) /\ v_state v' = READY) ->
          (0 < maxNumberOfRunningProcesses pk <= numberOfRunningProcesses pk')%Z).
Proof.
  intros U pk Hret Hok.
  rewrite (startReadyProcesses_returns (U := U) Hret pk).
  destruct (startReadyProcesses_spec pk Hok) as [pk' [Hrun [Hs [Hn Hall]]]].
  exists pk'. split; [exact Hrun|]. split; [exact Hs|]. split; [exact Hn|]. split.
  - intros j v Hv. destruct (Hall j v Hv) as [v' [Hv' [Hk Hg]]].
    exists v'. split; [exact Hv'|]. split; [exact Hk|].
    intros Hr. destruct (Hg Hr) as [H|[H _]]; auto.
  - intros [v' [Hin Hr]]. apply In_nth_error in Hin. destruct Hin as [j Hj].
    destruct (nth_error (vertexArray (graph pk)) j) as [v|] eqn:Ev.
    + destruct (Hall j v Ev) as [w [Hw [Hk Hg]]].
      assert (w = v') by congruence. subst w.
      destruct (State_eqb (v_state v) READY) eqn:E.
      * apply State_eqb_eq in E. destruct (Hg E) as [H|[_ H]]; [congruence | lia].
      * assert (Hne : v_state v <> READY)
          by (intros Hc; rewrite Hc in E; discriminate).
        rewrite (Hk Hne) in Hr. contradiction.
    + apply nth_error_None in Ev.
      assert (j < length (vertexArray (graph pk')))
        by (apply nth_error_Some; congruence).
      rewrite (sameSetup_length _ _ Hs) in *. lia.
Qed.

Lemma startReadyProcesses_starts_what_the_bound_allows_witness :
  exists pk',
    startReadyProcesses (U := asynchronous) (run (setState "A" "READY") diamondPK)
    = (Return tt, pk')
    /\ sameSetup (run (setState "A" "READY") diamondPK) pk'
    /\ (numberOfRunningProcesses (run (setState "A" "READY") diamondPK)
        <= numberOfRunningProcesses pk')%Z
    /\ (forall j v,
           nth_error (vertexArray (graph (run (setState "A" "READY") diamondPK))) j
           = Some v ->
           exists v',
             nth_error (vertexArray (graph pk')) j = Some v'
             /\ (v_state v <> READY -> v_state v' = v_state v)
             /\ (v_state v = READY ->
                 v_state v' = IN_PROGRESS \/ v_state v' = READY))
    /\ ((exists v', In v' (vertexArray (graph pk')) /\ v_state v' = READY) ->
        (0 < maxNumberOfRunningProcesses (run (setState "A" "READY") diamondPK)
         <= numberOfRunningProcesses pk')%Z).
Proof.
  apply (startReadyProcesses_starts_what_the_bound_allows asynchronous
           (run (setState "A" "READY") diamondPK)).
  - intros vertexId r p. reflexivity.
  - split; vm_compute; [reflexivity | solve_NoDup].
Defined.

(** X17. When the start functions of the tasks return without calling the
    scheduler, [start] on a well-formed graph without a cycle returns.
    After it the stored order is the topological order, [isRunning()] is
    true, the callback flag is cleared and the results are the shared data
    given; ids, data and edges are as before; every vertex of indegree 0
    is IN_PROGRESS, or READY when [maxNumberOfRunningProcesses] is
    positive and reached, and every other vertex is NOT_READY. *)
Theorem start_on_an_acyclic_graph :
  forall (U : UserCode) (pk : PigeonKeeper) (sharedData : JsVal),
    (forall vertexId r p, serviceStart (UserCode := U) vertexId r p = (Return tt, p)) ->
    WF (graph pk) -> ~ has_cycle (graph pk) ->
    exists pk' L,
      start (U := U) sharedData pk = (Return tt, pk')
      /\ fst (topologicalSort (graph pk)) = Return L
      /\ topologicalSortOrder pk' = Some (vertexIdsFromArray L)
      /\ isCurrentlyRunning pk' = true
      /\ finalCallbackExecuted pk' = false
      /\ results pk' = sharedData
      /\ map v_id (vertexArray (graph pk')) = map v_id (vertexArray (graph pk))
      /\ map v_data (vertexArray (graph pk')) = map v_data (vertexArray (graph pk))
      /\ edges (graph pk') = edges (graph pk)
      /\ forall v', In v' (vertexArray (graph pk')) ->
           (indegree (graph pk) (v_id v') = 0 ->
            v_state v' = IN_PROGRESS
            \/ (v_state v' = READY
                /\ (0 < maxNumberOfRunningProcesses pk
                    <= numberOfRunningProcesses pk')%Z))
           /\ (indegree (graph pk) (v_id v') <> 0 -> v_state v' = NOT_READY).
Proof.
  intros U pk sharedData Hret.
  rewrite (start_returns (U := U) Hret sharedData pk). apply start_dag.
Qed.

Lemma start_on_an_acyclic_graph_witness :
  exists pk' L,
    start (U := asynchronous) (JObj []) diamondPK = (Return tt, pk')
    /\ fst (topologicalSort (graph diamondPK)) = Return L
    /\ topologicalSortOrder pk' = Some (vertexIdsFromArray L)
    /\ isCurrentlyRunning pk' = true
    /\ finalCallbackExecuted pk' = false
    /\ results pk' = JObj []
    /\ map v_id (vertexArray (graph pk')) = map v_id (vertexArray (graph diamondPK))
    /\ map v_data (vertexArray (graph pk'))
       = map v_data (vertexArray (graph diamondPK))
    /\ edges (graph pk') = edges (graph diamondPK)
    /\ forall v', In v' (vertexArray (graph pk')) ->
         (indegree (graph diamondPK) (v_id v') = 0 ->
          v_state v' = IN_PROGRESS
          \/ (v_state v' = READY
              /\ (0 < maxNumberOfRunningProcesses diamondPK
                  <= numberOfRunningProcesses pk')%Z))
         /\ (indegree (graph diamondPK) (v_id v') <> 0 -> v_state v' = NOT_READY).
Proof.
  apply (start_on_an_acyclic_graph asynchronous diamondPK (JObj [])).
  - intros vertexId r p. reflexivity.
  - exact diamondPK_WF.
  - exact diamondPK_acyclic.
Defined.

(** X18. Dependencies are respected. In a campaign ([start] on a
    well-formed graph, then completion events of running tasks, in any
    order and of either kind; the tasks report after their start function
    has returned), whenever a vertex is READY, IN_PROGRESS or SUCCESS,
    every vertex it depends on is SUCCESS: no task is released before all
    its parents have succeeded. *)
Theorem dependencies_are_respected :
  forall (pk : PigeonKeeper) (v p : Vertex),
    campaign pk ->
    In v (vertexArray (graph pk)) -> In p (vertexArray (graph pk)) ->
    In (v_id p, v_id v) (edges (graph pk)) ->
    v_state v = READY \/ v_state v = IN_PROGRESS \/ v_state v = SUCCESS ->
    v_state p = SUCCESS.
Proof.
  intros pk v p Hc Hv Hp He Hst.
  destruct (campaign_SafeInv pk Hc) as [_ [Hsafe _]].
  apply (Hsafe v p Hv Hp He).
  destruct Hst as [-> | [-> | ->]]; reflexivity.
Qed.

Lemma dependencies_are_respected_witness :
  v_state (mkVertex "A" SUCCESS (JObj []) false) = SUCCESS.
Proof.
  apply (dependencies_are_respected
           (run (setState "A" "SUCCESS") (run (start (JObj [])) diamondPK))
           (mkVertex "B" IN_PROGRESS (JObj []) false)
           (mkVertex "A" SUCCESS (JObj []) false)).
  - apply (campaign_complete _ "A" "SUCCESS" (mkVertex "A" IN_PROGRESS (JObj []) false)).
    + apply campaign_start. exact diamondPK_WF.
    + vm_compute. reflexivity.
    + reflexivity.
    + left. reflexivity.
  - vm_compute. auto.
  - vm_compute. auto.
  - vm_compute. auto.
  - right. left. reflexivity.
Defined.

(** X19. The success of the last task. On a well-formed graph with the
    order stored by [start], when the final callback has not been made
    and every other vertex is SUCCESS or FAIL, [setState(id, "SUCCESS")]
    returns, the scheduler stops running, and the final callback is made
    exactly here: with null when no vertex is FAIL, else with
    {name: "Failed States", message: the ids of the FAIL vertices in
    vertex order}; in both cases with the shared results. (The callback
    itself leaves the scheduler alone.) *)
Theorem last_success_makes_the_final_callback :
  forall (pk : PigeonKeeper) (vertexId : string) (order : list string) (v : Vertex),
    WF (graph pk) -> topologicalSortOrder pk = Some order ->
    (forall i, i < vertexCount (graph pk) ->
               exists id, nth_error order i = Some id
                          /\ In id (vertexIdArray (graph pk))) ->
    finalCallbackExecuted pk = false ->
    getVertex (graph pk) vertexId = Return v ->
    (forall w, In w (vertexArray (graph pk)) -> w <> v ->
               v_state w = SUCCESS \/ v_state w = FAIL) ->
    exists pk',
      setState vertexId "SUCCESS" pk = (Return tt, pk')
      /\ isCurrentlyRunning pk' = false
      /\ finalCallbackExecuted pk' = true
      /\ (numberOfRunningProcesses pk' = numberOfRunningProcesses pk - 1)%Z
      /\ (forall w', In w' (vertexArray (graph pk')) ->
                     v_state w' = SUCCESS \/ v_state w' = FAIL)
      /\ getVertex (graph pk') vertexId = Return (Vertex_withState v SUCCESS)
      /\ trace pk'
         = trace pk
           ++ (if existsb (fun w => State_eqb (v_state w) FAIL)
                          (vertexArray (graph pk'))
               then [EvLog "ERROR" (logLine (pkGuid pk) "One task failed, :-(");
                     EvLog "INFO" (logLine (pkGuid pk) "Final callback executing");
                     EvFinalCallback
                       (Some (FailedStates (idsInState (graph pk') FAIL)))
                       (results pk);
                     EvLog "INFO" (logLine (pkGuid pk) "Final callback executed")]
               else [EvLog "INFO" (logLine (pkGuid pk)
                                     "All tasks completed successfully, ooh RAH!");
                     EvLog "INFO" (logLine (pkGuid pk) "Final callback executing");
                     EvFinalCallback None (results pk);
                     EvLog "INFO" (logLine (pkGuid pk) "Final callback executed")]).
Proof.
  intros pk vertexId order v. apply last_success.
Qed.

Lemma last_success_makes_the_final_callback_witness :
  exists pk',
    setState "A" "SUCCESS" (run (start (JObj [])) singlePK) = (Return tt, pk')
    /\ isCurrentlyRunning pk' = false
    /\ finalCallbackExecuted pk' = true
    /\ (numberOfRunningProcesses pk'
        = numberOfRunningProcesses (run (start (JObj [])) singlePK) - 1)%Z
    /\ (forall w', In w' (vertexArray (graph pk')) ->
                   v_state w' = SUCCESS \/ v_state w' = FAIL)
    /\ getVertex (graph pk') "A"
       = Return (Vertex_withState (mkVertex "A" IN_PROGRESS (JObj []) false) SUCCESS)
    /\ trace pk'
       = trace (run (start (JObj [])) singlePK)
         ++ (if existsb (fun w => State_eqb (v_state w) FAIL)
                        (vertexArray (graph pk'))
             then [EvLog "ERROR" (logLine (pkGuid (run (start (JObj [])) singlePK))
                                    "One task failed, :-(");
                   EvLog "INFO" (logLine (pkGuid (run (start (JObj [])) singlePK))
                                   "Final callback executing");
                   EvFinalCallback
                     (Some (FailedStates (idsInState (graph pk') FAIL)))
                     (results (run (start (JObj [])) singlePK));
                   EvLog "INFO" (logLine (pkGuid (run (start (JObj [])) singlePK))
                                   "Final callback executed")]
             else [EvLog "INFO" (logLine (pkGuid (run (start (JObj [])) singlePK))
                                   "All tasks completed successfully, ooh RAH!");
                   EvLog "INFO" (logLine (pkGuid (run (start (JObj [])) singlePK))
                                   "Final callback executing");
                   EvFinalCallback None (results (run (start (JObj [])) singlePK));
                   EvLog "INFO" (logLine (pkGuid (run (start (JObj [])) singlePK))
                                   "Final callback executed")]).
Proof.
  apply (last_success_makes_the_final_callback
           (run (start (JObj [])) singlePK) "A" ["A"]
           (mkVertex "A" IN_PROGRESS (JObj []) false)).
  - solve_WF.
  - vm_compute. reflexivity.
  - intros i Hi. vm_compute in Hi. destruct i as [|i]; [|lia].
    exists "A". vm_compute. auto.
  - vm_compute. reflexivity.
  - vm_compute. reflexivity.
  - intros w Hw Hne. vm_compute in Hw. destruct Hw as [Hw|[]].
    exfalso. apply Hne. symmetry. exact Hw.
Defined.

(** X20. Quitting on failure. With [quitOnFailure] true, on a well-formed
    graph with the order stored by [start] and the final callback not
    yet made, [setState(id, "FAIL")] returns, the vertex is FAIL, the
    scheduler stops running and the final callback is made once, with
    {name: "State Failed", message: id} and the shared results. (The
    callback itself leaves the scheduler alone.) *)
Theorem failure_with_quitOnFailure_makes_the_final_callback :
  forall (pk : PigeonKeeper) (vertexId : string) (order : list string) (v : Vertex),
    WF (graph pk) -> topologicalSortOrder pk = Some order ->
    (forall i, i < vertexCount (graph pk) ->
               exists id, nth_error order i = Some id
                          /\ In id (vertexIdArray (graph pk))) ->
    finalCallbackExecuted pk = false ->
    quitOnFailure pk = true ->
    getVertex (graph pk) vertexId = Return v ->
    exists pk' evs,
      setState vertexId "FAIL" pk = (Return tt, pk')
      /\ isCurrentlyRunning pk' = false
      /\ finalCallbackExecuted pk' = true
      /\ (numberOfRunningProcesses pk' = numberOfRunningProcesses pk - 1)%Z
      /\ (exists v', getVertex (graph pk') vertexId = Return v' /\ v_state v' = FAIL)
      /\ countFinalCallbacks evs = 0
      /\ trace pk'
         = trace pk
           ++ [EvLog "ERROR" (logLine (pkGuid pk) "Task failed - darn!")]
           ++ evs
           ++ [EvLog "INFO" (logLine (pkGuid pk) "Final callback executing");
               EvFinalCallback (Some (StateFailed vertexId)) (results pk);
               EvLog "INFO" (logLine (pkGuid pk) "Final callback executed")].
Proof.
  intros pk vertexId order v. apply quit_on_failure.
Qed.

Lemma failure_with_quitOnFailure_makes_the_final_callback_witness :
  exists pk' evs,
    setState "A" "FAIL" (run (start (JObj [])) diamondPK) = (Return tt, pk')
    /\ isCurrentlyRunning pk' = false
    /\ finalCallbackExecuted pk' = true
    /\ (numberOfRunningProcesses pk'
        = numberOfRunningProcesses (run (start (JObj [])) diamondPK) - 1)%Z
    /\ (exists v', getVertex (graph pk') "A" = Return v' /\ v_state v' = FAIL)
    /\ countFinalCallbacks evs = 0
    /\ trace pk'
       = trace (run (start (JObj [])) diamondPK)
         ++ [EvLog "ERROR" (logLine (pkGuid (run (start (JObj [])) diamondPK))
                              "Task failed - darn!")]
         ++ evs
         ++ [EvLog "INFO" (logLine (pkGuid (run (start (JObj [])) diamondPK))
                             "Final callback executing");
             EvFinalCallback (Some (StateFailed "A"))
                             (results (run (start (JObj [])) diamondPK));
             EvLog "INFO" (logLine (pkGuid (run (start (JObj [])) diamondPK))
                             "Final callback executed")].
Proof.
  apply (failure_with_quitOnFailure_makes_the_final_callback
           (run (start (JObj [])) diamondPK) "A" ["A"; "C"; "B"; "D"]
           (mkVertex "A" IN_PROGRESS (JObj []) false)).
  - solve_WF.
  - vm_compute. reflexivity.
  - intros i Hi. vm_compute in Hi.
    do 4 (destruct i as [|i]; [eexists; vm_compute; split; [reflexivity | auto 6]|]).
    lia.
  - vm_compute. reflexivity.
  - vm_compute. reflexivity.
  - vm_compute. reflexivity.
Defined.

(** X21. After a failure nothing is started, whatever [quitOnFailure]
    is. In a campaign whose tasks report after their start function has
    returned, when a running task completes with FAIL, or
    completes with SUCCESS while some vertex is FAIL, no vertex becomes
    IN_PROGRESS, and every vertex that is READY stays READY: the branch
    of [setState] that calls [startReadyProcesses] is not taken. *)
Theorem nothing_is_started_after_a_failure :
  forall (pk : PigeonKeeper) (vertexId newState : string) (v : Vertex),
    campaign pk ->
    getVertex (graph pk) vertexId = Return v ->
    v_state v = IN_PROGRESS ->
    newState = "SUCCESS" \/ newState = "FAIL" ->
    newState = "FAIL"
    \/ (exists f, In f (vertexArray (graph pk)) /\ v_state f = FAIL) ->
    (forall j w',
        nth_error (vertexArray (graph (run (setState vertexId newState) pk))) j
        = Some w' ->
        v_state w' = IN_PROGRESS ->
        exists w, nth_error (vertexArray (graph pk)) j = Some w
                  /\ v_state w = IN_PROGRESS)
    /\ (forall j w,
          nth_error (vertexArray (graph pk)) j = Some w -> v_state w = READY ->
          exists w',
            nth_error (vertexArray (graph (run (setState vertexId newState) pk))) j
            = Some w'
            /\ v_state w' = READY).
Proof.
  intros pk vertexId newState v. apply nothing_starts_after_failure.
Qed.

Lemma nothing_is_started_after_a_failure_witness :
  (forall j w',
      nth_error (vertexArray (graph (run (setState "A" "FAIL")
                                         (run (start (JObj [])) pairPK)))) j
      = Some w' ->
      v_state w' = IN_PROGRESS ->
      exists w, nth_error (vertexArray (graph (run (start (JObj [])) pairPK))) j
                = Some w
                /\ v_state w = IN_PROGRESS)
  /\ (forall j w,
        nth_error (vertexArray (graph (run (start (JObj [])) pairPK))) j = Some w ->
        v_state w = READY ->
        exists w',
          nth_error (vertexArray (graph (run (setState "A" "FAIL")
                                             (run (start (JObj [])) pairPK)))) j
          = Some w'
          /\ v_state w' = READY).
Proof.
  apply (nothing_is_started_after_a_failure
           (run (start (JObj [])) pairPK) "A" "FAIL"
           (mkVertex "A" IN_PROGRESS (JObj []) false)).
  - apply campaign_start. exact pairPK_WF.
  - vm_compute. reflexivity.
  - reflexivity.
  - right. reflexivity.
  - left. reflexivity.
Defined.

(** X22. [overallState], on vertex arrays that are parallel with pairwise
    different ids, returns and changes nothing; under each of the five
    state names it lists the ids of the vertices in that state, in
    vertex order, so that every vertex id is listed under exactly its
    state; the other entries are the fields of the scheduler. *)
Theorem overallState_lists_every_vertex_under_its_state :
  forall pk : PigeonKeeper,
    VOK (graph pk) ->
    exists os,
      overallState pk = (Return os, pk)
      /\ (forall st, os_bucket os st = idsInState (graph pk) st)
      /\ (forall st id,
             In id (os_bucket os st)
             <-> exists v, In v (vertexArray (graph pk))
                           /\ v_id v = id /\ v_state v = st)
      /\ os_globallyUniqueId os = pkGuid pk
      /\ os_topologicalSortOrder os = topologicalSortOrder pk
      /\ os_quitOnFailure os = quitOnFailure pk
      /\ os_isRunning os = isCurrentlyRunning pk
      /\ os_maxNumberOfRunningProcesses os = maxNumberOfRunningProcesses pk
      /\ os_numberOfRunningProcesses os = numberOfRunningProcesses pk
      /\ os_results os = results pk.
Proof.
  intros pk Hok. eexists. split; [apply overallState_run; exact Hok|].
  split; [intros []; reflexivity|].
  split; [|repeat split; reflexivity].
  intros st id.
  assert (H : forall os, (forall st, os_bucket os st = idsInState (graph pk) st) ->
                         In id (os_bucket os st) <-> In id (idsInState (graph pk) st))
    by (intros os Hos; rewrite Hos; tauto).
  rewrite H by (intros []; reflexivity). apply idsInState_In.
Qed.

Lemma overallState_lists_every_vertex_under_its_state_witness :
  exists os,
    overallState (run (start (JObj [])) diamondPK)
    = (Return os, run (start (JObj [])) diamondPK)
    /\ (forall st, os_bucket os st
                   = idsInState (graph (run (start (JObj [])) diamondPK)) st)
    /\ (forall st id,
           In id (os_bucket os st)
           <-> exists v, In v (vertexArray (graph (run (start (JObj [])) diamondPK)))
                         /\ v_id v = id /\ v_state v = st)
    /\ os_globallyUniqueId os = pkGuid (run (start (JObj [])) diamondPK)
    /\ os_topologicalSortOrder os
       = topologicalSortOrder (run (start (JObj [])) diamondPK)
    /\ os_quitOnFailure os = quitOnFailure (run (start (JObj [])) diamondPK)
    /\ os_isRunning os = isCurrentlyRunning (run (start (JObj [])) diamondPK)
    /\ os_maxNumberOfRunningProcesses os
       = maxNumberOfRunningProcesses (run (start (JObj [])) diamondPK)
    /\ os_numberOfRunningProcesses os
       = numberOfRunningProcesses (run (start (JObj [])) diamondPK)
    /\ os_results os = results (run (start (JObj [])) diamondPK).
Proof.
  apply (overallState_lists_every_vertex_under_its_state
           (run (start (JObj [])) diamondPK)).
  split; vm_compute; [reflexivity | solve_NoDup].
Defined.

(** X23. No task waits without a reason. In a campaign on a graph
    without a cycle, whose tasks report after their start function has
    returned, every vertex that is NOT_READY has a parent that is
    not SUCCESS: as soon as all the parents of a vertex have succeeded,
    the vertex has left NOT_READY. *)
Theorem no_task_waits_without_a_reason :
  forall (pk : PigeonKeeper) (v : Vertex),
    campaign pk -> ~ has_cycle (graph pk) ->
    In v (vertexArray (graph pk)) -> v_state v = NOT_READY ->
    exists p, In p (vertexArray (graph pk))
              /\ In (v_id p, v_id v) (edges (graph pk))
              /\ v_state p <> SUCCESS.
Proof.
  intros pk v Hc Hacyc Hv Hs.
  destruct (campaign_live pk Hc) as [_ [_ [[_ Hp] | [Hcyc _]]]];
    [|contradiction].
  exact (Hp v Hv Hs).
Qed.

Lemma no_task_waits_without_a_reason_witness :
  exists p, In p (vertexArray (graph (run (start (JObj [])) diamondPK)))
            /\ In (v_id p, v_id (mkVertex "B" NOT_READY (JObj []) true))
                  (edges (graph (run (start (JObj [])) diamondPK)))
            /\ v_state p <> SUCCESS.
Proof.
  apply (no_task_waits_without_a_reason (run (start (JObj [])) diamondPK)
           (mkVertex "B" NOT_READY (JObj []) true)).
  - apply campaign_start. exact diamondPK_WF.
  - exact started_diamond_acyclic.
  - vm_compute. auto.
  - reflexivity.
Defined.

(** X24. While nothing has failed the scheduler is work-conserving. In a
    campaign whose tasks report after their start function has returned
    and in which no vertex is FAIL, a vertex is left READY only
    when [maxNumberOfRunningProcesses] is positive and that many tasks
    are running. *)
Theorem ready_tasks_wait_for_the_bound_only :
  forall (pk : PigeonKeeper) (v : Vertex),
    campaign pk ->
    (forall f, In f (vertexArray (graph pk)) -> v_state f <> FAIL) ->
    In v (vertexArray (graph pk)) -> v_state v = READY ->
    (0 < maxNumberOfRunningProcesses pk)%Z
    /\ numberOfRunningProcesses pk = maxNumberOfRunningProcesses pk.
Proof.
  intros pk v Hc Hnofail Hv Hs.
  destruct (campaign_live pk Hc) as [_ [Hwc _]].
  destruct (campaign_inFlightOK pk Hc) as [_ Hb].
  assert (Hcap : capReached pk).
  { apply (Hwc ltac:(intros [f [Hf Hfs]]; exact (Hnofail f Hf Hfs)) v Hv Hs). }
  destruct Hcap as [Hpos Hle]. specialize (Hb Hpos). split; [exact Hpos | lia].
Qed.

Lemma ready_tasks_wait_for_the_bound_only_witness :
  (0 < maxNumberOfRunningProcesses (run (start (JObj [])) pairPK))%Z
  /\ numberOfRunningProcesses (run (start (JObj [])) pairPK)
     = maxNumberOfRunningProcesses (run (start (JObj [])) pairPK).
Proof.
  apply (ready_tasks_wait_for_the_bound_only (run (start (JObj [])) pairPK)
           (mkVertex "B" READY (JObj []) true)).
  - apply campaign_start. exact pairPK_WF.
  - intros f Hf. vm_compute in Hf.
    destruct Hf as [<-|[<-|[]]]; discriminate.
  - vm_compute. auto.
  - reflexivity.
Defined.

(** X25. [PigeonKeeper.addVertex] with an id that the graph does not
    have: the vertex is added, NOT_READY, with data {} and its start
    listener, and the edges stay. When the service is an emitter, the
    call returns and the vertex is subscribed, last, to "success" and to
    "error" of that service; when it is not, the call throws a TypeError
    and the vertex stays in the graph all the same, with no service
    changed. *)
Theorem PK_addVertex_adds_the_vertex_first :
  forall (pk : PigeonKeeper) (vertexId : string) (service : nat),
    length (vertexIdArray (graph pk)) = length (vertexArray (graph pk)) ->
    hasVertexId (graph pk) vertexId = false ->
    getVertex (graph (run (PK_addVertex vertexId service) pk)) vertexId
    = Return (mkVertex vertexId NOT_READY (JObj []) true)
    /\ vertexCount (graph (run (PK_addVertex vertexId service) pk))
       = S (vertexCount (graph pk))
    /\ edges (graph (run (PK_addVertex vertexId service) pk)) = edges (graph pk)
    /\ match nth_error (services pk) service with
       | Some s =>
           fst (PK_addVertex vertexId service pk) = Return tt
           /\ listenersOf true service (run (PK_addVertex vertexId service) pk)
              = successListeners s ++ [vertexId]
           /\ listenersOf false service (run (PK_addVertex vertexId service) pk)
              = errorListeners s ++ [vertexId]
       | None =>
           (exists msg,
               fst (PK_addVertex vertexId service pk) = Throw (TypeError msg))
           /\ services (run (PK_addVertex vertexId service) pk) = services pk
       end.
Proof.
  intros pk vertexId service Hlen Hfresh. unfold run.
  rewrite (PK_addVertex_fresh vertexId service pk Hlen Hfresh).
  assert (Hlook :
    getVertex
      (mkDigraph
         (vertexArray (graph pk) ++ [mkVertex vertexId NOT_READY (JObj []) true])
         (vertexIdArray (graph pk) ++ [vertexId])
         (vertexStateArray (graph pk) ++ [NOT_READY])
         (startVertexIdArray (graph pk)) (endVertexIdArray (graph pk))) vertexId
    = Return (mkVertex vertexId NOT_READY (JObj []) true)).
  { unfold getVertex. simpl.
    rewrite indexOf_snoc_new by (apply hasVertexId_false; exact Hfresh).
    rewrite Hlen, nth_error_app2, Nat.sub_diag by lia. reflexivity. }
  destruct (nth_error (services pk) service) as [s|] eqn:Es; simpl.
  - split; [exact Hlook|]. split.
    { unfold vertexCount. simpl. rewrite length_app. simpl. lia. }
    split; [reflexivity|]. split; [reflexivity|].
    assert (Hk : service < length (services pk))
      by (apply nth_error_Some; congruence).
    unfold listenersOf. simpl. rewrite (nth_error_setNth_eq _ _ _ _ Hk).
    split; reflexivity.
  - split; [exact Hlook|]. split.
    { unfold vertexCount. simpl. rewrite length_app. simpl. lia. }
    split; [reflexivity|]. split; [eauto | reflexivity].
Qed.

Lemma PK_addVertex_adds_the_vertex_first_witness :
  getVertex (graph (run (PK_addVertex "E" 0) diamondPK)) "E"
  = Return (mkVertex "E" NOT_READY (JObj []) true)
  /\ vertexCount (graph (run (PK_addVertex "E" 0) diamondPK))
     = S (vertexCount (graph diamondPK))
  /\ edges (graph (run (PK_addVertex "E" 0) diamondPK)) = edges (graph diamondPK)
  /\ match nth_error (services diamondPK) 0 with
     | Some s =>
         fst (PK_addVertex "E" 0 diamondPK) = Return tt
         /\ listenersOf true 0 (run (PK_addVertex "E" 0) diamondPK)
            = successListeners s ++ ["E"]
         /\ listenersOf false 0 (run (PK_addVertex "E" 0) diamondPK)
            = errorListeners s ++ ["E"]
     | None =>
         (exists msg, fst (PK_addVertex "E" 0 diamondPK) = Throw (TypeError msg))
         /\ services (run (PK_addVertex "E" 0) diamondPK) = services diamondPK
     end.
Proof.
  apply (PK_addVertex_adds_the_vertex_first diamondPK "E" 0).
  - vm_compute. reflexivity.
  - vm_compute. reflexivity.
Defined.

(** X26. A failure reaches the children at once. In a campaign whose
    tasks report after their start function has returned, when a running
    task completes with FAIL, every child of its vertex is FAIL
    when [setState] is over, whatever [quitOnFailure] is. *)
Theorem failure_reaches_the_children_at_once :
  forall (pk : PigeonKeeper) (vertexId : string) (v c : Vertex),
    campaign pk ->
    getVertex (graph pk) vertexId = Return v ->
    v_state v = IN_PROGRESS ->
    In c (vertexArray (graph (run (setState vertexId "FAIL") pk))) ->
    In (vertexId, v_id c) (edges (graph pk)) ->
    v_state c = FAIL.
Proof.
  intros pk vertexId v c Hc Hget Hip.
  apply (failure_reaches_children vertexId pk v Hc Hget Hip).
Qed.

Lemma failure_reaches_the_children_at_once_witness :
  v_state (mkVertex "B" FAIL (JObj []) true) = FAIL.
Proof.
  apply (failure_reaches_the_children_at_once
           (run (start (JObj [])) chainPK) "A"
           (mkVertex "A" IN_PROGRESS (JObj []) false)
           (mkVertex "B" FAIL (JObj []) true)).
  - apply campaign_start. exact chainPK_WF.
  - vm_compute. reflexivity.
  - reflexivity.
  - vm_compute. auto.
  - vm_compute. auto.
Defined.

(** X27. What is finished stays finished. In a campaign whose tasks
    report after their start function has returned, a completion event
    of a running task leaves every vertex that is SUCCESS or FAIL
    in its state (and every slot with its id): no finished task is reset
    or run again. *)
Theorem finished_tasks_stay_finished :
  forall (pk : PigeonKeeper) (vertexId newState : string) (v : Vertex)
         (j : nat) (w : Vertex),
    campaign pk ->
    getVertex (graph pk) vertexId = Return v ->
    v_state v = IN_PROGRESS ->
    newState = "SUCCESS" \/ newState = "FAIL" ->
    nth_error (vertexArray (graph pk)) j = Some w ->
    v_state w = SUCCESS \/ v_state w = FAIL ->
    exists w',
      nth_error (vertexArray (graph (run (setState vertexId newState) pk))) j = Some w'
      /\ v_state w' = v_state w /\ v_id w' = v_id w.
Proof.
  intros pk vertexId newState v j w Hc Hget Hip Hst.
  apply (finished_stays_finished vertexId newState pk v Hc Hget Hip Hst).
Qed.

Lemma finished_tasks_stay_finished_witness :
  exists w',
    nth_error (vertexArray (graph (run (setState "B" "SUCCESS")
                 (run (setState "A" "SUCCESS") (run (start (JObj [])) diamondPK))))) 0
    = Some w'
    /\ v_state w' = v_state (mkVertex "A" SUCCESS (JObj []) false)
    /\ v_id w' = v_id (mkVertex "A" SUCCESS (JObj []) false).
Proof.
  apply (finished_tasks_stay_finished
           (run (setState "A" "SUCCESS") (run (start (JObj [])) diamondPK))
           "B" "SUCCESS" (mkVertex "B" IN_PROGRESS (JObj []) false)).
  - apply (campaign_complete _ "A" "SUCCESS" (mkVertex "A" IN_PROGRESS (JObj []) false)).
    + apply campaign_start. exact diamondPK_WF.
    + vm_compute. reflexivity.
    + reflexivity.
    + left. reflexivity.
  - vm_compute. reflexivity.
  - reflexivity.
  - left. reflexivity.
  - vm_compute. reflexivity.
  - left. reflexivity.
Defined.
